(* ===== verification/_CoqProject ===== *)
-Q . S2P
Prelude.v
Base64.v
Json.v
JsonText.v
Zod.v
Enums.v
Decision.v
ScanRequest.v
AuditEvent.v
Resilience.v
Framing.v
XpcTransport.v
Transport.v
Client.v
CliInput.v
CliConnector.v
AckStore.v
PtyGuard.v
NativeHost.v
ExtTransport.v
ExtGate.v
ExtUpload.v
ExtHttp.v
Browser.v
Dashboard.v
CliUtil.v
CliFiles.v
CliAdapters.v
ClaudeHook.v
CliShared.v
CliConfig.v
IdeVscode.v
IdePassive.v
IdeBridge.v
IdeHttpDev.v
DashFetch.v
DashQuery.v
DashAuth.v
IsoDate.v
DashRepo.v
DashRoutes.v
DashPolicies.v
DashStats.v
DashExport.v
DashUi.v
DashAsync.v
DashLists.v
DashExceptions.v
DashSettings.v
DashRows.v
DashDetail.v
DashWidgets.v
DashOverview.v
DashBackend.v
ExtPage.v
ExtModal.v
CliProcess.v
ExtSites.v
DashSession.v
DashAdmin.v
DashDates.v
DashCognito.v
IdeSession.v
