(* ===== verification/Prelude.v ===== *)
(** * VGuardrail connectors and dashboard: a verification library

    VGuardrail stops sensitive prompts before they reach an AI tool.  Its connectors intercept a prompt
    (in the browser, on the command line, in an editor), ask an agent on the same machine for a decision, and
    enforce it; a dashboard administers the organisation.  This library models the TypeScript of the
    connectors and of the dashboard, server and pages, as executable Gallina definitions, and proves what
    makes them correct: nothing leaves without a decision that permits it, every failure is closed,
    every request is answered once, what crosses a process boundary arrives as it was sent, and a
    dashboard session reaches only what its role and organisation allow.

    ** How the system is put together

    - [connector-sdk/src] is the library all connectors use: data models with Zod schemas and codecs,
      errors, retry and timeout, the framed protocol of the XPC bridge, the transport that spawns the
      bridge helper, and the client ([scan], [safeScan], ...).
    - [cli-connectors/framework/src] wraps a command line tool: it extracts the prompt, scans it, enforces
      the decision and spawns the real tool, or guards an interactive session through a pseudo-terminal.
      [cli-connectors/adapters] says, tool by tool, which arguments, files and input are the prompt; the hook of
      [adapters/claude] answers the tool's own prompt hook instead.
    - [ide-connectors] intercepts prompts in editors: an extension of VS Code that also watches pastes,
      the bridge process a JetBrains plugin starts for each request, Cursor, and an HTTP transport for development.
    - [browser-connectors/chrome] is an extension (a gate on the page, a service worker with a chain of
      transports) and a native messaging host that relays its scans to the SDK's client.
    - [dashboard]: pages call repositories in the browser, these the dashboard's own API ([app/api]), whose handlers
      run behind a session and a role check over repositories that call the Rust backend.

    ** The files

    Shared:
    - [Prelude]: results, JavaScript string operations, runs of transition systems, tactics, lemmas.
    - [Base64]: [btoa] and [atob].  [IsoDate]: [toISOString] over the calendar.
    - [Json], [JsonText]: JSON values in property order with [compact] and [sortKeys]
      ([models/schema.ts]); JSON text as a printer and a parser, UTF-8, and the interface [JsonCodec]
      through which the rest uses them.
    - [Zod]: the schema combinators the sources use, as data with a parser; the class [Zod] states its
      laws, a reference parser is its instance.
    - [Resilience]: [errors.ts], [retry.ts], [timeout.ts], and the model of a promise: [async St A] is a
      state transformer whose outcome settles after a number of milliseconds or hangs.  The timers of a retry and of a deadline
      are unreferenced: they fire only while something else keeps the process running, which the class [EventLoop] says.

    The SDK ([connector-sdk/src]):
    - [Enums], [Decision], [ScanRequest], [AuditEvent]: the models of [models/*.ts] and their codecs.
    - [Framing]: [envelope.ts], [version.ts] and the browser's framing, two dialects of one decoder.
    - [XpcTransport]: [xpc-bridge-transport.ts] as an event-driven state machine.
    - [Transport]: the transport interface, the class [AtMostOnce] of transports that hand over
      nothing when they say so, and the mock transport.
    - [Client]: [connector-client.ts] over any transport.

    The command line ([cli-connectors]):
    - [CliInput]: bypass, request building, enforcement and prompts.  [CliConnector]: the policy client,
      the executor, signals and the whole of [run].  [AckStore]: acknowledgements.  [PtyGuard]: the line
      reconstructor and the gate of the interactive guard.  [CliProcess]: the session around it, and captured runs.
      [CliUtil]: executable resolution, validation, identity.
    - [CliFiles]: capture of files and of standard input, the logger.  [CliConfig]: configuration and
      the repository context.  [CliAdapters]: the extractors of the tool adapters, each composed with [run].
      [ClaudeHook]: the prompt hook.  [CliShared]: the older wrapper.

    The editors ([ide-connectors]):
    - [IdeVscode]: the interceptor and the enforcement dialogs.  [IdePassive]: the passive capture of pastes.
      [IdeBridge]: the bridge process, and the Cursor connector.  [IdeHttpDev]: the development transport.
      [IdeSession]: the extension from activation to its end, as one state.

    The browser ([browser-connectors/chrome]):
    - [NativeHost]: the host's protocol, handlers, identity and event loop.  [ExtTransport]: the native
      bridge and the transport chain.  [ExtGate]: the gate.  [ExtUpload]: the upload hook, the relay and
      the site registry.  [ExtPage]: uploads, relay and window messages as one machine.  [ExtModal]: the gate with its
      dialogs and notices.  [ExtSites]: the selectors of the site adapters on a document, and the gate over it.  [ExtHttp]: the HTTP backend client.  [Browser]: the whole path, composed.

    The dashboard ([dashboard]):
    - [Dashboard]: roles, the route table, tokens, the session store, the pipeline around a handler.  [DashAuth]: the
      middleware and the sign-in routes with PKCE and the Cognito client.
    - [DashFetch]: the HTTP clients and the page envelope.  [DashQuery]: URL parameters and pagination, as written and as read.
    - [DashRepo]: the registry's operations, the requests they make of the backend and of the own API, and every route handler
      as a program over the registry.  [DashRoutes]: the route table, and a request served from the cookie to the registry.
    - [DashPolicies], [DashStats]: what the backend's policies and lists become on the page.  [DashExport]: the audit export and
      its CSV.  [DashUi], [DashAsync]: the logic of components, of the loading hook and of the search box.
    - [DashLists]: the list pages, from their controls to the operation the server performs.  [DashExceptions],
      [DashSettings]: the pages that change something, as state machines over clicks and answers in any order.
      [DashRows]: the columns of the tables.  [DashDetail], [DashOverview]: a device, a violation, a policy and the statistics
      as they are shown.  [DashWidgets]: menus, tabs, dialogs, toasts, the frame of a page and its search box.
    - [DashBackend]: the registry over the HTTP client, and the whole path from a page to the backend and back.
    - [DashSession]: the session route, the life of the cookies, the login page and the whole way through the sign-in.
      [DashCognito]: the older Cognito module, beside those that replaced it.  [DashDates]: the ranges of dates of the lists.
      [DashAdmin]: how the backend server reads the query of a list, and the pages of its development store
      ([backend/server/src/routes/admin_audit.rs], [agent.rs]).

    ** What is proved

    - Mediation: the wrapped tool starts only after a permitting decision, also through each adapter
      ([CliConnector], [CliAdapters]); what a guarded terminal receives is what the relation [gated] allows of the bytes typed,
      however they are chunked, with the sequences that are passed without a scan named ([PtyGuard], [CliProcess]); the page sends a prompt only in the window of a permitted replay, and a
      warned one only by the button of the dialog that shows the warning ([ExtGate], [ExtModal]), and with the adapters' selectors on a document the gate does what it
      does with the input and the button given ([ExtSites]); an editor's prompt goes on
      only when permitted or acknowledged ([IdeVscode]), and nothing is scanned while the extension is off ([IdeSession]); an operation of the registry is performed only for a verified
      session that may perform it, within the session's organisation for the lists that have one (the list of users has none)
      and in its own name ([DashRoutes]).
    - Fail-closed, whenever the process lives to answer: [safeScan], the host, the bridge, the chain of transports, the prompt hook and the composed browser
      path answer with a block, or with a decision the agent really gave ([Client], [NativeHost],
      [ExtTransport], [ClaudeHook], [Browser]); a prompt file that cannot be read stops the tool ([CliAdapters]); an
      upload is stopped exactly when policy refuses it, and each gets the verdicts of its own files ([ExtUpload], [ExtPage]); sign-in needs the state, the code and a verified
      token ([DashAuth]).
    - At most once, exactly once: a scan is submitted at most once through all retries ([Client]); requests
      are settled once, correlated and never leaked ([XpcTransport], [NativeHost], [ExtTransport]); a
      bridge request has one reply ([IdeBridge]); a paste is scanned once ([IdePassive]).
    - Liveness, termination, bounds: retries and deadlines bound every call, in a process that stays alive
      ([Resilience], [Client], [DashFetch]), and what happens in one that does not is stated too; the host shuts down; the hook and the bridge
      answer, in a process that stays alive ([ClaudeHook], [IdeBridge]); captured input, pages and exports stay within their limits ([CliFiles], [DashQuery],
      [DashExport]).
    - Sign-in: a browser sent to the login comes back, signed in, to the page it asked for; what the cookies of a session are
      good for, second by second; a session is named only with a verified token ([DashSession]).
    - Freshness: a list page shows the answer to the query its controls hold, whatever the order of the answers
      ([DashLists], [DashAsync]).
    - The pages and the API agree: what a list asks for is what the server looks up, and what the backend
      answers is what it shows ([DashLists], [DashBackend]); every change a page
      offers is one the API grants to the role, and, for identifiers that are plain in a path, comes to the operation meant ([DashSettings], [DashExceptions]); what is typed
      into the search box is what is searched for ([DashWidgets]); a link to a device opens it ([DashRows]); the numbers of the
      overview are the counts they are named after ([DashOverview], [DashDetail]); the first request of a list is answered
      ([DashDates]).  What the server reads of a list's query is stated exactly, and so are the pages it makes ([DashAdmin]):
      the filters on dates are not among what it reads.
    - Round trips: frames are reassembled from any chunking ([Framing]); decisions, requests, audit events and the
      configuration decode to what was encoded; JSON and CSV text parse back to the values printed; a list request means
      the same in the browser and in the route ([DashQuery], [DashRoutes]).
    - Specifications: retry against the list of its attempts, enforcement against its decision table, the
      acknowledgement store against its protocol, the category breakdown against a count, version negotiation,
      resolution of executables, the page buttons, the older Cognito client against the newer ([DashCognito]).
    - Defects: a few theorems and examples show a behaviour the code should not have, each with the run that exhibits
      it (a prompt edited while it is scanned, a file dropped from a retried scan, an interrupted paste
      that switches the guard off, a late search result, a hook that ends without an answer because nothing keeps its process
      running, a reply lost with the corrupt frame behind it, and others); their comments say so.

    ** Conventions, bounds and fuel

    Strings are sequences of 8-bit code units: text outside Latin-1 is not modelled, except as UTF-8
    bytes; the ellipsis and the middle dot of a few texts are parameters.  Numbers are integers or exact decimals.  An absent property is [None]; an exception is [Err]
    (or [None] where nothing distinguishes it).  Third-party code, the operating system and the other
    processes are parameters: the confirmation prompt, SHA-256, [fetch], the token verifier, random
    numbers, clocks, the file system, the agent; so are what keeps a process running ([EventLoop]), whether the file of
    acknowledgements can be written ([AckDisk]), and when the bytes of standard input arrive.  Loops that are not structural take fuel: the decoder's
    buffer length (each turn consumes a header), the number of attempts of a retry, the length of a slice
    of terminal input, one page per exported row; each is shown to be enough where a result depends on it.  Only
    [scanViaHttp] can really run for ever; there, running out of fuel is a promise that does not settle.  Concurrency is the
    interleaving of events: every state machine is proved for all sequences of enabled events.

    ** What is not modelled

    The agent, the policy engine and, but for the lists in [DashAdmin], the backend (Swift and Rust).  Of the TypeScript: markup, class
    names and style tables, which most of the remaining lines are; what a browser does with an event beyond the gate; charts,
    drawn by a library; the date formats of [Intl]; declarations of types the definitions do not use; log lines and their
    transport; the creation of processes, pipes and pseudo-terminals; the scroll lock and the theme library of the page frame;
    two functions nothing calls ([wirePage], [notFoundError]).  They keep no state the modelled parts depend on, and their
    meaning is in libraries that are not part of the repository. *)

From stdpp Require Export base option list strings pretty gmap sorting.
From Stdlib Require Export ZArith Ascii String Lia Bool.

#[global] Open Scope Z_scope.
#[global] Set Default Proof Using "Type".

(** ** Results: a value or a thrown error *)

Inductive result (E A : Type) : Type :=
| Ok (a : A)
| Err (e : E).
Arguments Ok {E A} _.
Arguments Err {E A} _.

#[export] Instance result_ret {E} : MRet (result E) := fun A a => Ok a.
#[export] Instance result_bind {E} : MBind (result E) := fun A B k m =>
  match m with Ok a => k a | Err e => Err e end.
#[export] Instance result_fmap {E} : FMap (result E) := fun A B f m =>
  match m with Ok a => Ok (f a) | Err e => Err e end.
#[export] Instance result_eq_dec {E A} `{EqDecision E, EqDecision A} : EqDecision (result E A).
Proof. solve_decision. Defined.

(** [isOk r]: the computation returned normally. *)
Definition isOk {E A} (r : result E A) : bool :=
  match r with Ok _ => true | Err _ => false end.

(** [catch r h]: a try/catch whose body is [r]. *)
Definition catch {E E' A} (r : result E A) (h : E -> result E' A) : result E' A :=
  match r with Ok a => Ok a | Err e => h e end.

(** [of_option e o]: [o], or the error [e] when there is no value. *)
Definition of_option {E A} (e : E) (o : option A) : result E A :=
  match o with Some a => Ok a | None => Err e end.

(** [traverse f l]: map a fallible function over a list, stopping at the first failure. *)
Fixpoint traverse {A B} (f : A -> option B) (l : list A) : option (list B) :=
  match l with
  | [] => Some []
  | x :: xs =>
      match f x, traverse f xs with
      | Some y, Some ys => Some (y :: ys)
      | _, _ => None
      end
  end.

(** ** Strings of 8-bit code units *)

Abbreviation chars := (list ascii).

Definition to_chars : string -> chars := list_ascii_of_string.
Definition of_chars : chars -> string := string_of_list_ascii.

(** The code of a character, as JavaScript's [charCodeAt]. *)
Definition code (c : ascii) : Z := Z.of_N (N_of_ascii c).
Definition chr (z : Z) : ascii := ascii_of_N (Z.to_N z).

Definition strlen (s : string) : Z := Z.of_nat (String.length s).

(** JavaScript white space and line terminators among the 8-bit code units:
    TAB, LF, VT, FF, CR, SPACE and NO-BREAK SPACE. *)
Definition is_space (c : ascii) : bool :=
  let n := code c in ((9 <=? n) && (n <=? 13)) || (n =? 32) || (n =? 160).

Fixpoint drop_spaces (s : chars) : chars :=
  match s with
  | c :: s' => if is_space c then drop_spaces s' else s
  | [] => []
  end.

Definition trim_chars (s : chars) : chars := rev (drop_spaces (rev (drop_spaces s))).

(** [s.trim()] *)
Definition js_trim (s : string) : string := of_chars (trim_chars (to_chars s)).

(** [s.startsWith(p)] *)
Definition starts_with (p s : string) : bool := String.prefix p s.

(** [s.includes(t)] *)
Definition js_includes (s t : string) : bool :=
  match String.index 0 t s with Some _ => true | None => false end.

(** [s.slice(0, n)] and [s.slice(n)] for a non-negative [n] *)
Definition slice_to (n : nat) (s : string) : string := String.substring 0 n s.
Definition slice_from (n : nat) (s : string) : string :=
  String.substring n (String.length s - n) s.

(** [.replace(/\/+$/, '')] *)
Fixpoint drop_slashes (s : chars) : chars :=
  match s with c :: s' => if Ascii.eqb c "/" then drop_slashes s' else s | [] => [] end.
Definition strip_trailing_slashes (s : string) : string := of_chars (rev (drop_slashes (rev (to_chars s)))).

(** [l.join(sep)] *)
Definition js_join (sep : string) (l : list string) : string := String.concat sep l.

(** [s.split(sep)] for a one-character separator; [acc] is the current piece, reversed. *)
Fixpoint split_on (sep : ascii) (acc s : chars) : list string :=
  match s with
  | [] => [of_chars (rev acc)]
  | c :: s' => if Ascii.eqb c sep then of_chars (rev acc) :: split_on sep [] s' else split_on sep (c :: acc) s'
  end.
Definition js_split (sep : ascii) (s : string) : list string := split_on sep [] (to_chars s).

(** [s.length === 0], i.e. the string is falsy *)
Definition is_empty (s : string) : bool :=
  match s with EmptyString => true | String _ _ => false end.

(** A truthy string option: present and not empty. *)
Definition truthy (o : option string) : bool :=
  match o with Some s => negb (is_empty s) | None => false end.

(** [a || b] on an optional string [a]. *)
Definition or_else (o : option string) (d : string) : string :=
  match o with Some s => if is_empty s then d else s | None => d end.

(** Decimal digits of an integer, as a template literal prints it. *)
Definition show_Z (z : Z) : string := pretty z.

(** [[...new Set(l)]]: first occurrences, in order. *)
Fixpoint js_set_go {A} `{EqDecision A} (seen l : list A) : list A :=
  match l with
  | [] => []
  | x :: xs =>
      if decide (x ∈ seen) then js_set_go seen xs else x :: js_set_go (x :: seen) xs
  end.
Definition js_set {A} `{EqDecision A} (l : list A) : list A := js_set_go [] l.

(** ** Reachability of a transition system *)

Inductive rtc_trace {S E : Type} (step : S -> E -> S -> Prop) : S -> list E -> S -> Prop :=
| trace_nil s : rtc_trace step s [] s
| trace_cons s e s' es s'' :
    step s e s' -> rtc_trace step s' es s'' -> rtc_trace step s (e :: es) s''.

(** Events of a machine given by a guard and a handler that are enabled one after the other. *)
Fixpoint enabled_along {S E : Type} (enabled : E -> S -> Prop) (handle : E -> S -> S) (evs : list E) (s : S) : Prop :=
  match evs with
  | [] => True
  | ev :: evs' => enabled ev s /\ enabled_along enabled handle evs' (handle ev s)
  end.

(** ** Automation *)

Create HintDb vg.

(** Split every boolean conjunction, disjunction of constants and comparison in the context. *)
Ltac bool_simpl :=
  repeat match goal with
  | H : _ && _ = true |- _ => apply andb_true_iff in H as [? ?]
  | H : _ || _ = false |- _ => apply orb_false_iff in H as [? ?]
  | H : negb _ = true |- _ => apply negb_true_iff in H
  | H : negb _ = false |- _ => apply negb_false_iff in H
  | H : (_ =? _) = true |- _ => apply Z.eqb_eq in H
  | H : (_ =? _) = false |- _ => apply Z.eqb_neq in H
  | H : (_ <=? _) = true |- _ => apply Z.leb_le in H
  | H : (_ <=? _) = false |- _ => apply Z.leb_gt in H
  | H : (_ <? _) = true |- _ => apply Z.ltb_lt in H
  | H : (_ <? _) = false |- _ => apply Z.ltb_ge in H
  | H : bool_decide _ = true |- _ => apply bool_decide_eq_true_1 in H
  | H : bool_decide _ = false |- _ => apply bool_decide_eq_false_1 in H
  end.

(** Destruct the scrutinees of the matches and conditionals of a hypothesis or of the goal. *)
Ltac split_match :=
  repeat match goal with
  | H : context [match ?x with _ => _ end] |- _ => destruct x eqn:?; simplify_eq/=
  | |- context [match ?x with _ => _ end] => destruct x eqn:?; simplify_eq/=
  end.

(** ** Generic lemmas *)

Lemma traverse_map_inv {A B C} (f : A -> option B) (g : C -> A) (h : C -> B) (l : list C) :
  (forall x, x ∈ l -> f (g x) = Some (h x)) -> traverse f (map g l) = Some (map h l).
Proof.
  induction l as [|x l IH]; intros Hf; simpl; [done|].
  rewrite Hf by set_solver. rewrite IH; [done|]. intros y Hy. apply Hf. set_solver.
Qed.

Lemma traverse_Forall2 {A B} (f : A -> option B) l l' :
  traverse f l = Some l' <-> Forall2 (fun x y => f x = Some y) l l'.
Proof.
  revert l'. induction l as [|x l IH]; intros l'; simpl.
  - split; [intros [= <-]; constructor | intros H; by inv H].
  - split.
    + destruct (f x) eqn:Hx; [|done]. destruct (traverse f l) eqn:Hl; [|done].
      intros [= <-]. constructor; [done|]. by apply IH.
    + intros H. inv H. apply IH in H4. by rewrite H2, H4.
Qed.

Lemma code_bounds c : 0 <= code c < 256.
Proof. unfold code. pose proof (N_ascii_bounded c). lia. Qed.

Lemma chr_code c : chr (code c) = c.
Proof. unfold chr, code. rewrite N2Z.id. apply ascii_N_embedding. Qed.

Lemma code_chr z : 0 <= z < 256 -> code (chr z) = z.
Proof.
  intros Hz. unfold code, chr. rewrite N_ascii_embedding by lia. rewrite Z2N.id; lia.
Qed.

Lemma result_bind_ok {E A B} (m : result E A) (k : A -> result E B) b : m ≫= k = Ok b <-> exists a, m = Ok a /\ k a = Ok b.
Proof. unfold mbind, result_bind. destruct m; naive_solver. Qed.

Lemma of_to_chars s : of_chars (to_chars s) = s.
Proof. apply string_of_list_ascii_of_string. Qed.

Lemma to_of_chars l : to_chars (of_chars l) = l.
Proof. apply list_ascii_of_string_of_list_ascii. Qed.

Lemma append_cons x (a b : string) : String x a +:+ b = String x (a +:+ b).
Proof. done. Qed.

Lemma to_chars_app a b : to_chars (a +:+ b) = to_chars a ++ to_chars b.
Proof. induction a as [|c a IH]; [done|]. rewrite append_cons. cbn. by rewrite <- IH. Qed.

Lemma js_set_go_spec {A} `{EqDecision A} (seen l : list A) :
  NoDup (js_set_go seen l) /\ forall x, x ∈ js_set_go seen l <-> x ∈ l /\ x ∉ seen.
Proof.
  revert seen. induction l as [|x l IH]; intros seen; simpl.
  - split; [constructor | set_solver].
  - case_decide as Hx; destruct (IH seen) as [Hnd Hin]; destruct (IH (x :: seen)) as [Hnd' Hin'].
    + split; [done|]. intros y. rewrite Hin. set_solver.
    + split; [constructor; [rewrite Hin'; set_solver | done]|].
      intros y. rewrite list_elem_of_In. simpl. rewrite <- list_elem_of_In, Hin'.
      destruct (decide (x = y)) as [->|]; set_solver.
Qed.

Lemma js_set_NoDup {A} `{EqDecision A} (l : list A) : NoDup (js_set l).
Proof. apply js_set_go_spec. Qed.

Lemma elem_of_js_set {A} `{EqDecision A} (l : list A) x : x ∈ js_set l <-> x ∈ l.
Proof. unfold js_set. rewrite (proj2 (js_set_go_spec [] l) x). set_solver. Qed.

Lemma js_set_go_NoDup_id {A} `{EqDecision A} (seen l : list A) :
  NoDup l -> (forall x, x ∈ l -> x ∉ seen) -> js_set_go seen l = l.
Proof.
  revert seen. induction l as [|x l IH]; intros seen Hnd Hs; simpl; [done|].
  inv Hnd. case_decide as Hx; [exfalso; by eapply Hs; [|done]; set_solver|].
  f_equal. apply IH; [done|]. intros y Hy. specialize (Hs y).
  set_solver.
Qed.

Lemma js_set_idemp {A} `{EqDecision A} (l : list A) : js_set (js_set l) = js_set l.
Proof. apply js_set_go_NoDup_id; [apply js_set_NoDup | set_solver]. Qed.

Lemma rtc_trace_app {S E} (step : S -> E -> S -> Prop) s es s' es' s'' :
  rtc_trace step s es s' -> rtc_trace step s' es' s'' -> rtc_trace step s (es ++ es') s''.
Proof. induction 1; simpl; eauto using @rtc_trace. Qed.

Lemma rtc_trace_invariant {S E} (step : S -> E -> S -> Prop) (I : S -> Prop) s es s' :
  (forall a e b, I a -> step a e b -> I b) -> I s -> rtc_trace step s es s' -> I s'.
Proof. intros Hpres Hs Ht. induction Ht; eauto. Qed.

Lemma along_trace {S E} (enabled : E -> S -> Prop) (handle : E -> S -> S) (step : S -> E -> S -> Prop) evs s :
  (forall s ev, enabled ev s -> step s ev (handle ev s)) -> enabled_along enabled handle evs s ->
  rtc_trace step s evs (fold_left (fun s ev => handle ev s) evs s).
Proof.
  intros Hstep. revert s. induction evs as [|ev evs IH]; intros s; simpl; [constructor|]. intros [He Hs].
  apply (trace_cons _ _ _ (handle ev s)); auto.
Qed.

Lemma is_empty_spec s : is_empty s = true <-> s = EmptyString.
Proof. destruct s; naive_solver. Qed.

#[export] Hint Resolve code_bounds js_set_NoDup : vg.
#[export] Hint Rewrite of_to_chars to_of_chars chr_code : vg.
