(* ===== verification/Base64.v ===== *)
(** * Base64: the functions [btoa] and [atob]

    Both as the HTML standard defines them, on strings of bytes: [atob] ignores ASCII white space and
    accepts missing padding.  Decoding undoes encoding. *)

From S2P Require Import Prelude.

(** [btoa] on a string of bytes *)
Definition base64_alphabet : chars :=
  to_chars "ABCDEFGHIJKLMNOPQRSTUVWXYZabcdefghijklmnopqrstuvwxyz0123456789+/".
Definition base64_digit (n : Z) : ascii := nth (Z.to_nat n) base64_alphabet "="%char.

Fixpoint btoa (b : chars) : chars :=
  match b with
  | x :: y :: z :: rest =>
      let n := code x * 65536 + code y * 256 + code z in
      base64_digit (Z.shiftr n 18) :: base64_digit (Z.land (Z.shiftr n 12) 63)
        :: base64_digit (Z.land (Z.shiftr n 6) 63) :: base64_digit (Z.land n 63) :: btoa rest
  | [x; y] =>
      let n := code x * 65536 + code y * 256 in
      [base64_digit (Z.shiftr n 18); base64_digit (Z.land (Z.shiftr n 12) 63);
       base64_digit (Z.land (Z.shiftr n 6) 63); "="%char]
  | [x] =>
      let n := code x * 65536 in
      [base64_digit (Z.shiftr n 18); base64_digit (Z.land (Z.shiftr n 12) 63); "="%char; "="%char]
  | [] => []
  end.

(** The value of a base64 digit *)
Definition base64_val (c : ascii) : option Z :=
  let n := code c in
  if (65 <=? n) && (n <=? 90) then Some (n - 65)
  else if (97 <=? n) && (n <=? 122) then Some (n - 71)
  else if (48 <=? n) && (n <=? 57) then Some (n + 4)
  else if n =? 43 then Some 62
  else if n =? 47 then Some 63
  else None.

(** ASCII white space *)
Definition is_ascii_ws (c : ascii) : bool := let n := code c in (n =? 9) || (n =? 10) || (n =? 12) || (n =? 13) || (n =? 32).

(** The digits, four at a time; two or three left over are one or two bytes. *)
Fixpoint base64_bytes (ds : list Z) : option chars :=
  match ds with
  | a :: b :: c :: d :: rest =>
      let n := a * 262144 + b * 4096 + c * 64 + d in
      (fun l => chr (n / 65536) :: chr (n / 256 mod 256) :: chr (n mod 256) :: l) <$> base64_bytes rest
  | [a; b; c] => let n := a * 4096 + b * 64 + c in Some [chr (n / 1024); chr (n / 4 mod 256)]
  | [a; b] => Some [chr ((a * 64 + b) / 16)]
  | [_] => None
  | [] => Some []
  end.

Definition strip_padding (s : chars) : chars :=
  if (Z.of_nat (List.length s) mod 4 =? 0) then
    match rev s with
    | "="%char :: "="%char :: r => rev r
    | "="%char :: r => rev r
    | _ => s
    end
  else s.

(** [None]: it throws. *)
Definition atob (s : chars) : option chars :=
  ds ← traverse base64_val (strip_padding (filter (fun c => is_ascii_ws c = false) s));
  base64_bytes ds.

(** ** Decoding undoes encoding *)

(** The digits [btoa] writes, without the padding *)
Fixpoint sextets (b : chars) : list Z :=
  match b with
  | x :: y :: z :: rest =>
      let n := code x * 65536 + code y * 256 + code z in
      [n / 262144; n / 4096 mod 64; n / 64 mod 64; n mod 64] ++ sextets rest
  | [x; y] => let n := code x * 65536 + code y * 256 in [n / 262144; n / 4096 mod 64; n / 64 mod 64]
  | [x] => let n := code x * 65536 in [n / 262144; n / 4096 mod 64]
  | [] => []
  end.

Definition base64_padding (b : chars) : chars :=
  match Z.of_nat (List.length b) mod 3 with 1 => ["="%char; "="%char] | 2 => ["="%char] | _ => [] end.

(** Induction by three *)
Lemma three_ind (P : chars -> Prop) :
  P [] -> (forall x, P [x]) -> (forall x y, P [x; y]) -> (forall x y z l, P l -> P (x :: y :: z :: l)) -> forall l, P l.
Proof.
  intros H0 H1 H2 H3. fix IH 1. intros [|x [|y [|z l]]]; [exact H0|apply H1|apply H2|apply H3, IH].
Qed.

Lemma land63 n : Z.land n 63 = n mod 64.
Proof. change 63 with (Z.ones 6). by rewrite Z.land_ones. Qed.

Lemma base64_val_digit n : 0 <= n < 64 -> base64_val (base64_digit n) = Some n /\ base64_digit n <> "="%char /\ is_ascii_ws (base64_digit n) = false.
Proof.
  intros Hn. rewrite <- (Z2Nat.id n) by lia. assert (Z.to_nat n < 64)%nat as Hk by lia. revert Hk. generalize (Z.to_nat n).
  intros k Hk. do 64 (destruct k as [|k]; [split_and!; [reflexivity|discriminate|reflexivity]|]). lia.
Qed.

Lemma sextets_bounds b : Forall (fun n => 0 <= n < 64) (sextets b).
Proof.
  assert (forall n, 0 <= n mod 64 < 64) as Hm by (intros; apply Z.mod_pos_bound; lia).
  assert (forall n, 0 <= n < 16777216 -> 0 <= n / 262144 < 64) as Hd by (intros; split; [apply Z.div_pos|apply Z.div_lt_upper_bound]; lia).
  induction b as [|x|x y|x y z l IH] using three_ind; cbn [sextets Datatypes.app];
    repeat apply List.Forall_cons; try apply List.Forall_nil; try apply Hm; try exact IH; apply Hd;
    [pose proof (code_bounds x)|pose proof (code_bounds x); pose proof (code_bounds y)
    |pose proof (code_bounds x); pose proof (code_bounds y); pose proof (code_bounds z)]; lia.
Qed.

Lemma btoa_sextets b : btoa b = map base64_digit (sextets b) ++ base64_padding b.
Proof.
  induction b as [|x|x y|x y z l IH] using three_ind; [done|..].
  1, 2: cbn [btoa sextets map Datatypes.app]; rewrite !land63, !Z.shiftr_div_pow2 by lia; reflexivity.
  assert (base64_padding (x :: y :: z :: l) = base64_padding l) as ->.
  { unfold base64_padding. cbn [List.length]. rewrite !Nat2Z.inj_succ.
    replace (Z.succ (Z.succ (Z.succ (Z.of_nat (List.length l))))) with (Z.of_nat (List.length l) + 1 * 3) by lia.
    by rewrite Z.mod_add. }
  cbn [btoa sextets]. rewrite !land63, !Z.shiftr_div_pow2, IH by lia. reflexivity.
Qed.

Lemma chr_eq e c : e = code c -> chr e = c.
Proof. intros ->. apply chr_code. Qed.

Lemma base64_bytes_sextets b : base64_bytes (sextets b) = Some b.
Proof.
  induction b as [|x|x y|x y z l IH] using three_ind; [done|..]; cbn [sextets Datatypes.app base64_bytes].
  - pose proof (code_bounds x). do 2 f_equal. apply chr_eq. Z.to_euclidean_division_equations. lia.
  - pose proof (code_bounds x). pose proof (code_bounds y). set (n := code x * 65536 + code y * 256).
    assert (n / 262144 * 4096 + n / 4096 mod 64 * 64 + n / 64 mod 64 = n / 64) as ->
      by (Z.to_euclidean_division_equations; lia).
    do 2 f_equal; [|f_equal]; apply chr_eq; unfold n; Z.to_euclidean_division_equations; lia.
  - rewrite IH. pose proof (code_bounds x). pose proof (code_bounds y). pose proof (code_bounds z). cbn [fmap option_fmap option_map].
    set (n := code x * 65536 + code y * 256 + code z).
    assert (n / 262144 * 262144 + n / 4096 mod 64 * 4096 + n / 64 mod 64 * 64 + n mod 64 = n) as ->
      by (Z.to_euclidean_division_equations; lia).
    do 2 f_equal; [|f_equal; [|f_equal]]; apply chr_eq; unfold n; Z.to_euclidean_division_equations; lia.
Qed.

Lemma digits_clean l : Forall (fun n => 0 <= n < 64) l -> filter (fun c => is_ascii_ws c = false) (map base64_digit l) = map base64_digit l.
Proof.
  induction 1 as [|n l Hn _ IH]; [done|]. cbn [map]. rewrite filter_cons_True by (by apply base64_val_digit). by rewrite IH.
Qed.

Lemma strip_clean s : Forall (fun c => c <> "="%char) s -> strip_padding s = s.
Proof.
  intros Hs. unfold strip_padding. destruct (_ =? 0); [|done]. apply Forall_rev in Hs.
  destruct (rev s) as [|c r]; [done|]. apply Forall_cons in Hs as [Hc _].
  destruct c as [[] [] [] [] [] [] [] []]; done.
Qed.

Lemma digits_not_pad l : Forall (fun n => 0 <= n < 64) l -> Forall (fun c => c <> "="%char) (map base64_digit l).
Proof. intros Hl. apply Forall_fmap. eapply Forall_impl; [exact Hl|]. intros n Hn. by apply base64_val_digit. Qed.

Lemma btoa_length b : Z.of_nat (List.length (btoa b)) mod 4 = 0.
Proof.
  induction b as [|x|x y|x y z l IH] using three_ind; [done..|]. cbn [btoa List.length]. rewrite !Nat2Z.inj_succ.
  replace (Z.succ (Z.succ (Z.succ (Z.succ (Z.of_nat (List.length (btoa l))))))) with (Z.of_nat (List.length (btoa l)) + 1 * 4) by lia.
  by rewrite Z.mod_add.
Qed.

Lemma strip_btoa b : strip_padding (btoa b) = map base64_digit (sextets b).
Proof.
  pose proof (btoa_length b) as Hl. rewrite btoa_sextets in *.
  pose proof (digits_not_pad _ (sextets_bounds b)) as Hd. set (a := map base64_digit (sextets b)) in *.
  unfold base64_padding in *. destruct (Z.of_nat (List.length b) mod 3) as [|[[]|[]|]|]; rewrite ?app_nil_r in *; try by apply strip_clean.
  all: unfold strip_padding; rewrite Hl, rev_app_distr; cbn [Z.eqb rev Datatypes.app].
  2: by rewrite rev_involutive.
  pose proof (rev_involutive a) as Ha. apply Forall_rev in Hd. destruct (rev a) as [|c r]; [done|].
  apply Forall_cons in Hd as [Hc _]. destruct c as [[] [] [] [] [] [] [] []]; done.
Qed.

Lemma atob_digits b s :
  filter (fun c => is_ascii_ws c = false) s = s -> strip_padding s = map base64_digit (sextets b) -> atob s = Some b.
Proof.
  intros Hf Hs. unfold atob. rewrite Hf, Hs. rewrite (traverse_map_inv _ _ id), map_id; [apply base64_bytes_sextets|].
  intros n Hn. pose proof (sextets_bounds b) as Hb. rewrite Forall_forall in Hb. by apply base64_val_digit, Hb.
Qed.

(** The standard form, and the form of tokens, without padding *)
Lemma atob_btoa b : atob (btoa b) = Some b.
Proof.
  apply atob_digits; [|apply strip_btoa]. rewrite btoa_sextets, filter_app, digits_clean by apply sextets_bounds. f_equal.
  unfold base64_padding. destruct (Z.of_nat (List.length b) mod 3) as [|[[]|[]|]|]; done.
Qed.

Lemma atob_unpadded b : atob (map base64_digit (sextets b)) = Some b.
Proof. apply atob_digits; [apply digits_clean, sextets_bounds|apply strip_clean, digits_not_pad, sextets_bounds]. Qed.
