(* ===== verification/Json.v ===== *)
(** * JSON values and the codec helpers of [connector-sdk/src/models/schema.ts]

    A JSON value as [JSON.parse] produces it.  An object is the list of its own
    properties in the enumeration order of ECMAScript's [OrdinaryOwnPropertyKeys]:
    array-index keys first, in increasing numeric order, then the other keys in
    insertion order.  A number is represented by the decimal that
    [Number.prototype.toString] prints for it: an integer, or [m * 10^-k] with
    [k > 0] and [m] not a multiple of ten.  [NaN] and the infinities are not JSON.

    Modelled: [SCHEMA_VERSION], [compact], [sortKeys] (and the tree [canonicalJSON]
    hands to [JSON.stringify]). *)

From S2P Require Import Prelude.

(** ** Values *)

Inductive num : Type :=
| NInt (z : Z)
| NFrac (m : Z) (k : positive).

Inductive json : Type :=
| JNull
| JBool (b : bool)
| JNum (n : num)
| JStr (s : string)
| JArr (l : list json)
| JObj (kvs : list (string * json)).

(** An object under construction or read by a destructuring: a property may be
    present with the value [undefined]. *)
Abbreviation uobj := (list (string * option json)).

#[export] Instance num_eq_dec : EqDecision num.
Proof. solve_decision. Defined.

(** [Number.isInteger] *)
Definition num_is_int (n : num) : bool := match n with NInt _ => true | NFrac _ _ => false end.

(** [n > z] and [n < z] for an integer constant [z]. *)
Definition num_gt (n : num) (z : Z) : bool :=
  match n with NInt x => z <? x | NFrac m k => z * 10 ^ Zpos k <? m end.
Definition num_lt (n : num) (z : Z) : bool :=
  match n with NInt x => x <? z | NFrac m k => m <? z * 10 ^ Zpos k end.

(** ** Property keys *)

Definition is_digit (c : ascii) : bool := (48 <=? code c) && (code c <=? 57).

Fixpoint digits_val (acc : Z) (s : chars) : option Z :=
  match s with
  | [] => Some acc
  | c :: s' => if is_digit c then digits_val (acc * 10 + (code c - 48)) s' else None
  end.

(** A canonical array index: decimal digits without a leading zero, at most [2^32 - 2]. *)
Definition array_index (k : string) : option Z :=
  match to_chars k with
  | [] => None
  | [c] => digits_val 0 [c]
  | c :: s =>
      if code c =? 48 then None
      else match digits_val 0 (c :: s) with
           | Some v => if v <=? 4294967294 then Some v else None
           | None => None
           end
  end.

(** [k] is enumerated before the key [k'] already present, although it is added later. *)
Definition key_before (k k' : string) : bool :=
  match array_index k, array_index k' with
  | Some i, Some j => i <? j
  | Some _, None => true
  | None, _ => false
  end.

(** [o[k] = v]: an existing property keeps its place; a new one goes to its place in
    the enumeration order. *)
Fixpoint obj_replace {A} (k : string) (v : A) (o : list (string * A)) : list (string * A) :=
  match o with
  | [] => []
  | (k', v') :: o' => if String.eqb k k' then (k, v) :: o' else (k', v') :: obj_replace k v o'
  end.
Fixpoint obj_insert {A} (k : string) (v : A) (o : list (string * A)) : list (string * A) :=
  match o with
  | [] => [(k, v)]
  | (k', v') :: o' => if key_before k k' then (k, v) :: (k', v') :: o' else (k', v') :: obj_insert k v o'
  end.
Definition obj_set {A} (k : string) (v : A) (o : list (string * A)) : list (string * A) :=
  if existsb (fun kv => String.eqb k kv.1) o then obj_replace k v o else obj_insert k v o.

(** [o[k]]: [None] is [undefined]. *)
Fixpoint obj_get {A} (k : string) (o : list (string * A)) : option A :=
  match o with
  | [] => None
  | (k', v) :: o' => if String.eqb k k' then Some v else obj_get k o'
  end.

(** [delete o[k]] *)
Fixpoint obj_del {A} (k : string) (o : list (string * A)) : list (string * A) :=
  match o with
  | [] => []
  | (k', v) :: o' => if String.eqb k k' then o' else (k', v) :: obj_del k o'
  end.

(** [Object.keys(o)] *)
Definition obj_keys {A} (o : list (string * A)) : list string := map fst o.

(** Build an object by assigning the pairs of a list in order. *)
Definition obj_of_list {A} (l : list (string * A)) : list (string * A) :=
  fold_left (fun o kv => obj_set kv.1 kv.2 o) l [].

(** [v[k]] on an arbitrary JSON value that is not [null]; a non-object has none of
    the keys the sources read. *)
Definition json_get (k : string) (v : json) : option json :=
  match v with JObj o => obj_get k o | _ => None end.

(** ** [schema.ts] *)

Definition SCHEMA_VERSION : string := "vguardrail.event/v1".

(** [compact]: the keys are visited in enumeration order and the ones whose value is
    [undefined] are left out of the copy. *)
Definition compact (o : uobj) : list (string * json) :=
  fold_left (fun out kv => match kv.2 with Some v => obj_set kv.1 v out | None => out end) o [].

(** UTF-16 code unit order of two keys, the order of [Array.prototype.sort]. *)
Fixpoint chars_leb (a b : chars) : bool :=
  match a, b with
  | [], _ => true
  | _ :: _, [] => false
  | x :: a', y :: b' => if code x <? code y then true else if code x =? code y then chars_leb a' b' else false
  end.
Definition key_leb (a b : string) : bool := chars_leb (to_chars a) (to_chars b).
Definition key_le (a b : string) : Prop := key_leb a b = true.

#[export] Instance key_le_dec : RelDecision key_le.
Proof. intros a b. unfold key_le. apply _. Defined.

(** [Object.keys(record).sort()] *)
Definition sort_names (ks : list string) : list string := merge_sort key_le ks.

(** [sortKeys]: arrays element-wise; an object is rebuilt by assigning its keys in
    sorted order, each with its value sorted recursively. *)
Fixpoint sortKeys (v : json) : json :=
  match v with
  | JArr l => JArr (map sortKeys l)
  | JObj o =>
      let sub := map (fun kv => (kv.1, sortKeys kv.2)) o in
      JObj (obj_of_list
              (omap (fun k => match obj_get k sub with Some x => Some (k, x) | None => None end)
                    (sort_names (obj_keys o))))
  | _ => v
  end.

(** The property [k] of an object, as a pair. *)
Definition pick (sub : list (string * json)) (k : string) : option (string * json) :=
  match obj_get k sub with Some x => Some (k, x) | None => None end.

(** The properties of an object with their values sorted inside. *)
Definition sub_sorted (o : list (string * json)) : list (string * json) :=
  map (fun kv => (kv.1, sortKeys kv.2)) o.

(** A property whose value is defined. *)
Definition defined (kv : string * option json) : option (string * json) :=
  match kv.2 with Some v => Some (kv.1, v) | None => None end.

(** The properties of a list are in enumeration order and have distinct keys: the list
    is the property list of a JavaScript object. *)
Definition obj_canon {A} (o : list (string * A)) : Prop :=
  NoDup (obj_keys o) /\ StronglySorted (fun a b => key_before b a = false) (obj_keys o).

(** Every object in the value has pairwise distinct keys (true of every JavaScript object). *)
Fixpoint json_wf (v : json) : Prop :=
  match v with
  | JArr l => foldr (fun x P => json_wf x /\ P) True l
  | JObj o => NoDup (obj_keys o) /\ foldr (fun kv P => json_wf kv.2 /\ P) True o
  | _ => True
  end.

(** No object in the value has an array-index key. *)
Fixpoint no_index_keys (v : json) : Prop :=
  match v with
  | JArr l => foldr (fun x P => no_index_keys x /\ P) True l
  | JObj o => foldr (fun kv P => (array_index kv.1 = None /\ no_index_keys kv.2) /\ P) True o
  | _ => True
  end.

(** Every object in the value lists its keys in sorted order. *)
Fixpoint keys_sorted (v : json) : Prop :=
  match v with
  | JArr l => foldr (fun x P => keys_sorted x /\ P) True l
  | JObj o => StronglySorted key_le (obj_keys o) /\ foldr (fun kv P => keys_sorted kv.2 /\ P) True o
  | _ => True
  end.

(** Equality of JSON values up to the order of object keys. *)
Inductive jequiv : json -> json -> Prop :=
| jeq_refl v : jequiv v v
| jeq_arr l l' : Forall2 jequiv l l' -> jequiv (JArr l) (JArr l')
| jeq_obj o o1 o' :
    Forall2 (fun a b => a.1 = b.1 /\ jequiv a.2 b.2) o o1 -> o1 ≡ₚ o' -> jequiv (JObj o) (JObj o').

(** ** Induction over values *)

Lemma json_ind' (P : json -> Prop) :
  P JNull -> (forall b, P (JBool b)) -> (forall n, P (JNum n)) -> (forall s, P (JStr s)) ->
  (forall l, Forall P l -> P (JArr l)) ->
  (forall o, Forall (fun kv => P kv.2) o -> P (JObj o)) ->
  forall v, P v.
Proof.
  intros Hn Hb Hm Hs Ha Ho. fix IH 1. intros v. destruct v as [|b|n|s|l|o].
  - exact Hn.
  - apply Hb.
  - apply Hm.
  - apply Hs.
  - apply Ha. induction l as [|x l IHl]; constructor; [apply IH | apply IHl].
  - apply Ho. induction o as [|[k x] o IHo]; constructor; [apply IH | apply IHo].
Qed.

Lemma foldr_and_Forall {A} (P : A -> Prop) l :
  foldr (fun x Q => P x /\ Q) True l <-> Forall P l.
Proof. induction l; simpl; [done|]. rewrite Forall_cons. tauto. Qed.

(** ** The order of keys *)

Lemma chars_leb_refl a : chars_leb a a = true.
Proof. induction a as [|x a IH]; simpl; [done|]. rewrite Z.ltb_irrefl, Z.eqb_refl. done. Qed.

Lemma chars_leb_total a b : chars_leb a b = true \/ chars_leb b a = true.
Proof.
  revert b. induction a as [|x a IH]; intros [|y b]; simpl; auto.
  destruct (code x <? code y) eqn:E1; [auto|].
  destruct (code x =? code y) eqn:E2; bool_simpl.
  - rewrite E2, Z.ltb_irrefl, Z.eqb_refl. apply IH.
  - right. replace (code y <? code x) with true; [done|]. symmetry. apply Z.ltb_lt. lia.
Qed.

Lemma chars_leb_trans a b c :
  chars_leb a b = true -> chars_leb b c = true -> chars_leb a c = true.
Proof.
  revert b c. induction a as [|x a IH]; intros [|y b] [|z c]; simpl; try done.
  intros H1 H2. split_match; bool_simpl; subst; try done; try lia; eauto.
Qed.

Lemma chars_leb_antisym a b : chars_leb a b = true -> chars_leb b a = true -> a = b.
Proof.
  revert b. induction a as [|x a IH]; intros [|y b]; simpl; try done.
  intros H1 H2. split_match; bool_simpl; try lia.
  assert (x = y) as -> by (rewrite <- (chr_code x), <- (chr_code y); congruence).
  f_equal. auto.
Qed.

#[export] Instance key_le_trans : Transitive key_le.
Proof. intros a b c. apply chars_leb_trans. Qed.
#[export] Instance key_le_total : Total key_le.
Proof. intros a b. apply chars_leb_total. Qed.
#[export] Instance key_le_antisymm : AntiSymm (=) key_le.
Proof.
  intros a b H1 H2. rewrite <- (of_to_chars a), <- (of_to_chars b). f_equal.
  by apply chars_leb_antisym.
Qed.

Lemma sort_names_Permutation ks : sort_names ks ≡ₚ ks.
Proof. apply merge_sort_Permutation. Qed.

Lemma sort_names_proper ks ks' : ks ≡ₚ ks' -> sort_names ks = sort_names ks'.
Proof.
  intros Hp. apply (StronglySorted_unique key_le).
  - apply (StronglySorted_merge_sort key_le).
  - apply (StronglySorted_merge_sort key_le).
  - by rewrite !sort_names_Permutation.
Qed.

(** ** Objects as maps *)

Section objects.
Context {A : Type}.
Implicit Types (o l : list (string * A)) (k : string) (v : A).

Lemma obj_mem_spec k o : existsb (fun kv => String.eqb k kv.1) o = true <-> k ∈ obj_keys o.
Proof.
  rewrite existsb_exists. unfold obj_keys. rewrite list_elem_of_fmap. split.
  - intros ([k' v] & Hin & E). apply String.eqb_eq in E. simpl in E. subst k'.
    exists (k, v). split; [done|]. by apply list_elem_of_In.
  - intros ([k' v] & -> & Hin). exists (k', v). split; [by apply list_elem_of_In|].
    apply String.eqb_refl.
Qed.

Lemma obj_insert_Permutation k v o : obj_insert k v o ≡ₚ (k, v) :: o.
Proof.
  induction o as [|[k' v'] o IH]; simpl; [done|].
  destruct (key_before k k'); [done|]. rewrite IH. constructor.
Qed.

Lemma obj_keys_replace k v o : obj_keys (obj_replace k v o) = obj_keys o.
Proof.
  induction o as [|[k' v'] o IH]; simpl; [done|].
  destruct (String.eqb k k') eqn:E; simpl; [apply String.eqb_eq in E as ->; done|].
  by f_equal.
Qed.

Lemma obj_get_None k o : obj_get k o = None <-> k ∉ obj_keys o.
Proof.
  induction o as [|[k' v'] o IH]; simpl; [set_solver|].
  destruct (String.eqb k k') eqn:E.
  - apply String.eqb_eq in E as <-. set_solver.
  - apply String.eqb_neq in E. rewrite IH. set_solver.
Qed.

Lemma obj_get_elem k v o : NoDup (obj_keys o) -> obj_get k o = Some v <-> (k, v) ∈ o.
Proof.
  induction o as [|[k' v'] o IH]; simpl; intros Hnd; [set_solver|].
  apply NoDup_cons in Hnd as [Hni Hnd]. specialize (IH Hnd).
  destruct (String.eqb k k') eqn:E.
  - apply String.eqb_eq in E as <-. rewrite elem_of_cons. split; [intros [= ->]; auto|].
    intros [[= ->]|Hin]; [done|]. destruct Hni. apply list_elem_of_fmap. by exists (k, v).
  - apply String.eqb_neq in E. rewrite IH, elem_of_cons. naive_solver.
Qed.

Lemma obj_get_Permutation k o o' : NoDup (obj_keys o) -> o ≡ₚ o' -> obj_get k o = obj_get k o'.
Proof.
  intros Hnd Hp. assert (NoDup (obj_keys o')) as Hnd' by (unfold obj_keys in *; by rewrite <- Hp).
  apply option_eq. intros v. rewrite !obj_get_elem by done. by rewrite Hp.
Qed.

Lemma obj_set_NoDup k v o : NoDup (obj_keys o) -> NoDup (obj_keys (obj_set k v o)).
Proof.
  intros Hnd. unfold obj_set. destruct (existsb _ o) eqn:E.
  - by rewrite obj_keys_replace.
  - unfold obj_keys. rewrite obj_insert_Permutation. simpl. constructor; [|done].
    intros Hin. apply obj_mem_spec in Hin. congruence.
Qed.

Lemma obj_get_set k k' v o :
  NoDup (obj_keys o) -> obj_get k' (obj_set k v o) = if String.eqb k' k then Some v else obj_get k' o.
Proof.
  intros Hnd. unfold obj_set. destruct (existsb _ o) eqn:E.
  - apply obj_mem_spec in E. clear Hnd. induction o as [|[k1 v1] o IH]; simpl in *; [set_solver|].
    destruct (String.eqb k k1) eqn:E1; simpl.
    + apply String.eqb_eq in E1 as <-. destruct (String.eqb k' k); done.
    + apply String.eqb_neq in E1. rewrite IH by set_solver.
      destruct (String.eqb k' k1) eqn:E2; [|done]. apply String.eqb_eq in E2 as ->.
      apply not_eq_sym, String.eqb_neq in E1. by rewrite E1.
  - assert (k ∉ obj_keys o) as Hk by (intros Hin; apply obj_mem_spec in Hin; congruence).
    assert (NoDup (obj_keys ((k, v) :: o))) as Hnd2 by (simpl; by constructor).
    rewrite <- (obj_get_Permutation k' ((k, v) :: o) (obj_insert k v o) Hnd2); [done|].
    by rewrite obj_insert_Permutation.
Qed.

Lemma obj_keys_set_elem k k' v o : k' ∈ obj_keys (obj_set k v o) <-> k' = k \/ k' ∈ obj_keys o.
Proof.
  unfold obj_set. destruct (existsb _ o) eqn:E.
  - rewrite obj_keys_replace. apply obj_mem_spec in E. naive_solver.
  - unfold obj_keys. rewrite obj_insert_Permutation. simpl. set_solver.
Qed.

(** Assigning a list of pairs with distinct keys makes an object with those pairs. *)
Lemma obj_of_list_go l o :
  NoDup (obj_keys o ++ obj_keys l) ->
  fold_left (fun o kv => obj_set kv.1 kv.2 o) l o ≡ₚ o ++ l.
Proof.
  revert o. induction l as [|[k v] l IH]; intros o Hnd; simpl; [by rewrite app_nil_r|].
  assert (k ∉ obj_keys o) as Hk.
  { apply NoDup_app in Hnd as (_ & Hd & _). intros Hin. apply (Hd k Hin). set_solver. }
  assert (obj_set k v o ≡ₚ o ++ [(k, v)]) as Hp.
  { unfold obj_set. destruct (existsb _ o) eqn:E; [by apply obj_mem_spec in E|].
    rewrite obj_insert_Permutation. apply Permutation_cons_append. }
  rewrite IH; [rewrite Hp, <- app_assoc; done|].
  unfold obj_keys in *. rewrite Hp. rewrite map_app, <- app_assoc. done.
Qed.

Lemma obj_of_list_Permutation l : NoDup (obj_keys l) -> obj_of_list l ≡ₚ l.
Proof. intros Hnd. apply (obj_of_list_go l []). done. Qed.

(** Without array-index keys, assignment order is enumeration order. *)
Lemma obj_of_list_noindex_go l o :
  NoDup (obj_keys o ++ obj_keys l) -> Forall (fun kv => array_index kv.1 = None) l ->
  fold_left (fun o kv => obj_set kv.1 kv.2 o) l o = o ++ l.
Proof.
  revert o. induction l as [|[k v] l IH]; intros o Hnd Hni; simpl; [by rewrite app_nil_r|].
  apply Forall_cons in Hni as [Hk Hni]. simpl in Hk.
  assert (k ∉ obj_keys o) as Hko.
  { apply NoDup_app in Hnd as (_ & Hd & _). intros Hin. apply (Hd k Hin). set_solver. }
  assert (obj_set k v o = o ++ [(k, v)]) as Hp.
  { unfold obj_set. destruct (existsb _ o) eqn:E; [by apply obj_mem_spec in E|].
    clear -Hk. induction o as [|[k' v'] o IHo]; simpl; [done|].
    unfold key_before. rewrite Hk. by rewrite IHo. }
  rewrite Hp, IH; [by rewrite <- app_assoc| |done].
  unfold obj_keys in *. rewrite map_app, <- app_assoc. done.
Qed.

Lemma obj_of_list_noindex l :
  NoDup (obj_keys l) -> Forall (fun kv => array_index kv.1 = None) l -> obj_of_list l = l.
Proof. intros. by apply (obj_of_list_noindex_go l []). Qed.

Lemma key_before_trans_false k k' x :
  key_before k k' = true -> key_before x k' = false -> key_before x k = false.
Proof.
  unfold key_before. destruct (array_index k), (array_index k'), (array_index x); try done.
  intros H1 H2. bool_simpl. apply Z.ltb_ge. lia.
Qed.

Lemma obj_insert_canon k v o : k ∉ obj_keys o -> obj_canon o -> obj_canon (obj_insert k v o).
Proof.
  intros Hk [Hnd Hs]. split.
  - unfold obj_keys. rewrite obj_insert_Permutation. simpl. by constructor.
  - clear Hnd. induction o as [|[k' v'] o IH]; simpl in *; [repeat constructor|].
    apply StronglySorted_inv in Hs as [Hs Hall].
    destruct (key_before k k') eqn:E; simpl.
    + constructor; [by constructor|]. constructor.
      * unfold key_before in *. destruct (array_index k), (array_index k'); try done.
        bool_simpl. apply Z.ltb_ge. lia.
      * eapply Forall_impl; [exact Hall|]. intros x Hx. by eapply key_before_trans_false.
    + constructor; [apply IH; set_solver|]. unfold obj_keys. rewrite obj_insert_Permutation. simpl.
      constructor; [done|]. done.
Qed.

Lemma obj_set_canon k v o : obj_canon o -> obj_canon (obj_set k v o).
Proof.
  intros Hc. unfold obj_set. destruct (existsb _ o) eqn:E.
  - destruct Hc as [H1 H2]. split; by rewrite obj_keys_replace.
  - apply obj_insert_canon; [|done]. intros Hin. apply obj_mem_spec in Hin. congruence.
Qed.

Lemma obj_of_list_canon l : obj_canon (obj_of_list l).
Proof.
  unfold obj_of_list. assert (obj_canon (@nil (string * A))) as H0 by (split; constructor).
  revert H0. generalize (@nil (string * A)). induction l as [|[k v] l IH]; intros o Ho; simpl; [done|].
  apply IH. by apply obj_set_canon.
Qed.

Lemma obj_insert_last k v o :
  Forall (fun k' => key_before k k' = false) (obj_keys o) -> obj_insert k v o = o ++ [(k, v)].
Proof.
  induction o as [|[k' v'] o IH]; simpl; intros H; [done|].
  apply Forall_cons in H as [H1 H2]. rewrite H1. by rewrite IH.
Qed.

(** Rebuilding an object by assigning its properties in enumeration order is the identity. *)
Lemma obj_of_list_id l : obj_canon l -> obj_of_list l = l.
Proof.
  intros Hc. unfold obj_of_list. assert (obj_canon ([] ++ l)) as H0 by done. clear Hc.
  change l with ([] ++ l) at 2. revert H0. generalize (@nil (string * A)).
  induction l as [|[k v] l IH]; intros o Ho; simpl; [by rewrite app_nil_r|].
  assert (obj_set k v o = o ++ [(k, v)]) as ->.
  { destruct Ho as [Hnd Hs]. unfold obj_keys in *. rewrite map_app in Hnd, Hs. simpl in *.
    apply StronglySorted_app in Hs as (Hlt & _ & _). apply NoDup_app in Hnd as (_ & Hd & _).
    unfold obj_set. destruct (existsb _ o) eqn:E.
    - apply obj_mem_spec in E. exfalso. apply (Hd k E). set_solver.
    - apply obj_insert_last, Forall_forall. intros k' Hk'. apply Hlt; [done|set_solver]. }
  rewrite IH; rewrite <- app_assoc; done.
Qed.
End objects.

Lemma obj_keys_del {A} k (o : list (string * A)) : NoDup (obj_keys o) -> NoDup (obj_keys (obj_del k o)).
Proof.
  induction o as [|[k' v] o IH]; simpl; intros Hnd; [done|]. apply NoDup_cons in Hnd as [Hni Hnd].
  destruct (String.eqb k k'); [done|]. simpl. apply NoDup_cons. split; [|auto].
  intros Hin. apply Hni. clear -Hin. induction o as [|[k2 v2] o IH]; simpl in *; [done|].
  destruct (String.eqb k k2); simpl in *; set_solver.
Qed.

Lemma obj_get_del {A} k j (o : list (string * A)) :
  NoDup (obj_keys o) -> obj_get j (obj_del k o) = if String.eqb j k then None else obj_get j o.
Proof.
  induction o as [|[k' v] o IH]; simpl; intros Hnd; [by destruct (String.eqb j k)|].
  apply NoDup_cons in Hnd as [Hni Hnd]. destruct (String.eqb_spec k k') as [<-|Hk].
  - destruct (String.eqb_spec j k) as [->|Hj]; [|done]. by apply obj_get_None.
  - simpl. destruct (String.eqb_spec j k') as [->|]; [by destruct (String.eqb_spec k' k)|]. auto.
Qed.

(** Assignment commutes with a map over the values. *)
Lemma obj_set_map {A B} (f : A -> B) k v (o : list (string * A)) :
  obj_set k (f v) (map (fun kv => (kv.1, f kv.2)) o) = map (fun kv => (kv.1, f kv.2)) (obj_set k v o).
Proof.
  unfold obj_set.
  assert (existsb (fun kv => String.eqb k kv.1) (map (fun kv => (kv.1, f kv.2)) o)
          = existsb (fun kv => String.eqb k kv.1) o) as ->.
  { induction o as [|[k' v'] o IH]; simpl; [done|]. by rewrite IH. }
  destruct (existsb _ o).
  - induction o as [|[k' v'] o IH]; simpl; [done|]. destruct (String.eqb k k'); simpl; by rewrite ?IH.
  - induction o as [|[k' v'] o IH]; simpl; [done|]. destruct (key_before k k'); simpl; by rewrite ?IH.
Qed.

Lemma obj_of_list_map {A B} (f : A -> B) (l : list (string * A)) :
  obj_of_list (map (fun kv => (kv.1, f kv.2)) l) = map (fun kv => (kv.1, f kv.2)) (obj_of_list l).
Proof.
  unfold obj_of_list. change (@nil (string * B)) with (map (fun kv : string * A => (kv.1, f kv.2)) []).
  generalize (@nil (string * A)). induction l as [|[k s] l IH]; intros o; simpl; [done|].
  rewrite <- IH. f_equal. apply obj_set_map.
Qed.

(** ** [compact] *)

Lemma compact_go o out :
  NoDup (obj_keys out ++ obj_keys o) -> Forall (fun kv => array_index kv.1 = None) o ->
  fold_left (fun out kv => match kv.2 with Some v => obj_set kv.1 v out | None => out end) o out
  = out ++ omap defined o.
Proof.
  revert out. induction o as [|[k v] o IH]; intros out Hnd Hni; simpl; [by rewrite app_nil_r|].
  apply Forall_cons in Hni as [Hk Hni]. simpl in Hk. destruct v as [v|]; simpl.
  - pose proof (obj_of_list_noindex_go [(k, v)] out) as Hs. simpl in Hs. rewrite Hs.
    + rewrite IH; [by rewrite <- app_assoc| |done].
      unfold obj_keys in *. by rewrite map_app, <- app_assoc.
    + clear -Hnd. change (obj_keys ((k, Some v) :: o)) with ([k] ++ obj_keys o) in Hnd.
      rewrite app_assoc in Hnd. by apply NoDup_app in Hnd as (? & _ & _).
    + by repeat constructor.
  - rewrite IH; [done| |done]. simpl in Hnd. apply NoDup_app in Hnd as (H1 & H2 & H3).
    apply NoDup_cons in H3 as [H3 H4]. apply NoDup_app. split_and!; [done| |done].
    intros x Hx Hin. apply (H2 x Hx). set_solver.
Qed.

(** On an object literal (distinct keys, none an array index) [compact] keeps the
    defined properties in their order. *)
Lemma compact_omap o :
  NoDup (obj_keys o) -> Forall (fun kv => array_index kv.1 = None) o ->
  compact o = omap defined o.
Proof. intros. by apply (compact_go o []). Qed.

Lemma obj_get_omap k (o : uobj) :
  NoDup (obj_keys o) ->
  obj_get k (omap defined o) = mjoin (obj_get k o).
Proof.
  induction o as [|[k' v] o IH]; simpl; intros Hnd; [done|].
  apply NoDup_cons in Hnd as [Hni Hnd]. specialize (IH Hnd).
  destruct (String.eqb k k') eqn:E; destruct v as [v|]; simpl; rewrite ?E; try done.
  apply String.eqb_eq in E as <-. rewrite (proj2 (obj_get_None k o)) in IH by done. exact IH.
Qed.

(** ** [sortKeys] *)

Lemma sortKeys_JObj o :
  sortKeys (JObj o) = JObj (obj_of_list (omap (pick (sub_sorted o)) (sort_names (obj_keys o)))).
Proof. done. Qed.

Lemma obj_keys_sub_sorted o : obj_keys (sub_sorted o) = obj_keys o.
Proof. unfold obj_keys, sub_sorted. rewrite map_map. done. Qed.

Lemma omap_pick_keys sub (ks : list string) :
  (forall k, k ∈ ks -> k ∈ obj_keys sub) -> obj_keys (omap (pick sub) ks) = ks.
Proof.
  induction ks as [|k ks IH]; intros Hin; simpl; [done|].
  unfold pick at 1. destruct (obj_get k sub) eqn:E; simpl.
  - f_equal. apply IH. set_solver.
  - apply obj_get_None in E. set_solver.
Qed.

Lemma elem_of_omap_pick sub (ks : list string) k x : (k, x) ∈ omap (pick sub) ks <-> k ∈ ks /\ obj_get k sub = Some x.
Proof.
  rewrite list_elem_of_omap. unfold pick. split.
  - intros (k' & Hin & H). destruct (obj_get k' sub) eqn:E; naive_solver.
  - intros [Hin H]. exists k. by rewrite H.
Qed.

Lemma omap_pick_Permutation sub (ks : list string) :
  NoDup (obj_keys sub) -> ks ≡ₚ obj_keys sub -> omap (pick sub) ks ≡ₚ sub.
Proof.
  intros Hnd Hp.
  assert (obj_keys (omap (pick sub) ks) = ks) as Hk
    by (apply omap_pick_keys; intros k; by rewrite Hp).
  apply NoDup_Permutation.
  - apply (NoDup_fmap_1 fst). fold (obj_keys (omap (pick sub) ks)).
    change (fst <$> omap (pick sub) ks) with (obj_keys (omap (pick sub) ks)).
    rewrite Hk. by rewrite Hp.
  - by apply (NoDup_fmap_1 fst).
  - intros [k x]. rewrite elem_of_omap_pick, Hp, <- obj_get_elem by done. split; [naive_solver|].
    intros H. split; [|done]. apply obj_get_elem in H; [|done].
    apply list_elem_of_fmap. by exists (k, x).
Qed.

(** The object [sortKeys] builds has exactly the original properties, sorted inside. *)
Lemma sortKeys_obj_Permutation o o' :
  NoDup (obj_keys o) -> sortKeys (JObj o) = JObj o' -> o' ≡ₚ sub_sorted o.
Proof.
  intros Hnd. rewrite sortKeys_JObj. intros [= <-].
  assert (omap (pick (sub_sorted o)) (sort_names (obj_keys o)) ≡ₚ sub_sorted o) as Hp.
  { apply omap_pick_Permutation; rewrite obj_keys_sub_sorted; [done|]. apply sort_names_Permutation. }
  rewrite obj_of_list_Permutation; [done|]. unfold obj_keys. rewrite Hp.
  fold (obj_keys (sub_sorted o)). by rewrite obj_keys_sub_sorted.
Qed.

Lemma Forall2_sub_sorted (o o1 : list (string * json)) :
  Forall (fun kv => forall v', json_wf kv.2 -> jequiv kv.2 v' -> sortKeys kv.2 = sortKeys v') o ->
  Forall (fun kv => json_wf kv.2) o ->
  Forall2 (fun a b => a.1 = b.1 /\ jequiv a.2 b.2) o o1 ->
  sub_sorted o = sub_sorted o1.
Proof.
  intros HP Hwf H2. induction H2 as [|[k x] [k' x'] o o1 [Hk Hx] H2 IH]; [done|].
  simpl in *. subst k'. apply Forall_cons in HP as [HP1 HP2]. apply Forall_cons in Hwf as [Hw1 Hw2].
  unfold sub_sorted in *. simpl. rewrite IH by done. f_equal. f_equal. by apply HP1.
Qed.

Lemma sortKeys_jequiv v v' : json_wf v -> jequiv v v' -> sortKeys v = sortKeys v'.
Proof.
  revert v'. induction v as [| | | |l IH|o IH] using json_ind'; intros v' Hwf He;
    inversion He as [|? l' H2|? o1 o' H2 H3]; subst; try done.
  - simpl in *. f_equal. rewrite foldr_and_Forall in Hwf.
    clear He. induction H2 as [|x y l l' Hxy H2 IH2]; simpl; [done|].
    apply Forall_cons in IH as [IHx IHl]. apply Forall_cons in Hwf as [Hw Hwl].
    f_equal; [by apply IHx | by apply IH2].
  - destruct Hwf as [Hnd Hwf]. rewrite (foldr_and_Forall (fun kv => json_wf kv.2)) in Hwf.
    rewrite !sortKeys_JObj. do 2 f_equal.
    assert (sub_sorted o = sub_sorted o1) as Hs by (by apply Forall2_sub_sorted).
    assert (obj_keys o = obj_keys o1) as Hk by (rewrite <- obj_keys_sub_sorted, Hs; apply obj_keys_sub_sorted).
    assert (sub_sorted o1 ≡ₚ sub_sorted o') as Hp by (unfold sub_sorted; by rewrite H3).
    rewrite (sort_names_proper (obj_keys o) (obj_keys o')) by (rewrite Hk; unfold obj_keys; by rewrite H3).
    apply list_omap_ext, Forall_Forall2_diag, Forall_forall. intros k _. unfold pick.
    rewrite Hs. rewrite (obj_get_Permutation k (sub_sorted o1) (sub_sorted o')); [done| |done].
    rewrite obj_keys_sub_sorted, <- Hk. done.
Qed.

(** [sortKeys] keeps the content: the result is the same value up to key order. *)
Lemma jequiv_sortKeys v : json_wf v -> jequiv v (sortKeys v).
Proof.
  induction v as [| | | |l IH|o IH] using json_ind'; intros Hwf; try constructor.
  - simpl in Hwf. rewrite foldr_and_Forall in Hwf.
    induction l as [|x l IHl]; simpl; constructor.
    + apply Forall_cons in IH as [IHx _]. apply Forall_cons in Hwf as [Hw _]. auto.
    + apply Forall_cons in IH as [_ IH]. apply Forall_cons in Hwf as [_ Hwf]. auto.
  - destruct Hwf as [Hnd Hwf]. rewrite (foldr_and_Forall (fun kv => json_wf kv.2)) in Hwf.
    destruct (sortKeys (JObj o)) as [| | | | |o'] eqn:E; try done.
    apply (jeq_obj _ (sub_sorted o)).
    + clear -IH Hwf. induction o as [|[k x] o IHo]; constructor.
      * apply Forall_cons in IH as [IHx _]. apply Forall_cons in Hwf as [Hw _]. auto.
      * apply Forall_cons in IH as [_ IH]. apply Forall_cons in Hwf as [_ Hwf]. auto.
    + symmetry. by eapply sortKeys_obj_Permutation.
Qed.

Lemma sortKeys_idemp v : json_wf v -> sortKeys (sortKeys v) = sortKeys v.
Proof. intros Hwf. symmetry. apply sortKeys_jequiv; [done|]. by apply jequiv_sortKeys. Qed.

(** Reading a property of the sorted object gives the sorted property. *)
Lemma json_get_sortKeys k o :
  NoDup (obj_keys o) -> json_get k (sortKeys (JObj o)) = sortKeys <$> obj_get k o.
Proof.
  intros Hnd. destruct (sortKeys (JObj o)) as [| | | | |o'] eqn:E; try done. simpl.
  assert (NoDup (obj_keys (sub_sorted o))) as Hnd' by (by rewrite obj_keys_sub_sorted).
  pose proof (sortKeys_obj_Permutation o o' Hnd E) as Hp.
  rewrite <- (obj_get_Permutation k (sub_sorted o) o' Hnd') by done.
  clear. induction o as [|[k' x] o IH]; simpl; [done|]. by destruct (String.eqb k k').
Qed.

(** With no array-index key the keys of every object come out sorted. *)
Lemma keys_sorted_sortKeys v : json_wf v -> no_index_keys v -> keys_sorted (sortKeys v).
Proof.
  induction v as [| | | |l IH|o IH] using json_ind'; intros Hwf Hni; try exact I.
  - simpl in *. rewrite foldr_and_Forall in *. apply Forall_map, Forall_forall.
    intros x Hx. rewrite Forall_forall in IH, Hwf, Hni. auto.
  - destruct Hwf as [Hnd Hwf]. rewrite (foldr_and_Forall (fun kv => json_wf kv.2)) in Hwf.
    simpl in Hni.
    rewrite (foldr_and_Forall (fun kv => array_index kv.1 = None /\ no_index_keys kv.2)) in Hni.
    assert (obj_keys (omap (pick (sub_sorted o)) (sort_names (obj_keys o))) = sort_names (obj_keys o)) as Hk.
    { apply omap_pick_keys. intros k. by rewrite sort_names_Permutation, obj_keys_sub_sorted. }
    assert (omap (pick (sub_sorted o)) (sort_names (obj_keys o)) ≡ₚ sub_sorted o) as Hp.
    { apply omap_pick_Permutation; rewrite obj_keys_sub_sorted; [done|]. apply sort_names_Permutation. }
    rewrite sortKeys_JObj, obj_of_list_noindex.
    + simpl. rewrite Hk. split; [apply (StronglySorted_merge_sort key_le)|].
      rewrite (foldr_and_Forall (fun kv => keys_sorted kv.2)), Hp.
      unfold sub_sorted. apply Forall_map, Forall_forall. intros kv Hkv. simpl.
      rewrite Forall_forall in IH, Hwf, Hni. apply IH; [done|auto|]. by apply Hni.
    + rewrite Hk. by rewrite sort_names_Permutation.
    + rewrite Hp. unfold sub_sorted. apply Forall_map, Forall_forall. intros kv Hkv. simpl.
      rewrite Forall_forall in Hni. by apply Hni.
Qed.

(** ** Properties *)

(** [canonicalJSON] of two trees that differ only in the order of their object keys is the
    same tree, the sorted tree has the same content as the original, and sorting again changes
    nothing: the canonical form is a function of the content. *)
Theorem canonical_form v v' :
  json_wf v -> jequiv v v' ->
  sortKeys v = sortKeys v' /\ jequiv v (sortKeys v) /\ sortKeys (sortKeys v) = sortKeys v.
Proof. intros Hwf He. split_and!; [by apply sortKeys_jequiv|by apply jequiv_sortKeys|by apply sortKeys_idemp]. Qed.

Lemma canonical_form_witness :
  sortKeys (JObj [("b", JNull); ("a", JArr [JBool true])]) = sortKeys (JObj [("a", JArr [JBool true]); ("b", JNull)])
  /\ jequiv (JObj [("b", JNull); ("a", JArr [JBool true])]) (sortKeys (JObj [("b", JNull); ("a", JArr [JBool true])]))
  /\ sortKeys (sortKeys (JObj [("b", JNull); ("a", JArr [JBool true])])) = sortKeys (JObj [("b", JNull); ("a", JArr [JBool true])]).
Proof.
  apply canonical_form.
  - simpl. split_and!; try done. apply (bool_decide_unpack _). vm_compute. exact I.
  - eapply (jeq_obj _ [("b", JNull); ("a", JArr [JBool true])]); [|apply Permutation_swap].
    repeat constructor.
Defined.

(** No key of the canonical tree is out of order, at any depth, when no object has an
    array-index key. *)
Theorem canonical_keys_sorted v : json_wf v -> no_index_keys v -> keys_sorted (sortKeys v).
Proof. apply keys_sorted_sortKeys. Qed.

Lemma canonical_keys_sorted_witness :
  keys_sorted (sortKeys (JObj [("b", JObj [("z", JNull); ("y", JNull)]); ("a", JBool true)])).
Proof.
  apply canonical_keys_sorted.
  - simpl. split_and!; try done; apply (bool_decide_unpack _); vm_compute; exact I.
  - simpl. split_and!; done.
Defined.

(** The exception is real: JavaScript enumerates array-index keys first, in numeric order,
    whatever the order of assignment, so ["10"] stays after ["9"]. *)
Lemma canonical_index_keys_unsorted :
  sortKeys (JObj [("9", JNull); ("10", JNull)]) = JObj [("9", JNull); ("10", JNull)]
  /\ key_leb "10" "9" = true.
Proof. split; vm_compute; reflexivity. Qed.
