(* ===== verification/JsonText.v ===== *)
(** * JSON text: [JSON.stringify] and [JSON.parse]

    The printer and the parser of the language's JSON functions, over the UTF-8 bytes the
    transports exchange, and the interface [JsonCodec] the framing layer is proved against.
    [json_text] is the instance given by the printer and the parser below.

    Characters are 8-bit code units, so the UTF-8 coding covers U+0000 to U+00FF; a number is
    an exact decimal.  [jsonable] delimits the values on which that agrees with JavaScript. *)

From S2P Require Import Prelude Json.

(** ** The interface *)

Class JsonCodec : Type := {
  (** [Buffer.from(JSON.stringify(v), 'utf8')] *)
  stringify : json -> chars;
  (** [JSON.parse(body.toString('utf8'))], [None] when it throws *)
  parse : chars -> option json;
  (** the values that survive the trip *)
  codec_ok : json -> Prop;
  parse_stringify : forall v, codec_ok v -> parse (stringify v) = Some v
}.

(** ** Printing *)

Fixpoint print_nat_go (fuel : nat) (n : Z) (acc : chars) : chars :=
  match fuel with
  | O => acc
  | S f =>
      let acc' := chr (48 + n mod 10) :: acc in
      if n / 10 =? 0 then acc' else print_nat_go f (n / 10) acc'
  end.
Definition print_nat (n : Z) : chars := print_nat_go (S (Z.to_nat (Z.log2 n))) n [].

(** [k] digits of [n], with leading zeros. *)
Fixpoint print_pad (k : nat) (n : Z) (acc : chars) : chars :=
  match k with O => acc | S k' => print_pad k' (n / 10) (chr (48 + n mod 10) :: acc) end.

Definition print_num (n : num) : chars :=
  let sign (z : Z) := if z <? 0 then ["-"%char] else [] in
  match n with
  | NInt z => sign z ++ print_nat (Z.abs z)
  | NFrac m k =>
      sign m ++ print_nat (Z.abs m / 10 ^ Zpos k) ++ ["."%char]
      ++ print_pad (Pos.to_nat k) (Z.abs m mod 10 ^ Zpos k) []
  end.

Definition hex_digit (n : Z) : ascii := if n <? 10 then chr (48 + n) else chr (87 + n).

Definition esc_char (c : ascii) : chars :=
  let n := code c in
  if n =? 34 then [chr 92; chr 34]
  else if n =? 92 then [chr 92; chr 92]
  else if n =? 8 then [chr 92; "b"%char]
  else if n =? 9 then [chr 92; "t"%char]
  else if n =? 10 then [chr 92; "n"%char]
  else if n =? 12 then [chr 92; "f"%char]
  else if n =? 13 then [chr 92; "r"%char]
  else if n <? 32 then [chr 92; "u"%char; "0"%char; "0"%char; hex_digit (n / 16); hex_digit (n mod 16)]
  else [c].

Definition print_str (s : string) : chars := chr 34 :: flat_map esc_char (to_chars s) ++ [chr 34].

(** The elements of a non-empty array or object, each followed by a comma or the closing bracket. *)
Fixpoint print_seq (close : ascii) (l : list chars) : chars :=
  match l with
  | [] => []
  | [x] => x ++ [close]
  | x :: l' => x ++ ","%char :: print_seq close l'
  end.

Fixpoint print_json (v : json) : chars :=
  match v with
  | JNull => to_chars "null"
  | JBool true => to_chars "true"
  | JBool false => to_chars "false"
  | JNum n => print_num n
  | JStr s => print_str s
  | JArr [] => to_chars "[]"
  | JArr l => "["%char :: print_seq "]"%char (map print_json l)
  | JObj [] => to_chars "{}"
  | JObj o => "{"%char :: print_seq "}"%char (map (fun kv => print_str kv.1 ++ ":"%char :: print_json kv.2) o)
  end.

(** ** Reading an untyped value *)

(** [o ?? d] *)
Definition nullish (o : option json) (d : json) : json :=
  match o with None | Some JNull => d | Some v => v end.

(** [v?.k] *)
Definition chain (v : option json) (k : string) : option json :=
  match v with None | Some JNull => None | Some w => json_get k w end.

(** Truthiness of a JSON value, and of a possibly missing one. *)
Definition js_truthy (v : json) : bool :=
  match v with
  | JNull => false
  | JBool b => b
  | JNum (NInt z) => negb (z =? 0)
  | JNum (NFrac _ _) => true
  | JStr s => negb (is_empty s)
  | JArr _ | JObj _ => true
  end.
Definition opt_truthy (v : option json) : bool := match v with Some w => js_truthy w | None => false end.

(** A value in a template literal. *)
Fixpoint to_text (v : json) : string :=
  match v with
  | JNull => "null"
  | JBool b => if b then "true" else "false"
  | JNum n => of_chars (print_num n)
  | JStr s => s
  | JArr l => js_join "," (map (fun x => match x with JNull => "" | _ => to_text x end) l)
  | JObj _ => "[object Object]"
  end.

(** ** Parsing *)

Definition is_ws (c : ascii) : bool :=
  let n := code c in (n =? 32) || (n =? 9) || (n =? 10) || (n =? 13).

Fixpoint skip_ws (s : chars) : chars :=
  match s with c :: s' => if is_ws c then skip_ws s' else s | [] => [] end.

Fixpoint expect (w s : chars) : option chars :=
  match w, s with
  | [], _ => Some s
  | c :: w', d :: s' => if (code c =? code d) then expect w' s' else None
  | _ :: _, [] => None
  end.

Definition hex_val (c : ascii) : option Z :=
  let n := code c in
  if (48 <=? n) && (n <=? 57) then Some (n - 48)
  else if (97 <=? n) && (n <=? 102) then Some (n - 87)
  else if (65 <=? n) && (n <=? 70) then Some (n - 55)
  else None.

Definition unescape (e : ascii) : option ascii :=
  let n := code e in
  if (n =? 34) || (n =? 92) || (n =? 47) then Some e
  else if n =? 98 then Some (chr 8)
  else if n =? 116 then Some (chr 9)
  else if n =? 110 then Some (chr 10)
  else if n =? 102 then Some (chr 12)
  else if n =? 114 then Some (chr 13)
  else None.

Definition unicode_escape (h1 h2 h3 h4 : ascii) : option ascii :=
  match hex_val h1, hex_val h2, hex_val h3, hex_val h4 with
  | Some a, Some b, Some c, Some d => if (a =? 0) && (b =? 0) then Some (chr (16 * c + d)) else None
  | _, _, _, _ => None
  end.

Definition cons_fst (c : ascii) (r : option (chars * chars)) : option (chars * chars) :=
  match r with Some (s, rest) => Some (c :: s, rest) | None => None end.

(** The rest of a string literal after its opening quote. *)
Fixpoint parse_str (s : chars) : option (chars * chars) :=
  match s with
  | [] => None
  | c :: s1 =>
      if code c =? 34 then Some ([], s1)
      else if code c =? 92 then
        match s1 with
        | [] => None
        | e :: s2 =>
            if code e =? 117 then
              match s2 with
              | h1 :: h2 :: h3 :: h4 :: s3 =>
                  match unicode_escape h1 h2 h3 h4 with Some u => cons_fst u (parse_str s3) | None => None end
              | _ => None
              end
            else match unescape e with Some u => cons_fst u (parse_str s2) | None => None end
        end
      else if code c <? 32 then None
      else cons_fst c (parse_str s1)
  end.

Fixpoint span_digits (s : chars) : chars * chars :=
  match s with
  | c :: s' => if is_digit c then let '(ds, r) := span_digits s' in (c :: ds, r) else ([], s)
  | [] => ([], [])
  end.

(** [M / 10^k], in normal form. *)
Fixpoint norm_frac (M : Z) (k : nat) : num :=
  match k with
  | O => NInt M
  | S k' => if M mod 10 =? 0 then norm_frac (M / 10) k' else NFrac M (Pos.of_succ_nat k')
  end.
Definition mk_num (M e : Z) : num := if 0 <=? e then NInt (M * 10 ^ e) else norm_frac M (Z.to_nat (- e)).

Definition int_part_ok (ds : chars) : bool :=
  match ds with [] => false | [_] => true | d :: _ => negb (code d =? 48) end.

(** An optional exponent. *)
Definition parse_exp (s : chars) : option (Z * chars) :=
  match s with
  | c :: s1 =>
      if (code c =? 101) || (code c =? 69) then
        let '(sg, s2) := match s1 with
                         | d :: s' => if code d =? 45 then (-1, s') else if code d =? 43 then (1, s') else (1, s1)
                         | [] => (1, s1)
                         end in
        let '(ds, rest) := span_digits s2 in
        match ds, digits_val 0 ds with _ :: _, Some e => Some (sg * e, rest) | _, _ => None end
      else Some (0, s)
  | [] => Some (0, s)
  end.

(** An optional fraction: its digits. *)
Definition parse_frac (s : chars) : option (chars * chars) :=
  match s with
  | c :: s1 =>
      if code c =? 46 then
        match span_digits s1 with ([], _) => None | (ds, rest) => Some (ds, rest) end
      else Some ([], s)
  | [] => Some ([], s)
  end.

Definition parse_num (s : chars) : option (num * chars) :=
  let '(sg, s1) := match s with c :: s' => if code c =? 45 then (-1, s') else (1, s) | [] => (1, s) end in
  let '(ds, s2) := span_digits s1 in
  if int_part_ok ds then
    match parse_frac s2 with
    | Some (fs, s3) =>
        match parse_exp s3, digits_val 0 (ds ++ fs) with
        | Some (e, rest), Some M => Some (mk_num (sg * M) (e - Z.of_nat (List.length fs)), rest)
        | _, _ => None
        end
    | None => None
    end
  else None.

(** A value; the elements of an array after its bracket; the members of an object after its
    brace.  Every call consumes a character, so the length of the text is enough fuel. *)
Fixpoint parse_value (fuel : nat) (s : chars) : option (json * chars) :=
  match fuel with
  | O => None
  | S f =>
      match skip_ws s with
      | [] => None
      | c :: s1 =>
          let n := code c in
          if n =? 110 then (r ← expect (to_chars "ull") s1; Some (JNull, r))
          else if n =? 116 then (r ← expect (to_chars "rue") s1; Some (JBool true, r))
          else if n =? 102 then (r ← expect (to_chars "alse") s1; Some (JBool false, r))
          else if n =? 34 then
            match parse_str s1 with Some (t, r) => Some (JStr (of_chars t), r) | None => None end
          else if n =? 91 then
            match skip_ws s1 with
            | d :: r => if code d =? 93 then Some (JArr [], r) else parse_elems f s1 []
            | [] => None
            end
          else if n =? 123 then
            match skip_ws s1 with
            | d :: r => if code d =? 125 then Some (JObj [], r) else parse_members f s1 []
            | [] => None
            end
          else match parse_num (c :: s1) with Some (x, r) => Some (JNum x, r) | None => None end
      end
  end
with parse_elems (fuel : nat) (s : chars) (acc : list json) : option (json * chars) :=
  match fuel with
  | O => None
  | S f =>
      match parse_value f s with
      | Some (v, s1) =>
          match skip_ws s1 with
          | d :: r =>
              if code d =? 44 then parse_elems f r (acc ++ [v])
              else if code d =? 93 then Some (JArr (acc ++ [v]), r)
              else None
          | [] => None
          end
      | None => None
      end
  end
with parse_members (fuel : nat) (s : chars) (acc : list (string * json)) : option (json * chars) :=
  match fuel with
  | O => None
  | S f =>
      match skip_ws s with
      | q :: s1 =>
          if code q =? 34 then
            match parse_str s1 with
            | Some (k, s2) =>
                match skip_ws s2 with
                | colon :: s3 =>
                    if code colon =? 58 then
                      match parse_value f s3 with
                      | Some (v, s4) =>
                          let acc' := obj_set (of_chars k) v acc in
                          match skip_ws s4 with
                          | d :: r =>
                              if code d =? 44 then parse_members f r acc'
                              else if code d =? 125 then Some (JObj acc', r)
                              else None
                          | [] => None
                          end
                      | None => None
                      end
                    else None
                | [] => None
                end
            | None => None
            end
          else None
      | [] => None
      end
  end.

Definition parse_json (s : chars) : option json :=
  match parse_value (List.length s) s with
  | Some (v, r) => match skip_ws r with [] => Some v | _ => None end
  | None => None
  end.

(** ** UTF-8 *)

Definition utf8_char (c : ascii) : chars :=
  let n := code c in if n <? 128 then [c] else [chr (192 + n / 64); chr (128 + n mod 64)].
Definition utf8_encode (s : chars) : chars := flat_map utf8_char s.

Fixpoint utf8_decode (b : chars) : option chars :=
  match b with
  | [] => Some []
  | c :: b1 =>
      if code c <? 128 then (cons c) <$> utf8_decode b1
      else if (194 <=? code c) && (code c <=? 195) then
        match b1 with
        | d :: b2 =>
            if (128 <=? code d) && (code d <=? 191)
            then (cons (chr ((code c - 192) * 64 + (code d - 128)))) <$> utf8_decode b2
            else None
        | [] => None
        end
      else None
  end.

(** ** The values that survive the trip *)

Definition num_ok (n : num) : Prop :=
  match n with
  | NInt z => Z.abs z <= 2 ^ 53
  | NFrac m k => m mod 10 <> 0 /\ Z.abs m < 10 ^ 15 /\ Zpos k <= 6
  end.

Fixpoint jsonable (v : json) : Prop :=
  match v with
  | JNum n => num_ok n
  | JArr l => foldr (fun x P => jsonable x /\ P) True l
  | JObj o => obj_canon o /\ foldr (fun kv P => jsonable kv.2 /\ P) True o
  | _ => True
  end.

(** ** Strings *)

Lemma parse_str_esc c rest : parse_str (esc_char c ++ rest) = cons_fst c (parse_str rest).
Proof. destruct c as [[] [] [] [] [] [] [] []]; reflexivity. Qed.

Lemma parse_str_print l rest : parse_str (flat_map esc_char l ++ chr 34 :: rest) = Some (l, rest).
Proof.
  induction l as [|c l IH]; [reflexivity|]. cbn [flat_map].
  rewrite <- app_assoc, parse_str_esc, IH. reflexivity.
Qed.

Lemma parse_print_str s rest :
  parse_str (flat_map esc_char (to_chars s) ++ [chr 34] ++ rest) = Some (to_chars s, rest).
Proof. apply parse_str_print. Qed.

(** ** Digits *)

Lemma is_digit_chr n : 0 <= n < 10 -> is_digit (chr (48 + n)) = true.
Proof. intros Hn. unfold is_digit. rewrite code_chr by lia. apply andb_true_iff. split; apply Z.leb_le; lia. Qed.

Lemma digits_val_app x y a b : digits_val x a = Some y -> digits_val x (a ++ b) = digits_val y b.
Proof.
  revert x. induction a as [|c a IH]; intros x; simpl; [by intros [= ->]|].
  destruct (is_digit c); [apply IH|done].
Qed.

Lemma digits_val_digit x n : 0 <= n < 10 -> digits_val x [chr (48 + n)] = Some (x * 10 + n).
Proof. intros Hn. simpl. rewrite is_digit_chr, code_chr by lia. f_equal. lia. Qed.

Lemma digits_val_shift x y ds : digits_val 0 ds = Some y -> digits_val x ds = Some (x * 10 ^ Z.of_nat (List.length ds) + y).
Proof.
  assert (forall a z, digits_val a ds = Some z -> forall x, digits_val (x + a) ds = Some (x * 10 ^ Z.of_nat (List.length ds) + z)) as H.
  { clear. induction ds as [|c ds IH]; intros a z; cbn [digits_val List.length].
    - intros [= ->] x. f_equal. rewrite Z.pow_0_r. lia.
    - destruct (is_digit c); [|done]. intros E x. rewrite Nat2Z.inj_succ, Z.pow_succ_r by lia.
      specialize (IH _ _ E (x * 10)). rewrite Z.mul_assoc, <- IH. f_equal. lia. }
  intros E. specialize (H 0 y E x). by rewrite Z.add_0_r in H.
Qed.

(** What [print_nat] prints: the digits of the number, without a leading zero. *)
Lemma print_nat_go_spec fuel n acc :
  0 <= n -> Z.log2 n < Z.of_nat fuel ->
  exists d ds, print_nat_go fuel n acc = (d :: ds) ++ acc /\ Forall (fun c => is_digit c = true) (d :: ds) /\
    digits_val 0 (d :: ds) = Some n /\ (0 < n -> code d <> 48) /\ (n = 0 -> ds = []).
Proof.
  revert n acc. induction fuel as [|f IH]; intros n acc Hn Hf; [pose proof (Z.log2_nonneg n); lia|].
  cbn [print_nat_go]. pose proof (Z.mod_pos_bound n 10 ltac:(lia)) as Hm.
  pose proof (Z.div_mod n 10 ltac:(lia)) as Hdm.
  destruct (n / 10 =? 0) eqn:E; bool_simpl.
  - exists (chr (48 + n mod 10)), []. split_and!; [done|repeat constructor; by apply is_digit_chr| | |done].
    + rewrite digits_val_digit by lia. f_equal. lia.
    + intros ?. rewrite code_chr by lia. lia.
  - pose proof (Z.div_pos n 10 ltac:(lia) ltac:(lia)) as Hq.
    assert (Z.log2 (n / 10) < Z.of_nat f) as Hlog.
    { assert (Z.log2 (n / 10) < Z.log2 n); [|lia]. apply Z.log2_lt_pow2; [lia|].
      pose proof (Z.log2_spec n ltac:(lia)) as [Hlo Hhi]. rewrite Z.pow_succ_r in Hhi by apply Z.log2_nonneg.
      lia. }
    destruct (IH (n / 10) (chr (48 + n mod 10) :: acc) ltac:(lia) Hlog) as (d & ds & -> & Hall & Hv & Hd & _).
    exists d, (ds ++ [chr (48 + n mod 10)]). split_and!.
    + change (d :: ds ++ ?x) with ((d :: ds) ++ x). by rewrite <- app_assoc.
    + change (d :: ds ++ ?x) with ((d :: ds) ++ x). apply Forall_app. split; [done|].
      repeat constructor. by apply is_digit_chr.
    + change (d :: ds ++ ?x) with ((d :: ds) ++ x). rewrite (digits_val_app _ _ _ _ Hv).
      rewrite digits_val_digit by lia. f_equal. lia.
    + intros _. apply Hd. lia.
    + lia.
Qed.

Lemma print_nat_spec n :
  0 <= n ->
  exists d ds, print_nat n = d :: ds /\ Forall (fun c => is_digit c = true) (d :: ds) /\
    digits_val 0 (d :: ds) = Some n /\ int_part_ok (d :: ds) = true.
Proof.
  intros Hn. destruct (print_nat_go_spec (S (Z.to_nat (Z.log2 n))) n [] Hn) as (d & ds & E & Hall & Hv & Hd & H0).
  { pose proof (Z.log2_nonneg n). lia. }
  exists d, ds. rewrite app_nil_r in E. split_and!; [done..|].
  destruct ds as [|d' ds]; [done|]. simpl. apply negb_true_iff, Z.eqb_neq.
  destruct (decide (n = 0)) as [->|]; [specialize (H0 eq_refl); discriminate|]. apply Hd. lia.
Qed.

Lemma print_pad_spec k n acc :
  0 <= n < 10 ^ Z.of_nat k ->
  exists ds, print_pad k n acc = ds ++ acc /\ List.length ds = k /\
    Forall (fun c => is_digit c = true) ds /\ digits_val 0 ds = Some n.
Proof.
  revert n acc. induction k as [|k IH]; intros n acc Hn.
  - exists []. simpl in *. split_and!; [done..|constructor|]. f_equal. lia.
  - rewrite Nat2Z.inj_succ, Z.pow_succ_r in Hn by lia. cbn [print_pad].
    pose proof (Z.mod_pos_bound n 10 ltac:(lia)) as Hm. pose proof (Z.div_mod n 10 ltac:(lia)) as Hdm.
    destruct (IH (n / 10) (chr (48 + n mod 10) :: acc)) as (ds & -> & Hl & Hall & Hv).
    { split; [apply Z.div_pos; lia|apply Z.div_lt_upper_bound; lia]. }
    exists (ds ++ [chr (48 + n mod 10)]). split_and!.
    + by rewrite <- app_assoc.
    + rewrite length_app. simpl. lia.
    + apply Forall_app. split; [done|]. repeat constructor. by apply is_digit_chr.
    + rewrite (digits_val_app _ _ _ _ Hv), digits_val_digit by lia. f_equal. lia.
Qed.

(** ** Numbers *)

(** The text after a number does not continue it. *)
Definition stop (s : chars) : Prop :=
  match s with
  | [] => True
  | c :: _ => is_digit c = false /\ code c <> 46 /\ code c <> 101 /\ code c <> 69
  end.

Lemma span_digits_app ds rest :
  Forall (fun c => is_digit c = true) ds ->
  (match rest with [] => True | c :: _ => is_digit c = false end) ->
  span_digits (ds ++ rest) = (ds, rest).
Proof.
  intros Hds Hr. induction Hds as [|c ds Hc _ IH]; simpl.
  - destruct rest as [|c r]; [done|]. simpl. by rewrite Hr.
  - by rewrite Hc, IH.
Qed.

Lemma parse_exp_stop s : stop s -> parse_exp s = Some (0, s).
Proof.
  destruct s as [|c s]; [done|]. intros (_ & _ & H1 & H2). simpl.
  apply Z.eqb_neq in H1, H2. by rewrite H1, H2.
Qed.

Lemma parse_frac_stop s : stop s -> parse_frac s = Some ([], s).
Proof. destruct s as [|c s]; [done|]. intros (_ & H & _). simpl. apply Z.eqb_neq in H. by rewrite H. Qed.

Lemma stop_no_digit s : stop s -> match s with [] => True | c :: _ => is_digit c = false end.
Proof. destruct s; [done|]. by intros [? _]. Qed.

(** Reading an unsigned number: the integer digits, then either nothing or a fraction. *)
Lemma parse_num_sign (sg : Z) (pre ds s2 : chars) fs s3 M :
  (sg = 1 /\ pre = [] \/ sg = -1 /\ pre = ["-"%char]) ->
  Forall (fun c => is_digit c = true) ds -> int_part_ok ds = true ->
  (match s2 with [] => True | c :: _ => is_digit c = false end) ->
  parse_frac s2 = Some (fs, s3) -> stop s3 -> digits_val 0 (ds ++ fs) = Some M ->
  parse_num (pre ++ ds ++ s2) = Some (mk_num (sg * M) (0 - Z.of_nat (List.length fs)), s3).
Proof.
  intros Hpre Hds Hok Hs2 Hf Hs3 HM. unfold parse_num.
  assert (match pre ++ ds ++ s2 with c :: s' => if code c =? 45 then (-1, s') else (1, pre ++ ds ++ s2)
          | [] => (1, pre ++ ds ++ s2) end = (sg, ds ++ s2)) as ->.
  { destruct Hpre as [[-> ->]|[-> ->]]; [|reflexivity]. destruct ds as [|d ds]; [done|].
    cbn [app]. apply Forall_cons in Hds as [Hd _]. unfold is_digit in Hd. bool_simpl.
    destruct (code d =? 45) eqn:E; bool_simpl; [lia|done]. }
  rewrite span_digits_app by done. rewrite Hok, Hf, parse_exp_stop, HM by done. done.
Qed.

Lemma sign_cases z :
  let sg := if z <? 0 then -1 else 1 in
  (sg = 1 /\ (if z <? 0 then ["-"%char] else []) = [] \/
   sg = -1 /\ (if z <? 0 then ["-"%char] else []) = ["-"%char]) /\ sg * Z.abs z = z.
Proof. destruct (z <? 0) eqn:E; bool_simpl; simpl; split; auto; lia. Qed.

Lemma parse_print_num n rest : num_ok n -> stop rest -> parse_num (print_num n ++ rest) = Some (n, rest).
Proof.
  destruct n as [z|m k]; simpl; intros Hok Hstop.
  - destruct (print_nat_spec (Z.abs z) ltac:(lia)) as (d & ds & Ep & Hall & Hv & Hi).
    destruct (sign_cases z) as [Hsg Hz]. rewrite Ep, <- app_assoc.
    erewrite (parse_num_sign _ _ (d :: ds) rest [] rest (Z.abs z));
      [|exact Hsg|done|done|by apply stop_no_digit|by apply parse_frac_stop|done|by rewrite app_nil_r].
    rewrite Hz. simpl. unfold mk_num. cbn [Z.leb]. by rewrite Z.mul_1_r.
  - destruct Hok as (Hm & _). pose proof (Z.pow_pos_nonneg 10 (Zpos k) ltac:(lia) ltac:(lia)) as Hp.
    destruct (print_nat_spec (Z.abs m / 10 ^ Zpos k)) as (d & ds & Ep & Hall & Hv & Hi);
      [apply Z.div_pos; lia|].
    destruct (print_pad_spec (Pos.to_nat k) (Z.abs m mod 10 ^ Zpos k) []) as (fs & Ef & Hl & Hfs & Hfv).
    { rewrite positive_nat_Z. apply Z.mod_pos_bound. lia. }
    destruct (sign_cases m) as [Hsg Hz]. rewrite Ep, Ef, app_nil_r, <- !app_assoc.
    assert (fs <> []) as Hne by (intros ->; simpl in Hl; lia).
    erewrite (parse_num_sign _ _ (d :: ds) (["."%char] ++ fs ++ rest) fs rest (Z.abs m));
      [|exact Hsg|done|done|done| |done|].
    + rewrite Hz, Hl. unfold mk_num. rewrite positive_nat_Z. cbn [Z.sub Z.add Z.opp Z.leb Z.compare].
      replace (Z.to_nat (- (0 - Zpos k))) with (Pos.to_nat k) by lia.
      destruct (Pos.to_nat k) as [|k'] eqn:Ek; [lia|]. cbn [norm_frac].
      apply Z.eqb_neq in Hm. rewrite Hm. do 3 f_equal. lia.
    + simpl. rewrite span_digits_app by (done || by apply stop_no_digit). by destruct fs.
    + rewrite (digits_val_app _ _ _ _ Hv). erewrite digits_val_shift by exact Hfv.
      f_equal. rewrite Hl, positive_nat_Z. pose proof (Z.div_mod (Z.abs m) (10 ^ Zpos k)). lia.
Qed.

(** ** Values *)

(** The first character of a printed value: not white space, not a closing bracket. *)
Definition starts_value (c : ascii) : Prop :=
  is_ws c = false /\ code c <> 93 /\ code c <> 125.

Lemma digit_codes c : is_digit c = true -> 48 <= code c <= 57.
Proof. unfold is_digit. intros H. bool_simpl. lia. Qed.

Lemma not_ws c : code c <> 32 -> code c <> 9 -> code c <> 10 -> code c <> 13 -> is_ws c = false.
Proof. intros H1 H2 H3 H4. unfold is_ws. apply Z.eqb_neq in H1, H2, H3, H4. by rewrite H1, H2, H3, H4. Qed.

Lemma print_num_head n : exists c t, print_num n = c :: t /\ (code c = 45 \/ 48 <= code c <= 57).
Proof.
  assert (forall z (t : chars), 0 <= z -> exists c t', print_nat z ++ t = c :: t' /\ 48 <= code c <= 57) as Hd.
  { intros z t Hz. destruct (print_nat_spec z Hz) as (d & ds & -> & Hall & _).
    apply Forall_cons in Hall as [Hd _]. exists d, (ds ++ t). split; [done|by apply digit_codes]. }
  destruct n as [z|m k]; simpl.
  - destruct (z <? 0); [by eexists _, _; split; [done|left]|].
    destruct (Hd (Z.abs z) [] ltac:(lia)) as (c & t & E & Hc). rewrite app_nil_r in E. simpl. rewrite E.
    exists c, t. auto.
  - destruct (m <? 0); [by eexists _, _; split; [done|left]|]. simpl.
    pose proof (Z.pow_pos_nonneg 10 (Zpos k) ltac:(lia) ltac:(lia)).
    destruct (Hd (Z.abs m / 10 ^ Zpos k) ("."%char :: print_pad (Pos.to_nat k) (Z.abs m mod 10 ^ Zpos k) []))
      as (c & t & E & Hc); [apply Z.div_pos; lia|]. rewrite E. exists c, t. auto.
Qed.

Lemma print_json_head v : exists c t, print_json v = c :: t /\ starts_value c.
Proof.
  destruct v as [|[]|n|s|[|x l]|[|kv o]]; try (by eexists _, _).
  destruct (print_num_head n) as (c & t & E & Hc). exists c, t. split; [done|].
  unfold starts_value. split_and!; try lia. apply not_ws; lia.
Qed.

Lemma skip_ws_start c t : is_ws c = false -> skip_ws (c :: t) = c :: t.
Proof. simpl. by intros ->. Qed.

Lemma skip_ws_print v rest : skip_ws (print_json v ++ rest) = print_json v ++ rest.
Proof. destruct (print_json_head v) as (c & t & -> & Hc & _). by apply skip_ws_start. Qed.

(** A number is parsed through the last branch of [parse_value]. *)
Lemma parse_value_num f n rest :
  num_ok n -> stop rest -> parse_value (S f) (print_num n ++ rest) = Some (JNum n, rest).
Proof.
  intros Hok Hs. pose proof (parse_print_num n rest Hok Hs) as Hp.
  destruct (print_num_head n) as (c & t & E & Hc). rewrite E in *. cbn [app] in *.
  cbn [parse_value]. rewrite skip_ws_start by (apply not_ws; lia).
  repeat match goal with |- context [code c =? ?k] =>
    replace (code c =? k) with false by (symmetry; apply Z.eqb_neq; lia) end.
  by rewrite Hp.
Qed.

(** A printed value is read back whatever follows it. *)
Definition reads_back (v : json) : Prop :=
  forall fuel rest, (List.length (print_json v) <= fuel)%nat -> stop rest ->
  parse_value fuel (print_json v ++ rest) = Some (v, rest).

Lemma parse_elems_print l acc fuel rest :
  l <> [] -> Forall reads_back l ->
  (List.length (print_seq "]"%char (map print_json l)) <= fuel)%nat ->
  parse_elems fuel (print_seq "]"%char (map print_json l) ++ rest) acc = Some (JArr (acc ++ l), rest).
Proof.
  revert acc fuel. induction l as [|x l IH]; intros acc fuel Hne Hl Hf; [done|].
  apply Forall_cons in Hl as [Hx Hl]. destruct l as [|y l].
  - cbn [map print_seq] in *. rewrite length_app in Hf. simpl in Hf.
    destruct fuel as [|f]; [lia|]. cbn [parse_elems]. rewrite <- app_assoc.
    rewrite Hx; [|lia|by split_and!]. reflexivity.
  - change (print_seq "]"%char (map print_json (x :: y :: l)))
      with (print_json x ++ ","%char :: print_seq "]"%char (map print_json (y :: l))) in *.
    rewrite length_app in Hf. cbn [List.length] in Hf.
    destruct fuel as [|f]; [lia|]. cbn [parse_elems]. rewrite <- app_assoc.
    rewrite Hx; [|lia|by split_and!].
    change (skip_ws ((","%char :: ?t) ++ rest)) with (","%char :: t ++ rest).
    cbv iota beta. change (code "," =? 44) with true. cbv iota.
    rewrite IH; [by rewrite <- app_assoc|done|done|lia].
Qed.

Definition print_member (kv : string * json) : chars := print_str kv.1 ++ ":"%char :: print_json kv.2.

Lemma parse_members_print o acc fuel rest :
  o <> [] -> Forall (fun kv => reads_back kv.2) o ->
  (List.length (print_seq "}"%char (map print_member o)) <= fuel)%nat ->
  parse_members fuel (print_seq "}"%char (map print_member o) ++ rest) acc
  = Some (JObj (fold_left (fun a kv => obj_set kv.1 kv.2 a) o acc), rest).
Proof.
  assert (forall f k v t acc, reads_back v -> stop t -> (List.length (print_json v) <= f)%nat ->
    parse_members (S f) (print_member (k, v) ++ t) acc =
    match skip_ws t with
    | d :: r => if code d =? 44 then parse_members f r (obj_set k v acc)
                else if code d =? 125 then Some (JObj (obj_set k v acc), r) else None
    | [] => None
    end) as Hone.
  { intros f k v t a Hv Ht Hf. unfold print_member, print_str. cbn [fst snd]. rewrite <- app_assoc.
    cbn [app]. cbn [parse_members]. rewrite skip_ws_start by done.
    change (code (chr 34) =? 34) with true. cbv iota. rewrite <- app_assoc, parse_print_str. cbv iota.
    rewrite skip_ws_start by done. change (code ":" =? 58) with true. cbv iota.
    rewrite Hv by done. by rewrite of_to_chars. }
  revert acc fuel. induction o as [|[k v] o IH]; intros acc fuel Hne Ho Hf; [done|].
  apply Forall_cons in Ho as [Hv Ho]. cbn [snd] in Hv.
  assert (forall t, (List.length (print_json v) < List.length (print_member (k, v) ++ t))%nat) as Hlen.
  { intros t. unfold print_member. cbn [fst snd]. rewrite !length_app. cbn [List.length]. lia. }
  destruct o as [|kv o].
  - cbn [map print_seq] in *. destruct fuel as [|f]; [specialize (Hlen ["}"%char]); lia|].
    rewrite <- app_assoc, Hone; [reflexivity|done|by split_and!|specialize (Hlen ["}"%char]); lia].
  - change (print_seq "}"%char (map print_member ((k, v) :: kv :: o)))
      with (print_member (k, v) ++ ","%char :: print_seq "}"%char (map print_member (kv :: o))) in *.
    pose proof (Hlen (","%char :: print_seq "}"%char (map print_member (kv :: o)))) as Hl.
    rewrite length_app in Hf. cbn [List.length] in Hf.
    destruct fuel as [|f]; [lia|]. rewrite <- app_assoc.
    rewrite Hone; [|done|by split_and!|].
    + change (skip_ws ((","%char :: ?t) ++ rest)) with (","%char :: t ++ rest).
      cbv iota beta. change (code "," =? 44) with true. cbv iota.
      apply IH; [done|done|lia].
    + unfold print_member in Hf. cbn [fst snd] in Hf. rewrite length_app in Hf. cbn [List.length] in Hf. lia.
Qed.

Lemma print_seq_head close x l : exists t, print_seq close (x :: l) = x ++ t.
Proof. destruct l; by eexists. Qed.

Lemma print_json_reads_back v : jsonable v -> reads_back v.
Proof.
  induction v as [|b|n|s|l IH|o IH] using json_ind'; intros Hok fuel rest Hf Hstop.
  - destruct fuel as [|f]; [simpl in Hf; lia|]. reflexivity.
  - destruct fuel as [|f]; [destruct b; simpl in Hf; lia|]. by destruct b.
  - destruct (print_num_head n) as (c & t & E & _). simpl in Hf. rewrite E in Hf.
    destruct fuel as [|f]; [simpl in Hf; lia|]. by apply parse_value_num.
  - destruct fuel as [|f]; [simpl in Hf; lia|]. cbn [print_json]. unfold print_str. cbn [app parse_value].
    rewrite skip_ws_start by done. rewrite <- app_assoc.
    change (parse_value (S f)) with (parse_value (S f)).
    repeat match goal with |- context [code (chr 34) =? ?k] =>
      change (code (chr 34) =? k) with (34 =? k) end. cbn [Z.eqb Pos.eqb]. cbv iota.
    rewrite parse_print_str. by rewrite of_to_chars.
  - simpl in Hok. rewrite foldr_and_Forall in Hok.
    assert (Forall reads_back l) as Hl by (apply Forall_forall; intros x Hx; rewrite Forall_forall in IH, Hok; auto).
    destruct l as [|x l]; [destruct fuel as [|f]; [simpl in Hf; lia|reflexivity]|].
    destruct (print_seq_head "]"%char (print_json x) (map print_json l)) as (t & Et).
    destruct (print_json_head x) as (c & t' & Ex & Hws & H93 & _).
    change (print_json (JArr (x :: l))) with ("["%char :: print_seq "]"%char (map print_json (x :: l))) in *.
    destruct fuel as [|f]; [simpl in Hf; lia|]. cbn [app parse_value].
    rewrite skip_ws_start by done.
    change (code "[") with 91. cbn [Z.eqb Pos.eqb]. cbv iota.
    assert (skip_ws (print_seq "]"%char (map print_json (x :: l)) ++ rest) = c :: (t' ++ t) ++ rest) as Hskip.
    { cbn [map]. rewrite Et, Ex. cbn [app]. by apply skip_ws_start. }
    rewrite Hskip. apply Z.eqb_neq in H93. rewrite H93.
    rewrite parse_elems_print; [done|done|done|]. simpl in Hf. simpl. lia.
  - destruct Hok as [Hc Hok]. rewrite (foldr_and_Forall (fun kv => jsonable kv.2)) in Hok.
    assert (Forall (fun kv => reads_back kv.2) o) as Ho
      by (apply Forall_forall; intros x Hx; rewrite Forall_forall in IH, Hok; auto).
    destruct o as [|[k v] o]; [destruct fuel as [|f]; [simpl in Hf; lia|reflexivity]|].
    change (print_json (JObj ((k, v) :: o))) with ("{"%char :: print_seq "}"%char (map print_member ((k, v) :: o))) in *.
    destruct (print_seq_head "}"%char (print_member (k, v)) (map print_member o)) as (t & Et).
    destruct fuel as [|f]; [simpl in Hf; lia|]. cbn [app parse_value].
    rewrite skip_ws_start by done.
    change (code "{") with 123. cbn [Z.eqb Pos.eqb]. cbv iota.
    assert (exists t', skip_ws (print_seq "}"%char (map print_member ((k, v) :: o)) ++ rest) = chr 34 :: t') as [t' Hskip].
    { cbn [map]. rewrite Et. unfold print_member at 1, print_str. cbn [fst app]. eexists. by apply skip_ws_start. }
    rewrite Hskip. change (code (chr 34) =? 125) with false. cbv iota.
    rewrite parse_members_print; [|done|done|simpl in Hf; simpl; lia].
    by rewrite (obj_of_list_id _ Hc : fold_left _ _ [] = _).
Qed.

Lemma parse_print_json v : jsonable v -> parse_json (print_json v) = Some v.
Proof.
  intros Hv. unfold parse_json. pose proof (print_json_reads_back v Hv (List.length (print_json v)) [] ltac:(lia) I) as H.
  rewrite app_nil_r in H. by rewrite H.
Qed.

(** ** UTF-8 *)

Lemma utf8_decode_char c rest : utf8_decode (utf8_char c ++ rest) = (cons c) <$> utf8_decode rest.
Proof. destruct c as [[] [] [] [] [] [] [] []]; reflexivity. Qed.

Lemma utf8_roundtrip s : utf8_decode (utf8_encode s) = Some s.
Proof.
  induction s as [|c s IH]; [done|]. unfold utf8_encode in *. cbn [flat_map].
  by rewrite utf8_decode_char, IH.
Qed.

Definition json_stringify (v : json) : chars := utf8_encode (print_json v).
Definition json_parse (b : chars) : option json := s ← utf8_decode b; parse_json s.

Lemma json_parse_stringify v : jsonable v -> json_parse (json_stringify v) = Some v.
Proof. intros Hv. unfold json_parse, json_stringify. rewrite utf8_roundtrip. by apply parse_print_json. Qed.

#[export] Instance json_text : JsonCodec :=
  {| stringify := json_stringify; parse := json_parse; codec_ok := jsonable;
     parse_stringify := json_parse_stringify |}.
