(* ===== verification/Zod.v ===== *)
(** * The schema-validation library the SDK calls

    [zod] is a third-party package: the source only calls it.  The schemas are data
    of the source, so they are terms of [schema] here; the validator is a parameter,
    the class [Zod], whose only law is the documented behaviour of each schema form
    on a value ([zod_step], one level deep).  [zod_reference] shows that the law can
    be met, and [zparse_reference] that it determines the validator. *)

From S2P Require Import Prelude Json.

(** ** Schemas *)

Inductive schema : Type :=
| ZString                                              (* z.string() *)
| ZBoolean                                             (* z.boolean() *)
| ZUnknown                                             (* z.unknown() *)
| ZNumber (int : bool) (min max : option Z)            (* z.number().int().min().max() *)
| ZEnum (values : list string)                         (* z.enum([...]) *)
| ZLiteral (v : json)                                  (* z.literal(v) *)
| ZArray (s : schema)                                  (* z.array(s) *)
| ZRecord (s : schema)                                 (* z.record(z.string(), s) *)
| ZObject (strict : bool) (shape : list (string * schema)) (* z.object({...}), .strict() *)
| ZOptional (s : schema)                               (* s.optional() *)
| ZNullish (s : schema)                                (* s.nullish() *)
| ZDefault (s : schema) (d : json)                     (* s.default(d) *)
| ZUnion (ss : list schema).                           (* z.union([...]) *)

(** A parse either fails ([None]) or yields a value, possibly [undefined] ([Some None]). *)
Abbreviation parser := (schema -> option json -> option (option json)).

Definition within (min max : option Z) (n : num) : bool :=
  match min with Some a => negb (num_lt n a) | None => true end &&
  match max with Some b => negb (num_gt n b) | None => true end.

(** Literals are compared with [===]; the source only uses booleans and strings. *)
Definition literal_eqb (a b : json) : bool :=
  match a, b with
  | JBool x, JBool y => Bool.eqb x y
  | JStr x, JStr y => String.eqb x y
  | JNull, JNull => true
  | _, _ => false
  end.

Definition str_mem (k : string) (ks : list string) : bool := existsb (String.eqb k) ks.

Definition parse_elem (p : parser) (s : schema) (x : json) : option json :=
  match p s (Some x) with Some (Some y) => Some y | _ => None end.

Definition parse_field (p : parser) (o : list (string * json)) (ks : string * schema)
    : option (string * option json) :=
  match p ks.2 (obj_get ks.1 o) with Some r => Some (ks.1, r) | None => None end.

Definition parse_entry (p : parser) (s : schema) (kv : string * json) : option (string * json) :=
  match parse_elem p s kv.2 with Some y => Some (kv.1, y) | None => None end.

Fixpoint parse_union (p : parser) (ss : list schema) (v : option json) : option (option json) :=
  match ss with
  | [] => None
  | s :: ss' => match p s v with Some r => Some r | None => parse_union p ss' v end
  end.

Definition unknown_keys (shape : list (string * schema)) (o : list (string * json)) : bool :=
  existsb (fun k => negb (str_mem k (map fst shape))) (obj_keys o).

(** What each schema form does to a value, given the parser of its parts. *)
Definition zod_step (p : parser) (s : schema) (v : option json) : option (option json) :=
  match s with
  | ZString => match v with Some (JStr _) => Some v | _ => None end
  | ZBoolean => match v with Some (JBool _) => Some v | _ => None end
  | ZUnknown => Some v
  | ZNumber int min max =>
      match v with
      | Some (JNum n) => if implb int (num_is_int n) && within min max n then Some v else None
      | _ => None
      end
  | ZEnum values =>
      match v with Some (JStr x) => if str_mem x values then Some v else None | _ => None end
  | ZLiteral c => match v with Some x => if literal_eqb x c then Some v else None | None => None end
  | ZArray e =>
      match v with
      | Some (JArr l) => match traverse (parse_elem p e) l with Some l' => Some (Some (JArr l')) | None => None end
      | _ => None
      end
  | ZRecord e =>
      match v with
      | Some (JObj o) =>
          match traverse (parse_entry p e) o with
          | Some o' => Some (Some (JObj (obj_of_list o')))
          | None => None
          end
      | _ => None
      end
  | ZObject strict shape =>
      match v with
      | Some (JObj o) =>
          if strict && unknown_keys shape o then None
          else match traverse (parse_field p o) shape with
               | Some fs => Some (Some (JObj (compact fs)))
               | None => None
               end
      | _ => None
      end
  | ZOptional e => match v with None => Some None | Some _ => p e v end
  | ZNullish e =>
      match v with None => Some None | Some JNull => Some (Some JNull) | Some _ => p e v end
  | ZDefault e d => match v with None => p e (Some d) | Some _ => p e v end
  | ZUnion ss => parse_union p ss v
  end.

(** ** The validator as an interface *)

Class Zod : Type := {
  zparse : parser;
  zparse_law : forall s v, zparse s v = zod_step zparse s v
}.

(** A validator that meets the law. *)
Fixpoint ref_parse (s : schema) (v : option json) : option (option json) :=
  match s with
  | ZArray e =>
      match v with
      | Some (JArr l) =>
          match traverse (fun x => match ref_parse e (Some x) with Some (Some y) => Some y | _ => None end) l with
          | Some l' => Some (Some (JArr l')) | None => None end
      | _ => None
      end
  | ZRecord e =>
      match v with
      | Some (JObj o) =>
          match traverse (fun kv => match match ref_parse e (Some kv.2) with Some (Some y) => Some y | _ => None end
                                    with Some y => Some (kv.1, y) | None => None end) o with
          | Some o' => Some (Some (JObj (obj_of_list o')))
          | None => None
          end
      | _ => None
      end
  | ZObject strict shape =>
      match v with
      | Some (JObj o) =>
          if strict && unknown_keys shape o then None
          else match traverse (fun ks => match ref_parse ks.2 (obj_get ks.1 o) with
                                         | Some r => Some (ks.1, r) | None => None end) shape with
               | Some fs => Some (Some (JObj (compact fs)))
               | None => None
               end
      | _ => None
      end
  | ZOptional e => match v with None => Some None | Some _ => ref_parse e v end
  | ZNullish e =>
      match v with None => Some None | Some JNull => Some (Some JNull) | Some _ => ref_parse e v end
  | ZDefault e d => match v with None => ref_parse e (Some d) | Some _ => ref_parse e v end
  | ZUnion ss =>
      (fix go ss := match ss with
                    | [] => None
                    | s :: ss' => match ref_parse s v with Some r => Some r | None => go ss' end
                    end) ss
  | _ => zod_step (fun _ _ => None) s v
  end.

Lemma ref_parse_law s v : ref_parse s v = zod_step ref_parse s v.
Proof. destruct s; try reflexivity. simpl. induction ss as [|s ss IH]; simpl; [done|]. by destruct (ref_parse s v). Qed.

#[export] Instance zod_reference : Zod := {| zparse := ref_parse; zparse_law := ref_parse_law |}.

(** A wire literal and its parse agree field by field with an object schema: [o] are the
    properties offered, [fs] what the field parsers return, in the order of the shape. *)
Inductive aligned (p : parser) : list (string * schema) -> uobj -> uobj -> Prop :=
| aligned_nil : aligned p [] [] []
| aligned_cons k s i r shape o fs :
    p s i = Some r -> aligned p shape o fs -> aligned p ((k, s) :: shape) ((k, i) :: o) ((k, r) :: fs).

(** The fields an object schema returned for the object [o]. *)
Inductive parsed (p : parser) (o : list (string * json)) : list (string * schema) -> uobj -> Prop :=
| parsed_nil : parsed p o [] []
| parsed_cons k s r shape fs :
    p s (obj_get k o) = Some r -> parsed p o shape fs -> parsed p o ((k, s) :: shape) ((k, r) :: fs).

(** The keys of an object literal: distinct, and none an array index. *)
Definition literal_keys (ks : list string) : bool :=
  bool_decide (NoDup ks) && forallb (fun k => match array_index k with None => true | Some _ => false end) ks.

(** ** Consequences of the law *)

Lemma traverse_ext {A B} (f g : A -> option B) l :
  Forall (fun x => f x = g x) l -> traverse f l = traverse g l.
Proof. induction 1 as [|x l Hx _ IH]; simpl; [done|]. by rewrite Hx, IH. Qed.

Lemma schema_ind' (P : schema -> Prop) :
  P ZString -> P ZBoolean -> P ZUnknown -> (forall i a b, P (ZNumber i a b)) ->
  (forall l, P (ZEnum l)) -> (forall v, P (ZLiteral v)) ->
  (forall s, P s -> P (ZArray s)) -> (forall s, P s -> P (ZRecord s)) ->
  (forall b shape, Forall (fun ks => P ks.2) shape -> P (ZObject b shape)) ->
  (forall s, P s -> P (ZOptional s)) -> (forall s, P s -> P (ZNullish s)) ->
  (forall s d, P s -> P (ZDefault s d)) -> (forall ss, Forall P ss -> P (ZUnion ss)) ->
  forall s, P s.
Proof.
  intros H1 H2 H3 H4 H5 H6 H7 H8 H9 H10 H11 H12 H13. fix IH 1. intros s.
  destruct s as [| | |i a b|l|v|s|s|b shape|s|s|s d|ss].
  - exact H1.
  - exact H2.
  - exact H3.
  - apply H4.
  - apply H5.
  - apply H6.
  - apply H7, IH.
  - apply H8, IH.
  - apply H9. induction shape as [|[k s] shape IHs]; constructor; [apply IH | apply IHs].
  - apply H10, IH.
  - apply H11, IH.
  - apply H12, IH.
  - apply H13. induction ss as [|s ss IHs]; constructor; [apply IH | apply IHs].
Qed.

(** The law determines the validator. *)
Lemma zparse_reference `{Zod} s w : zparse s w = ref_parse s w.
Proof.
  revert w. induction s using schema_ind'; intros w; rewrite zparse_law, ref_parse_law; simpl; try done.
  - destruct w as [[]|]; try done. erewrite traverse_ext; [done|].
    apply Forall_forall. intros x _. unfold parse_elem. by rewrite IHs.
  - destruct w as [[]|]; try done. erewrite traverse_ext; [done|].
    apply Forall_forall. intros x _. unfold parse_entry, parse_elem. by rewrite IHs.
  - destruct w as [[]|]; try done. destruct (b && _); [done|]. erewrite traverse_ext; [done|].
    eapply Forall_impl; [exact H0|]. intros ks Hks. unfold parse_field. by rewrite Hks.
  - destruct w; done.
  - destruct w as [[]|]; done.
  - destruct w; done.
  - induction H0 as [|s ss Hs Hss IH]; simpl; [done|]. rewrite Hs. by destruct (ref_parse s w).
Qed.

Lemma str_mem_spec k ks : str_mem k ks = true <-> k ∈ ks.
Proof.
  unfold str_mem. rewrite existsb_exists, list_elem_of_In. split.
  - intros (x & Hin & E). by apply String.eqb_eq in E as ->.
  - intros Hin. exists k. by rewrite String.eqb_refl.
Qed.

(** A strict object schema rejects a value with a key outside its shape. *)
Lemma zparse_strict_unknown `{Zod} shape o k :
  k ∈ obj_keys o -> k ∉ map fst shape -> zparse (ZObject true shape) (Some (JObj o)) = None.
Proof.
  intros Hin Hni. rewrite zparse_law. simpl.
  replace (unknown_keys shape o) with true; [done|]. symmetry. apply existsb_exists.
  exists k. split; [by apply list_elem_of_In|]. apply negb_true_iff.
  destruct (str_mem k _) eqn:E; [|done]. apply str_mem_spec in E. contradiction.
Qed.

Lemma literal_keys_spec {A} (o : list (string * A)) :
  literal_keys (obj_keys o) = true ->
  NoDup (obj_keys o) /\ Forall (fun kv => array_index kv.1 = None) o.
Proof.
  unfold literal_keys. intros H. bool_simpl. split; [done|].
  rewrite forallb_forall in H0. apply Forall_forall. intros [k v] Hkv. simpl.
  specialize (H0 k). rewrite <- list_elem_of_In in H0.
  destruct (array_index k); [|done]. exfalso. discriminate H0.
  unfold obj_keys. apply list_elem_of_fmap. by exists (k, v).
Qed.

(** Reading a property of a compacted literal. *)
Lemma json_get_compact k (o : uobj) :
  literal_keys (obj_keys o) = true -> json_get k (JObj (compact o)) = mjoin (obj_get k o).
Proof.
  intros Hk. apply literal_keys_spec in Hk as [Hnd Hni].
  rewrite compact_omap by done. by apply obj_get_omap.
Qed.

Lemma aligned_keys p shape o fs :
  aligned p shape o fs -> obj_keys o = map fst shape /\ obj_keys fs = map fst shape.
Proof. induction 1 as [|? ? ? ? ? ? ? ? _ [IH1 IH2]]; simpl; [done|]. by rewrite IH1, IH2. Qed.

Lemma traverse_aligned p (full : uobj) shape o fs :
  (forall k i, (k, i) ∈ o -> obj_get k (omap defined full) = i) ->
  aligned p shape o fs ->
  traverse (parse_field p (omap defined full)) shape = Some fs.
Proof.
  intros Hget Ha. induction Ha as [|k s i r shape o fs Hp Ha IH]; simpl; [done|].
  unfold parse_field at 1. simpl. rewrite (Hget k i) by set_solver. rewrite Hp, IH; [done|].
  intros k' i' Hin. apply Hget. set_solver.
Qed.

(** A compacted literal aligned with a strict schema parses to the compacted parse results. *)
Lemma zparse_aligned `{Zod} shape o fs :
  literal_keys (obj_keys o) = true -> aligned zparse shape o fs ->
  zparse (ZObject true shape) (Some (JObj (compact o))) = Some (Some (JObj (compact fs))).
Proof.
  intros Hk Ha. pose proof (aligned_keys _ _ _ _ Ha) as [Ho _].
  apply literal_keys_spec in Hk as [Hnd Hni]. rewrite zparse_law. simpl.
  rewrite compact_omap by done.
  replace (unknown_keys shape (omap defined o)) with false.
  - rewrite (traverse_aligned zparse o shape o fs); [done| |done].
    intros k i Hin. rewrite obj_get_omap by done.
    apply obj_get_elem in Hin as ->; done.
  - symmetry. unfold unknown_keys. rewrite <- Ho. apply Bool.not_true_iff_false. intros E.
    apply existsb_exists in E as (k & Hin & E). apply negb_true_iff in E.
    assert (str_mem k (obj_keys o) = true) as E2; [|congruence].
    apply str_mem_spec. apply list_elem_of_In in Hin.
    unfold obj_keys in *. apply list_elem_of_fmap in Hin as ([k' v] & -> & Hin).
    apply list_elem_of_omap in Hin as ([k1 i] & Hin & Hd). simpl.
    unfold defined in Hd. simpl in Hd. destruct i; simplify_eq.
    apply list_elem_of_fmap. by exists (k', Some v).
Qed.

(** A literal without optional properties is its own compaction. *)
Lemma compact_full (o : list (string * json)) :
  literal_keys (obj_keys o) = true -> compact (map (fun kv => (kv.1, Some kv.2)) o) = o.
Proof.
  intros Hk. apply literal_keys_spec in Hk as [Hnd Hni].
  rewrite compact_omap.
  - clear. induction o as [|[k v] o IH]; [done|]. change (omap defined (map (fun kv => (kv.1, Some kv.2)) ((k, v) :: o)))
      with ((k, v) :: omap defined (map (fun kv => (kv.1, Some kv.2)) o)). by rewrite IH.
  - unfold obj_keys. rewrite map_map. done.
  - apply Forall_map. done.
Qed.

Lemma traverse_parsed p o shape fs :
  traverse (parse_field p o) shape = Some fs -> parsed p o shape fs.
Proof.
  revert fs. induction shape as [|[k s] shape IH]; simpl; intros fs.
  - intros [= <-]. constructor.
  - unfold parse_field at 1. simpl. destruct (p s (obj_get k o)) eqn:E; [|done].
    destruct (traverse _ shape) eqn:E2; [|done]. intros [= <-]. constructor; auto.
Qed.

Lemma zparse_object_inv `{Zod} b shape v w :
  zparse (ZObject b shape) v = Some w ->
  exists o fs, v = Some (JObj o) /\ w = Some (JObj (compact fs)) /\ parsed zparse o shape fs.
Proof.
  rewrite zparse_law. simpl. destruct v as [[| | | | |o]|]; try done.
  destruct (b && _); [done|]. destruct (traverse _ shape) eqn:E; [|done].
  intros [= <-]. exists o, l. split_and!; [done|done|]. by apply traverse_parsed.
Qed.

(** *** Inversion of the leaf schemas *)

Lemma zparse_string_inv `{Zod} v r : zparse ZString v = Some r -> exists s, v = Some (JStr s) /\ r = Some (JStr s).
Proof. rewrite zparse_law. simpl. destruct v as [[]|]; naive_solver. Qed.

Lemma zparse_boolean_inv `{Zod} v r : zparse ZBoolean v = Some r -> exists b, v = Some (JBool b) /\ r = Some (JBool b).
Proof. rewrite zparse_law. simpl. destruct v as [[]|]; naive_solver. Qed.

Lemma zparse_number_inv `{Zod} i a b v r :
  zparse (ZNumber i a b) v = Some r ->
  exists n, v = Some (JNum n) /\ r = Some (JNum n) /\ implb i (num_is_int n) = true /\ within a b n = true.
Proof.
  rewrite zparse_law. simpl. destruct v as [[]|]; try done.
  destruct (_ && _) eqn:E; [|done]. bool_simpl. naive_solver.
Qed.

Lemma zparse_enum_inv `{Zod} l v r :
  zparse (ZEnum l) v = Some r -> exists s, v = Some (JStr s) /\ r = Some (JStr s) /\ s ∈ l.
Proof.
  rewrite zparse_law. simpl. destruct v as [[]|]; try done.
  destruct (str_mem s l) eqn:E; [|done]. apply str_mem_spec in E. naive_solver.
Qed.

Lemma zparse_array_inv `{Zod} e v r :
  zparse (ZArray e) v = Some r ->
  exists l l', v = Some (JArr l) /\ r = Some (JArr l') /\ Forall2 (fun x y => zparse e (Some x) = Some (Some y)) l l'.
Proof.
  rewrite zparse_law. simpl. destruct v as [[| | | |l|]|]; try done.
  destruct (traverse _ l) as [l'|] eqn:E; [|done]. intros [= <-]. exists l, l'. split_and!; [done..|].
  apply traverse_Forall2 in E. eapply Forall2_impl; [exact E|]. intros x y. unfold parse_elem.
  destruct (zparse e (Some x)) as [[]|]; naive_solver.
Qed.

Lemma zparse_nullish_inv `{Zod} e v r :
  zparse (ZNullish e) v = Some r ->
  r = None \/ r = Some JNull \/ zparse e v = Some r.
Proof. rewrite zparse_law. simpl. destruct v as [[]|]; naive_solver. Qed.

Lemma zparse_optional_inv `{Zod} e v r :
  zparse (ZOptional e) v = Some r -> (v = None /\ r = None) \/ (exists x, v = Some x /\ zparse e v = Some r).
Proof. rewrite zparse_law. simpl. destruct v; naive_solver. Qed.

Lemma zparse_default_inv `{Zod} e d v r :
  zparse (ZDefault e d) v = Some r -> exists x, zparse e (Some x) = Some r.
Proof. rewrite zparse_law. simpl. destruct v; naive_solver. Qed.
