(* ===== verification/Enums.v ===== *)
(** * Domain enumerations: [connector-sdk/src/models/enums.ts]

    Every [z.enum] of the file is an inductive type whose wire spelling is the string
    of the source.  [WireEnum] is the interface the codecs use: the spelling, the list
    of members (the argument of [z.enum]), and the two facts that make decoding invert
    encoding. *)

From S2P Require Import Prelude Json Zod.

(** ** The interface of an enumeration *)

Class WireEnum (A : Type) : Type := {
  wire : A -> string;
  members : list A;
  members_all : forall a, a ∈ members;
  wire_distinct : NoDup (map wire members)
}.

(** The schema [z.enum([...])] of an enumeration. *)
Definition enum_schema (A : Type) `{WireEnum A} : schema := ZEnum (map wire members).

(** The member with a given spelling. *)
Definition of_wire {A} `{WireEnum A} (s : string) : option A :=
  List.find (fun a => String.eqb (wire a) s) members.

(** ** The enumerations *)

Inductive Action := Allow | Warn | Block.

(** [RiskLevel] and [Severity] are two [z.enum]s over the same four spellings. *)
Inductive Level := Low | Medium | High | Critical.
Abbreviation RiskLevel := Level.
Abbreviation Severity := Level.

Inductive Classification := Public | Internal | Confidential | Restricted.

Inductive Category :=
| CatSecret | CatPii | CatSourceCode | CatClassification | CatCompanyConfidential | CatFinancial
| CatIntellectualProperty | CatUsagePolicy | CatPromptInjection | CatSensitiveDocument
| CatCustomerData | CatCompliance | CatKeyword | CatFilePolicy | CatImagePolicy
| CatAiClassification | CatDestructiveCommand | CatLegal | CatMedical | CatHr | CatSecurity
| CatResearchDevelopment | CatCommunication | CatProcurement | CatGovernment.

Inductive Source := SrcBrowser | SrcIde | SrcCli | SrcApi.

Inductive Role := RoleSuperAdmin | RoleSecurityAdmin | RoleAuditor | RoleManager | RoleUser.

Inductive EventType :=
| PromptSubmitted | PolicyEvaluated | PromptAllowed | PromptWarned | WarningAccepted
| WarningRejected | PromptBlocked | PolicyViolation | UploadSuccess | UploadFailure
| AgentStarted | PolicyUpdated.

#[export] Instance Action_eq_dec : EqDecision Action.
Proof. solve_decision. Defined.
#[export] Instance Level_eq_dec : EqDecision Level.
Proof. solve_decision. Defined.
#[export] Instance Classification_eq_dec : EqDecision Classification.
Proof. solve_decision. Defined.
#[export] Instance Category_eq_dec : EqDecision Category.
Proof. solve_decision. Defined.
#[export] Instance Source_eq_dec : EqDecision Source.
Proof. solve_decision. Defined.
#[export] Instance Role_eq_dec : EqDecision Role.
Proof. solve_decision. Defined.
#[export] Instance EventType_eq_dec : EqDecision EventType.
Proof. solve_decision. Defined.

Definition action_wire (a : Action) : string :=
  match a with Allow => "allow" | Warn => "warn" | Block => "block" end.

Definition level_wire (l : Level) : string :=
  match l with Low => "low" | Medium => "medium" | High => "high" | Critical => "critical" end.

Definition classification_wire (c : Classification) : string :=
  match c with
  | Public => "public" | Internal => "internal" | Confidential => "confidential" | Restricted => "restricted"
  end.

Definition category_wire (c : Category) : string :=
  match c with
  | CatSecret => "secret" | CatPii => "pii" | CatSourceCode => "source_code"
  | CatClassification => "classification" | CatCompanyConfidential => "company_confidential"
  | CatFinancial => "financial" | CatIntellectualProperty => "intellectual_property"
  | CatUsagePolicy => "usage_policy" | CatPromptInjection => "prompt_injection"
  | CatSensitiveDocument => "sensitive_document" | CatCustomerData => "customer_data"
  | CatCompliance => "compliance" | CatKeyword => "keyword" | CatFilePolicy => "file_policy"
  | CatImagePolicy => "image_policy" | CatAiClassification => "ai_classification"
  | CatDestructiveCommand => "destructive_command" | CatLegal => "legal" | CatMedical => "medical"
  | CatHr => "hr" | CatSecurity => "security" | CatResearchDevelopment => "research_development"
  | CatCommunication => "communication" | CatProcurement => "procurement" | CatGovernment => "government"
  end.

Definition source_wire (s : Source) : string :=
  match s with SrcBrowser => "browser" | SrcIde => "ide" | SrcCli => "cli" | SrcApi => "api" end.

Definition role_wire (r : Role) : string :=
  match r with
  | RoleSuperAdmin => "super_admin" | RoleSecurityAdmin => "security_admin" | RoleAuditor => "auditor"
  | RoleManager => "manager" | RoleUser => "user"
  end.

Definition event_type_wire (e : EventType) : string :=
  match e with
  | PromptSubmitted => "PromptSubmitted" | PolicyEvaluated => "PolicyEvaluated"
  | PromptAllowed => "PromptAllowed" | PromptWarned => "PromptWarned"
  | WarningAccepted => "WarningAccepted" | WarningRejected => "WarningRejected"
  | PromptBlocked => "PromptBlocked" | PolicyViolation => "PolicyViolation"
  | UploadSuccess => "UploadSuccess" | UploadFailure => "UploadFailure"
  | AgentStarted => "AgentStarted" | PolicyUpdated => "PolicyUpdated"
  end.

Definition action_members := [Allow; Warn; Block].
Definition level_members := [Low; Medium; High; Critical].
Definition classification_members := [Public; Internal; Confidential; Restricted].
Definition category_members :=
  [CatSecret; CatPii; CatSourceCode; CatClassification; CatCompanyConfidential; CatFinancial;
   CatIntellectualProperty; CatUsagePolicy; CatPromptInjection; CatSensitiveDocument;
   CatCustomerData; CatCompliance; CatKeyword; CatFilePolicy; CatImagePolicy;
   CatAiClassification; CatDestructiveCommand; CatLegal; CatMedical; CatHr; CatSecurity;
   CatResearchDevelopment; CatCommunication; CatProcurement; CatGovernment].
Definition source_members := [SrcBrowser; SrcIde; SrcCli; SrcApi].
Definition role_members := [RoleSuperAdmin; RoleSecurityAdmin; RoleAuditor; RoleManager; RoleUser].
Definition event_type_members :=
  [PromptSubmitted; PolicyEvaluated; PromptAllowed; PromptWarned; WarningAccepted; WarningRejected;
   PromptBlocked; PolicyViolation; UploadSuccess; UploadFailure; AgentStarted; PolicyUpdated].

Ltac solve_members := let a := fresh in intros a; destruct a; apply (bool_decide_unpack _); vm_compute; exact I.
Ltac solve_distinct := apply (bool_decide_unpack _); vm_compute; exact I.

#[export] Instance action_enum : WireEnum Action.
Proof. refine {| wire := action_wire; members := action_members |}; [solve_members|solve_distinct]. Defined.
#[export] Instance level_enum : WireEnum Level.
Proof. refine {| wire := level_wire; members := level_members |}; [solve_members|solve_distinct]. Defined.
#[export] Instance classification_enum : WireEnum Classification.
Proof. refine {| wire := classification_wire; members := classification_members |}; [solve_members|solve_distinct]. Defined.
#[export] Instance category_enum : WireEnum Category.
Proof. refine {| wire := category_wire; members := category_members |}; [solve_members|solve_distinct]. Defined.
#[export] Instance source_enum : WireEnum Source.
Proof. refine {| wire := source_wire; members := source_members |}; [solve_members|solve_distinct]. Defined.
#[export] Instance role_enum : WireEnum Role.
Proof. refine {| wire := role_wire; members := role_members |}; [solve_members|solve_distinct]. Defined.
#[export] Instance event_type_enum : WireEnum EventType.
Proof. refine {| wire := event_type_wire; members := event_type_members |}; [solve_members|solve_distinct]. Defined.

(** [primaryEventType] *)
Definition primaryEventType (action : Action) : EventType :=
  match action with
  | Allow => PromptAllowed
  | Warn => PromptWarned
  | Block => PromptBlocked
  end.

(** ** Decoding inverts encoding *)

Section wire_enum.
Context {A : Type} `{WireEnum A}.

Lemma of_wire_Some s a : of_wire s = Some a -> wire a = s.
Proof. unfold of_wire. intros E. apply find_some in E as [_ E]. by apply String.eqb_eq. Qed.

Lemma find_distinct (l : list A) a :
  a ∈ l -> NoDup (map wire l) -> List.find (fun b => String.eqb (wire b) (wire a)) l = Some a.
Proof.
  induction l as [|b l IH]; simpl; intros Hin Hnd; [set_solver|].
  apply NoDup_cons in Hnd as [Hb Hnd]. destruct (String.eqb (wire b) (wire a)) eqn:E.
  - apply String.eqb_eq in E. apply elem_of_cons in Hin as [->|Hin]; [done|].
    destruct Hb. rewrite E. apply list_elem_of_fmap. by exists a.
  - apply IH; [|done]. apply elem_of_cons in Hin as [->|Hin]; [|done].
    by rewrite String.eqb_refl in E.
Qed.

Lemma of_wire_wire a : of_wire (wire a) = Some a.
Proof. apply find_distinct; [apply members_all | apply wire_distinct]. Qed.

Lemma wire_inj a b : wire a = wire b -> a = b.
Proof. intros E. pose proof (of_wire_wire a) as H1. rewrite E, of_wire_wire in H1. congruence. Qed.

Lemma of_wire_member s : s ∈ map wire (members (A := A)) <-> is_Some (of_wire (A := A) s).
Proof.
  split.
  - intros Hin. apply list_elem_of_fmap in Hin as (a & -> & _). exists a. apply of_wire_wire.
  - intros [a E]. apply of_wire_Some in E. subst s. apply list_elem_of_fmap. exists a.
    split; [done|]. apply members_all.
Qed.

Lemma zparse_enum_schema `{Zod} v r :
  zparse (enum_schema A) v = Some r -> exists a : A, v = Some (JStr (wire a)) /\ r = Some (JStr (wire a)).
Proof.
  intros E. apply zparse_enum_inv in E as (s & -> & -> & Hin).
  apply of_wire_member in Hin as [a Ha]. apply of_wire_Some in Ha. exists a. by rewrite Ha.
Qed.

Lemma zparse_enum_wire `{Zod} (a : A) :
  zparse (enum_schema A) (Some (JStr (wire a))) = Some (Some (JStr (wire a))).
Proof.
  rewrite zparse_law. simpl. replace (str_mem (wire a) (map wire members)) with true; [done|].
  symmetry. apply str_mem_spec. apply of_wire_member. exists a. apply of_wire_wire.
Qed.
End wire_enum.

#[export] Hint Rewrite @of_wire_wire : vg.
