(* ===== verification/Decision.v ===== *)
(** * Decisions: [decision.ts], [scan-response.ts] and [violation.ts] of [connector-sdk/src/models]

    The domain records, the wire schemas as data, the codecs between the two, the
    response envelope with its synthetic fail-closed decision, and the derived view of
    violations.  An absent optional property is [None].  A codec that throws is [None]:
    the client turns every decoder exception into one validation error. *)

From S2P Require Import Prelude Json Zod Enums.

(** ** Domain types *)

Record Finding := mkFinding {
  detectorId : string;
  f_category : Category;
  kind : string;
  spanStart : num;
  spanEnd : num;
  confidence : num;
  f_severity : Severity;
  redactedPreview : string;
  meta : list (string * string)
}.

Record Suppression := mkSuppression {
  ruleId : string;
  exceptionId : string
}.

Record Decision := mkDecision {
  requestId : string;
  action : Action;
  riskLevel : RiskLevel;
  classification : Classification;
  category : option Category;
  matchedRuleId : option string;
  severity : option Severity;
  findings : list Finding;
  suppressions : list Suppression;
  reason : string;
  policyVersion : num;
  elapsedMicros : num;
  incomplete : bool
}.

#[export] Instance Finding_eq_dec : EqDecision Finding.
Proof. solve_decision. Defined.
#[export] Instance Suppression_eq_dec : EqDecision Suppression.
Proof. solve_decision. Defined.
#[export] Instance Decision_eq_dec : EqDecision Decision.
Proof. solve_decision. Defined.

(** ** Wire schemas *)

Definition u32 : schema := ZNumber true (Some 0) (Some 4294967295).

Definition FindingWireSchema : schema :=
  ZObject true
    [("detector_id", ZString);
     ("category", enum_schema Category);
     ("kind", ZString);
     ("span_start", ZNumber true None None);
     ("span_end", ZNumber true None None);
     ("confidence", ZNumber false None None);
     ("severity", enum_schema Severity);
     ("redacted_preview", ZString);
     ("meta", ZDefault (ZRecord ZString) (JObj []))].

Definition SuppressionWireSchema : schema :=
  ZObject true [("rule_id", ZString); ("exception_id", ZString)].

Definition DecisionWireSchema : schema :=
  ZObject true
    [("request_id", ZString);
     ("action", enum_schema Action);
     ("risk_level", enum_schema RiskLevel);
     ("classification", enum_schema Classification);
     ("category", ZNullish (enum_schema Category));
     ("matched_rule_id", ZNullish ZString);
     ("severity", ZNullish (enum_schema Severity));
     ("findings", ZDefault (ZArray FindingWireSchema) (JArr []));
     ("suppressions", ZDefault (ZArray SuppressionWireSchema) (JArr []));
     ("reason", ZDefault ZString (JStr ""));
     ("policy_version", ZDefault u32 (JNum (NInt 0)));
     ("elapsed_micros", ZDefault u32 (JNum (NInt 0)));
     ("incomplete", ZDefault ZBoolean (JBool false))].

(** ** Reading a validated wire object *)

Definition get_str (k : string) (w : json) : option string :=
  match json_get k w with Some (JStr s) => Some s | _ => None end.
Definition get_num (k : string) (w : json) : option num :=
  match json_get k w with Some (JNum n) => Some n | _ => None end.
Definition get_bool (k : string) (w : json) : option bool :=
  match json_get k w with Some (JBool b) => Some b | _ => None end.
Definition get_arr (k : string) (w : json) : option (list json) :=
  match json_get k w with Some (JArr l) => Some l | _ => None end.
Definition enum_of {A} `{WireEnum A} (v : option json) : option A :=
  match v with Some (JStr s) => of_wire s | _ => None end.
Definition get_enum {A} `{WireEnum A} (k : string) (w : json) : option A := enum_of (json_get k w).

(** [if (w.k != null) target.k = w.k]: [null] and [undefined] both leave the property out. *)
Definition opt_of {B} (conv : string -> option B) (v : option json) : option (option B) :=
  match v with
  | None | Some JNull => Some None
  | Some (JStr s) => match conv s with Some b => Some (Some b) | None => None end
  | Some _ => None
  end.
Definition get_opt {B} (conv : string -> option B) (k : string) (w : json) : option (option B) :=
  opt_of conv (json_get k w).

Definition entry_str (kv : string * json) : option (string * string) :=
  match kv.2 with JStr s => Some (kv.1, s) | _ => None end.

Definition get_record (k : string) (w : json) : option (list (string * string)) :=
  match json_get k w with Some (JObj o) => traverse entry_str o | _ => None end.

(** ** Decoders *)

Definition decodeFinding (w : json) : option Finding :=
  detectorId ← get_str "detector_id" w;
  category ← get_enum "category" w;
  kind ← get_str "kind" w;
  spanStart ← get_num "span_start" w;
  spanEnd ← get_num "span_end" w;
  confidence ← get_num "confidence" w;
  severity ← get_enum "severity" w;
  redactedPreview ← get_str "redacted_preview" w;
  meta ← get_record "meta" w;
  Some (mkFinding detectorId category kind spanStart spanEnd confidence severity redactedPreview meta).

Definition decodeSuppression (w : json) : option Suppression :=
  ruleId ← get_str "rule_id" w;
  exceptionId ← get_str "exception_id" w;
  Some (mkSuppression ruleId exceptionId).

(** The part of [decodeDecision] after [DecisionWireSchema.parse]. *)
Definition decodeDecisionFields (w : json) : option Decision :=
  requestId ← get_str "request_id" w;
  action ← get_enum "action" w;
  riskLevel ← get_enum "risk_level" w;
  classification ← get_enum "classification" w;
  fs ← get_arr "findings" w;
  findings ← traverse decodeFinding fs;
  ss ← get_arr "suppressions" w;
  suppressions ← traverse decodeSuppression ss;
  reason ← get_str "reason" w;
  policyVersion ← get_num "policy_version" w;
  elapsedMicros ← get_num "elapsed_micros" w;
  incomplete ← get_bool "incomplete" w;
  category ← get_opt of_wire "category" w;
  matchedRuleId ← get_opt Some "matched_rule_id" w;
  severity ← get_opt of_wire "severity" w;
  Some (mkDecision requestId action riskLevel classification category matchedRuleId severity
          findings suppressions reason policyVersion elapsedMicros incomplete).

Definition decodeDecision `{Zod} (raw : option json) : option Decision :=
  match zparse DecisionWireSchema raw with
  | Some (Some w) => decodeDecisionFields w
  | _ => None
  end.

(** ** Encoders *)

Definition enc_enum {A} `{WireEnum A} (a : A) : json := JStr (wire a).

Definition encodeFinding (f : Finding) : json :=
  JObj [("detector_id", JStr (detectorId f));
        ("category", enc_enum (f_category f));
        ("kind", JStr (kind f));
        ("span_start", JNum (spanStart f));
        ("span_end", JNum (spanEnd f));
        ("confidence", JNum (confidence f));
        ("severity", enc_enum (f_severity f));
        ("redacted_preview", JStr (redactedPreview f));
        ("meta", JObj (map (fun kv => (kv.1, JStr kv.2)) (meta f)))].

Definition encodeSuppression (s : Suppression) : json :=
  JObj [("rule_id", JStr (ruleId s)); ("exception_id", JStr (exceptionId s))].

Definition encodeDecision (d : Decision) : json :=
  JObj (compact
    [("request_id", Some (JStr (requestId d)));
     ("action", Some (enc_enum (action d)));
     ("risk_level", Some (enc_enum (riskLevel d)));
     ("classification", Some (enc_enum (classification d)));
     ("category", enc_enum <$> category d);
     ("matched_rule_id", JStr <$> matchedRuleId d);
     ("severity", enc_enum <$> severity d);
     ("findings", Some (JArr (map encodeFinding (findings d))));
     ("suppressions", Some (JArr (map encodeSuppression (suppressions d))));
     ("reason", Some (JStr (reason d)));
     ("policy_version", Some (JNum (policyVersion d)));
     ("elapsed_micros", Some (JNum (elapsedMicros d)));
     ("incomplete", Some (JBool (incomplete d)))]).

(** ** Well-formed values: what the wire format can carry *)

Definition is_u32 (n : num) : Prop := exists z, n = NInt z /\ 0 <= z <= 4294967295.

Definition finding_wf (f : Finding) : Prop :=
  num_is_int (spanStart f) = true /\ num_is_int (spanEnd f) = true /\ obj_canon (meta f).

Definition decision_wf (d : Decision) : Prop :=
  Forall finding_wf (findings d) /\ is_u32 (policyVersion d) /\ is_u32 (elapsedMicros d).

(** ** [scan-response.ts] *)

Record ScanResponse := mkScanResponse {
  decision : Decision;
  resp_requestId : string;
  elapsedMs : Z;
  schemaVersion : string;
  fromFallback : bool
}.

Definition makeScanResponse (d : Decision) (requestId : string) (elapsedMs : Z)
    (fromFallback : option bool) : ScanResponse :=
  mkScanResponse d requestId elapsedMs SCHEMA_VERSION (default false fromFallback).

Definition syntheticDecision (requestId : string) (action : Action) (reason : string)
    (riskLevel : option RiskLevel) (classification : option Classification) : Decision :=
  {| requestId := requestId;
     action := action;
     riskLevel := default High riskLevel;
     classification := default Internal classification;
     category := None; matchedRuleId := None; severity := None;
     findings := []; suppressions := [];
     reason := reason;
     policyVersion := NInt 0; elapsedMicros := NInt 0;
     incomplete := true |}.

(** ** [violation.ts] *)

Record Violation := mkViolation {
  v_ruleId : string;
  v_severity : option Severity;
  v_categories : list Category;
  v_findings : list Finding
}.

Definition SEVERITY_ORDER (s : Severity) : Z :=
  match s with Low => 0 | Medium => 1 | High => 2 | Critical => 3 end.

Fixpoint maxSeverity_go (best : option Severity) (fs : list Finding) : option Severity :=
  match fs with
  | [] => best
  | f :: fs' =>
      let best' :=
        match best with
        | None => Some (f_severity f)
        | Some b => if SEVERITY_ORDER b <? SEVERITY_ORDER (f_severity f) then Some (f_severity f) else best
        end in
      maxSeverity_go best' fs'
  end.

Definition maxSeverity (fs : list Finding) : option Severity := maxSeverity_go None fs.

Definition violationsFrom (d : Decision) : list Violation :=
  match action d, matchedRuleId d with
  | Allow, _ | _, None => []
  | _, Some rule =>
      let sev := match maxSeverity (findings d) with Some s => Some s | None => severity d end in
      [mkViolation rule sev (js_set (map f_category (findings d))) (findings d)]
  end.

(** ** Codec proofs: automation *)

(** Read the properties of a compacted literal. *)
Ltac read_fields :=
  unfold get_opt, get_enum, get_str, get_num, get_bool, get_arr, get_record;
  rewrite ?json_get_compact by (vm_compute; reflexivity);
  cbn [json_get obj_get mjoin option_join String.eqb Ascii.eqb Bool.eqb].

(** Turn an object schema's success into one hypothesis per field. *)
Ltac inv_parsed :=
  repeat match goal with
  | H : parsed _ _ (_ :: _) _ |- _ => inversion H; subst; clear H
  | H : parsed _ _ [] _ |- _ => inversion H; subst; clear H
  end.

Ltac inv_leaves :=
  repeat match goal with
  | H : zparse ZString _ = Some _ |- _ => apply zparse_string_inv in H as (? & ? & ->)
  | H : zparse ZBoolean _ = Some _ |- _ => apply zparse_boolean_inv in H as (? & ? & ->)
  | H : zparse (ZNumber _ _ _) _ = Some _ |- _ => apply zparse_number_inv in H as (? & ? & -> & ? & ?)
  | H : zparse u32 _ = Some _ |- _ => unfold u32 in H
  | H : zparse (enum_schema _) _ = Some _ |- _ => apply zparse_enum_schema in H as (? & ? & ->)
  | H : zparse (ZDefault _ _) _ = Some _ |- _ => apply zparse_default_inv in H as (? & H)
  | H : zparse (ZArray _) _ = Some _ |- _ => apply zparse_array_inv in H as (? & ? & ? & -> & H)
  end.

(** ** Leaves *)

Section codecs.
Context `{Zod}.

Lemma zparse_nullish_str v r : zparse (ZNullish ZString) v = Some r -> exists o, opt_of Some r = Some o.
Proof.
  intros E. apply zparse_nullish_inv in E as [->|[->|E]]; [by eexists..|].
  apply zparse_string_inv in E as (s & _ & ->). by eexists.
Qed.

Lemma zparse_nullish_enum {A} `{WireEnum A} v r :
  zparse (ZNullish (enum_schema A)) v = Some r -> exists o, opt_of (of_wire (A := A)) r = Some o.
Proof.
  intros E. apply zparse_nullish_inv in E as [->|[->|E]]; [by eexists..|].
  apply zparse_enum_schema in E as (a & _ & ->). simpl. rewrite of_wire_wire. by eexists.
Qed.

Lemma zparse_nullish_some_str o : zparse (ZNullish ZString) (JStr <$> o) = Some (JStr <$> o).
Proof. destruct o; rewrite zparse_law; simpl; [|done]. by rewrite zparse_law. Qed.

Lemma zparse_nullish_some_enum {A} `{WireEnum A} (o : option A) :
  zparse (ZNullish (enum_schema A)) (enc_enum <$> o) = Some (enc_enum <$> o).
Proof. destruct o; rewrite zparse_law; simpl; [|done]. apply zparse_enum_wire. Qed.

Lemma opt_of_str o : opt_of Some (JStr <$> o) = Some o.
Proof. by destruct o. Qed.

Lemma opt_of_enum {A} `{WireEnum A} (o : option A) : opt_of of_wire (enc_enum <$> o) = Some o.
Proof. destruct o; simpl; [by rewrite of_wire_wire|done]. Qed.

Lemma enum_of_enc {A} `{WireEnum A} (a : A) : enum_of (Some (enc_enum a)) = Some a.
Proof. apply of_wire_wire. Qed.

Lemma zparse_string_lit s : zparse ZString (Some (JStr s)) = Some (Some (JStr s)).
Proof. by rewrite zparse_law. Qed.

Lemma zparse_boolean_lit b : zparse ZBoolean (Some (JBool b)) = Some (Some (JBool b)).
Proof. by rewrite zparse_law. Qed.

Lemma zparse_number_lit i a b n :
  implb i (num_is_int n) = true -> within a b n = true ->
  zparse (ZNumber i a b) (Some (JNum n)) = Some (Some (JNum n)).
Proof. intros H1 H2. rewrite zparse_law. simpl. by rewrite H1, H2. Qed.

Lemma zparse_u32_lit n : is_u32 n -> zparse u32 (Some (JNum n)) = Some (Some (JNum n)).
Proof.
  intros (z & -> & Hz). apply zparse_number_lit; [done|]. unfold within, num_lt, num_gt.
  apply andb_true_iff. split; apply negb_true_iff; apply Z.ltb_ge; lia.
Qed.

Lemma u32_of_checks n :
  implb true (num_is_int n) = true -> within (Some 0) (Some 4294967295) n = true -> is_u32 n.
Proof.
  destruct n as [z|m k]; [|done]. intros _. unfold within, num_lt, num_gt. intros H1.
  bool_simpl. exists z. split; [done|lia].
Qed.

Lemma zparse_default_some e d v : zparse (ZDefault e d) (Some v) = zparse e (Some v).
Proof. by rewrite zparse_law. Qed.

Lemma zparse_array_map {A} e (enc : A -> json) l :
  (forall x, x ∈ l -> zparse e (Some (enc x)) = Some (Some (enc x))) ->
  zparse (ZArray e) (Some (JArr (map enc l))) = Some (Some (JArr (map enc l))).
Proof.
  intros Hl. rewrite zparse_law. simpl. rewrite (traverse_map_inv _ enc enc); [done|].
  intros x Hx. unfold parse_elem. by rewrite Hl.
Qed.

Lemma zparse_record_str (m : list (string * string)) :
  obj_canon m ->
  zparse (ZRecord ZString) (Some (JObj (map (fun kv => (kv.1, JStr kv.2)) m)))
  = Some (Some (JObj (map (fun kv => (kv.1, JStr kv.2)) m))).
Proof.
  intros Hc. rewrite zparse_law. simpl.
  rewrite (traverse_map_inv _ (fun kv => (kv.1, JStr kv.2)) (fun kv => (kv.1, JStr kv.2))).
  - rewrite obj_of_list_id; [done|]. unfold obj_canon, obj_keys in *. rewrite map_map. done.
  - intros kv _. unfold parse_entry, parse_elem. simpl. by rewrite zparse_string_lit.
Qed.

Lemma traverse_entry_str m : traverse entry_str (map (fun kv => (kv.1, JStr kv.2)) m) = Some m.
Proof.
  rewrite (traverse_map_inv entry_str _ id); [by rewrite map_id|]. intros [k s] _. done.
Qed.

(** What [z.record(z.string(), z.string())] returns is an object of strings. *)
Lemma zparse_record_inv v r :
  zparse (ZRecord ZString) v = Some r ->
  exists m, r = Some (JObj (map (fun kv => (kv.1, JStr kv.2)) m)) /\ obj_canon m.
Proof.
  rewrite zparse_law. simpl. destruct v as [[| | | | |o]|]; try done.
  destruct (traverse _ o) as [o'|] eqn:E; [|done]. intros [= <-].
  assert (exists m, o' = map (fun kv => (kv.1, JStr kv.2)) m) as [m ->].
  { apply traverse_Forall2 in E. induction E as [|kv kv' o o' Hkv E [m ->]]; [by exists []|].
    unfold parse_entry, parse_elem in Hkv. destruct (zparse ZString (Some kv.2)) as [[y|]|] eqn:E2; try done.
    apply zparse_string_inv in E2 as (s & _ & [= ->]). simplify_eq. by exists ((kv.1, s) :: m). }
  rewrite obj_of_list_map. exists (obj_of_list m). split; [done|]. apply obj_of_list_canon.
Qed.

Lemma zparse_enc_enum {A} `{WireEnum A} (a : A) :
  zparse (enum_schema A) (Some (enc_enum a)) = Some (Some (enc_enum a)).
Proof. apply zparse_enum_wire. Qed.
End codecs.

#[export] Hint Resolve zparse_string_lit zparse_boolean_lit zparse_number_lit zparse_u32_lit
  zparse_nullish_some_str zparse_nullish_some_enum zparse_enc_enum : vg.

Section decision_codec.
Context `{Zod}.

Lemma zparse_encodeSuppression s :
  zparse SuppressionWireSchema (Some (encodeSuppression s)) = Some (Some (encodeSuppression s)).
Proof.
  unfold encodeSuppression.
  rewrite <- (compact_full [("rule_id", JStr (ruleId s)); ("exception_id", JStr (exceptionId s))]) by (vm_compute; done).
  apply zparse_aligned; [vm_compute; done|]. repeat constructor; eauto with vg.
Qed.

Lemma decode_encodeSuppression s : decodeSuppression (encodeSuppression s) = Some s.
Proof. by destruct s. Qed.

Lemma zparse_encodeFinding f :
  finding_wf f -> zparse FindingWireSchema (Some (encodeFinding f)) = Some (Some (encodeFinding f)).
Proof.
  intros (Hs & He & Hm). unfold encodeFinding.
  match goal with |- context [JObj ?l] =>
    match l with (("detector_id", _) :: _) => rewrite <- (compact_full l) by (vm_compute; done) end end.
  apply zparse_aligned; [vm_compute; done|]. simpl.
  repeat constructor; try rewrite zparse_default_some; eauto with vg.
  by apply zparse_record_str.
Qed.

Lemma decode_encodeFinding f : decodeFinding (encodeFinding f) = Some f.
Proof.
  unfold decodeFinding, encodeFinding. read_fields. rewrite !enum_of_enc. cbn.
  rewrite traverse_entry_str. by destruct f.
Qed.

Lemma zparse_encodeDecision d :
  decision_wf d -> zparse DecisionWireSchema (Some (encodeDecision d)) = Some (Some (encodeDecision d)).
Proof.
  intros (Hf & Hp & He). apply zparse_aligned; [vm_compute; done|].
  repeat constructor; try rewrite zparse_default_some; eauto with vg.
  - apply zparse_array_map. intros f Hin. apply zparse_encodeFinding. rewrite Forall_forall in Hf. auto.
  - apply zparse_array_map. intros s _. apply zparse_encodeSuppression.
Qed.

Lemma decodeFields_encodeDecision d : decodeDecisionFields (encodeDecision d) = Some d.
Proof.
  unfold decodeDecisionFields, encodeDecision. read_fields.
  rewrite !enum_of_enc. cbn [mbind option_bind].
  rewrite (traverse_map_inv decodeFinding encodeFinding id) by (intros; apply decode_encodeFinding).
  cbn [mbind option_bind].
  rewrite (traverse_map_inv decodeSuppression encodeSuppression id) by (intros; apply decode_encodeSuppression).
  cbn [mbind option_bind]. rewrite !map_id.
  rewrite !opt_of_enum, opt_of_str. by destruct d.
Qed.

(** Every value a schema accepts is decoded, to a well-formed domain value. *)
Lemma decodeSuppression_total v w :
  zparse SuppressionWireSchema v = Some (Some w) -> exists s, decodeSuppression w = Some s.
Proof.
  intros E. apply zparse_object_inv in E as (o & fs & -> & [= ->] & Hp).
  inv_parsed. inv_leaves. unfold decodeSuppression. read_fields. by eexists.
Qed.

Lemma decodeFinding_total v w :
  zparse FindingWireSchema v = Some (Some w) -> exists f, decodeFinding w = Some f /\ finding_wf f.
Proof.
  intros E. apply zparse_object_inv in E as (o & fs & -> & [= ->] & Hp).
  inv_parsed. inv_leaves.
  match goal with H : zparse (ZRecord _) _ = _ |- _ => apply zparse_record_inv in H as (m & -> & Hm) end.
  unfold decodeFinding. read_fields.
  cbn [enum_of]. rewrite !of_wire_wire. cbn. rewrite traverse_entry_str. cbn.
  eexists. split; [done|]. by split_and!.
Qed.

Lemma traverse_total {A B} (f : A -> option B) (P : B -> Prop) l :
  Forall (fun x => exists y, f x = Some y /\ P y) l -> exists l', traverse f l = Some l' /\ Forall P l'.
Proof.
  induction 1 as [|x l (y & Hy & HP) _ (l' & Hl' & HPl)]; simpl; [by exists []|].
  rewrite Hy, Hl'. exists (y :: l'). split; [done|by constructor].
Qed.

Lemma decodeDecision_total raw w :
  zparse DecisionWireSchema raw = Some w -> exists d, decodeDecision raw = Some d /\ decision_wf d.
Proof.
  intros E. unfold decodeDecision. rewrite E.
  apply zparse_object_inv in E as (o & fs & -> & -> & Hp).
  inv_parsed. inv_leaves.
  repeat match goal with
  | H : zparse (ZNullish ZString) _ = _ |- _ => apply zparse_nullish_str in H as [? H]
  | H : zparse (ZNullish (enum_schema _)) _ = _ |- _ => apply zparse_nullish_enum in H as [? H]
  end.
  unfold decodeDecisionFields. read_fields. cbn [enum_of]. rewrite !of_wire_wire. cbn.
  match goal with H : Forall2 (fun x y => zparse FindingWireSchema _ = _) ?l0 ?l |- _ =>
    destruct (traverse_total decodeFinding finding_wf l) as (fl & -> & Hfl);
      [clear -H H0; induction H; constructor; eauto using decodeFinding_total|] end.
  match goal with H : Forall2 (fun x y => zparse SuppressionWireSchema _ = _) ?l0 ?l |- _ =>
    destruct (traverse_total decodeSuppression (fun _ => True) l) as (sl & -> & _);
      [clear -H H0; induction H; constructor; [edestruct decodeSuppression_total; eauto|done]|] end.
  cbn. repeat match goal with H : opt_of _ _ = Some _ |- _ => rewrite H; clear H end. cbn.
  eexists. split; [done|]. split_and!; [done|by apply u32_of_checks..].
Qed.
End decision_codec.

(** ** [maxSeverity] *)

Lemma maxSeverity_go_spec best fs s :
  maxSeverity_go best fs = Some s ->
  (Some s = best \/ s ∈ map f_severity fs) /\
  (forall b, best = Some b -> SEVERITY_ORDER b <= SEVERITY_ORDER s) /\
  Forall (fun f => SEVERITY_ORDER (f_severity f) <= SEVERITY_ORDER s) fs.
Proof.
  revert best. induction fs as [|f fs IH]; intros best; simpl.
  - intros ->. split_and!; [auto| |constructor]. intros b [= ->]. lia.
  - intros E. apply IH in E as (Hin & Hb & Hall). destruct best as [b|].
    + destruct (SEVERITY_ORDER b <? SEVERITY_ORDER (f_severity f)) eqn:Hlt; bool_simpl;
        specialize (Hb _ eq_refl); (split_and!; [set_solver|intros ? [= <-]; lia|constructor; [lia|done]]).
    + specialize (Hb _ eq_refl). split_and!; [set_solver|done|by constructor].
Qed.

Lemma maxSeverity_go_None best fs : maxSeverity_go best fs = None <-> best = None /\ fs = [].
Proof.
  revert best. induction fs as [|f fs IH]; intros best; simpl; [naive_solver|].
  rewrite IH. split; [|naive_solver]. intros [Hb _]. destruct best as [b|]; [|done].
  by destruct (SEVERITY_ORDER b <? _).
Qed.

(** ** Properties *)

(** C29: [decodeDecision] inverts [encodeDecision] on every decision the wire format can carry. *)
Theorem decision_roundtrip `{Zod} d : decision_wf d -> decodeDecision (Some (encodeDecision d)) = Some d.
Proof.
  intros Hd. unfold decodeDecision. rewrite zparse_encodeDecision by done. apply decodeFields_encodeDecision.
Qed.

(** A block decision with a finding and an optional field of each kind. *)
Definition sample_decision : Decision :=
  mkDecision "r1" Block High Confidential (Some CatSecret) (Some "rule-7") None
    [mkFinding "aws" CatSecret "access_key" (NInt 3) (NInt 23) (NFrac 95 2) Critical "AKIA..." [("entropy", "4.1")]]
    [mkSuppression "rule-1" "ex-9"] "secret found" (NInt 12) (NInt 850) false.

Lemma sample_decision_wf : decision_wf sample_decision.
Proof.
  split_and!.
  - repeat constructor; done || set_solver.
  - by exists 12.
  - by exists 850.
Qed.

Lemma decision_roundtrip_witness : decodeDecision (Some (encodeDecision sample_decision)) = Some sample_decision.
Proof. apply decision_roundtrip. exact sample_decision_wf. Defined.


(** [violationsFrom]: nothing for an allowed prompt or without a matched rule; otherwise one
    violation of that rule that carries every finding, each category once, and the highest
    severity among the findings (the rule's own severity when there are none). *)
Theorem violationsFrom_spec d :
  match violationsFrom d with
  | [] => action d = Allow \/ matchedRuleId d = None
  | [v] =>
      action d <> Allow /\ matchedRuleId d = Some (v_ruleId v) /\ v_findings v = findings d /\
      NoDup (v_categories v) /\ (forall c, c ∈ v_categories v <-> c ∈ map f_category (findings d)) /\
      (findings d = [] -> v_severity v = severity d) /\
      (findings d <> [] -> exists s, v_severity v = Some s /\ s ∈ map f_severity (findings d) /\
         Forall (fun f => SEVERITY_ORDER (f_severity f) <= SEVERITY_ORDER s) (findings d))
  | _ => False
  end.
Proof.
  unfold violationsFrom. destruct (action d) eqn:Ha, (matchedRuleId d) as [rule|] eqn:Hr; auto; simpl;
    (split_and!; [done|done|done|apply js_set_NoDup|intros; apply elem_of_js_set|by intros ->|];
     intros Hne; destruct (maxSeverity (findings d)) as [s|] eqn:Hm;
     [apply maxSeverity_go_spec in Hm as ([Hm|Hm] & _ & Hall); [done|]; by exists s
     |by apply maxSeverity_go_None in Hm as [_ ?]]).
Qed.
