(* ===== verification/ScanRequest.v ===== *)
(** * Scan requests: [connector-sdk/src/models/scan-request.ts]

    A prompt with the metadata of where it came from, its wire schema and codecs. *)

From S2P Require Import Prelude Json Zod Enums Decision.

(** ** Domain types *)

Record RepoContext := mkRepo {
  repo_name : string;
  repo_classification : option Classification
}.

Record FileContext := mkFile {
  file_path : string;
  fileExtension : option string
}.

Record UserContext := mkUser {
  userId : string;
  role : Role;
  groups : list string
}.

Record ScanContext := mkContext {
  source : option Source;
  provider : option string;
  model : option string;
  app : option string;
  repo : option RepoContext;
  file : option FileContext;
  user : UserContext
}.

Record ScanRequest := mkScanRequest {
  text : string;
  context : ScanContext
}.

#[export] Instance RepoContext_eq_dec : EqDecision RepoContext.
Proof. solve_decision. Defined.
#[export] Instance FileContext_eq_dec : EqDecision FileContext.
Proof. solve_decision. Defined.
#[export] Instance UserContext_eq_dec : EqDecision UserContext.
Proof. solve_decision. Defined.
#[export] Instance ScanContext_eq_dec : EqDecision ScanContext.
Proof. solve_decision. Defined.
#[export] Instance ScanRequest_eq_dec : EqDecision ScanRequest.
Proof. solve_decision. Defined.

(** ** Wire schemas *)

Definition RepoWireSchema : schema :=
  ZObject true [("name", ZString); ("classification", ZOptional (enum_schema Classification))].

Definition FileWireSchema : schema :=
  ZObject true [("path", ZString); ("extension", ZOptional ZString)].

Definition UserWireSchema : schema :=
  ZObject true [("user_id", ZString); ("role", enum_schema Role); ("groups", ZArray ZString)].

Definition ContextWireSchema : schema :=
  ZObject true
    [("source", ZOptional (enum_schema Source));
     ("provider", ZOptional ZString);
     ("model", ZOptional ZString);
     ("app", ZOptional ZString);
     ("repo", ZOptional RepoWireSchema);
     ("file", ZOptional FileWireSchema);
     ("user", UserWireSchema)].

Definition ScanRequestWireSchema : schema :=
  ZObject true [("text", ZString); ("context", ContextWireSchema)].

(** ** Decoder *)

(** [if (w.k !== undefined) target.k = w.k]: the schema has excluded [null]. *)
Definition get_undef {B} (conv : json -> option B) (k : string) (w : json) : option (option B) :=
  match json_get k w with
  | None => Some None
  | Some v => match conv v with Some b => Some (Some b) | None => None end
  end.

Definition as_str (v : json) : option string := match v with JStr s => Some s | _ => None end.
Definition as_enum {A} `{WireEnum A} (v : json) : option A := enum_of (Some v).

Definition decodeRepo (w : json) : option RepoContext :=
  name ← get_str "name" w;
  classification ← get_undef as_enum "classification" w;
  Some (mkRepo name classification).

Definition decodeFile (w : json) : option FileContext :=
  path ← get_str "path" w;
  extension ← get_undef as_str "extension" w;
  Some (mkFile path extension).

Definition decodeUser (w : json) : option UserContext :=
  user_id ← get_str "user_id" w;
  role ← get_enum "role" w;
  gs ← get_arr "groups" w;
  groups ← traverse as_str gs;
  Some (mkUser user_id role groups).

Definition decodeContext (w : json) : option ScanContext :=
  u ← json_get "user" w;
  user ← decodeUser u;
  source ← get_undef as_enum "source" w;
  provider ← get_undef as_str "provider" w;
  model ← get_undef as_str "model" w;
  app ← get_undef as_str "app" w;
  repo ← get_undef decodeRepo "repo" w;
  file ← get_undef decodeFile "file" w;
  Some (mkContext source provider model app repo file user).

Definition decodeScanRequest `{Zod} (raw : option json) : option ScanRequest :=
  match zparse ScanRequestWireSchema raw with
  | Some (Some w) =>
      c ← json_get "context" w;
      context ← decodeContext c;
      text ← get_str "text" w;
      Some (mkScanRequest text context)
  | _ => None
  end.

(** ** Encoder *)

Definition encodeRepo (r : RepoContext) : json :=
  JObj (compact [("name", Some (JStr (repo_name r)));
                 ("classification", enc_enum <$> repo_classification r)]).

Definition encodeFile (f : FileContext) : json :=
  JObj (compact [("path", Some (JStr (file_path f)));
                 ("extension", JStr <$> fileExtension f)]).

Definition encodeUser (u : UserContext) : json :=
  JObj [("user_id", JStr (userId u)); ("role", enc_enum (role u)); ("groups", JArr (map JStr (groups u)))].

Definition encodeContext (c : ScanContext) : json :=
  JObj (compact
    [("source", enc_enum <$> source c);
     ("provider", JStr <$> provider c);
     ("model", JStr <$> model c);
     ("app", JStr <$> app c);
     ("repo", encodeRepo <$> repo c);
     ("file", encodeFile <$> file c);
     ("user", Some (encodeUser (user c)))]).

Definition encodeScanRequest (r : ScanRequest) : json :=
  JObj [("text", JStr (text r)); ("context", encodeContext (context r))].

(** ** The codec *)

Section scan_request_codec.
Context `{Zod}.

Lemma zparse_optional_fmap {A} e (enc : A -> json) (o : option A) :
  (forall x, zparse e (Some (enc x)) = Some (Some (enc x))) ->
  zparse (ZOptional e) (enc <$> o) = Some (enc <$> o).
Proof. intros He. destruct o; rewrite zparse_law; simpl; [apply He|done]. Qed.

Lemma get_undef_fmap {A} conv (enc : A -> json) k (o : option A) w :
  (forall x, conv (enc x) = Some x) -> json_get k w = enc <$> o -> get_undef conv k w = Some o.
Proof. intros Hc Hg. unfold get_undef. rewrite Hg. destruct o; simpl; [by rewrite Hc|done]. Qed.

Lemma zparse_encodeRepo r : zparse RepoWireSchema (Some (encodeRepo r)) = Some (Some (encodeRepo r)).
Proof.
  apply zparse_aligned; [vm_compute; done|].
  repeat constructor; eauto with vg. apply zparse_optional_fmap. eauto with vg.
Qed.

Lemma zparse_encodeFile f : zparse FileWireSchema (Some (encodeFile f)) = Some (Some (encodeFile f)).
Proof.
  apply zparse_aligned; [vm_compute; done|].
  repeat constructor; eauto with vg. apply zparse_optional_fmap. eauto with vg.
Qed.

Lemma zparse_encodeUser u : zparse UserWireSchema (Some (encodeUser u)) = Some (Some (encodeUser u)).
Proof.
  unfold encodeUser.
  match goal with |- context [JObj ?l] => rewrite <- (compact_full l) by (vm_compute; done) end.
  apply zparse_aligned; [vm_compute; done|]. simpl.
  repeat constructor; eauto with vg. apply zparse_array_map. eauto with vg.
Qed.

Lemma zparse_encodeContext c : zparse ContextWireSchema (Some (encodeContext c)) = Some (Some (encodeContext c)).
Proof.
  apply zparse_aligned; [vm_compute; done|].
  repeat constructor; try (apply zparse_optional_fmap; eauto with vg);
    auto using zparse_encodeRepo, zparse_encodeFile, zparse_encodeUser.
Qed.

Lemma zparse_encodeScanRequest r :
  zparse ScanRequestWireSchema (Some (encodeScanRequest r)) = Some (Some (encodeScanRequest r)).
Proof.
  unfold encodeScanRequest.
  match goal with |- context [JObj ?l] => rewrite <- (compact_full l) by (vm_compute; done) end.
  apply zparse_aligned; [vm_compute; done|]. simpl.
  repeat constructor; eauto using zparse_encodeContext with vg.
Qed.

Lemma decode_encodeRepo r : decodeRepo (encodeRepo r) = Some r.
Proof.
  unfold decodeRepo, encodeRepo.
  rewrite (get_undef_fmap _ enc_enum "classification" (repo_classification r)); [read_fields; by destruct r| |read_fields; done].
  intros x. apply enum_of_enc.
Qed.

Lemma decode_encodeFile f : decodeFile (encodeFile f) = Some f.
Proof.
  unfold decodeFile, encodeFile.
  rewrite (get_undef_fmap _ JStr "extension" (fileExtension f)); [read_fields; by destruct f|done|read_fields; done].
Qed.

Lemma decode_encodeUser u : decodeUser (encodeUser u) = Some u.
Proof.
  unfold decodeUser, encodeUser. read_fields. rewrite enum_of_enc. cbn [mbind option_bind].
  rewrite (traverse_map_inv as_str JStr id) by done. rewrite map_id. by destruct u.
Qed.

Lemma decode_encodeContext c : decodeContext (encodeContext c) = Some c.
Proof.
  unfold decodeContext, encodeContext.
  rewrite (get_undef_fmap as_enum enc_enum "source" (source c)); [|intros; apply enum_of_enc|read_fields; done].
  rewrite (get_undef_fmap as_str JStr "provider" (provider c)); [|done|read_fields; done].
  rewrite (get_undef_fmap as_str JStr "model" (model c)); [|done|read_fields; done].
  rewrite (get_undef_fmap as_str JStr "app" (app c)); [|done|read_fields; done].
  rewrite (get_undef_fmap decodeRepo encodeRepo "repo" (repo c)); [|apply decode_encodeRepo|read_fields; done].
  rewrite (get_undef_fmap decodeFile encodeFile "file" (file c)); [|apply decode_encodeFile|read_fields; done].
  read_fields. cbn [mbind option_bind]. rewrite decode_encodeUser. by destruct c.
Qed.
End scan_request_codec.

(** ** Properties *)

(** Every scan request survives [encodeScanRequest] and [decodeScanRequest] unchanged. *)
Theorem scan_request_roundtrip `{Zod} r : decodeScanRequest (Some (encodeScanRequest r)) = Some r.
Proof.
  unfold decodeScanRequest. rewrite zparse_encodeScanRequest.
  unfold encodeScanRequest. read_fields. cbn [mbind option_bind].
  rewrite decode_encodeContext. by destruct r.
Qed.

(** The strict schema closes the request: an object with a key the contract does not name is
    rejected, wherever the key is and whatever it holds. *)
Theorem scan_request_strict `{Zod} o k :
  k ∉ ["text"; "context"] -> k ∈ obj_keys o -> decodeScanRequest (Some (JObj o)) = None.
Proof.
  intros Hk Hin. unfold decodeScanRequest, ScanRequestWireSchema.
  by rewrite (zparse_strict_unknown _ o k).
Qed.

Lemma scan_request_strict_witness :
  decodeScanRequest (Some (JObj [("text", JStr "hi"); ("extra", JNull)])) = None.
Proof. apply (scan_request_strict _ "extra"); [|simpl]; set_solver. Defined.
