(* ===== verification/AuditEvent.v ===== *)
(** * Agent status and audit events: [agent-status.ts] and [audit-event.ts]

    The two camelCase status models, and the redacted audit envelope with its builder
    and the key-sorted form that is stored and signed. *)

From S2P Require Import Prelude Json Zod Enums Decision ScanRequest.

(** ** [agent-status.ts] *)

Record AgentStatus := mkAgentStatus {
  engineServing : bool;
  activePolicyVersion : num;
  queuedEvents : num;
  lastUploadOutcome : option string;
  engineConnected : bool;
  agentVersion : string
}.

Record DecisionSummary := mkDecisionSummary {
  ds_requestId : string;
  ds_timestampMs : num;
  ds_action : Action;
  ds_riskLevel : RiskLevel;
  ds_matchedRuleId : option string;
  ds_provider : option string;
  ds_app : option string
}.

Definition AgentStatusWireSchema : schema :=
  ZObject true
    [("engineServing", ZBoolean);
     ("activePolicyVersion", u32);
     ("queuedEvents", ZNumber true (Some 0) None);
     ("lastUploadOutcome", ZNullish ZString);
     ("engineConnected", ZBoolean);
     ("agentVersion", ZString)].

Definition DecisionSummaryWireSchema : schema :=
  ZObject true
    [("requestID", ZString);
     ("timestampMs", ZNumber true None None);
     ("action", enum_schema Action);
     ("riskLevel", enum_schema RiskLevel);
     ("matchedRuleID", ZNullish ZString);
     ("provider", ZNullish ZString);
     ("app", ZNullish ZString)].

Definition decodeAgentStatusFields (w : json) : option AgentStatus :=
  engineServing ← get_bool "engineServing" w;
  activePolicyVersion ← get_num "activePolicyVersion" w;
  queuedEvents ← get_num "queuedEvents" w;
  engineConnected ← get_bool "engineConnected" w;
  agentVersion ← get_str "agentVersion" w;
  lastUploadOutcome ← get_opt Some "lastUploadOutcome" w;
  Some (mkAgentStatus engineServing activePolicyVersion queuedEvents lastUploadOutcome engineConnected agentVersion).

Definition decodeAgentStatus `{Zod} (raw : option json) : option AgentStatus :=
  match zparse AgentStatusWireSchema raw with
  | Some (Some w) => decodeAgentStatusFields w
  | _ => None
  end.

Definition encodeAgentStatus (s : AgentStatus) : json :=
  JObj (compact
    [("engineServing", Some (JBool (engineServing s)));
     ("activePolicyVersion", Some (JNum (activePolicyVersion s)));
     ("queuedEvents", Some (JNum (queuedEvents s)));
     ("lastUploadOutcome", JStr <$> lastUploadOutcome s);
     ("engineConnected", Some (JBool (engineConnected s)));
     ("agentVersion", Some (JStr (agentVersion s)))]).

Definition decodeDecisionSummaryFields (w : json) : option DecisionSummary :=
  requestId ← get_str "requestID" w;
  timestampMs ← get_num "timestampMs" w;
  action ← get_enum "action" w;
  riskLevel ← get_enum "riskLevel" w;
  matchedRuleId ← get_opt Some "matchedRuleID" w;
  provider ← get_opt Some "provider" w;
  app ← get_opt Some "app" w;
  Some (mkDecisionSummary requestId timestampMs action riskLevel matchedRuleId provider app).

Definition decodeDecisionSummary `{Zod} (raw : option json) : option DecisionSummary :=
  match zparse DecisionSummaryWireSchema raw with
  | Some (Some w) => decodeDecisionSummaryFields w
  | _ => None
  end.

Definition decodeDecisionSummaries `{Zod} (raw : option json) : option (list DecisionSummary) :=
  match zparse (ZArray ZUnknown) raw with
  | Some (Some (JArr l)) => traverse (fun x => decodeDecisionSummary (Some x)) l
  | _ => None
  end.

Definition encodeDecisionSummary (s : DecisionSummary) : json :=
  JObj (compact
    [("requestID", Some (JStr (ds_requestId s)));
     ("timestampMs", Some (JNum (ds_timestampMs s)));
     ("action", Some (enc_enum (ds_action s)));
     ("riskLevel", Some (enc_enum (ds_riskLevel s)));
     ("matchedRuleID", JStr <$> ds_matchedRuleId s);
     ("provider", JStr <$> ds_provider s);
     ("app", JStr <$> ds_app s)]).

(** ** [audit-event.ts] *)

Record AuditEvent := mkAuditEvent {
  eventId : string;
  ev_schema : string;
  ev_type : EventType;
  timestampMs : num;
  ev_userId : string;
  deviceId : string;
  ev_source : option Source;
  ev_provider : option string;
  ev_model : option string;
  ev_app : option string;
  ev_decision : Action;
  ev_riskLevel : RiskLevel;
  ev_classification : Classification;
  ev_policyVersion : num;
  ev_matchedRuleId : option string;
  ev_suppressions : list Suppression;
  ev_incomplete : bool;
  ev_findings : list Finding
}.

Definition AuditEventWireSchema : schema :=
  ZObject true
    [("event_id", ZString);
     ("schema", ZLiteral (JStr SCHEMA_VERSION));
     ("type", enum_schema EventType);
     ("timestamp_ms", ZNumber true None None);
     ("user_id", ZString);
     ("device_id", ZString);
     ("source", ZNullish (enum_schema Source));
     ("provider", ZNullish ZString);
     ("model", ZNullish ZString);
     ("app", ZNullish ZString);
     ("decision", enum_schema Action);
     ("risk_level", enum_schema RiskLevel);
     ("classification", enum_schema Classification);
     ("policy_version", u32);
     ("matched_rule_id", ZNullish ZString);
     ("suppressions", ZDefault (ZArray SuppressionWireSchema) (JArr []));
     ("incomplete", ZBoolean);
     ("findings", ZDefault (ZArray FindingWireSchema) (JArr []))].

Definition decodeAuditEventFields (w : json) : option AuditEvent :=
  eventId ← get_str "event_id" w;
  sch ← get_str "schema" w;
  type ← get_enum "type" w;
  timestampMs ← get_num "timestamp_ms" w;
  userId ← get_str "user_id" w;
  deviceId ← get_str "device_id" w;
  decision ← get_enum "decision" w;
  riskLevel ← get_enum "risk_level" w;
  classification ← get_enum "classification" w;
  policyVersion ← get_num "policy_version" w;
  ss ← get_arr "suppressions" w;
  suppressions ← traverse decodeSuppression ss;
  incomplete ← get_bool "incomplete" w;
  fs ← get_arr "findings" w;
  findings ← traverse decodeFinding fs;
  source ← get_opt of_wire "source" w;
  provider ← get_opt Some "provider" w;
  model ← get_opt Some "model" w;
  app ← get_opt Some "app" w;
  matchedRuleId ← get_opt Some "matched_rule_id" w;
  Some (mkAuditEvent eventId sch type timestampMs userId deviceId source provider model app
          decision riskLevel classification policyVersion matchedRuleId suppressions incomplete findings).

Definition decodeAuditEvent `{Zod} (raw : option json) : option AuditEvent :=
  match zparse AuditEventWireSchema raw with
  | Some (Some w) => decodeAuditEventFields w
  | _ => None
  end.

Definition encodeAuditEvent (e : AuditEvent) : json :=
  JObj (compact
    [("event_id", Some (JStr (eventId e)));
     ("schema", Some (JStr (ev_schema e)));
     ("type", Some (enc_enum (ev_type e)));
     ("timestamp_ms", Some (JNum (timestampMs e)));
     ("user_id", Some (JStr (ev_userId e)));
     ("device_id", Some (JStr (deviceId e)));
     ("source", enc_enum <$> ev_source e);
     ("provider", JStr <$> ev_provider e);
     ("model", JStr <$> ev_model e);
     ("app", JStr <$> ev_app e);
     ("decision", Some (enc_enum (ev_decision e)));
     ("risk_level", Some (enc_enum (ev_riskLevel e)));
     ("classification", Some (enc_enum (ev_classification e)));
     ("policy_version", Some (JNum (ev_policyVersion e)));
     ("matched_rule_id", JStr <$> ev_matchedRuleId e);
     ("suppressions", Some (JArr (map encodeSuppression (ev_suppressions e))));
     ("incomplete", Some (JBool (ev_incomplete e)));
     ("findings", Some (JArr (map encodeFinding (ev_findings e))))]).

(** [makeAuditEvent] *)
Definition makeAuditEvent (type : EventType) (eventId : string) (timestampMs : num)
    (context : ScanContext) (deviceId : string) (d : Decision) : AuditEvent :=
  {| eventId := eventId;
     ev_schema := SCHEMA_VERSION;
     ev_type := type;
     timestampMs := timestampMs;
     ev_userId := userId (user context);
     deviceId := deviceId;
     ev_source := source context;
     ev_provider := provider context;
     ev_model := model context;
     ev_app := app context;
     ev_decision := action d;
     ev_riskLevel := riskLevel d;
     ev_classification := classification d;
     ev_policyVersion := policyVersion d;
     ev_matchedRuleId := matchedRuleId d;
     ev_suppressions := suppressions d;
     ev_incomplete := incomplete d;
     ev_findings := findings d |}.

(** The key-sorted tree [auditEventCanonicalJSON] prints. *)
Definition auditEventCanonical (e : AuditEvent) : json := sortKeys (encodeAuditEvent e).

Definition audit_event_wf (e : AuditEvent) : Prop :=
  ev_schema e = SCHEMA_VERSION /\ num_is_int (timestampMs e) = true /\
  is_u32 (ev_policyVersion e) /\ Forall finding_wf (ev_findings e).

(** ** Codec proofs *)

Section audit_event_codec.
Context `{Zod}.

Lemma zparse_literal_str s : zparse (ZLiteral (JStr s)) (Some (JStr s)) = Some (Some (JStr s)).
Proof. rewrite zparse_law. simpl. by rewrite String.eqb_refl. Qed.

Lemma zparse_encodeAuditEvent e :
  audit_event_wf e -> zparse AuditEventWireSchema (Some (encodeAuditEvent e)) = Some (Some (encodeAuditEvent e)).
Proof.
  intros (Hs & Ht & Hp & Hf). apply zparse_aligned; [vm_compute; done|]. rewrite Hs.
  repeat constructor; try rewrite zparse_default_some; eauto using zparse_literal_str with vg.
  - apply zparse_array_map. intros s _. apply zparse_encodeSuppression.
  - apply zparse_array_map. intros f Hin. apply zparse_encodeFinding. rewrite Forall_forall in Hf. auto.
Qed.

Lemma decodeFields_encodeAuditEvent e : decodeAuditEventFields (encodeAuditEvent e) = Some e.
Proof.
  unfold decodeAuditEventFields, encodeAuditEvent. read_fields.
  rewrite !enum_of_enc. cbn [mbind option_bind].
  rewrite (traverse_map_inv decodeSuppression encodeSuppression id) by (intros; apply decode_encodeSuppression).
  cbn [mbind option_bind].
  rewrite (traverse_map_inv decodeFinding encodeFinding id) by (intros; apply decode_encodeFinding).
  cbn [mbind option_bind]. rewrite !map_id, !opt_of_enum, !opt_of_str. by destruct e.
Qed.

Lemma zparse_encodeDecisionSummary s :
  num_is_int (ds_timestampMs s) = true ->
  zparse DecisionSummaryWireSchema (Some (encodeDecisionSummary s)) = Some (Some (encodeDecisionSummary s)).
Proof.
  intros Ht. apply zparse_aligned; [vm_compute; done|]. repeat constructor; eauto with vg.
Qed.

Lemma decode_encodeDecisionSummary s :
  num_is_int (ds_timestampMs s) = true -> decodeDecisionSummary (Some (encodeDecisionSummary s)) = Some s.
Proof.
  intros Ht. unfold decodeDecisionSummary. rewrite zparse_encodeDecisionSummary by done.
  unfold decodeDecisionSummaryFields, encodeDecisionSummary. read_fields.
  rewrite !enum_of_enc, !opt_of_str. by destruct s.
Qed.

Lemma decode_encodeAgentStatus s :
  is_u32 (activePolicyVersion s) -> (exists q, queuedEvents s = NInt q /\ 0 <= q) ->
  decodeAgentStatus (Some (encodeAgentStatus s)) = Some s.
Proof.
  intros Hp (q & Hq & Hq0). unfold decodeAgentStatus.
  assert (zparse AgentStatusWireSchema (Some (encodeAgentStatus s)) = Some (Some (encodeAgentStatus s))) as ->.
  { apply zparse_aligned; [vm_compute; done|]. repeat constructor; eauto with vg.
    rewrite Hq. apply zparse_number_lit; [done|]. unfold within, num_lt.
    rewrite andb_true_r. apply negb_true_iff, Z.ltb_ge. lia. }
  unfold decodeAgentStatusFields, encodeAgentStatus. read_fields. rewrite opt_of_str. by destruct s.
Qed.
End audit_event_codec.

(** ** Properties *)

(** An event built by [makeAuditEvent] from a decision the client accepted is encoded to a
    wire object that [decodeAuditEvent] reads back as the same event. *)
Theorem audit_event_roundtrip `{Zod} type id ts ctx device d :
  decision_wf d -> num_is_int ts = true ->
  decodeAuditEvent (Some (encodeAuditEvent (makeAuditEvent type id ts ctx device d)))
  = Some (makeAuditEvent type id ts ctx device d).
Proof.
  intros (Hf & Hp & _) Hts. unfold decodeAuditEvent.
  rewrite zparse_encodeAuditEvent by (by split_and!). apply decodeFields_encodeAuditEvent.
Qed.

Definition sample_context : ScanContext :=
  mkContext (Some SrcCli) (Some "ollama") None (Some "ollama") None None (mkUser "u1" RoleUser ["dev"]).

Lemma audit_event_roundtrip_witness :
  decodeAuditEvent (Some (encodeAuditEvent
    (makeAuditEvent PromptBlocked "e1" (NInt 1700000000000) sample_context "mac-1" sample_decision)))
  = Some (makeAuditEvent PromptBlocked "e1" (NInt 1700000000000) sample_context "mac-1" sample_decision).
Proof. apply audit_event_roundtrip; [exact sample_decision_wf|reflexivity]. Defined.
