(* ===== verification/Resilience.v ===== *)
(** * Errors, retry and deadlines: [connector-sdk/src/resilience]

    [errors.ts]: the error taxonomy as an inductive type, with the code and the retry
    flag each class passes to its base constructor.  [retry.ts]: the back-off schedule,
    with the rounding of the floating-point product, and the retry loop.  [timeout.ts]:
    the deadline.

    A promise is a computation [async St A]: on a state it yields a [reply], the value or
    error it settles with and after how many milliseconds, or [Hangs] when it never settles.

    Both timers of the directory are [unref]'d: they do not keep the process running.  They fire
    only as long as something else does, which is the class [EventLoop]. *)

From S2P Require Import Prelude.

(** ** [errors.ts] *)

Inductive ConnectorErrorCode :=
| CTransport | CTimeout | CNotConnected | CRemote | CUnavailable | CVersionMismatch
| CValidation | CRetryExhausted.

#[export] Instance ConnectorErrorCode_eq_dec : EqDecision ConnectorErrorCode.
Proof. solve_decision. Defined.

Definition code_wire (c : ConnectorErrorCode) : string :=
  match c with
  | CTransport => "TRANSPORT" | CTimeout => "TIMEOUT" | CNotConnected => "NOT_CONNECTED"
  | CRemote => "REMOTE" | CUnavailable => "UNAVAILABLE" | CVersionMismatch => "VERSION_MISMATCH"
  | CValidation => "VALIDATION" | CRetryExhausted => "RETRY_EXHAUSTED"
  end.

(** A thrown value: an instance of one of the [ConnectorError] classes, or anything else. *)
Inductive error :=
| TransportError (message : string) (cause : option error)
| TimeoutError (message : string) (timeoutMs : Z)
| NotConnectedError (message : string)
| RemoteError (message : string)
| EngineUnavailableError (message : string)
| VersionMismatchError (message : string)
| ValidationError (message : string) (cause : option error)
| RetryExhaustedError (attempts : Z) (cause : error)
| OtherError (name message : string).

(** [error.code], for a [ConnectorError]. *)
Definition error_code (e : error) : option ConnectorErrorCode :=
  match e with
  | TransportError _ _ => Some CTransport
  | TimeoutError _ _ => Some CTimeout
  | NotConnectedError _ => Some CNotConnected
  | RemoteError _ => Some CRemote
  | EngineUnavailableError _ => Some CUnavailable
  | VersionMismatchError _ => Some CVersionMismatch
  | ValidationError _ _ => Some CValidation
  | RetryExhaustedError _ _ => Some CRetryExhausted
  | OtherError _ _ => None
  end.

(** [error.retryable]: the flag each class passes to [super]. *)
Definition error_retryable (e : error) : bool :=
  match e with
  | TransportError _ _ => true
  | TimeoutError _ _ => false
  | NotConnectedError _ => true
  | RemoteError _ => false
  | EngineUnavailableError _ => false
  | VersionMismatchError _ => false
  | ValidationError _ _ => false
  | RetryExhaustedError _ _ => false
  | OtherError _ _ => false
  end.

(** [error instanceof ConnectorError] *)
Definition isConnectorError (e : error) : bool :=
  match error_code e with Some _ => true | None => false end.

Definition error_message (e : error) : string :=
  match e with
  | TransportError m _ | TimeoutError m _ | NotConnectedError m | RemoteError m
  | EngineUnavailableError m | VersionMismatchError m | ValidationError m _ | OtherError _ m => m
  | RetryExhaustedError n _ => "retries exhausted after " +:+ show_Z n +:+ " attempt(s)"
  end.

Definition isRetryable (e : error) : bool := isConnectorError e && error_retryable e.

Definition connectorErrorFromWire (code message : string) : error :=
  if String.eqb code (code_wire CUnavailable) then EngineUnavailableError message
  else if String.eqb code (code_wire CNotConnected) then NotConnectedError message
  else if String.eqb code (code_wire CTransport) then TransportError message None
  else if String.eqb code (code_wire CTimeout) then TimeoutError message 0
  else if String.eqb code (code_wire CValidation) then ValidationError message None
  else if String.eqb code (code_wire CVersionMismatch) then VersionMismatchError message
  else RemoteError message.

(** ** Promises *)

Inductive reply (A : Type) :=
| Settles (after : Z) (r : result error A)
| Hangs.
Arguments Settles {A} _ _.
Arguments Hangs {A}.

Definition async (St A : Type) : Type := St -> reply A * St.

(** Wait [d] more milliseconds for a promise. *)
Definition delayed {A} (d : Z) (r : reply A) : reply A :=
  match r with Settles t x => Settles (d + t) x | Hangs => Hangs end.

#[export] Instance async_ret {St} : MRet (async St) := fun A a st => (Settles 0 (Ok a), st).
#[export] Instance async_bind {St} : MBind (async St) := fun A B k m st =>
  match m st with
  | (Settles t (Ok a), st') => let '(r, st'') := k a st' in (delayed t r, st'')
  | (Settles t (Err e), st') => (Settles t (Err e), st')
  | (Hangs, st') => (Hangs, st')
  end.

Definition throw {St A} (e : error) : async St A := fun st => (Settles 0 (Err e), st).

(** [try { m } catch (e) { h e }] *)
Definition try_catch {St A} (m : async St A) (h : error -> async St A) : async St A := fun st =>
  match m st with
  | (Settles t (Err e), st') => let '(r, st'') := h e st' in (delayed t r, st'')
  | other => other
  end.

(** A computation that only reads or updates the state. *)
Definition get {St} : async St St := fun st => (Settles 0 (Ok st), st).
Definition modify {St} (f : St -> St) : async St unit := fun st => (Settles 0 (Ok tt), f st).
Definition lift {St A} (r : result error A) : async St A := fun st => (Settles 0 r, st).

(** The delay after which [setTimeout(f, ms)] fires: out of the range of a 32-bit signed
    integer, or below one, counts as one millisecond. *)
Definition timer_ms (ms : Z) : Z := if (1 <=? ms) && (ms <=? 2147483647) then ms else 1.

(** Whether, from the state [st] on, anything but an [unref]'d timer (a child process, an open
    socket or pipe, an editor or a terminal) keeps the event loop of the process running for
    another [ms] milliseconds.  Without it Node leaves the loop and the process ends: an [unref]'d
    timer never fires, and what waits for it never settles. *)
Class EventLoop (St : Type) : Type := keeps_alive : St -> Z -> bool.

(** The process runs on, whatever the SDK waits for: the agent's helper is running, or the
    connector is part of an editor, a shell session or a browser host. *)
Definition stays_alive St `{EventLoop St} : Prop := forall st ms, keeps_alive st ms = true.

(** ** [retry.ts] *)

(** [realSleep]: a timer, [unref]'d. *)
Definition realSleep `{EventLoop St} (ms : Z) : async St unit := fun st =>
  if keeps_alive st (timer_ms ms) then (Settles (timer_ms ms) (Ok tt), st) else (Hangs, st).

(** A non-negative integer rounded to 53 significant bits, ties to even: the double nearest
    to it. *)
Definition round53 (p : Z) : Z :=
  let sh := Z.log2 p + 1 - 53 in
  if sh <=? 0 then p
  else
    let q := p / 2 ^ sh in
    let r := p mod 2 ^ sh in
    let half := 2 ^ (sh - 1) in
    let up := (half <? r) || ((r =? half) && Z.odd q) in
    (if up then q + 1 else q) * 2 ^ sh.

(** [Math.min(baseDelayMs * 2 ** attempt, maxDelayMs)] *)
Definition backoffCap (attempt baseDelayMs maxDelayMs : Z) : Z :=
  Z.min (baseDelayMs * 2 ^ attempt) maxDelayMs.

(** [backoffDelay]: the draw of [random()] is the double [draw / 2^53]. *)
Definition backoffDelay (attempt baseDelayMs maxDelayMs : Z) (draw : Z) : Z :=
  let cap := backoffCap attempt baseDelayMs maxDelayMs in
  round53 (draw * cap) / 2 ^ 53.

Record RetryOptions (St : Type) := mkRetryOptions {
  maxAttempts : Z;
  baseDelayMs : Z;
  maxDelayMs : Z;
  random : St -> Z * St;
  sleep : Z -> async St unit;
  opt_isRetryable : error -> bool;
  onRetry : Z -> Z -> error -> St -> St
}.
Arguments maxAttempts {St} _.
Arguments baseDelayMs {St} _.
Arguments maxDelayMs {St} _.
Arguments random {St} _.
Arguments sleep {St} _.
Arguments opt_isRetryable {St} _.
Arguments onRetry {St} _.

(** The [for] loop of [withRetry] from index [i], with [n] attempts left after this one. *)
Fixpoint retry_loop {St A} (op : Z -> async St A) (o : RetryOptions St) (attempts : Z) (i : Z)
    (n : nat) : async St A :=
  try_catch (op i) (fun e =>
    if negb (opt_isRetryable o e) then throw e
    else
      match n with
      | O => throw (RetryExhaustedError attempts e)
      | S n' => fun st =>
          let '(draw, st) := random o st in
          let delayMs := backoffDelay i (baseDelayMs o) (maxDelayMs o) draw in
          (_ ← modify (onRetry o (i + 1) delayMs e);
           _ ← sleep o delayMs;
           retry_loop op o attempts (i + 1) n') st
      end).

Definition withRetry {St A} (op : Z -> async St A) (o : RetryOptions St) : async St A :=
  let attempts := Z.max 1 (maxAttempts o) in
  retry_loop op o attempts 0 (Z.to_nat (attempts - 1)).

(** ** [timeout.ts] *)

(** [withTimeout]: the race of [op] against the timer.  When the timer fires first the promise
    is rejected and the operation's signal is aborted ([abort] is the operation's listener).  The
    timer is [unref]'d: an operation that is to settle later keeps the process running until the
    timer has fired; against one that never settles it fires only if something else does. *)
Definition withTimeout `{EventLoop St} {A} (abort : St -> St) (op : async St A) (timeoutMs : Z) (label : string)
    : async St A := fun st =>
  if timeoutMs <=? 0 then op st
  else
    let deadline := timer_ms timeoutMs in
    let expired st' :=
      (Settles deadline
         (Err (TimeoutError (label +:+ " timed out after " +:+ show_Z timeoutMs +:+ "ms") timeoutMs)),
       abort st') in
    match op st with
    | (Settles t r, st') => if t <? deadline then (Settles t r, st') else expired st'
    | (Hangs, st') => if keeps_alive st' deadline then expired st' else (Hangs, st')
    end.

(** ** Specifications *)

(** What one attempt comes to. *)
Definition failed_retryably {A} (o : error -> bool) (r : result error A) : option error :=
  match r with Err e => if o e then Some e else None | Ok _ => None end.

(** The promise settles within [d] milliseconds. *)
Definition settles_within {A} (d : Z) (r : reply A) : Prop :=
  exists t x, r = Settles t x /\ 0 <= t <= d.

(** An operation whose attempts are independent of the state, and which records each attempt. *)
Definition logged {A} (outcome : Z -> Z * result error A) (i : Z) : async (list Z) A :=
  fun log => (Settles (outcome i).1 (outcome i).2, log ++ [i]).

(** ** Lemmas *)

Lemma timer_ms_bounds ms : 1 <= timer_ms ms <= Z.max 1 ms.
Proof. unfold timer_ms. destruct (_ && _) eqn:E; bool_simpl; lia. Qed.

Lemma settles_within_weaken {A} d d' (r : reply A) : settles_within d r -> d <= d' -> settles_within d' r.
Proof. intros (t & x & -> & Ht) Hd. exists t, x. split; [done|lia]. Qed.

Lemma settles_within_delayed {A} t d (r : reply A) :
  0 <= t -> settles_within d r -> settles_within (t + d) (delayed t r).
Proof. intros Ht (t' & x & -> & Ht'). exists (t + t'), x. split; [done|lia]. Qed.

(** A sequence that settles with a value. *)
Lemma bind_inv {St A B} (m : async St A) (k : A -> async St B) st t b st' :
  (m ≫= k) st = (Settles t (Ok b), st') ->
  exists t1 a s t2, m st = (Settles t1 (Ok a), s) /\ k a s = (Settles t2 (Ok b), st') /\ t = t1 + t2.
Proof.
  unfold mbind, async_bind. destruct (m st) as [[t1 [a|e]|] s] eqn:E; try done.
  destruct (k a s) as [[t2 r|] s2] eqn:Ek; simpl; [|done]. intros [= <- -> <-]. by exists t1, a, s, t2.
Qed.

Lemma settles_bind {St A B} (m : async St A) (k : A -> async St B) st d d' :
  settles_within d (m st).1 -> (forall a st', settles_within d' (k a st').1) -> 0 <= d' ->
  settles_within (d + d') ((m ≫= k) st).1.
Proof.
  unfold mbind, async_bind. intros (t & x & E & Ht) Hk Hd'.
  destruct (m st) as [r st']. simpl in E. subst r. destruct x as [a|e].
  - specialize (Hk a st'). destruct (k a st') as [r st'']. simpl in *.
    apply settles_within_delayed with (t := t) in Hk; [|lia]. eapply settles_within_weaken; [done|lia].
  - exists t, (Err e). split; [done|lia].
Qed.

Lemma settles_ret {St A} (a : A) (st : St) : settles_within 0 ((mret a : async St A) st).1.
Proof. exists 0, (Ok a). split; [done|lia]. Qed.

Lemma settles_lift {St A} (r : result error A) (st : St) : settles_within 0 (lift r st).1.
Proof. exists 0, r. split; [done|lia]. Qed.

Lemma settles_throw {St A} (e : error) (st : St) : settles_within 0 ((throw e : async St A) st).1.
Proof. exists 0, (Err e). split; [done|lia]. Qed.

Lemma settles_catch {St A} (m : async St A) h st d d' :
  settles_within d (m st).1 -> (forall e st', settles_within d' (h e st').1) -> 0 <= d' ->
  settles_within (d + d') (try_catch m h st).1.
Proof.
  unfold try_catch. intros (t & x & E & Ht) Hh Hd'.
  destruct (m st) as [r st']. simpl in E. subst r. destruct x as [a|e].
  - exists t, (Ok a). split; [done|lia].
  - specialize (Hh e st'). destruct (h e st') as [r st'']. simpl in *.
    apply settles_within_delayed with (t := t) in Hh; [|lia]. eapply settles_within_weaken; [done|lia].
Qed.

Section deadlines.
Context {St : Type}.

(** A step that takes no time, before or after one that takes [d]. *)
Lemma settles_now {A B} (m : async St A) (k : A -> async St B) s d :
  0 <= d -> settles_within 0 (m s).1 -> (forall a s', settles_within d (k a s').1) -> settles_within d ((m ≫= k) s).1.
Proof. intros Hd Hm Hk. replace d with (0 + d) by lia. by apply settles_bind. Qed.

Lemma settles_last {A B} (m : async St A) (k : A -> async St B) s d :
  settles_within d (m s).1 -> (forall a s', settles_within 0 (k a s').1) -> settles_within d ((m ≫= k) s).1.
Proof. intros Hm Hk. replace d with (d + 0) by lia. by apply settles_bind. Qed.

Lemma settles_try {A} (m : async St A) h s d :
  settles_within d (m s).1 -> (forall e s', settles_within 0 (h e s').1) -> settles_within d (try_catch m h s).1.
Proof. intros Hm Hk. replace d with (d + 0) by lia. by apply settles_catch. Qed.

Lemma settles_mret {A} (a : A) (s : St) d : 0 <= d -> settles_within d ((mret a : async St A) s).1.
Proof. intros Hd. eapply settles_within_weaken; [apply settles_ret|done]. Qed.

End deadlines.

(** What a computation that settles yields. *)
Definition yields {St A} (m : async St A) (s : St) (Q : result error A -> St -> Prop) : Prop :=
  match m s with (Settles _ r, s') => Q r s' | (Hangs, _) => True end.

Lemma yields_bind {St A B} (m : async St A) (k : A -> async St B) s Q :
  yields m s (fun r s' => match r with Ok a => yields (k a) s' Q | Err e => Q (Err e) s' end) -> yields (m ≫= k) s Q.
Proof.
  unfold yields, mbind, async_bind. destruct (m s) as [[t [a|e]|] s']; [|done..].
  destruct (k a s') as [[t' r|] s'']; done.
Qed.

Lemma yields_catch {St A} (m : async St A) h s Q :
  yields m s (fun r s' => match r with Ok a => Q (Ok a) s' | Err e => yields (h e) s' Q end) -> yields (try_catch m h) s Q.
Proof.
  unfold yields, try_catch. destruct (m s) as [[t [a|e]|] s']; [done| |done].
  destruct (h e s') as [[t' r|] s'']; done.
Qed.

Lemma yields_impl {St A} (m : async St A) s (Q Q' : result error A -> St -> Prop) :
  (forall r s', Q r s' -> Q' r s') -> yields m s Q -> yields m s Q'.
Proof. unfold yields. destruct (m s) as [[t r|] s']; auto. Qed.

(** Rounding to 53 bits moves a positive number by at most half a unit in the last place. *)
Lemma round53_bounds p : 0 <= p ->
  0 <= round53 p /\ 2 * (round53 p - p) * 2 ^ 53 <= 2 * p.
Proof.
  intros Hp. unfold round53. destruct (Z.log2 p + 1 - 53 <=? 0) eqn:Hs; bool_simpl; [split; lia|].
  set (sh := Z.log2 p + 1 - 53) in *.
  assert (0 < p) as Hp0 by (destruct (decide (p = 0)) as [->|]; [unfold sh in Hs; simpl in Hs; lia|lia]).
  pose proof (Z.log2_spec p Hp0) as [Hlo _].
  assert (2 ^ sh * 2 ^ 52 = 2 ^ Z.log2 p) as Hpow
    by (rewrite <- Z.pow_add_r by lia; f_equal; unfold sh; lia).
  assert (2 ^ sh = 2 * 2 ^ (sh - 1)) as Hhalf
    by (rewrite <- Z.pow_succ_r by lia; f_equal; lia).
  assert (0 < 2 ^ (sh - 1)) as Hpos by (apply Z.pow_pos_nonneg; lia).
  pose proof (Z.div_mod p (2 ^ sh) ltac:(lia)) as Hdm.
  pose proof (Z.mod_pos_bound p (2 ^ sh) ltac:(lia)) as Hmod.
  pose proof (Z.div_pos p (2 ^ sh) ltac:(lia) ltac:(lia)) as Hq.
  set (q := p / 2 ^ sh) in *. set (r := p mod 2 ^ sh) in *.
  destruct (_ || _) eqn:Hup.
  - apply orb_true_iff in Hup. assert (2 ^ (sh - 1) <= r) as Hr
      by (destruct Hup as [Hup|Hup]; bool_simpl; lia). split; [nia|]. nia.
  - split; [nia|]. nia.
Qed.

Lemma backoffCap_nonneg i b m : 0 <= i -> 0 <= b -> 0 <= m -> 0 <= backoffCap i b m <= m.
Proof. intros. unfold backoffCap. pose proof (Z.pow_nonneg 2 i ltac:(lia)). split; [apply Z.min_glb; nia|lia]. Qed.

(** The jittered delay is in [[0, cap)], rounding included. *)
Lemma backoffDelay_lt i b m draw :
  0 <= draw < 2 ^ 53 -> 0 < backoffCap i b m -> 0 <= backoffDelay i b m draw < backoffCap i b m.
Proof.
  intros Hd Hc. unfold backoffDelay. set (c := backoffCap i b m) in *.
  pose proof (round53_bounds (draw * c) ltac:(nia)) as [H0 H1].
  split; [apply Z.div_pos; lia|]. apply Z.div_lt_upper_bound; [lia|].
  assert (draw * c <= (2 ^ 53 - 1) * c) as H2 by nia. nia.
Qed.

Lemma backoffDelay_zero i b m draw : backoffCap i b m = 0 -> backoffDelay i b m draw = 0.
Proof. unfold backoffDelay. intros ->. rewrite Z.mul_0_r. reflexivity. Qed.

Lemma backoffDelay_le i b m draw :
  0 <= i -> 0 <= b -> 0 <= m -> 0 <= draw < 2 ^ 53 -> 0 <= backoffDelay i b m draw <= m.
Proof.
  intros Hi Hb Hm Hd. pose proof (backoffCap_nonneg i b m Hi Hb Hm) as Hc.
  destruct (decide (backoffCap i b m = 0)) as [E|E].
  - rewrite backoffDelay_zero by done. lia.
  - pose proof (backoffDelay_lt i b m draw Hd ltac:(lia)). lia.
Qed.

(** Deadlines *)
Lemma realSleep_settles `{EventLoop St} ms (st : St) :
  stays_alive St -> realSleep ms st = (Settles (timer_ms ms) (Ok tt), st).
Proof. intros Ha. unfold realSleep. by rewrite Ha. Qed.

Lemma realSleep_state `{EventLoop St} ms (st : St) : (realSleep ms st).2 = st.
Proof. unfold realSleep. by destruct (keeps_alive _ _). Qed.

Lemma withTimeout_settles `{EventLoop St} {A} abort (op : async St A) ms label st :
  stays_alive St -> 0 < ms -> (forall t r st', op st = (Settles t r, st') -> 0 <= t) ->
  settles_within (timer_ms ms) (withTimeout abort op ms label st).1.
Proof.
  intros Ha Hms Hop. unfold withTimeout. pose proof (timer_ms_bounds ms).
  destruct (ms <=? 0) eqn:E; bool_simpl; [lia|].
  destruct (op st) as [[t r|] st'] eqn:E2.
  - specialize (Hop _ _ _ eq_refl). destruct (t <? timer_ms ms) eqn:E3; bool_simpl; simpl.
    + exists t, r. split; [done|lia].
    + eexists _, _. split; [done|lia].
  - rewrite Ha. simpl. eexists _, _. split; [done|lia].
Qed.

(** ** The retry loop *)

Section retry_loop.
Context {St A : Type} (op : Z -> async St A) (o : RetryOptions St).

(** Each attempt settles within [d] and each pause within [w]. *)
Lemma retry_loop_settles d w attempts i n st :
  0 <= d -> 0 <= w -> 0 <= i -> 0 <= baseDelayMs o -> 0 <= maxDelayMs o ->
  (forall s, 0 <= (random o s).1 < 2 ^ 53) ->
  (forall i s, settles_within d (op i s).1) ->
  (forall ms s, 0 <= ms <= maxDelayMs o -> settles_within w (sleep o ms s).1) ->
  settles_within (d + Z.of_nat n * (w + d)) (retry_loop op o attempts i n st).1.
Proof.
  intros Hd Hw Hi Hb Hm Hr Hop Hsl. revert i st Hi.
  induction n as [|n IH]; intros i st Hi; cbn [retry_loop].
  - apply settles_catch; [apply Hop| |lia]. intros e s. destruct (negb _); apply settles_throw.
  - apply settles_catch; [apply Hop| |lia]. intros e s.
    destruct (negb _); [eapply settles_within_weaken; [apply settles_throw|lia]|].
    pose proof (Hr s) as Hdraw. destruct (random o s) as [draw s1].
    set (delay := backoffDelay _ _ _ _).
    eapply settles_within_weaken.
    + apply (settles_bind _ _ _ 0 (w + (d + Z.of_nat n * (w + d)))); [|intros [] s2|lia].
      * exists 0, (Ok tt). split; [done|lia].
      * unfold mbind, async_bind. specialize (Hsl delay s2 (backoffDelay_le _ _ _ _ Hi Hb Hm Hdraw)).
        destruct Hsl as (t & x & E & Ht). destruct (sleep o delay s2) as [r s3]. simpl in E. subst r.
        destruct x as [[]|e'].
        -- specialize (IH (i + 1) s3 ltac:(lia)). destruct (retry_loop op o attempts (i + 1) n s3) as [r s4].
           simpl in *. apply settles_within_delayed with (t := t) in IH; [|lia].
           eapply settles_within_weaken; [done|lia].
        -- exists t, (Err e'). split; [done|lia].
    + lia.
Qed.

(** If a retryable failure leaves the measure [mu] unchanged and any attempt raises it by at
    most [k], the whole loop raises it by at most [k]; [I] is an invariant of the states. *)
Lemma retry_loop_once (I : St -> Prop) (mu : St -> Z) k attempts i n st :
  0 <= k -> I st ->
  (forall i s, I s -> let '(r, s') := op i s in
     I s' /\ mu s <= mu s' <= mu s + k /\
     forall t e, r = Settles t (Err e) -> opt_isRetryable o e = true -> mu s' = mu s) ->
  (forall s, I s -> I (random o s).2 /\ mu (random o s).2 = mu s) ->
  (forall a d e s, I s -> I (onRetry o a d e s) /\ mu (onRetry o a d e s) = mu s) ->
  (forall ms s, I s -> I (sleep o ms s).2 /\ mu (sleep o ms s).2 = mu s) ->
  let st' := (retry_loop op o attempts i n st).2 in I st' /\ mu st <= mu st' <= mu st + k.
Proof.
  intros Hk HI Hop Hr Hon Hsl. revert i st HI. induction n as [|n IH]; intros i st HI; cbn [retry_loop];
    unfold try_catch; specialize (Hop i st HI); destruct (op i st) as [[t [a|e]|] s1]; simpl in *;
    destruct Hop as (HI1 & Hop & Hret); try done;
    destruct (opt_isRetryable o e) eqn:E; simpl; try done.
  specialize (Hret t e eq_refl E). destruct (Hr s1 HI1) as [HI2 Hmu2]. destruct (random o s1) as [draw s2]. simpl in *.
  unfold mbind, async_bind. cbn [modify].
  destruct (Hon (i + 1) (backoffDelay i (baseDelayMs o) (maxDelayMs o) draw) e s2 HI2) as [HI3 Hmu3].
  set (s3 := onRetry _ _ _ _ _) in *.
  destruct (Hsl (backoffDelay i (baseDelayMs o) (maxDelayMs o) draw) s3 HI3) as [HI4 Hmu4].
  destruct (sleep o _ s3) as [[t' [[]|e']|] s4]; simpl in *; try (split; [done|lia]).
  destruct (IH (i + 1) s4 HI4) as [HI5 Hmu5].
  destruct (retry_loop op o attempts (i + 1) n s4) as [r s5]. simpl in *. split; [done|lia].
Qed.

(** A result of the loop is the result of one of its attempts. *)
Lemma retry_loop_result attempts i n st t a st' :
  retry_loop op o attempts i n st = (Settles t (Ok a), st') ->
  exists j s t' s', op j s = (Settles t' (Ok a), s').
Proof.
  revert i st t. induction n as [|n IH]; intros i st t; cbn [retry_loop]; unfold try_catch;
    destruct (op i st) as [[t1 [a'|e]|] s1] eqn:E; try (intros; simplify_eq; eauto 6; fail);
    destruct (negb _); try done.
  destruct (random o s1) as [draw s2]. unfold mbind, async_bind. cbn [modify].
  destruct (sleep o _ _) as [[t' [[]|e']|] s4]; try done.
  destruct (retry_loop op o attempts (i + 1) n s4) as [[t5 [a5|e5]|] s5] eqn:E5; try done.
  simpl. intros; simplify_eq. eauto.
Qed.
End retry_loop.

(** A sleep that may only pass the time, or never come back. *)
Definition passive {St} (sl : Z -> async St unit) : Prop :=
  forall ms st, sl ms st = (Hangs, st) \/ exists t, sl ms st = (Settles t (Ok tt), st).

Lemma realSleep_passive `{EventLoop St} : passive (realSleep (St := St)).
Proof. intros ms st. unfold realSleep. destruct (keeps_alive _ _); [right; by eexists|by left]. Qed.

(** What a run over a logged operation comes to whose last attempt was [k]: the outcome of [k], or
    the error that wraps it; or it sleeps for ever before the attempt that was to follow. *)
Definition retried {A} (outcome : Z -> Z * result error A) (o : RetryOptions (list Z)) (attempts k : Z)
    (r : reply A) : Prop :=
  match r, failed_retryably (opt_isRetryable o) (outcome k).2 with
  | Settles _ x, None => x = (outcome k).2
  | Settles _ x, Some e => k = attempts - 1 /\ x = Err (RetryExhaustedError attempts e)
  | Hangs, None => False
  | Hangs, Some _ => k < attempts - 1 /\ exists ms log, (sleep o ms log).1 = Hangs
  end.

(** The loop over a logged operation: the attempts made are consecutive, all but the last failed
    retryably, and the last one decides. *)
Lemma retry_loop_logged {A} (outcome : Z -> Z * result error A) (o : RetryOptions (list Z)) attempts i n log :
  (forall s, (random o s).2 = s) -> (forall a d e s, onRetry o a d e s = s) ->
  passive (sleep o) -> i + Z.of_nat n + 1 = attempts ->
  exists k r,
    retry_loop (logged outcome) o attempts i n log = (r, log ++ seqZ i (k + 1 - i)) /\
    i <= k < attempts /\
    (forall j, i <= j < k -> is_Some (failed_retryably (opt_isRetryable o) (outcome j).2)) /\
    retried outcome o attempts k r.
Proof.
  intros Hr Hon Hsl. unfold retried. revert i log. induction n as [|n IH]; intros i log Hn; cbn [retry_loop];
    unfold try_catch; unfold logged at 1; destruct (outcome i) as [t [a|e]] eqn:Ei; cbn [fst snd].
  1, 3: exists i, (Settles t (Ok a)); rewrite Ei; replace (i + 1 - i) with 1 by lia; split_and!; done || lia.
  - destruct (opt_isRetryable o e) eqn:E; cbn [negb]; eexists i, (Settles (t + 0) _); rewrite Ei; simpl; rewrite E;
      (split_and!; [unfold throw; replace (i + 1 - i) with 1 by lia; done|..]); try (by split_and!); done || lia.
  - destruct (opt_isRetryable o e) eqn:E; cbn [negb].
    + specialize (Hr (log ++ [i])). destruct (random o (log ++ [i])) as [draw s2]. simpl in Hr. subst s2.
      unfold mbind, async_bind. cbn [modify]. rewrite Hon.
      destruct (Hsl (backoffDelay i (baseDelayMs o) (maxDelayMs o) draw) (log ++ [i])) as [Es|[t1 Es]]; rewrite Es.
      { exists i, Hangs. rewrite Ei. simpl. rewrite E. replace (i + 1 - i) with 1 by lia.
        split_and!; try done; try lia. eexists _, _. by rewrite Es. }
      destruct (IH (i + 1) (log ++ [i]) ltac:(lia)) as (k & r & -> & Hk & Hj & Hlast). cbn [delayed].
      exists k. eexists. split_and!; [f_equal|lia|lia| |by destruct r].
      * rewrite <- app_assoc. f_equal. change ([i]) with (seqZ i 1).
        replace (k + 1 - i) with (1 + (k + 1 - (i + 1))) by lia. symmetry. rewrite seqZ_app by lia. done.
      * intros j Hj'. destruct (decide (j = i)) as [->|]; [rewrite Ei; simpl; rewrite E; done|]. apply Hj. lia.
    + exists i, (Settles (t + 0) (Err e)). rewrite Ei. simpl. rewrite E. replace (i + 1 - i) with 1 by lia.
      split_and!; done || lia.
Qed.

(** ** Properties *)

(** [backoffDelay] is full jitter: for every draw in [[0, 1)] the delay lies in [[0, cap)], also
    after the floating-point rounding of the product, and the cap never exceeds [maxDelayMs] nor
    falls from one attempt to the next. *)
Theorem backoffDelay_full_jitter attempt b m draw :
  0 <= attempt -> 0 < b -> 0 < m -> 0 <= draw < 2 ^ 53 ->
  0 <= backoffDelay attempt b m draw < backoffCap attempt b m /\
  backoffCap attempt b m <= m /\ backoffCap attempt b m <= backoffCap (attempt + 1) b m.
Proof.
  intros Ha Hb Hm Hd. pose proof (Z.pow_pos_nonneg 2 attempt ltac:(lia) Ha) as Hp.
  split; [apply backoffDelay_lt; [done|]; unfold backoffCap; apply Z.min_glb_lt; nia|].
  unfold backoffCap. split; [lia|]. apply Z.min_le_compat_r.
  rewrite Z.pow_add_r by lia. nia.
Qed.

Lemma backoffDelay_full_jitter_witness :
  0 <= backoffDelay 5 50 1000 (2 ^ 53 - 1) < backoffCap 5 50 1000 /\
  backoffCap 5 50 1000 <= 1000 /\ backoffCap 5 50 1000 <= backoffCap (5 + 1) 50 1000.
Proof. apply backoffDelay_full_jitter; lia. Defined.

(** C23: [withRetry] makes attempts 0, 1, ..., k in order and no others, with
    [k < max 1 maxAttempts]; every attempt before [k] failed retryably; the outcome of attempt [k]
    is returned or rethrown as it is unless it is a retryable failure too, in which case [k] was
    the last attempt allowed and the error is wrapped in [RetryExhaustedError].  The sleeper is any
    that only waits.  With one that always comes back this is all there is; with one that may not,
    as the [unref]'d timer of [realSleep] in a process that ends, the promise can also be left
    open, after a retryable failure that another attempt was to follow. *)
Theorem withRetry_spec {A} (outcome : Z -> Z * result error A) (o : RetryOptions (list Z)) :
  (forall s, (random o s).2 = s) -> (forall a d e s, onRetry o a d e s = s) -> passive (sleep o) ->
  exists k r,
    withRetry (logged outcome) o [] = (r, seqZ 0 (k + 1)) /\
    0 <= k < Z.max 1 (maxAttempts o) /\
    (forall j, 0 <= j < k -> is_Some (failed_retryably (opt_isRetryable o) (outcome j).2)) /\
    match r, failed_retryably (opt_isRetryable o) (outcome k).2 with
    | Settles _ x, None => x = (outcome k).2
    | Settles _ x, Some e =>
        k = Z.max 1 (maxAttempts o) - 1 /\ x = Err (RetryExhaustedError (Z.max 1 (maxAttempts o)) e)
    | Hangs, None => False
    | Hangs, Some _ => k < Z.max 1 (maxAttempts o) - 1 /\ exists ms log, (sleep o ms log).1 = Hangs
    end.
Proof.
  intros Hr Hon Hsl. unfold withRetry.
  destruct (retry_loop_logged outcome o (Z.max 1 (maxAttempts o)) 0 (Z.to_nat (Z.max 1 (maxAttempts o) - 1)) [])
    as (k & r & E & Hk); [exact Hr|exact Hon|exact Hsl|lia|]. rewrite Z.sub_0_r in E. by exists k, r.
Qed.

(** Two transport failures, then a value. *)
Definition flaky (i : Z) : Z * result error Z :=
  (5, if i <? 2 then Err (TransportError "down" None) else Ok 42).

(** A test process, which stays alive. *)
#[local] Instance log_loop : EventLoop (list Z) := fun _ _ => true.

Definition plain_options (attempts : Z) : RetryOptions (list Z) :=
  mkRetryOptions _ attempts 50 1000 (fun s => (2 ^ 52, s)) realSleep isRetryable (fun _ _ _ s => s).

Lemma withRetry_spec_witness :
  exists k r,
    withRetry (logged flaky) (plain_options 3) [] = (r, seqZ 0 (k + 1)) /\
    0 <= k < Z.max 1 3 /\
    (forall j, 0 <= j < k -> is_Some (failed_retryably isRetryable (flaky j).2)) /\
    match r, failed_retryably isRetryable (flaky k).2 with
    | Settles _ x, None => x = (flaky k).2
    | Settles _ x, Some e => k = Z.max 1 3 - 1 /\ x = Err (RetryExhaustedError (Z.max 1 3) e)
    | Hangs, None => False
    | Hangs, Some _ => k < Z.max 1 3 - 1 /\ exists ms log, (sleep (plain_options 3) ms log).1 = Hangs
    end.
Proof. apply (withRetry_spec flaky (plain_options 3)); [reflexivity..|exact realSleep_passive]. Defined.

Example withRetry_flaky :
  withRetry (logged flaky) (plain_options 3) [] = (Settles 90 (Ok 42), [0; 1; 2]).
Proof. vm_compute. reflexivity. Qed.

(** The same in a process that has nothing else to wait for: the timer of the first pause does not
    keep it running, and the second attempt is never made. *)
Example withRetry_drained :
  let dead : EventLoop (list Z) := fun _ _ => false in
  withRetry (logged flaky)
    (mkRetryOptions _ 3 50 1000 (fun s => (2 ^ 52, s)) (realSleep (H := dead)) isRetryable (fun _ _ _ s => s)) []
  = (Hangs, [0]).
Proof. vm_compute. reflexivity. Qed.

(** [withTimeout] with a positive deadline: when it settles, it settles at the latest when the timer
    fires, as the operation does when that is earlier, without aborting it; otherwise it rejects
    with [TimeoutError] and the operation is aborted.  It is left open only by an operation that
    never settles, in a process that nothing else keeps running until the deadline. *)
Theorem withTimeout_deadline `{EventLoop St} {A} abort (op : async St A) ms label st :
  0 < ms ->
  match withTimeout abort op ms label st with
  | (Settles t r, st') =>
      t <= timer_ms ms /\
      ((op st = (Settles t r, st') /\ t < timer_ms ms) \/
       (st' = abort (op st).2 /\ t = timer_ms ms /\
        (exists m, r = Err (TimeoutError m ms)) /\
        (forall t' r' s, op st = (Settles t' r', s) -> timer_ms ms <= t')))
  | (Hangs, st') => op st = (Hangs, st') /\ keeps_alive st' (timer_ms ms) = false
  end.
Proof.
  intros Hms. unfold withTimeout. destruct (ms <=? 0) eqn:E; bool_simpl; [lia|].
  destruct (op st) as [[t r|] st'] eqn:E2; [destruct (t <? timer_ms ms) eqn:E3; bool_simpl|].
  - split; [lia|]. left. auto.
  - split; [lia|]. right. split_and!; [done|done|by eexists|]. intros ? ? ? [= <- _ _]. lia.
  - destruct (keeps_alive _ _) eqn:Ea; [|done].
    split; [lia|]. right. split_and!; [done|done|by eexists|done].
Qed.

(** A state that says whether the process is kept running. *)
#[local] Instance flag_loop : EventLoop bool := fun alive _ => alive.

Lemma withTimeout_deadline_witness :
  match withTimeout negb (fun st : bool => (@Hangs Z, st)) 2000 "submitScan" true with
  | (Settles t r, st') =>
      t <= timer_ms 2000 /\
      (((@Hangs Z, true) = (Settles t r, st') /\ t < timer_ms 2000) \/
       (st' = negb true /\ t = timer_ms 2000 /\
        (exists m, r = Err (TimeoutError m 2000)) /\
        (forall t' r' s, (@Hangs Z, true) = (Settles t' r', s) -> timer_ms 2000 <= t')))
  | (Hangs, st') => (@Hangs Z, true) = (Hangs, st') /\ keeps_alive st' (timer_ms 2000) = false
  end.
Proof. apply (withTimeout_deadline negb (fun st : bool => (@Hangs Z, st)) 2000 "submitScan" true). lia. Defined.
