(* ===== verification/Framing.v ===== *)
(** * Message framing

    [connector-sdk/src/protocol] ([envelope.ts], [version.ts], [methods.ts]) and the native
    host's [framing.ts].  Both directions of both dialects use a four-byte length prefix and
    a JSON body: big-endian with an 8 MiB cap towards the XPC bridge, little-endian with a
    1 MiB cap towards the browser.  The two decoders are the same loop, so it is written once
    over a [dialect]; the length field is a 32-bit word and a buffer is a list of bytes. *)

From S2P Require Import Prelude Json JsonText Zod Resilience.

(** ** The length prefix *)

(** [header.writeUInt32BE(n, 0)] and [buffer.readUInt32BE(0)] *)
Definition writeUInt32BE (n : Z) : chars :=
  [chr (Z.shiftr n 24); chr (Z.land (Z.shiftr n 16) 255); chr (Z.land (Z.shiftr n 8) 255); chr (Z.land n 255)].
Definition readUInt32BE (b : chars) : Z :=
  match b with
  | b0 :: b1 :: b2 :: b3 :: _ =>
      Z.shiftl (code b0) 24 + Z.shiftl (code b1) 16 + Z.shiftl (code b2) 8 + code b3
  | _ => 0
  end.

(** [header.writeUInt32LE(n, 0)] and [buffer.readUInt32LE(0)] *)
Definition writeUInt32LE (n : Z) : chars := rev (writeUInt32BE n).
Definition readUInt32LE (b : chars) : Z :=
  match b with b0 :: b1 :: b2 :: b3 :: _ => readUInt32BE [b3; b2; b1; b0] | _ => 0 end.

(** ** Dialects *)

Record dialect := mkDialect {
  write32 : Z -> chars;
  read32 : chars -> Z;
  cap : Z;
  outgoing_error : Z -> error;
  incoming_error : Z -> error;
  body_error : error
}.

Definition blen (b : chars) : Z := Z.of_nat (List.length b).

Section framing.
Context `{JsonCodec} (d : dialect).

Definition encode (v : json) : result error chars :=
  let body := stringify v in
  if cap d <? blen body then Err (outgoing_error d (blen body))
  else Ok (write32 d (blen body) ++ body).

(** The [while] loop: the frames decoded so far and the bytes kept.  Each turn consumes at
    least the header, so the number of buffered bytes is enough fuel. *)
Fixpoint push_loop (fuel : nat) (buffer : chars) (frames : list json) : result error (list json) * chars :=
  match fuel with
  | O => (Ok frames, buffer)
  | S f =>
      if blen buffer <? 4 then (Ok frames, buffer)
      else
        let length := read32 d buffer in
        if cap d <? length then (Err (incoming_error d length), buffer)
        else if blen buffer <? 4 + length then (Ok frames, buffer)
        else
          let body := take (Z.to_nat length) (drop 4 buffer) in
          let buffer := drop (Z.to_nat (4 + length)) buffer in
          match parse body with
          | Some v => push_loop f buffer (frames ++ [v])
          | None => (Err (body_error d), buffer)
          end
  end.

(** [push(chunk)] on a decoder holding [buffer]: the frames or the exception, and the new buffer. *)
Definition push (buffer chunk : chars) : result error (list json) * chars :=
  let buffer := buffer ++ chunk in push_loop (List.length buffer) buffer [].

(** Push a sequence of chunks, stopping at the first exception. *)
Fixpoint push_all (buffer : chars) (chunks : list chars) : result error (list json) * chars :=
  match chunks with
  | [] => (Ok [], buffer)
  | c :: cs =>
      match push buffer c with
      | (Ok fs, buffer') => let '(r, b) := push_all buffer' cs in (app fs <$> r, b)
      | (Err e, buffer') => (Err e, buffer')
      end
  end.

(** The byte stream of a list of messages. *)
Fixpoint encode_all (vs : list json) : result error chars :=
  match vs with
  | [] => Ok []
  | v :: vs' => b ← encode v; bs ← encode_all vs'; Ok (b ++ bs)
  end.
End framing.

(** ** [envelope.ts] *)

Definition PROTOCOL_VERSION : Z := 1.
Definition MAX_FRAME_BYTES : Z := 8 * 1024 * 1024.

Definition bridge : dialect := {|
  write32 := writeUInt32BE;
  read32 := readUInt32BE;
  cap := MAX_FRAME_BYTES;
  outgoing_error n := ValidationError ("frame of " +:+ show_Z n +:+ " bytes exceeds " +:+ show_Z MAX_FRAME_BYTES +:+ " cap") None;
  incoming_error n := ValidationError ("incoming frame length " +:+ show_Z n +:+ " exceeds " +:+ show_Z MAX_FRAME_BYTES +:+ " cap") None;
  body_error := ValidationError "frame body is not valid JSON" (Some (OtherError "SyntaxError" ""))
|}.

Definition encodeFrame `{JsonCodec} : json -> result error chars := encode bridge.
Definition FrameDecoder_push `{JsonCodec} : chars -> chars -> result error (list json) * chars := push bridge.

(** A request from the SDK to the bridge, as the object literal of [request]. *)
Definition request_envelope (id method : string) (params : json) : json :=
  JObj [("v", JNum (NInt PROTOCOL_VERSION)); ("id", JStr id); ("method", JStr method); ("params", params)].

Inductive ReplyEnvelope :=
| ReplyOk (v : num) (id : string) (result : option json)
| ReplyErr (v : num) (id : string) (code message : string).

Definition ReplyEnvelopeSchema : schema :=
  ZUnion
    [ZObject false [("v", ZNumber false None None); ("id", ZString); ("ok", ZLiteral (JBool true)); ("result", ZUnknown)];
     ZObject false [("v", ZNumber false None None); ("id", ZString); ("ok", ZLiteral (JBool false));
                    ("error", ZObject false [("code", ZString); ("message", ZString)])]].

(** Reading [result.data as ReplyEnvelope]. *)
Definition as_reply (w : json) : option ReplyEnvelope :=
  match json_get "v" w, json_get "id" w, json_get "ok" w with
  | Some (JNum v), Some (JStr id), Some (JBool true) => Some (ReplyOk v id (json_get "result" w))
  | Some (JNum v), Some (JStr id), Some (JBool false) =>
      e ← json_get "error" w;
      match json_get "code" e, json_get "message" e with
      | Some (JStr code), Some (JStr message) => Some (ReplyErr v id code message)
      | _, _ => None
      end
  | _, _, _ => None
  end.

Definition parseReplyEnvelope `{Zod} (raw : json) : result error ReplyEnvelope :=
  match zparse ReplyEnvelopeSchema (Some raw) with
  | Some (Some w) => of_option (ValidationError "malformed reply envelope" None) (as_reply w)
  | _ => Err (ValidationError "malformed reply envelope" (Some (OtherError "ZodError" "")))
  end.

(** ** [native-host/src/framing.ts] *)

Definition MAX_MESSAGE_BYTES : Z := 1024 * 1024.
Definition FramingError (message : string) : error := OtherError "FramingError" message.

Definition chrome : dialect := {|
  write32 := writeUInt32LE;
  read32 := readUInt32LE;
  cap := MAX_MESSAGE_BYTES;
  outgoing_error n := FramingError ("outgoing message of " +:+ show_Z n +:+ " bytes exceeds " +:+ show_Z MAX_MESSAGE_BYTES);
  incoming_error n := FramingError ("incoming message length " +:+ show_Z n +:+ " exceeds " +:+ show_Z MAX_MESSAGE_BYTES);
  body_error := FramingError "message body is not valid JSON"
|}.

Definition encodeMessage `{JsonCodec} : json -> result error chars := encode chrome.
Definition MessageDecoder_push `{JsonCodec} : chars -> chars -> result error (list json) * chars := push chrome.

(** ** [methods.ts] *)

Module Method.
Definition Hello : string := "hello".
Definition SubmitScan : string := "submitScan".
Definition GetStatus : string := "getStatus".
Definition AcknowledgeWarning : string := "acknowledgeWarning".
Definition RecentDecisions : string := "recentDecisions".
End Method.

(** ** [version.ts] *)

Definition SDK_VERSION : string := "0.1.0".
Definition SUPPORTED_PROTOCOLS : list Z := [PROTOCOL_VERSION].

Record NegotiatedVersion := mkNegotiated { proto : Z; nv_schema : string; agent : string }.

Definition helloParams : json :=
  JObj [("sdk", JStr SDK_VERSION);
        ("proto", JArr (map (fun p => JNum (NInt p)) SUPPORTED_PROTOCOLS));
        ("schema", JStr SCHEMA_VERSION)].

Definition HelloResultSchema : schema :=
  ZObject false [("proto", ZNumber true None None); ("schema", ZString); ("agent", ZString)].

(** The fields of a validated hello reply. *)
Definition hello_fields (w : json) : option (Z * string * string) :=
  match json_get "proto" w, json_get "schema" w, json_get "agent" w with
  | Some (JNum (NInt p)), Some (JStr s), Some (JStr a) => Some (p, s, a)
  | _, _, _ => None
  end.

Definition negotiate `{Zod} (helloResult : option json) : result error NegotiatedVersion :=
  match w ← zparse HelloResultSchema helloResult; w' ← w; hello_fields w' with
  | None => Err (VersionMismatchError "malformed hello reply from agent")
  | Some (proto, schema, agent) =>
      if negb (existsb (Z.eqb proto) SUPPORTED_PROTOCOLS) then
        Err (VersionMismatchError ("agent selected protocol v" +:+ show_Z proto +:+ "; SDK supports ["
               +:+ js_join ", " (map show_Z SUPPORTED_PROTOCOLS) +:+ "]"))
      else if negb (String.eqb schema SCHEMA_VERSION) then
        Err (VersionMismatchError ("agent schema " +:+ of_chars [chr 34] +:+ schema +:+ of_chars [chr 34]
               +:+ " != SDK schema " +:+ of_chars [chr 34] +:+ SCHEMA_VERSION +:+ of_chars [chr 34]))
      else Ok (mkNegotiated proto schema agent)
  end.

(** ** The length prefix round-trips *)

(** What the framing proofs need of a dialect. *)
Class DialectOk (d : dialect) : Prop := {
  write32_length : forall n, List.length (write32 d n) = 4%nat;
  read32_prefix : forall b b', 4 <= blen b -> read32 d (b ++ b') = read32 d b;
  read_write32 : forall n b, 0 <= n < 2 ^ 32 -> read32 d (write32 d n ++ b) = n;
  read32_nonneg : forall b, 0 <= read32 d b;
  cap_word : 0 <= cap d < 2 ^ 32
}.

Lemma land_255 n : Z.land n 255 = n mod 2 ^ 8.
Proof. change 255 with (Z.ones 8). apply Z.land_ones. lia. Qed.

Lemma read_write32BE n b : 0 <= n < 2 ^ 32 -> readUInt32BE (writeUInt32BE n ++ b) = n.
Proof.
  intros Hn. unfold writeUInt32BE, readUInt32BE. cbn [app].
  rewrite !land_255, !Z.shiftr_div_pow2 by lia.
  pose proof (Z.div_pos n (2 ^ 24) ltac:(lia) ltac:(lia)).
  pose proof (Z.div_lt_upper_bound n (2 ^ 24) 256 ltac:(lia) ltac:(lia)).
  pose proof (Z.mod_pos_bound (n / 2 ^ 16) (2 ^ 8) ltac:(lia)).
  pose proof (Z.mod_pos_bound (n / 2 ^ 8) (2 ^ 8) ltac:(lia)).
  pose proof (Z.mod_pos_bound n (2 ^ 8) ltac:(lia)).
  rewrite !code_chr by lia. rewrite !Z.shiftl_mul_pow2 by lia.
  pose proof (Z.div_mod n (2 ^ 8) ltac:(lia)).
  pose proof (Z.div_mod (n / 2 ^ 8) (2 ^ 8) ltac:(lia)) as H5.
  pose proof (Z.div_mod (n / 2 ^ 16) (2 ^ 8) ltac:(lia)) as H6.
  rewrite Z.div_div in H5, H6 by lia.
  change (2 ^ 8 * 2 ^ 8) with (2 ^ 16) in H5. change (2 ^ 16 * 2 ^ 8) with (2 ^ 24) in H6. lia.
Qed.

Lemma readBE_nonneg b : 0 <= readUInt32BE b.
Proof.
  destruct b as [|b0 [|b1 [|b2 [|b3 b]]]]; try done. unfold readUInt32BE.
  rewrite !Z.shiftl_mul_pow2 by lia.
  pose proof (code_bounds b0); pose proof (code_bounds b1); pose proof (code_bounds b2); pose proof (code_bounds b3).
  lia.
Qed.

#[export] Instance bridge_ok : DialectOk bridge.
Proof.
  split; cbn [write32 read32 cap bridge].
  - done.
  - intros b b' Hb. unfold blen in Hb. destruct b as [|b0 [|b1 [|b2 [|b3 b]]]]; simpl in Hb; [lia..|done].
  - apply read_write32BE.
  - apply readBE_nonneg.
  - unfold MAX_FRAME_BYTES. lia.
Qed.

#[export] Instance chrome_ok : DialectOk chrome.
Proof.
  split; cbn [write32 read32 cap chrome].
  - done.
  - intros b b' Hb. unfold blen in Hb. destruct b as [|b0 [|b1 [|b2 [|b3 b]]]]; simpl in Hb; [lia..|done].
  - intros n b Hn. change (writeUInt32LE n) with (rev (writeUInt32BE n)). unfold writeUInt32BE.
    cbn [rev app]. unfold readUInt32LE.
    pose proof (read_write32BE n [] Hn) as H. unfold writeUInt32BE in H. rewrite app_nil_r in H. exact H.
  - intros b. unfold readUInt32LE. destruct b as [|b0 [|b1 [|b2 [|b3 b]]]]; try done. apply readBE_nonneg.
  - unfold MAX_MESSAGE_BYTES. lia.
Qed.

(** ** The decoder *)

Section decoder.
#[local] Set Default Proof Using "All".
Context `{JsonCodec} (d : dialect) `{!DialectOk d}.

Lemma blen_app a b : blen (a ++ b) = blen a + blen b.
Proof. unfold blen. rewrite length_app. lia. Qed.

Lemma blen_drop n b : blen (drop n b) = Z.max 0 (blen b - Z.of_nat n).
Proof. unfold blen. rewrite length_drop. lia. Qed.

(** Any two amounts of fuel that cover the buffer give the same result. *)
Lemma push_loop_fuel f f' b fs :
  (List.length b <= f)%nat -> (List.length b <= f')%nat -> push_loop d f b fs = push_loop d f' b fs.
Proof.
  revert f' b fs. induction f as [|f IH]; intros f' b fs Hf Hf'.
  - destruct b; [|simpl in Hf; lia]. destruct f'; done.
  - destruct f' as [|f']; [destruct b; [done|simpl in Hf'; lia]|]. cbn [push_loop].
    destruct (blen b <? 4) eqn:E1; [done|]. destruct (cap d <? _); [done|].
    destruct (blen b <? 4 + _) eqn:E2; [done|]. destruct (parse _); [|done].
    pose proof (read32_nonneg b). bool_simpl. unfold blen in *.
    apply IH; rewrite length_drop; lia.
Qed.

(** The frames already decoded are only a prefix of the answer. *)
Lemma push_loop_frames f b fs : push_loop d f b fs = (app fs <$> (push_loop d f b []).1, (push_loop d f b []).2).
Proof.
  revert b fs. induction f as [|f IH]; intros b fs; cbn [push_loop]; [by simpl; rewrite app_nil_r|].
  destruct (blen b <? 4); [by simpl; rewrite app_nil_r|]. destruct (cap d <? _); [done|].
  destruct (blen b <? 4 + _); [by simpl; rewrite app_nil_r|]. destruct (parse _); [|done].
  rewrite IH, (IH _ ([] ++ _)). simpl. destruct (push_loop d f _ []) as [[gs|e] b']; simpl; [|done].
  by rewrite <- app_assoc.
Qed.

(** Decoding a buffer and then more bytes is decoding them together. *)
Lemma push_loop_app f g b c fs fs1 b1 :
  (List.length b <= f)%nat -> (List.length (b ++ c) <= g)%nat ->
  push_loop d f b fs = (Ok fs1, b1) ->
  push_loop d g (b ++ c) fs = push_loop d (List.length (b1 ++ c)) (b1 ++ c) fs1.
Proof.
  revert g b fs. induction f as [|f IH]; intros g b fs Hf Hg E.
  - cbn [push_loop] in E. simplify_eq. by apply push_loop_fuel.
  - cbn [push_loop] in E. destruct (blen b <? 4) eqn:E1; [simplify_eq; by apply push_loop_fuel|].
    destruct (cap d <? _) eqn:E2; [done|].
    destruct (blen b <? 4 + _) eqn:E3; [simplify_eq; by apply push_loop_fuel|].
    destruct (parse _) as [v|] eqn:E4; [|done]. bool_simpl.
    pose proof (read32_nonneg b) as Hr. rewrite length_app in Hg. unfold blen in *.
    destruct g as [|g]; [lia|]. cbn [push_loop]. rewrite (read32_prefix b c) by (unfold blen; lia).
    unfold blen. rewrite length_app.
    destruct (Z.of_nat _ <? 4) eqn:E5; bool_simpl; [lia|].
    destruct (cap d <? read32 d b) eqn:E6; bool_simpl; [lia|].
    destruct (Z.of_nat (List.length b + _) <? 4 + read32 d b) eqn:E7; bool_simpl; [lia|].
    rewrite drop_app_le by lia. rewrite take_app_le by (rewrite length_drop; lia).
    rewrite E4, drop_app_le by lia. apply IH; [rewrite length_drop; lia|rewrite length_app, length_drop; lia|done].
Qed.

Lemma push_app b c1 c2 fs1 b1 :
  push d b c1 = (Ok fs1, b1) ->
  push d b (c1 ++ c2) = (app fs1 <$> (push d b1 c2).1, (push d b1 c2).2).
Proof.
  unfold push. intros E. rewrite app_assoc. rewrite (push_loop_app _ (List.length ((b ++ c1) ++ c2)) _ c2 _ _ _ ltac:(done) ltac:(done) E).
  apply push_loop_frames.
Qed.

(** An exception is not cured by more bytes. *)
Lemma push_loop_err f g b c fs e b1 :
  (List.length b <= f)%nat -> (List.length (b ++ c) <= g)%nat ->
  push_loop d f b fs = (Err e, b1) -> (push_loop d g (b ++ c) fs).1 = Err e.
Proof.
  revert g b fs. induction f as [|f IH]; intros g b fs Hf Hg E; [done|].
  cbn [push_loop] in E. destruct (blen b <? 4) eqn:E1; [done|]. bool_simpl.
  rewrite length_app in Hg. unfold blen in *. destruct g as [|g]; [lia|]. cbn [push_loop].
  rewrite (read32_prefix b c) by (unfold blen; lia). unfold blen. rewrite length_app.
  destruct (Z.of_nat _ <? 4) eqn:E5; bool_simpl; [lia|].
  destruct (cap d <? _) eqn:E2; [by simplify_eq|].
  destruct (Z.of_nat (List.length b) <? 4 + _) eqn:E3; [done|]. bool_simpl.
  pose proof (read32_nonneg b) as Hr.
  destruct (Z.of_nat (List.length b + _) <? 4 + read32 d b) eqn:E7; bool_simpl; [lia|].
  rewrite drop_app_le by lia. rewrite take_app_le by (rewrite length_drop; lia).
  destruct (parse _) as [v|] eqn:E4; [|by simplify_eq]. rewrite drop_app_le by lia.
  apply IH; [rewrite length_drop; lia|rewrite length_app, length_drop; lia|done].
Qed.

Lemma push_err_app b c1 c2 e b1 : push d b c1 = (Err e, b1) -> (push d b (c1 ++ c2)).1 = Err e.
Proof. unfold push. rewrite app_assoc. by apply push_loop_err. Qed.

(** Any chunking of a stream gives what pushing it whole gives. *)
Lemma push_all_concat b c cs :
  (push_all d b (c :: cs)).1 = (push d b (List.concat (c :: cs))).1 /\
  (isOk (push d b (List.concat (c :: cs))).1 = true ->
   (push_all d b (c :: cs)).2 = (push d b (List.concat (c :: cs))).2).
Proof.
  revert b c. induction cs as [|c' cs IH]; intros b c.
  - cbn [push_all List.concat]. rewrite app_nil_r. destruct (push d b c) as [[fs|e] b']; simpl; [by rewrite app_nil_r|done].
  - change (List.concat (c :: c' :: cs)) with (c ++ List.concat (c' :: cs)).
    change (push_all d b (c :: c' :: cs)) with
      (match push d b c with
       | (Ok fs, buffer') => let '(r, b) := push_all d buffer' (c' :: cs) in (app fs <$> r, b)
       | (Err e, buffer') => (Err e, buffer') end).
    destruct (push d b c) as [[fs|e] b1] eqn:E.
    + rewrite (push_app _ _ _ _ _ E). destruct (IH b1 c') as [H1 H2].
      destruct (push_all d b1 (c' :: cs)) as [r b2]. cbn [fst snd] in *. rewrite H1. split; [done|].
      intros Hok. apply H2. destruct (push d b1 _).1; done.
    + apply (push_err_app _ _ (List.concat (c' :: cs))) in E. rewrite E. done.
Qed.

(** One frame at the head of the buffer. *)
Lemma push_loop_frame f v bytes rest fs :
  codec_ok v -> encode d v = Ok bytes ->
  push_loop d (S f) (bytes ++ rest) fs = push_loop d f rest (fs ++ [v]).
Proof.
  intros Hv. unfold encode. destruct (cap d <? blen (stringify v)) eqn:Ec; [done|]. intros [= <-]. bool_simpl.
  pose proof cap_word as Hcap. assert (0 <= blen (stringify v)) as H0 by (unfold blen; lia).
  cbn [push_loop]. rewrite <- app_assoc, read_write32 by lia.
  set (w := write32 d (blen (stringify v))).
  assert (List.length w = 4%nat) as Hw by apply write32_length.
  assert (blen w = 4) as Hw' by (unfold blen; lia).
  rewrite !blen_app, Hw'. pose proof (Nat2Z.is_nonneg (List.length rest)) as Hrest. fold (blen rest) in Hrest.
  destruct (_ <? 4) eqn:E1; bool_simpl; [lia|].
  destruct (cap d <? _) eqn:E2; bool_simpl; [lia|].
  destruct (_ <? 4 + _) eqn:E3; bool_simpl; [lia|].
  rewrite drop_app_length' by done.
  rewrite take_app_length' by (unfold blen; lia). rewrite parse_stringify by done.
  rewrite app_assoc, drop_app_length' by (rewrite length_app, Hw; unfold blen; lia). done.
Qed.

Lemma encode_length v bytes : encode d v = Ok bytes -> blen bytes = 4 + blen (stringify v) /\ blen bytes <= 4 + cap d.
Proof.
  unfold encode. destruct (cap d <? _) eqn:E; [done|]. intros [= <-]. bool_simpl. rewrite blen_app.
  assert (blen (write32 d (blen (stringify v))) = 4) as -> by (unfold blen at 1; by rewrite write32_length). lia.
Qed.

Lemma push_encode_all vs stream :
  Forall codec_ok vs -> encode_all d vs = Ok stream -> push d [] stream = (Ok vs, []).
Proof.
  intros Hvs E. unfold push. cbn [app].
  assert (forall f fs, (List.length stream <= f)%nat -> push_loop d f stream fs = (Ok (fs ++ vs), [])) as H1.
  { revert stream E. induction Hvs as [|v vs Hv _ IH]; intros stream E f fs Hf; simpl in E.
    - simplify_eq. rewrite app_nil_r. destruct f; done.
    - destruct (encode d v) as [b|] eqn:Eb; [|done]. simpl in E.
      destruct (encode_all d vs) as [bs|] eqn:Ebs; [|done]. simpl in E. simplify_eq.
      pose proof (encode_length _ _ Eb) as [Hl _]. rewrite length_app in Hf. unfold blen in Hl.
      destruct f as [|f]; [lia|]. rewrite (push_loop_frame _ _ _ _ _ Hv Eb), IH; [by rewrite <- app_assoc|done|lia]. }
  rewrite H1 by done. done.
Qed.

(** What a successful push leaves buffered is less than one frame at the cap. *)
Lemma push_loop_pending f b fs fs' b' :
  (List.length b <= f)%nat -> push_loop d f b fs = (Ok fs', b') -> blen b' < 4 + cap d.
Proof.
  pose proof cap_word as Hcap. revert b fs. induction f as [|f IH]; intros b fs Hf E; cbn [push_loop] in E.
  - simplify_eq. destruct b'; [unfold blen; simpl; lia|simpl in Hf; lia].
  - destruct (blen b <? 4) eqn:E1; [simplify_eq; bool_simpl; lia|].
    destruct (cap d <? _) eqn:E2; [done|]. destruct (blen b <? 4 + _) eqn:E3; [simplify_eq; bool_simpl; lia|].
    destruct (parse _); [|done]. bool_simpl. pose proof (read32_nonneg b). unfold blen in *.
    eapply IH; [|exact E]. rewrite length_drop. lia.
Qed.

(** A header over the cap stays at the head of the buffer. *)
Lemma push_loop_oversized f b fs e b' :
  push_loop d f b fs = (Err e, b') -> e <> body_error d ->
  4 <= blen b' /\ cap d < read32 d b' /\ e = incoming_error d (read32 d b').
Proof.
  revert b fs. induction f as [|f IH]; intros b fs E Hne; cbn [push_loop] in E; [done|].
  destruct (blen b <? 4) eqn:E1; [done|]. destruct (cap d <? _) eqn:E2; [simplify_eq; bool_simpl; done|].
  destruct (blen b <? 4 + _); [done|]. destruct (parse _); [eauto|]. simplify_eq.
Qed.

Lemma push_oversized b c :
  4 <= blen b -> cap d < read32 d b -> push d b c = (Err (incoming_error d (read32 d b)), b ++ c).
Proof.
  intros Hb Hc. unfold push. assert (List.length (b ++ c) <> 0%nat) as Hl by (unfold blen in Hb; rewrite length_app; lia).
  destruct (List.length (b ++ c)) as [|f]; [done|]. cbn [push_loop]. rewrite blen_app, read32_prefix by done.
  pose proof (Nat2Z.is_nonneg (List.length c)) as H0. fold (blen c) in H0.
  destruct (_ <? 4) eqn:E; bool_simpl; [lia|]. apply Z.ltb_lt in Hc. by rewrite Hc.
Qed.
End decoder.

(** ** Envelopes *)

(** A reply with [ok: true] parses to its result, one with [ok: false] to its error. *)
Lemma parseReplyEnvelope_ok `{Zod} o v id :
  obj_get "v" o = Some (JNum v) -> obj_get "id" o = Some (JStr id) -> obj_get "ok" o = Some (JBool true) ->
  parseReplyEnvelope (JObj o) = Ok (ReplyOk v id (obj_get "result" o)).
Proof.
  intros Hv Hid Hok. unfold parseReplyEnvelope. rewrite zparse_law. cbn [zod_step ReplyEnvelopeSchema parse_union].
  rewrite zparse_law. cbn. unfold parse_field. cbn. rewrite !zparse_law, Hv, Hid, Hok. cbn.
  by destruct (obj_get "result" o).
Qed.

Lemma parseReplyEnvelope_err `{Zod} o v id e code message :
  obj_get "v" o = Some (JNum v) -> obj_get "id" o = Some (JStr id) -> obj_get "ok" o = Some (JBool false) ->
  obj_get "error" o = Some (JObj e) -> obj_get "code" e = Some (JStr code) -> obj_get "message" e = Some (JStr message) ->
  parseReplyEnvelope (JObj o) = Ok (ReplyErr v id code message).
Proof.
  intros Hv Hid Hok He Hc Hm. unfold parseReplyEnvelope. rewrite zparse_law. cbn [zod_step ReplyEnvelopeSchema parse_union].
  rewrite zparse_law. cbn. unfold parse_field. cbn. rewrite !zparse_law, Hv, Hid, Hok. cbn.
  unfold parse_field. cbn. rewrite !zparse_law, Hv, Hid, Hok, He. cbn.
  unfold parse_field. cbn. rewrite !zparse_law, Hc, Hm. done.
Qed.

(** ** Properties *)

(** C17: frames are reassembled from any chunk boundaries: messages that fit the cap, encoded and
    concatenated, then cut into chunks in any way and pushed one chunk at a time, come out of the
    decoder in order and exactly once, with nothing left in the buffer; for the bridge and for the
    browser dialect. *)
Theorem frame_reassembly `{JsonCodec} d vs c cs :
  d = bridge \/ d = chrome -> Forall codec_ok vs ->
  encode_all d vs = Ok (List.concat (c :: cs)) -> push_all d [] (c :: cs) = (Ok vs, []).
Proof.
  intros Hd Hvs E. assert (DialectOk d) by (destruct Hd; subst d; [exact bridge_ok|exact chrome_ok]).
  destruct (push_all_concat d [] c cs) as [H1 H2].
  rewrite (push_encode_all d vs _ Hvs E) in H1, H2. cbn [fst snd isOk] in H1, H2. specialize (H2 eq_refl).
  destruct (push_all d [] (c :: cs)). cbn [fst snd] in *. by subst.
Qed.

Lemma frame_reassembly_witness :
  push_all bridge []
    [[chr 0; chr 0]; [chr 0; chr 4; "n"%char; "u"%char]; to_chars "ll"; [chr 0]; [chr 0; chr 0; chr 2; "["%char; "]"%char]]
  = (Ok [JNull; JArr []], []).
Proof.
  apply (frame_reassembly (H := json_text) bridge [JNull; JArr []]).
  - left; reflexivity.
  - repeat constructor.
  - vm_compute; reflexivity.
Defined.

(** Chunk boundaries are never observable, not even on a corrupt or hostile stream: two ways of
    cutting the same bytes give the same frames or the same exception. *)
Theorem frame_chunking_invisible `{JsonCodec} d b c cs c' cs' :
  d = bridge \/ d = chrome -> List.concat (c :: cs) = List.concat (c' :: cs') ->
  (push_all d b (c :: cs)).1 = (push_all d b (c' :: cs')).1.
Proof.
  intros Hd E. assert (DialectOk d) by (destruct Hd; subst d; [exact bridge_ok|exact chrome_ok]).
  rewrite (proj1 (push_all_concat d b c cs)), (proj1 (push_all_concat d b c' cs')). by rewrite E.
Qed.

Lemma frame_chunking_invisible_witness :
  (push_all chrome [] [[chr 255]; [chr 255; chr 255]; [chr 255; chr 0]]).1
  = (push_all chrome [] [[chr 255; chr 255; chr 255; chr 255; chr 0]]).1.
Proof. apply (frame_chunking_invisible (H := json_text) chrome); [right; reflexivity|reflexivity]. Defined.

(** Memory is bounded in both directions: [encodeFrame] and [encodeMessage] refuse exactly the
    bodies over the cap and otherwise produce the header and the body, and after a push that
    returns, fewer bytes than one frame at the cap stay buffered. *)
Theorem frame_bounds `{JsonCodec} d v b c :
  d = bridge \/ d = chrome ->
  (encode d v = if cap d <? blen (stringify v) then Err (outgoing_error d (blen (stringify v)))
                else Ok (write32 d (blen (stringify v)) ++ stringify v)) /\
  (forall bytes, encode d v = Ok bytes -> blen bytes <= 4 + cap d) /\
  (forall fs b', push d b c = (Ok fs, b') -> blen b' < 4 + cap d).
Proof.
  intros Hd. assert (DialectOk d) by (destruct Hd; subst d; [exact bridge_ok|exact chrome_ok]). split_and!.
  - done.
  - intros bytes E. by apply (encode_length d) in E as [_ ?].
  - intros fs b' E. exact (push_loop_pending d _ _ _ _ _ (le_n _) E).
Qed.

Lemma frame_bounds_witness :
  (encode chrome JNull = if cap chrome <? blen (stringify JNull) then Err (outgoing_error chrome (blen (stringify JNull)))
                else Ok (write32 chrome (blen (stringify JNull)) ++ stringify JNull)) /\
  (forall bytes, encode chrome JNull = Ok bytes -> blen bytes <= 4 + cap chrome) /\
  (forall fs b', push chrome [] [chr 3] = (Ok fs, b') -> blen b' < 4 + cap chrome).
Proof. apply (frame_bounds (H := json_text) chrome JNull [] [chr 3]). right; reflexivity. Defined.

(** A decoder that has thrown because of an oversized header is dead: the header stays at the
    front of the buffer, every later push throws the same error whatever it is given, and the
    buffer grows with every chunk. *)
Theorem decoder_poisoned `{JsonCodec} d b c e b' c' :
  d = bridge \/ d = chrome -> push d b c = (Err e, b') -> e <> body_error d ->
  push d b' c' = (Err e, b' ++ c').
Proof.
  intros Hd E Hne. assert (DialectOk d) by (destruct Hd; subst d; [exact bridge_ok|exact chrome_ok]).
  unfold push in E. apply (push_loop_oversized d) in E as (Hb & Hc & ->); [|done]. by apply push_oversized.
Qed.

Lemma decoder_poisoned_witness :
  push bridge [chr 1; chr 0; chr 0; chr 0] (to_chars "null")
  = (Err (incoming_error bridge (2 ^ 24)), [chr 1; chr 0; chr 0; chr 0] ++ to_chars "null").
Proof.
  apply (decoder_poisoned (H := json_text) bridge [] [chr 1; chr 0; chr 0; chr 0]);
    [left; reflexivity|vm_compute; reflexivity|vm_compute; discriminate].
Defined.

(** [negotiate] accepts exactly the replies that select a protocol of [SUPPORTED_PROTOCOLS] and the
    SDK's schema; every other reply, also one that is not an object, is a [VersionMismatchError]. *)
Theorem negotiate_spec `{Zod} r :
  match negotiate r with
  | Ok n => proto n ∈ SUPPORTED_PROTOCOLS /\ nv_schema n = SCHEMA_VERSION /\
      exists o, r = Some (JObj o) /\ obj_get "proto" o = Some (JNum (NInt (proto n))) /\
        obj_get "schema" o = Some (JStr (nv_schema n)) /\ obj_get "agent" o = Some (JStr (agent n))
  | Err e => error_code e = Some CVersionMismatch /\
      forall o a, r = Some (JObj o) -> obj_get "proto" o = Some (JNum (NInt PROTOCOL_VERSION)) ->
        obj_get "schema" o = Some (JStr SCHEMA_VERSION) -> obj_get "agent" o <> Some (JStr a)
  end.
Proof.
  unfold negotiate. rewrite zparse_law. cbn [zod_step HelloResultSchema].
  destruct r as [[| | | | |o]|]; try (split; [done|intros; simplify_eq]).
  cbn. unfold parse_field. cbn. rewrite !zparse_law.
  destruct (obj_get "proto" o) as [[| |[p|m k]| | |]|] eqn:Ep; cbn; try (split; [done|intros ? ? [= <-]; congruence]).
  destruct (obj_get "schema" o) as [[| | |s| |]|] eqn:Es; cbn; try (split; [done|intros ? ? [= <-]; congruence]).
  destruct (obj_get "agent" o) as [[| | |a| |]|] eqn:Ea; cbn; try (split; [done|intros ? ? [= <-]; congruence]).
  change (hello_fields _) with (Some (p, s, a)). cbv beta iota. rewrite orb_false_r.
  destruct (p =? PROTOCOL_VERSION) eqn:E1; cbn [negb]; [destruct (String.eqb s SCHEMA_VERSION) eqn:E2; cbn [negb]|].
  - apply Z.eqb_eq in E1. apply String.eqb_eq in E2. subst. split; [set_solver|]. split; [done|]. by exists o.
  - apply String.eqb_neq in E2. split; [done|]. intros ? ? [= <-]. congruence.
  - apply Z.eqb_neq in E1. split; [done|]. intros ? ? [= <-]. congruence.
Qed.
