(* ===== verification/XpcTransport.v ===== *)
(** * The XPC bridge transport: [connector-sdk/src/transport/xpc-bridge-transport.ts]

    [XpcBridgeTransport] as a state machine driven by events: calls of [connect], [request] and
    [close], and the callbacks of the helper process and of the abort signals.  A helper process
    is a number; a request is named by the [randomUUID] it draws; its promise is [None] until it
    is settled, and settling it again has no effect, as for every JavaScript promise.

    Not modelled: the environment passed to the helper, its stderr, the log lines. *)

From S2P Require Import Prelude Json JsonText Zod Resilience Framing.

Abbreviation outcome := (result error (option json)).

(** ** State *)

Record xstate := mkX {
  child : option nat;                      (* this.child *)
  exited : gset nat;                       (* children whose exitCode is not null *)
  attached : gset nat;                     (* children our handlers listen to *)
  killed : gset nat;                       (* children sent a kill *)
  decoder : chars;                         (* this.decoder: its buffer *)
  pending : gset string;                   (* the keys of this.pending *)
  listeners : gset string;                 (* requests whose abort listener is registered *)
  methods : gmap string string;            (* the method of each request (its closure) *)
  promises : gmap string (option outcome); (* the promise each request returned *)
  stdin : list (nat * chars)               (* frames written, newest last *)
}.

Definition xinit : xstate := mkX None ∅ ∅ ∅ [] ∅ ∅ ∅ ∅ [].

Definition set_child c st := mkX c (exited st) (attached st) (killed st) (decoder st) (pending st) (listeners st) (methods st) (promises st) (stdin st).
Definition set_exited e st := mkX (child st) e (attached st) (killed st) (decoder st) (pending st) (listeners st) (methods st) (promises st) (stdin st).
Definition set_attached a st := mkX (child st) (exited st) a (killed st) (decoder st) (pending st) (listeners st) (methods st) (promises st) (stdin st).
Definition set_killed k st := mkX (child st) (exited st) (attached st) k (decoder st) (pending st) (listeners st) (methods st) (promises st) (stdin st).
Definition set_decoder b st := mkX (child st) (exited st) (attached st) (killed st) b (pending st) (listeners st) (methods st) (promises st) (stdin st).
Definition set_pending p st := mkX (child st) (exited st) (attached st) (killed st) (decoder st) p (listeners st) (methods st) (promises st) (stdin st).
Definition set_listeners l st := mkX (child st) (exited st) (attached st) (killed st) (decoder st) (pending st) l (methods st) (promises st) (stdin st).
Definition set_methods m st := mkX (child st) (exited st) (attached st) (killed st) (decoder st) (pending st) (listeners st) m (promises st) (stdin st).
Definition set_promises p st := mkX (child st) (exited st) (attached st) (killed st) (decoder st) (pending st) (listeners st) (methods st) p (stdin st).
Definition set_stdin s st := mkX (child st) (exited st) (attached st) (killed st) (decoder st) (pending st) (listeners st) (methods st) (promises st) s.

(** Settle a promise; only the first time counts. *)
Definition settle (id : string) (r : outcome) (st : xstate) : xstate :=
  match promises st !! id with
  | Some None => set_promises (<[id := Some r]> (promises st)) st
  | _ => st
  end.

(** The [resolve] and [reject] stored in [this.pending]: unregister the abort listener, settle. *)
Definition finish (id : string) (r : outcome) (st : xstate) : xstate :=
  settle id r (set_listeners (listeners st ∖ {[id]}) st).

Definition method_of (id : string) (st : xstate) : string := default "" (methods st !! id).
Definition quoted (s : string) : string := of_chars [chr 34] +:+ s +:+ of_chars [chr 34].

(** ** Operations *)

(** [failAll] *)
Definition failAll (e : error) (st : xstate) : xstate :=
  set_pending ∅ (foldr (fun id s => finish id (Err e) s) st (elements (pending st))).

Section transport.
Context `{JsonCodec} `{Zod}.

(** [close] *)
Definition close (st : xstate) : xstate :=
  let c := child st in
  let st := set_child None st in
  let st := failAll (NotConnectedError "transport closed") st in
  match c with
  | Some c => if bool_decide (c ∈ exited st) then st else set_killed (killed st ∪ {[c]}) st
  | None => st
  end.

(** [dispatch] *)
Definition dispatch (frame : json) (st : xstate) : xstate :=
  match parseReplyEnvelope frame with
  | Err _ => st
  | Ok reply =>
      let id := match reply with ReplyOk _ id _ => id | ReplyErr _ id _ _ => id end in
      if bool_decide (id ∈ pending st) then
        let st := set_pending (pending st ∖ {[id]}) st in
        match reply with
        | ReplyOk _ _ result => finish id (Ok result) st
        | ReplyErr _ _ code message => finish id (Err (connectorErrorFromWire code message)) st
        end
      else st
  end.

(** [onStdout] *)
Definition onStdout (chunk : chars) (st : xstate) : xstate :=
  match FrameDecoder_push (decoder st) chunk with
  | (Err e, b) => close (failAll e (set_decoder b st))
  | (Ok frames, b) => fold_left (fun s f => dispatch f s) frames (set_decoder b st)
  end.

(** [onExit] *)
Definition onExit (code : option Z) (signal : option string) (st : xstate) : xstate :=
  failAll (TransportError ("xpc-bridge exited (code=" +:+ from_option show_Z "null" code
             +:+ ", signal=" +:+ default "null" signal +:+ ")") None)
    (set_child None st).

(** The synchronous part of [request]: draw [id], check the connection, register the call and
    write the frame.  [aborted] is [signal.aborted]. *)
Definition request (id method : string) (params : json) (aborted : bool) (st : xstate) : xstate :=
  let reject e := set_promises (<[id := Some (Err e)]> (promises st)) st in
  match child st with
  | Some c =>
      if bool_decide (c ∈ exited st) then reject (NotConnectedError "transport is not connected")
      else
        match encodeFrame (request_envelope id method params) with
        | Err e => reject e
        | Ok frame =>
            if aborted then reject (TransportError ("request " +:+ quoted method +:+ " aborted") None)
            else
              set_stdin (stdin st ++ [(c, frame)])
                (set_promises (<[id := None]> (promises st))
                  (set_methods (<[id := method]> (methods st))
                    (set_pending (pending st ∪ {[id]})
                      (set_listeners (listeners st ∪ {[id]}) st))))
        end
  | None => reject (NotConnectedError "transport is not connected")
  end.

(** [onAbort], registered with [once: true] *)
Definition onAbort (id : string) (st : xstate) : xstate :=
  if bool_decide (id ∈ listeners st) then
    let st := set_listeners (listeners st ∖ {[id]}) st in
    let st := set_pending (pending st ∖ {[id]}) st in
    settle id (Err (TransportError ("request " +:+ quoted (method_of id st) +:+ " aborted") None)) st
  else st.

(** The callback of [child.stdin.write] when the write failed *)
Definition onWriteError (id : string) (e : error) (st : xstate) : xstate :=
  let st := set_pending (pending st ∖ {[id]}) st in
  let st := set_listeners (listeners st ∖ {[id]}) st in
  settle id (Err (TransportError ("failed to write request " +:+ quoted (method_of id st)) (Some e))) st.

(** The end of [connect], once the helper has emitted ['spawn']: attach the handlers, keep it. *)
Definition onSpawned (c : nat) (st : xstate) : xstate :=
  set_child (Some c) (set_attached (attached st ∪ {[c]}) st).

(** ** Events *)

Inductive event :=
| EvConnect (c : nat)                                     (* connect() spawned the helper c *)
| EvConnected                                             (* connect() with a helper: no effect *)
| EvRequest (id method : string) (params : json) (aborted : bool)
| EvAbort (id : string)
| EvWriteError (id : string) (e : error)
| EvStdout (c : nat) (chunk : chars)
| EvExitCode (c : nat)                                    (* c.exitCode becomes non-null *)
| EvExit (c : nat) (code : option Z) (signal : option string)
| EvChildError (c : nat) (e : error)
| EvClose.

Definition handle (ev : event) (st : xstate) : xstate :=
  match ev with
  | EvConnect c => onSpawned c st
  | EvConnected => st
  | EvRequest id method params aborted => request id method params aborted st
  | EvAbort id => onAbort id st
  | EvWriteError id e => onWriteError id e st
  | EvStdout c chunk => onStdout chunk st
  | EvExitCode c => set_exited (exited st ∪ {[c]}) st
  | EvExit c code signal => onExit code signal st
  | EvChildError c e => failAll (TransportError "xpc-bridge errored" (Some e)) st
  | EvClose => close st
  end.

(** When an event can happen: helpers and request ids are fresh, callbacks come from a helper
    whose handlers were attached, a process exits once. *)
Definition enabled (ev : event) (st : xstate) : Prop :=
  match ev with
  | EvConnect c => child st = None /\ c ∉ attached st
  | EvConnected => child st <> None
  | EvRequest id _ _ _ => promises st !! id = None
  | EvStdout c _ | EvChildError c _ => c ∈ attached st
  | EvExitCode c => c ∈ attached st /\ c ∉ exited st
  | EvExit c _ _ => c ∈ attached st /\ c ∈ exited st
  | _ => True
  end.

Inductive xstep (st : xstate) (ev : event) : xstate -> Prop :=
| xstep_intro : enabled ev st -> xstep st ev (handle ev st).

(** Runs of the transport. *)
Definition xsteps : xstate -> list event -> xstate -> Prop := rtc_trace xstep.
End transport.

(** ** Invariant *)

(** The requests that wait are exactly those whose promise is open, and each can be aborted. *)
Definition xinv (st : xstate) : Prop :=
  pending st = listeners st /\ forall id, id ∈ pending st <-> promises st !! id = Some None.

(** A promise is never changed once settled, and never disappears. *)
Definition keeps_settled (st st' : xstate) : Prop :=
  (forall id r, promises st !! id = Some (Some r) -> promises st' !! id = Some (Some r)) /\
  (forall id, promises st !! id = Some None -> is_Some (promises st' !! id)).

(** What a frame says to the request [id]: its result or its typed error, if it is a reply to it. *)
Definition reply_to `{Zod} (id : string) (frame : json) : option outcome :=
  match parseReplyEnvelope frame with
  | Ok (ReplyOk _ i result) => if bool_decide (i = id) then Some (Ok result) else None
  | Ok (ReplyErr _ i code message) => if bool_decide (i = id) then Some (Err (connectorErrorFromWire code message)) else None
  | Err _ => None
  end.

(** The first reply to [id] among the frames of a chunk. *)
Fixpoint first_reply `{Zod} (id : string) (frames : list json) : option outcome :=
  match frames with
  | [] => None
  | frame :: rest => match reply_to id frame with Some r => Some r | None => first_reply id rest end
  end.

(** Nothing is left waiting. *)
Definition quiescent (st : xstate) : Prop :=
  pending st = ∅ /\ forall id, promises st !! id <> Some None.

(** ** Settling *)

#[export] Instance open_dec (p : gmap string (option outcome)) id : Decision (p !! id = Some None).
Proof. destruct (p !! id) as [[r|]|]; [right|left|right]; congruence. Defined.

Lemma settle_lookup id r st j :
  promises (settle id r st) !! j =
  if decide (j = id /\ promises st !! id = Some None) then Some (Some r) else promises st !! j.
Proof.
  unfold settle. case_decide as Hd.
  - destruct Hd as [-> E]. rewrite E. simpl. by rewrite lookup_insert_eq.
  - destruct (promises st !! id) as [[x|]|] eqn:E; try done. simpl.
    rewrite lookup_insert_ne; [done|]. intros ->. auto.
Qed.

Lemma settle_fields id r st :
  child (settle id r st) = child st /\ exited (settle id r st) = exited st /\
  attached (settle id r st) = attached st /\ killed (settle id r st) = killed st /\
  decoder (settle id r st) = decoder st /\ pending (settle id r st) = pending st /\
  listeners (settle id r st) = listeners st /\ methods (settle id r st) = methods st /\
  stdin (settle id r st) = stdin st.
Proof. unfold settle. destruct (promises st !! id) as [[x|]|]; by split_and!. Qed.

(** Take a request out of the tables and settle it: the common part of [dispatch], [onAbort] and
    the write callback. *)
Definition retire (id : string) (r : outcome) (st : xstate) : xstate :=
  settle id r (set_listeners (listeners st ∖ {[id]}) (set_pending (pending st ∖ {[id]}) st)).

Lemma retire_inv id r st : xinv st -> xinv (retire id r st).
Proof.
  intros [Hl Hp]. unfold retire, xinv.
  destruct (settle_fields id r (set_listeners (listeners st ∖ {[id]}) (set_pending (pending st ∖ {[id]}) st)))
    as (_ & _ & _ & _ & _ & -> & -> & _). simpl. split; [by rewrite Hl|].
  intros j. rewrite settle_lookup. simpl. rewrite elem_of_difference, elem_of_singleton, Hp.
  case_decide as Hd; [destruct Hd as [-> _]; naive_solver|].
  destruct (decide (j = id)) as [->|]; [|naive_solver]. split; [naive_solver|]. intros E. destruct Hd. auto.
Qed.

Lemma retire_keeps id r st : keeps_settled st (retire id r st).
Proof.
  unfold retire. split.
  - intros j x E. rewrite settle_lookup. simpl. case_decide as Hd; [|done]. destruct Hd as [-> ?]. congruence.
  - intros j E. rewrite settle_lookup. case_decide; [by eexists|]. simpl. by rewrite E.
Qed.

Lemma keeps_settled_refl st : keeps_settled st st.
Proof. split; [done|]. intros id ->. by eexists. Qed.

Lemma keeps_settled_trans a b c : keeps_settled a b -> keeps_settled b c -> keeps_settled a c.
Proof.
  intros [H1 H2] [H3 H4]. split; [auto|]. intros id E. destruct (H2 id E) as [[x|] E']; [|auto].
  apply H3 in E'. by rewrite E'.
Qed.

(** ** [failAll] *)

Lemma fail_list_spec e l st :
  let st' := foldr (fun id s => finish id (Err e) s) st l in
  pending st' = pending st /\ listeners st' = listeners st ∖ list_to_set l /\
  child st' = child st /\ exited st' = exited st /\ stdin st' = stdin st /\
  (forall j, promises st' !! j =
     if decide (j ∈ l /\ promises st !! j = Some None) then Some (Some (Err e)) else promises st !! j).
Proof.
  induction l as [|id l IH]; cbn [foldr].
  - split_and!; [done|set_solver|done..|]. intros j. case_decide as Hd; [set_solver|done].
  - cbv zeta in IH |- *. set (s1 := foldr _ st l) in *. destruct IH as (IH1 & IH2 & IH3 & IH4 & IH5 & IH6).
    unfold finish. destruct (settle_fields id (Err e) (set_listeners (listeners s1 ∖ {[id]}) s1))
      as (-> & -> & _ & _ & _ & -> & -> & _ & ->).
    cbn [pending listeners child exited stdin set_listeners].
    rewrite IH1, IH2, IH3, IH4, IH5. split_and!; [done|set_solver|done..|].
    intros j. rewrite settle_lookup. cbn [promises set_listeners].
    case_decide as Hd; specialize (IH6 j).
    + destruct Hd as [-> Hopen]. rewrite Hopen in IH6. destruct (decide (id ∈ l /\ promises st !! id = Some None)); [done|].
      case_decide as H2; [done|]. destruct H2. split; [apply list_elem_of_here|done].
    + rewrite IH6. destruct (decide (j ∈ l /\ promises st !! j = Some None)) as [H1|H1].
      * case_decide as H2; [done|]. destruct H1, H2. split; [by apply list_elem_of_further|done].
      * case_decide as H2; [|done]. exfalso. destruct H2 as [Hin Ho]. apply elem_of_cons in Hin as [->|Hin]; [|auto].
        apply Hd. rewrite IH6. auto.
Qed.

Lemma failAll_spec e st :
  pending (failAll e st) = ∅ /\ listeners (failAll e st) = listeners st ∖ pending st /\
  child (failAll e st) = child st /\ exited (failAll e st) = exited st /\ stdin (failAll e st) = stdin st /\
  (forall j, promises (failAll e st) !! j =
     if decide (j ∈ pending st /\ promises st !! j = Some None) then Some (Some (Err e)) else promises st !! j).
Proof.
  destruct (fail_list_spec e (elements (pending st)) st) as (_ & H2 & H3 & H4 & H5 & H6).
  unfold failAll. simpl. split_and!; [done| |done..|].
  - rewrite H2. set_solver.
  - intros j. rewrite H6. repeat case_decide; set_solver.
Qed.

(** The decoder keeps its buffer. *)
Lemma failAll_decoder e st : decoder (failAll e st) = decoder st.
Proof.
  unfold failAll. simpl. generalize (elements (pending st)). intros l.
  induction l as [|x l IH]; simpl; [done|].
  unfold finish at 1. by destruct (settle_fields x (Err e) (set_listeners
    (listeners (foldr (fun id s => finish id (Err e) s) st l) ∖ {[x]})
    (foldr (fun id s => finish id (Err e) s) st l))) as (_ & _ & _ & _ & -> & _).
Qed.

Lemma failAll_quiescent e st : xinv st -> quiescent (failAll e st).
Proof.
  intros [_ Hp]. destruct (failAll_spec e st) as (H1 & _ & _ & _ & _ & H6). split; [done|].
  intros j. rewrite H6. case_decide as Hd; [done|]. intros E. apply Hd. rewrite Hp. auto.
Qed.

Lemma failAll_inv e st : xinv st -> xinv (failAll e st).
Proof.
  intros Hinv. pose proof (failAll_quiescent e st Hinv) as [Hq1 Hq2]. destruct Hinv as [Hl _].
  destruct (failAll_spec e st) as (H1 & H2 & _). split.
  - rewrite H1, H2, Hl. set_solver.
  - intros j. rewrite H1. split; [set_solver|]. intros E. by apply Hq2 in E.
Qed.

Lemma failAll_keeps e st : keeps_settled st (failAll e st).
Proof.
  destruct (failAll_spec e st) as (_ & _ & _ & _ & _ & H6). split.
  - intros j x E. rewrite H6. case_decide as Hd; [naive_solver|done].
  - intros j E. rewrite H6. case_decide; [by eexists|]. by rewrite E.
Qed.

Section events.
Context `{JsonCodec} `{Zod}.

Lemma close_inv st : xinv st -> xinv (close st) /\ quiescent (close st) /\ child (close st) = None.
Proof.
  intros Hinv. assert (xinv (set_child None st)) as Hinv' by done.
  pose proof (failAll_inv (NotConnectedError "transport closed") _ Hinv') as Hi.
  pose proof (failAll_quiescent (NotConnectedError "transport closed") _ Hinv') as Hq.
  destruct (failAll_spec (NotConnectedError "transport closed") (set_child None st)) as (_ & _ & Hc & _).
  unfold close. destruct (child st) as [c|]; [|done]. case_bool_decide; done.
Qed.

Lemma close_decoder st : child (close st) = None /\ decoder (close st) = decoder st.
Proof.
  unfold close. destruct (failAll_spec (NotConnectedError "transport closed") (set_child None st)) as (_ & _ & Hc & _).
  pose proof (failAll_decoder (NotConnectedError "transport closed") (set_child None st)) as Hd.
  destruct (child st) as [k|]; [case_bool_decide|]; done.
Qed.

Lemma close_keeps st : keeps_settled st (close st).
Proof.
  pose proof (failAll_keeps (NotConnectedError "transport closed") (set_child None st)) as Hk.
  unfold close. destruct (child st) as [c|]; [|exact Hk]. case_bool_decide; exact Hk.
Qed.

(** [dispatch] retires the request the reply names, if it still waits. *)
Lemma dispatch_cases frame st :
  dispatch frame st = st \/ exists id r, id ∈ pending st /\ dispatch frame st = retire id r st.
Proof.
  unfold dispatch. destruct (parseReplyEnvelope frame) as [[v id res|v id c m]|e]; [..|auto];
    (case_bool_decide; [|auto]); right; eexists id, _; (split; [done|reflexivity]).
Qed.

Lemma dispatch_inv frame st : xinv st -> xinv (dispatch frame st).
Proof.
  intros Hinv. destruct (dispatch_cases frame st) as [->|(id & r & _ & ->)]; [done|by apply retire_inv].
Qed.

Lemma dispatch_keeps frame st : keeps_settled st (dispatch frame st).
Proof.
  destruct (dispatch_cases frame st) as [->|(id & r & _ & ->)]; [apply keeps_settled_refl|apply retire_keeps].
Qed.

Lemma dispatch_all_inv frames st : xinv st -> xinv (fold_left (fun s f => dispatch f s) frames st).
Proof. revert st. induction frames as [|f fs IH]; simpl; auto using dispatch_inv. Qed.

Lemma dispatch_all_keeps frames st : keeps_settled st (fold_left (fun s f => dispatch f s) frames st).
Proof.
  revert st. induction frames as [|f fs IH]; intros st; simpl; [apply keeps_settled_refl|].
  eapply keeps_settled_trans; [apply dispatch_keeps|apply IH].
Qed.

(** A frame settles a request that waits with what it says to it, and leaves every other one. *)
Lemma dispatch_reply frame st id :
  id ∈ pending st ->
  match reply_to id frame with
  | Some r => dispatch frame st = retire id r st
  | None => id ∈ pending (dispatch frame st)
  end.
Proof.
  intros Hid. unfold reply_to, dispatch. destruct (parseReplyEnvelope frame) as [[v i res|v i code m]|e]; [..|done].
  all: destruct (decide (i = id)) as [->|Hne]; [rewrite !bool_decide_true by done; reflexivity|].
  all: rewrite (bool_decide_false (i = id)) by done; case_bool_decide; [|done].
  all: unfold finish; rewrite (proj1 (proj2 (proj2 (proj2 (proj2 (proj2 (settle_fields _ _ _))))))); simpl; set_solver.
Qed.

Lemma dispatch_all_replies frames st id :
  xinv st -> id ∈ pending st ->
  let st' := fold_left (fun s f => dispatch f s) frames st in
  promises st' !! id = Some (first_reply id frames) /\ (id ∈ pending st' <-> first_reply id frames = None).
Proof.
  revert st. induction frames as [|f fs IH]; intros st Hinv Hid; cbn [fold_left first_reply].
  - split; [by apply Hinv|done].
  - pose proof (dispatch_reply f st id Hid) as Hd. pose proof (dispatch_inv f st Hinv) as Hinv'.
    destruct (reply_to id f) as [r|]; [|by apply IH].
    assert (promises (dispatch f st) !! id = Some (Some r)) as Hr.
    { rewrite Hd. unfold retire. rewrite settle_lookup, decide_True; [done|]. split; [done|]. by apply Hinv. }
    pose proof (proj1 (dispatch_all_keeps fs (dispatch f st)) id r Hr) as Hk.
    split; [done|]. rewrite (proj2 (dispatch_all_inv fs _ Hinv')), Hk. split; congruence.
Qed.

(** [request] with a fresh id either rejects at once or registers the call and writes its frame. *)
Lemma request_cases id method params aborted st :
  (exists e, request id method params aborted st = set_promises (<[id := Some (Err e)]> (promises st)) st) \/
  (exists c frame, child st = Some c /\ c ∉ exited st /\ aborted = false /\
     encodeFrame (request_envelope id method params) = Ok frame /\
     request id method params aborted st =
       set_stdin (stdin st ++ [(c, frame)])
         (set_promises (<[id := None]> (promises st))
           (set_methods (<[id := method]> (methods st))
             (set_pending (pending st ∪ {[id]}) (set_listeners (listeners st ∪ {[id]}) st))))).
Proof.
  unfold request. destruct (child st) as [c|] eqn:Ec; [|left; by eexists].
  case_bool_decide; [left; by eexists|].
  destruct (encodeFrame _) as [frame|e] eqn:Ef; [|left; by eexists].
  destruct aborted; [left; by eexists|right]. by exists c, frame.
Qed.

Lemma request_inv id method params aborted st :
  promises st !! id = None -> xinv st -> xinv (request id method params aborted st).
Proof.
  intros Hf [Hl Hp].
  destruct (request_cases id method params aborted st) as [(e & ->)|(c & frame & _ & _ & _ & _ & ->)];
    (split; simpl; [by rewrite Hl|]); intros j; rewrite ?elem_of_union, ?elem_of_singleton, Hp;
    destruct (decide (j = id)) as [->|Hj]; rewrite ?lookup_insert_eq, ?lookup_insert_ne by done; naive_solver.
Qed.

Lemma request_keeps id method params aborted st :
  promises st !! id = None -> keeps_settled st (request id method params aborted st).
Proof.
  intros Hf. destruct (request_cases id method params aborted st) as [(e & ->)|(c & frame & _ & _ & _ & _ & ->)];
    (split; simpl; [intros j r E|intros j E]);
    (destruct (decide (j = id)) as [->|Hj]; [congruence|rewrite lookup_insert_ne by done; rewrite ?E; eauto]).
Qed.

Lemma onAbort_retire id st : onAbort id st = st \/ exists r, onAbort id st = retire id r st.
Proof. unfold onAbort. case_bool_decide; [|auto]. right. eexists. reflexivity. Qed.

Lemma onWriteError_retire id e st : exists r, onWriteError id e st = retire id r st.
Proof. eexists. reflexivity. Qed.

Lemma handle_inv ev st : enabled ev st -> xinv st -> xinv (handle ev st).
Proof.
  destruct ev; simpl; intros Hen Hinv; try done.
  - by apply request_inv.
  - destruct (onAbort_retire id st) as [->|[r ->]]; [done|by apply retire_inv].
  - destruct (onWriteError_retire id e st) as [r ->]. by apply retire_inv.
  - unfold onStdout. destruct (FrameDecoder_push _ _) as [[fs|e] b].
    + by apply dispatch_all_inv.
    + apply close_inv. by apply failAll_inv.
  - by apply failAll_inv.
  - by apply failAll_inv.
  - by apply close_inv.
Qed.

Lemma handle_keeps ev st : enabled ev st -> keeps_settled st (handle ev st).
Proof.
  destruct ev; simpl; intros Hen; try exact (keeps_settled_refl st).
  - by apply request_keeps.
  - destruct (onAbort_retire id st) as [->|[r ->]]; [apply keeps_settled_refl|apply retire_keeps].
  - destruct (onWriteError_retire id e st) as [r ->]. apply retire_keeps.
  - unfold onStdout. destruct (FrameDecoder_push _ _) as [[fs|e] b].
    + apply (dispatch_all_keeps fs (set_decoder b st)).
    + eapply keeps_settled_trans; [|apply close_keeps]. apply (failAll_keeps e (set_decoder b st)).
  - apply (failAll_keeps _ (set_child None st)).
  - apply failAll_keeps.
  - apply close_keeps.
Qed.

Lemma xsteps_inv st evs st' : xinv st -> xsteps st evs st' -> xinv st'.
Proof. apply (rtc_trace_invariant xstep xinv). intros a ev b Ha Hs. inv Hs. by apply handle_inv. Qed.

Lemma xsteps_keeps st evs st' : xsteps st evs st' -> keeps_settled st st'.
Proof.
  unfold xsteps. induction 1 as [|s ev s' evs s'' Hs _ IH]; [apply keeps_settled_refl|].
  inv Hs. eapply keeps_settled_trans; [by apply handle_keeps|exact IH].
Qed.

Lemma xinit_inv : xinv xinit.
Proof. split; [done|]. intros id. simpl. rewrite lookup_empty. set_solver. Qed.
End events.

Section properties.
Context `{JsonCodec} `{Zod}.

(** C14: no entry of the table of waiting requests leaks, and no reply that is decoded is lost.  In every
    reachable state the table holds exactly the requests whose promise is still open, and each of them
    still listens to its abort signal.  When the bytes a helper sends decode, every request that waits
    is settled with the first reply to it among the frames they complete and leaves the table, or waits
    on if there is none; the promises of all other requests stay as they are.  (Bytes the decoder
    rejects settle everything with its error, [xpc_failure_settles_all], also a request whose reply
    came just before them: [xpc_reply_before_corrupt_frame].) *)
Theorem xpc_no_leak evs st :
  xsteps xinit evs st ->
  pending st = listeners st /\ (forall id, id ∈ pending st <-> promises st !! id = Some None) /\
  forall c chunk frames b,
    FrameDecoder_push (decoder st) chunk = (Ok frames, b) ->
    let st' := handle (EvStdout c chunk) st in
    (forall id, id ∈ pending st ->
       promises st' !! id = Some (first_reply id frames) /\ (id ∈ pending st' <-> first_reply id frames = None)) /\
    (forall id r, promises st !! id = Some (Some r) -> promises st' !! id = Some (Some r)).
Proof.
  intros Hs. pose proof (xsteps_inv _ _ _ xinit_inv Hs) as Hinv. split; [apply Hinv|]. split; [apply Hinv|].
  intros c chunk frames b Hpush. cbn [handle]. unfold onStdout. rewrite Hpush. split.
  - intros id Hid. by apply (dispatch_all_replies frames (set_decoder b st)).
  - intros id r Hr. exact (proj1 (dispatch_all_keeps frames (set_decoder b st)) id r Hr).
Qed.

(** A request is settled at most once and its outcome is final: whatever happens later (a late
    reply after an abort, a duplicate reply, a write error, an exit), the promise keeps the
    outcome it got first. *)
Theorem xpc_settled_once st evs st' id r :
  promises st !! id = Some (Some r) -> xsteps st evs st' -> promises st' !! id = Some (Some r).
Proof. intros E Hs. by apply (proj1 (xsteps_keeps _ _ _ Hs)). Qed.

(** C32: no caller is left hanging by a lost helper: after [close], after the exit or an error of the
    helper, and after bytes the decoder rejects, every promise handed out is settled. *)
Theorem xpc_failure_settles_all evs st ev st' :
  xsteps xinit evs st -> xstep st ev st' ->
  match ev with
  | EvClose | EvExit _ _ _ | EvChildError _ _ => True
  | EvStdout _ chunk => isOk (FrameDecoder_push (decoder st) chunk).1 = false
  | _ => False
  end ->
  quiescent st'.
Proof.
  intros Hs Hstep Hev. apply (xsteps_inv _ _ _ xinit_inv) in Hs. inv Hstep.
  destruct ev; try done; simpl.
  - unfold onStdout. destruct (FrameDecoder_push _ _) as [[fs|e] b]; [done|]. apply close_inv. by apply failAll_inv.
  - by apply failAll_quiescent.
  - by apply failAll_quiescent.
  - by apply close_inv.
Qed.

(** C31: a reply reaches the request it names and no other: when the bytes received complete one
    frame and the frame is a reply to a waiting request, that request is settled with the reply's
    result, or with the typed error of its code, and every other promise is as before. *)
Theorem xpc_reply_correlates st c chunk frame b reply id r :
  xinv st ->
  FrameDecoder_push (decoder st) chunk = (Ok [frame], b) ->
  parseReplyEnvelope frame = Ok reply ->
  match reply with
  | ReplyOk _ i result => i = id /\ r = Ok result
  | ReplyErr _ i code message => i = id /\ r = Err (connectorErrorFromWire code message)
  end ->
  id ∈ pending st ->
  let st' := handle (EvStdout c chunk) st in
  promises st' !! id = Some (Some r) /\ id ∉ pending st' /\
  forall j, j <> id -> promises st' !! j = promises st !! j.
Proof.
  intros [_ Hp] Hpush Hparse Hr Hin. apply Hp in Hin as Hopen. cbn zeta. cbn [handle]. unfold onStdout.
  rewrite Hpush. cbn [fold_left].
  assert (dispatch frame (set_decoder b st) = retire id r (set_decoder b st)) as ->.
  { unfold dispatch. rewrite Hparse. destruct reply as [v i res|v i code m]; destruct Hr as [-> ->]; simpl;
      (rewrite bool_decide_true by done); reflexivity. }
  unfold retire. rewrite (proj1 (proj2 (proj2 (proj2 (proj2 (proj2 (settle_fields _ _ _))))))).
  split_and!.
  - rewrite settle_lookup. simpl. rewrite decide_True by auto. done.
  - simpl. set_solver.
  - intros j Hj. rewrite settle_lookup. simpl. rewrite decide_False by naive_solver. done.
Qed.

(** The exit of a helper that was closed earlier takes down its successor: whichever helper is
    current, an exit event of any attached helper clears [this.child] and fails every request in
    flight, although the current helper runs on. *)
Theorem xpc_stale_exit st old cur code signal :
  xinv st -> child st = Some cur -> old <> cur ->
  let st' := handle (EvExit old code signal) st in
  child st' = None /\ exited st' = exited st /\ quiescent st' /\
  forall id, id ∈ pending st -> exists m, promises st' !! id = Some (Some (Err (TransportError m None))).
Proof.
  intros Hinv Hc Hne. cbn zeta. cbn [handle]. unfold onExit.
  set (e := TransportError _ None). pose proof (failAll_quiescent e (set_child None st) Hinv) as Hq.
  destruct (failAll_spec e (set_child None st)) as (_ & _ & H3 & H4 & _ & H6).
  rewrite H3, H4. split_and!; [done|done|done|].
  intros id Hin. eexists. rewrite H6. apply Hinv in Hin as Hopen.
  destruct (decide _) as [|Hn]; [done|]. destruct Hn. auto.
Qed.

(** The decoder outlives the helper: after an oversized header has closed the transport, a new
    helper is spawned with the old buffer, so the first bytes it sends, whatever they are, close
    the transport again. *)
Theorem xpc_poisoned_reconnect st chunk e b c chunk' :
  FrameDecoder_push (decoder st) chunk = (Err e, b) -> e <> body_error bridge ->
  let st1 := handle (EvConnect c) (onStdout chunk st) in
  child st1 = Some c /\ child (handle (EvStdout c chunk') st1) = None.
Proof.
  intros Hp Hne. cbn zeta. split; [done|].
  assert (decoder (onStdout chunk st) = b) as Hd.
  { unfold onStdout. by rewrite Hp, (proj2 (close_decoder _)), failAll_decoder. }
  cbn [handle]. unfold onStdout at 1. change (decoder (onSpawned c (onStdout chunk st))) with (decoder (onStdout chunk st)).
  rewrite Hd. unfold FrameDecoder_push, push in Hp. apply (push_loop_oversized bridge) in Hp as (Hb & Hcap & ->); [|done].
  unfold FrameDecoder_push. rewrite (push_oversized bridge b chunk' Hb Hcap). apply close_decoder.
Qed.
End properties.

(** ** A run *)

Section run.
Context `{JsonCodec} `{Zod}.

Definition run (evs : list event) (st : xstate) : xstate := fold_left (fun s ev => handle ev s) evs st.

Fixpoint run_ok (evs : list event) (st : xstate) : Prop :=
  match evs with [] => True | ev :: evs' => enabled ev st /\ run_ok evs' (handle ev st) end.

Lemma run_xsteps evs st : run_ok evs st -> xsteps st evs (run evs st).
Proof.
  revert st. induction evs as [|ev evs IH]; intros st Hok; [constructor|].
  destruct Hok as [Hen Hok]. econstructor; [by constructor|]. by apply IH.
Qed.
End run.

(** A helper is spawned, two requests are sent, and one of them is aborted. *)
Definition sample_events : list event :=
  [EvConnect 0; EvRequest "a" "getStatus" (JObj []) false; EvRequest "b" "submitScan" JNull false; EvAbort "a"].
Definition sample_state : xstate := run sample_events xinit.

(** The reply to the request [b], as the bytes of one frame. *)
Definition sample_reply : json :=
  JObj [("v", JNum (NInt 1)); ("id", JStr "b"); ("ok", JBool true); ("result", JBool true)].
Definition sample_chunk : chars := match encodeFrame sample_reply with Ok b => b | Err _ => [] end.

Ltac decide_by_computation := apply (bool_decide_unpack _); vm_compute; exact I.

Lemma sample_run : xsteps xinit sample_events sample_state.
Proof. apply run_xsteps. repeat split; decide_by_computation || (vm_compute; reflexivity). Qed.

Lemma sample_state_inv : xinv sample_state.
Proof. exact (xsteps_inv _ _ _ xinit_inv sample_run). Qed.

Lemma xpc_no_leak_witness :
  pending sample_state = listeners sample_state /\
  let st' := handle (EvStdout 0 sample_chunk) sample_state in
  promises st' !! "b" = Some (Some (Ok (Some (JBool true)))) /\ "b" ∉ pending st'.
Proof.
  destruct (xpc_no_leak sample_events sample_state sample_run) as (Hp & _ & Hc). split; [exact Hp|].
  assert (FrameDecoder_push (decoder sample_state) sample_chunk = (Ok [sample_reply], [])) as E by (vm_compute; reflexivity).
  assert (first_reply "b" [sample_reply] = Some (Ok (Some (JBool true)))) as Ef by (vm_compute; reflexivity).
  destruct (Hc 0%nat sample_chunk [sample_reply] [] E) as [Hb _].
  destruct (Hb "b" ltac:(decide_by_computation)) as [H1 H2]. rewrite Ef in H1, H2. split; [exact H1|].
  intros Hin. apply H2 in Hin. discriminate.
Defined.

(** A chunk with the reply to [b] and then a corrupt header: the decoder throws before any frame of the
    chunk is handed on, and the caller of [b] gets the decoder's error instead of its reply. *)
Example xpc_reply_before_corrupt_frame :
  let st' := handle (EvStdout 0 (sample_chunk ++ [chr 255; chr 255; chr 255; chr 255])) sample_state in
  exists m, promises st' !! "b" = Some (Some (Err (ValidationError m None))) /\ child st' = None.
Proof. vm_compute. eexists. split; reflexivity. Qed.

Lemma xpc_settled_once_witness :
  promises (handle (EvStdout 0 sample_chunk) sample_state) !! "a" =
  Some (Some (Err (TransportError ("request " +:+ quoted "getStatus" +:+ " aborted") None))).
Proof.
  apply (xpc_settled_once sample_state [EvStdout 0 sample_chunk]).
  - vm_compute. reflexivity.
  - econstructor; [constructor; simpl; decide_by_computation|constructor].
Defined.

Lemma xpc_failure_settles_all_witness : quiescent (handle EvClose sample_state).
Proof. apply (xpc_failure_settles_all sample_events sample_state EvClose); [exact sample_run|by constructor|exact I]. Defined.

Lemma xpc_reply_correlates_witness :
  let st' := handle (EvStdout 0 sample_chunk) sample_state in
  promises st' !! "b" = Some (Some (Ok (Some (JBool true)))) /\ "b" ∉ pending st' /\
  forall j, j <> "b" -> promises st' !! j = promises sample_state !! j.
Proof.
  apply (xpc_reply_correlates sample_state 0 sample_chunk sample_reply []
           (ReplyOk (NInt 1) "b" (Some (JBool true))) "b" (Ok (Some (JBool true)))).
  - exact sample_state_inv.
  - vm_compute. reflexivity.
  - vm_compute. reflexivity.
  - split; reflexivity.
  - decide_by_computation.
Defined.

Lemma xpc_stale_exit_witness :
  let st := run [EvClose; EvConnect 1; EvRequest "c" "getStatus" (JObj []) false] sample_state in
  let st' := handle (EvExit 0 (Some 0) None) st in
  child st' = None /\ exited st' = exited st /\ quiescent st' /\
  forall id, id ∈ pending st -> exists m, promises st' !! id = Some (Some (Err (TransportError m None))).
Proof.
  apply (xpc_stale_exit _ 0 1 (Some 0) None).
  - eapply xsteps_inv; [exact sample_state_inv|]. apply run_xsteps.
    repeat split; decide_by_computation || (vm_compute; reflexivity).
  - vm_compute. reflexivity.
  - discriminate.
Defined.

Lemma xpc_poisoned_reconnect_witness :
  let st1 := handle (EvConnect 1) (onStdout [chr 255; chr 255; chr 255; chr 255] sample_state) in
  child st1 = Some 1%nat /\ child (handle (EvStdout 1 sample_chunk) st1) = None.
Proof.
  eapply (xpc_poisoned_reconnect sample_state [chr 255; chr 255; chr 255; chr 255]).
  - vm_compute. reflexivity.
  - vm_compute. discriminate.
Defined.
