(* ===== verification/Transport.v ===== *)
(** * The transport interface and its in-memory implementation

    [connector-sdk/src/transport/transport.ts]: the operations the client calls, as a record, and
    the part of the contract its guarantees rest on, as a class.  [mock-transport.ts]: the
    implementation with programmable responders, which meets the contract as long as no
    responder pretends the transport is not connected. *)

From S2P Require Import Prelude Json Zod Resilience Framing.

(** ** [transport.ts] *)

(** A channel with states [T].  [t_abort] is what the pending request does when its signal
    aborts. *)
Record Transport (T : Type) := mkTransport {
  t_connect : async T unit;
  t_request : string -> json -> async T (option json);
  t_abort : T -> T;
  t_close : async T unit
}.
Arguments t_connect {T} _.
Arguments t_request {T} _ _ _.
Arguments t_abort {T} _.
Arguments t_close {T} _.

(** The contract: [submitted] counts the requests for [m] handed to the agent.  A request hands
    over at most one, only for its own method, and none when it rejects with
    [NotConnectedError]; connecting and aborting hand over none; replies take no negative time.
    [t_ok] are the states in which the channel keeps this promise. *)
Class AtMostOnce {T} (tr : Transport T) (m : string) : Type := {
  t_ok : T -> Prop;
  submitted : T -> Z;
  request_submits : forall method params s, t_ok s ->
    let '(r, s') := t_request tr method params s in
    t_ok s' /\
    submitted s <= submitted s' <= submitted s + (if String.eqb method m then 1 else 0) /\
    (forall t msg, r = Settles t (Err (NotConnectedError msg)) -> submitted s' = submitted s);
  abort_submits : forall s, t_ok s -> t_ok (t_abort tr s) /\ submitted (t_abort tr s) = submitted s;
  connect_submits : forall s, t_ok s -> t_ok (t_connect tr s).2 /\ submitted (t_connect tr s).2 = submitted s
}.
Arguments t_ok {T} tr m {_} _.
Arguments submitted {T} tr m {_} _.

(** ** [mock-transport.ts] *)

(** [MockCallContext], without the signal: the responder of [hang] is the one that waits for it. *)
Record MockCallContext := mkCall { call_params : json; call_attempt : Z }.
Definition MockResponder : Type := MockCallContext -> reply (option json).

Record MockState := mkMock {
  connected : bool;
  calls : list (string * json);
  responders : gmap string MockResponder;
  attempts : gmap string Z
}.

Definition on (method : string) (r : MockResponder) (s : MockState) : MockState :=
  mkMock (connected s) (calls s) (<[method := r]> (responders s)) (attempts s).

Definition respondWith (method : string) (value : json) : MockState -> MockState :=
  on method (fun _ => Settles 0 (Ok (Some value))).

Definition failTimesThenReturn (method : string) (failCount : Z) (e : error) (value : json) : MockState -> MockState :=
  on method (fun c => if call_attempt c <? failCount then Settles 0 (Err e) else Settles 0 (Ok (Some value))).

Definition hang (method : string) : MockState -> MockState := on method (fun _ => Hangs).

(** [new MockTransport()] *)
Definition mock_new : MockState :=
  on Method.Hello
    (fun _ => Settles 0 (Ok (Some (JObj [("proto", JNum (NInt PROTOCOL_VERSION)); ("schema", JStr SCHEMA_VERSION);
                                         ("agent", JStr "mock-agent/0.0.0")]))))
    (mkMock false [] ∅ ∅).

Definition mock_connect : async MockState unit := fun s =>
  (Settles 0 (Ok tt), mkMock true (calls s) (responders s) (attempts s)).

Definition mock_close : async MockState unit := fun s =>
  (Settles 0 (Ok tt), mkMock false (calls s) (responders s) (attempts s)).

Definition mock_request (method : string) (params : json) : async MockState (option json) := fun s =>
  if negb (connected s) then (Settles 0 (Err (NotConnectedError "transport is not connected")), s)
  else
    let attempt := default 0 (attempts s !! method) in
    let s' := mkMock (connected s) (calls s ++ [(method, params)]) (responders s) (<[method := attempt + 1]> (attempts s)) in
    match responders s !! method with
    | None => (Settles 0 (Err (RemoteError ("no mock responder for " +:+ of_chars [chr 34] +:+ method +:+ of_chars [chr 34]))), s')
    | Some responder => (responder (mkCall params attempt), s')
    end.

Definition MockTransport : Transport MockState :=
  {| t_connect := mock_connect; t_request := mock_request; t_abort := fun s => s; t_close := mock_close |}.

(** The calls of a method. *)
Definition calls_of (m : string) (l : list (string * json)) : list (string * json) :=
  filter (fun c => c.1 = m) l.

(** ** The mock transport with well-behaved responders meets the contract *)

Lemma mock_request_calls method params s :
  let '(r, s') := mock_request method params s in
  (connected s = false /\ s' = s /\ r = Settles 0 (Err (NotConnectedError "transport is not connected"))) \/
  (connected s = true /\ calls s' = calls s ++ [(method, params)] /\
   match responders s !! method with
   | Some f => r = f (mkCall params (default 0 (attempts s !! method)))
   | None => exists m, r = Settles 0 (Err (RemoteError m))
   end).
Proof.
  unfold mock_request. destruct (connected s); simpl; [|by left]. destruct (responders s !! method); right; eauto.
Qed.

Lemma calls_of_app m l method params :
  Z.of_nat (List.length (calls_of m (l ++ [(method, params)]))) =
  Z.of_nat (List.length (calls_of m l)) + (if String.eqb method m then 1 else 0).
Proof.
  unfold calls_of. rewrite filter_app, length_app, Nat2Z.inj_add. f_equal. rewrite filter_cons, filter_nil. simpl.
  destruct (String.eqb_spec method m); case_decide; done.
Qed.

(** No responder rejects with [NotConnectedError]. *)
Definition honest (s : MockState) : Prop :=
  map_Forall (fun _ (f : MockResponder) => forall c t msg, f c <> Settles t (Err (NotConnectedError msg))) (responders s).

#[export] Instance mock_at_most_once m : AtMostOnce MockTransport m.
Proof.
  refine {| t_ok := honest; submitted := fun s => Z.of_nat (List.length (calls_of m (calls s))) |}.
  - intros method params s Hs. cbn [t_request MockTransport].
    pose proof (mock_request_calls method params s) as Hc.
    assert (responders (mock_request method params s).2 = responders s) as Hr.
    { unfold mock_request. destruct (negb _); [done|]. by destruct (responders s !! method). }
    destruct (mock_request method params s) as [r s']. simpl in Hr.
    split; [unfold honest; by rewrite Hr|].
    destruct Hc as [(_ & -> & ->)|(_ & Hcalls & Hres)]; [split; [destruct (String.eqb method m); lia|done]|].
    rewrite Hcalls, calls_of_app. split; [destruct (String.eqb method m); lia|]. intros t msg ->.
    destruct (responders s !! method) as [f|] eqn:E.
    + exfalso. symmetry in Hres. revert Hres. by apply (Hs method f E).
    + destruct Hres as [? ?]. discriminate.
  - done.
  - done.
Defined.
