(* ===== verification/Client.v ===== *)
(** * The connector client: [connector-sdk/src/client]

    [ConnectorClient] over an arbitrary transport: version handshake, retry and deadline around
    every call, decoding of the replies, and the fail-closed [safeScan].  The client's state is
    the negotiated version with the state of its transport; [randomUUID] and [Math.random] are
    the streams [uuid] and [jitter], indexed by the number of draws so far.  [Date.now()] is
    only used for a difference, which is the time the awaited promise took ([timed]). *)

From S2P Require Import Prelude Json Zod Enums Decision ScanRequest AuditEvent Resilience Framing Transport.

(** ** [options.ts] *)

Record RetryConfig := mkRetryConfig {
  cfg_maxAttempts : option Z;
  cfg_baseDelayMs : option Z;
  cfg_maxDelayMs : option Z
}.

Record ResolvedRetry := mkResolved { r_maxAttempts : Z; r_baseDelayMs : Z; r_maxDelayMs : Z }.

Definition DEFAULT_TIMEOUT_MS : Z := 2000.
Definition DEFAULT_RETRY : ResolvedRetry := mkResolved 3 50 1000.

Definition resolveRetry (config : option RetryConfig) : ResolvedRetry :=
  mkResolved
    (default (r_maxAttempts DEFAULT_RETRY) (c ← config; cfg_maxAttempts c))
    (default (r_baseDelayMs DEFAULT_RETRY) (c ← config; cfg_baseDelayMs c))
    (default (r_maxDelayMs DEFAULT_RETRY) (c ← config; cfg_maxDelayMs c)).

(** ** [connector-client.ts] *)

Inductive RetryClass := Read | Write.

Definition isWriteRetryable (e : error) : bool :=
  match e with NotConnectedError _ => true | _ => false end.

Definition isAvailabilityError (e : error) : bool :=
  match e with
  | TimeoutError _ _ | NotConnectedError _ => true
  | _ =>
      match error_code e with
      | Some CTransport | Some CRetryExhausted | Some CUnavailable => true
      | _ => false
      end
  end.

Definition unavailableReason (e : error) (fallbackAction : Action) : string :=
  let cause :=
    match error_code e with
    | Some CUnavailable => "policy engine unavailable"
    | Some c => "connector unavailable (" +:+ code_wire c +:+ ")"
    | None => "connector unavailable (undefined)"
    end in
  cause +:+ "; fail-closed " +:+ of_chars [chr 34] +:+ wire fallbackAction +:+ of_chars [chr 34] +:+ " applied".

Record client (T : Type) := mkClient {
  negotiated : option NegotiatedVersion;
  tstate : T;
  uuids : nat;
  draws : nat
}.
Arguments mkClient {T} _ _ _ _.
Arguments negotiated {T} _.
Arguments tstate {T} _.
Arguments uuids {T} _.
Arguments draws {T} _.

(** What keeps the process running is a matter of the transport's state (its helper, its socket) and
    of the process around the client. *)
#[export] Instance client_loop `{EventLoop T} : EventLoop (client T) := fun c ms => keeps_alive (tstate c) ms.

Lemma client_stays_alive `{EventLoop T} : stays_alive T -> stays_alive (client T).
Proof. intros Ha c ms. apply Ha. Qed.

(** The duration of a promise: the difference of two readings of the clock around it. *)
Definition timed {St A} (m : async St A) : async St (A * Z) := fun st =>
  match m st with
  | (Settles t (Ok a), st') => (Settles t (Ok (a, t)), st')
  | (Settles t (Err e), st') => (Settles t (Err e), st')
  | (Hangs, st') => (Hangs, st')
  end.

Section client.
Context `{Zod} {T : Type} `{EventLoop T} (tr : Transport T).
Context (timeoutMs : Z) (retry : ResolvedRetry) (uuid : nat -> string) (jitter : nat -> Z).

Abbreviation call := (async (client T)).

Definition set_negotiated (n : option NegotiatedVersion) (c : client T) : client T :=
  mkClient n (tstate c) (uuids c) (draws c).
Definition set_tstate (t : T) (c : client T) : client T := mkClient (negotiated c) t (uuids c) (draws c).

(** Run a transport operation on the client's transport. *)
Definition on_transport {A} (m : async T A) : call A := fun c =>
  let '(r, t) := m (tstate c) in (r, set_tstate t c).

Definition randomUUID : call string := fun c =>
  (Settles 0 (Ok (uuid (uuids c))), mkClient (negotiated c) (tstate c) (S (uuids c)) (draws c)).

Definition math_random (c : client T) : Z * client T :=
  (jitter (draws c), mkClient (negotiated c) (tstate c) (uuids c) (S (draws c))).

(** The options [invoke] passes to [withRetry]; [onRetry] only logs. *)
Definition invoke_options (retryClass : RetryClass) : RetryOptions (client T) :=
  mkRetryOptions _ (r_maxAttempts retry) (r_baseDelayMs retry) (r_maxDelayMs retry) math_random realSleep
    (match retryClass with Read => isRetryable | Write => isWriteRetryable end)
    (fun _ _ _ c => c).

Definition attempt_once (method : string) (params : json) : call (option json) :=
  withTimeout (fun c => set_tstate (t_abort tr (tstate c)) c) (on_transport (t_request tr method params)) timeoutMs method.

Definition invoke (method : string) (params : json) (retryClass : RetryClass) : call (option json) :=
  withRetry (fun _ => attempt_once method params) (invoke_options retryClass).

(** [decode]: the decoders throw [ZodError]s, which are not connector errors. *)
Definition decode {A} (what : string) (r : option A) : call A :=
  lift (of_option (ValidationError ("failed to decode " +:+ what +:+ " from agent reply")
                     (Some (OtherError "ZodError" ""))) r).

Definition connect : call NegotiatedVersion := fun c =>
  match negotiated c with
  | Some n => (Settles 0 (Ok n), c)
  | None =>
      (_ ← on_transport (t_connect tr);
       result ← invoke Method.Hello helloParams Read;
       n ← lift (negotiate result);
       _ ← modify (set_negotiated (Some n));
       mret n) c
  end.

Definition close : call unit :=
  _ ← modify (set_negotiated None); on_transport (t_close tr).

Definition ensureConnected : call unit := fun c =>
  match negotiated c with
  | None => (_ ← connect; mret tt) c
  | Some _ => (Settles 0 (Ok tt), c)
  end.

(** [scan] on the wire form [params] of its request: the only use [scan] makes of the request is
    to encode it. *)
Definition submit (params : json) : call ScanResponse :=
  _ ← ensureConnected;
  requestId ← randomUUID;
  '(result, elapsedMs) ← timed (invoke Method.SubmitScan params Write);
  d ← decode "Decision" (decodeDecision result);
  mret (makeScanResponse d requestId elapsedMs None).

Definition scan (request : ScanRequest) : call ScanResponse := submit (encodeScanRequest request).

(** [safeScan] on the wire form of its request *)
Definition safeSubmit (params : json) (opt_fallback : option Action) : call ScanResponse :=
  let fallbackAction := default Block opt_fallback in
  try_catch (submit params) (fun e =>
    if negb (isAvailabilityError e) then throw e
    else
      requestId ← randomUUID;
      mret (makeScanResponse
              (syntheticDecision requestId fallbackAction (unavailableReason e fallbackAction) None None)
              requestId 0 (Some true))).

Definition safeScan (request : ScanRequest) (opt_fallback : option Action) : call ScanResponse :=
  safeSubmit (encodeScanRequest request) opt_fallback.

Definition status : call AgentStatus :=
  _ ← ensureConnected;
  result ← invoke Method.GetStatus (JObj []) Read;
  decode "AgentStatus" (decodeAgentStatus result).

Definition acknowledgeWarning (eventId : string) (accepted : bool) : call bool :=
  _ ← ensureConnected;
  result ← invoke Method.AcknowledgeWarning (JObj [("eventID", JStr eventId); ("accepted", JBool accepted)]) Write;
  decode "boolean" (match zparse ZBoolean result with Some (Some (JBool b)) => Some b | _ => None end).

Definition recentDecisions (limit : Z) : call (list DecisionSummary) :=
  _ ← ensureConnected;
  result ← invoke Method.RecentDecisions (JObj [("limit", JNum (NInt limit))]) Read;
  decode "DecisionSummary[]" (decodeDecisionSummaries result).
End client.

(** The client with the defaults of the constructor. *)
Definition default_scan `{Zod} {T} `{EventLoop T} (tr : Transport T) := safeScan tr DEFAULT_TIMEOUT_MS (resolveRetry None).

(** The longest time one [invoke] can take, and one [safeScan] whose [transport.connect] takes at
    most [w]. *)
Definition invoke_bound (timeoutMs : Z) (retry : ResolvedRetry) : Z :=
  let d := timer_ms timeoutMs in
  d + (Z.max 1 (r_maxAttempts retry) - 1) * (Z.max 1 (r_maxDelayMs retry) + d).
Definition scan_bound (w timeoutMs : Z) (retry : ResolvedRetry) : Z := w + 2 * invoke_bound timeoutMs retry.

(** The agreement a client holds is one the SDK supports. *)
Definition client_wf {T} (c : client T) : Prop :=
  match negotiated c with
  | Some n => proto n ∈ SUPPORTED_PROTOCOLS /\ nv_schema n = SCHEMA_VERSION
  | None => True
  end.

(** ** Lemmas *)

(** A computation keeps a property of the state that every part keeps. *)
Lemma bind_keeps {St A B} (P : St -> St -> Prop) (m : async St A) (k : A -> async St B) st :
  (forall a b c, P a b -> P b c -> P a c) ->
  P st (m st).2 -> (forall a s, P s (k a s).2) -> P st ((m ≫= k) st).2.
Proof.
  intros Ht Hm Hk. unfold mbind, async_bind. destruct (m st) as [[t [a|e]|] s]; simpl in *; try done.
  specialize (Hk a s). destruct (k a s) as [r s']. simpl in *. eauto.
Qed.

Lemma try_keeps {St A} (P : St -> St -> Prop) (m : async St A) h st :
  (forall a b c, P a b -> P b c -> P a c) ->
  P st (m st).2 -> (forall e s, P s (h e s).2) -> P st (try_catch m h st).2.
Proof.
  intros Ht Hm Hh. unfold try_catch. destruct (m st) as [[t [a|e]|] s]; simpl in *; try done.
  specialize (Hh e s). destruct (h e s) as [r s']. simpl in *. eauto.
Qed.

Section client_lemmas.
Context `{Zod} {T : Type} `{EventLoop T} (tr : Transport T).
Context (timeoutMs : Z) (retry : ResolvedRetry) (uuid : nat -> string) (jitter : nat -> Z).

Local Abbreviation invoke' := (invoke tr timeoutMs retry jitter).
Local Abbreviation connect' := (connect tr timeoutMs retry jitter).
Local Abbreviation ensure' := (ensureConnected tr timeoutMs retry jitter).
Local Abbreviation scan' := (scan tr timeoutMs retry uuid jitter).
Local Abbreviation safeScan' := (safeScan tr timeoutMs retry uuid jitter).

(** *** Where results come from *)

Lemma withTimeout_result `{EventLoop St} {A} abort (op : async St A) ms label st t a st' :
  withTimeout abort op ms label st = (Settles t (Ok a), st') -> op st = (Settles t (Ok a), st').
Proof. unfold withTimeout. split_match; done. Qed.

Lemma attempt_result method params c t r c' :
  attempt_once tr timeoutMs method params c = (Settles t (Ok r), c') ->
  exists s s', t_request tr method params s = (Settles t (Ok r), s').
Proof.
  unfold attempt_once. intros E. apply withTimeout_result in E. unfold on_transport in E.
  destruct (t_request tr method params (tstate c)) as [x s] eqn:E2. simplify_eq. by exists (tstate c), s.
Qed.

Lemma invoke_result method params cls c t r c' :
  invoke' method params cls c = (Settles t (Ok r), c') ->
  exists s t' s', t_request tr method params s = (Settles t' (Ok r), s').
Proof.
  unfold invoke, withRetry. intros E. apply retry_loop_result in E as (j & s & t' & s' & E).
  apply attempt_result in E as (u & u' & E). by exists u, t', u'.
Qed.

(** *** States *)

Lemma invoke_negotiated method params cls c :
  negotiated (invoke' method params cls c).2 = negotiated c.
Proof.
  unfold invoke, withRetry.
  refine (proj1 (retry_loop_once _ _ (fun s => negotiated s = negotiated c) (fun _ => 0) 0 _ _ _ _ _ _ _ _ _ _)); try done.
  intros i s Hs. unfold attempt_once, withTimeout, on_transport.
  destruct (timeoutMs <=? 0).
  - destruct (t_request tr method params (tstate s)) as [r t]. split_and!; try done; lia.
  - destruct (t_request tr method params (tstate s)) as [[t r|] u]; [destruct (t <? _)|destruct (keeps_alive _ _)]; split_and!; try done; lia.
  - intros ms s Hs. cbn [sleep invoke_options]. by rewrite realSleep_state.
Qed.

(** [connect] leaves a supported agreement behind, or none. *)
Lemma negotiate_ok r n : negotiate r = Ok n -> proto n ∈ SUPPORTED_PROTOCOLS /\ nv_schema n = SCHEMA_VERSION.
Proof.
  unfold negotiate. destruct (_ ≫= _) as [[[p s] a]|]; [|done].
  destruct (negb (existsb (Z.eqb p) _)) eqn:E1; [done|]. destruct (negb (String.eqb s _)) eqn:E2; [done|].
  intros [= <-]. apply negb_false_iff in E1, E2. apply String.eqb_eq in E2. simpl. split; [|done].
  apply existsb_exists in E1 as (x & Hin & Hx). apply Z.eqb_eq in Hx as ->. by apply list_elem_of_In.
Qed.

Lemma connect_wf c : client_wf c -> client_wf (connect' c).2.
Proof.
  intros Hc. unfold connect. destruct (negotiated c) as [n|] eqn:En; [done|].
  unfold mbind, async_bind, on_transport. destruct (t_connect tr (tstate c)) as [[t1 [[]|e]|] s1]; simpl;
    [|unfold client_wf; simpl; by rewrite En..].
  pose proof (invoke_negotiated Method.Hello helloParams Read (set_tstate s1 c)) as Hn.
  destruct (invoke' Method.Hello helloParams Read (set_tstate s1 c)) as [[t2 [r|e]|] c2]; simpl in *;
    [|unfold client_wf; by rewrite Hn, En..].
  destruct (negotiate r) as [n|e] eqn:Eneg; simpl.
  - unfold client_wf. simpl. by eapply negotiate_ok.
  - unfold client_wf. by rewrite Hn, En.
Qed.

Lemma ensure_wf c : client_wf c -> client_wf (ensure' c).2.
Proof.
  intros Hc. unfold ensureConnected. destruct (negotiated c); [done|].
  pose proof (connect_wf c Hc). unfold mbind, async_bind. destruct (connect' c) as [[t [n|e]|] s]; done.
Qed.

(** After a successful [ensureConnected] there is an agreement. *)
Lemma ensure_negotiated c t x c' : ensure' c = (Settles t (Ok x), c') -> negotiated c' <> None.
Proof.
  unfold ensureConnected. destruct (negotiated c) as [n|] eqn:En; [intros [= _ _ <-]; congruence|].
  intros E. apply bind_inv in E as (t1 & n & s & t2 & E1 & E2 & _). simplify_eq.
  unfold connect in E1. rewrite En in E1.
  apply bind_inv in E1 as (u1 & [] & s1 & u2 & _ & E1 & _).
  apply bind_inv in E1 as (u3 & r & s2 & u4 & _ & E1 & _).
  apply bind_inv in E1 as (u5 & n' & s3 & u6 & _ & E1 & _).
  apply bind_inv in E1 as (u7 & [] & s4 & u8 & E3 & E4 & _).
  unfold modify in E3. unfold mret, async_ret in E2, E4. by simplify_eq.
Qed.

(** *** Submissions *)

Section submissions.
Context (m : string) `{!AtMostOnce tr m}.

Local Abbreviation count := (fun c : client T => submitted tr m (tstate c)).
Local Abbreviation good := (fun c : client T => t_ok tr m (tstate c)).

Lemma attempt_submits method params c :
  good c ->
  let '(r, c') := attempt_once tr timeoutMs method params c in
  good c' /\ count c <= count c' <= count c + (if String.eqb method m then 1 else 0) /\
  (forall t msg, r = Settles t (Err (NotConnectedError msg)) -> count c' = count c).
Proof.
  intros Hg. unfold attempt_once, withTimeout, on_transport.
  pose proof (request_submits method params (tstate c) Hg) as Hr.
  destruct (t_request tr method params (tstate c)) as [r s]. destruct Hr as (H1 & H2 & H3).
  pose proof (abort_submits s H1) as [H4 H5].
  destruct (timeoutMs <=? 0); [done|].
  destruct r as [t r|]; [destruct (t <? _)|destruct (keeps_alive _ _)]; simpl; rewrite ?H5;
    (split_and!; [done|lia..|done]).
Qed.

Lemma invoke_submits method params cls c :
  good c -> cls = Write \/ method <> m ->
  let c' := (invoke' method params cls c).2 in
  good c' /\ count c <= count c' <= count c + (if String.eqb method m then 1 else 0).
Proof.
  intros Hg Hcls. unfold invoke, withRetry.
  apply (retry_loop_once _ _ good count); try done; [destruct (String.eqb method m); lia|
    |by intros ms s Hs; cbn [sleep invoke_options]; rewrite realSleep_state].
  intros i s Hs. pose proof (attempt_submits method params s Hs) as Ha.
  destruct (attempt_once tr timeoutMs method params s) as [r s']. destruct Ha as (H1 & H2 & H3).
  split_and!; try done; try lia. intros t e -> Hret.
  destruct Hcls as [->|Hne].
  - destruct e; try done. eauto.
  - apply String.eqb_neq in Hne. rewrite Hne in H2. lia.
Qed.

(** The steps that submit nothing. *)
Definition submits_none (a b : client T) : Prop := good a -> good b /\ count b = count a.

Lemma submits_none_trans a b c : submits_none a b -> submits_none b c -> submits_none a c.
Proof. unfold submits_none. intros H1 H2 Ha. destruct (H1 Ha) as [Hb E]. destruct (H2 Hb) as [Hc E']. split; [done|lia]. Qed.

Lemma ensure_submits c : m <> Method.Hello -> submits_none c (ensure' c).2.
Proof.
  intros Hm. unfold ensureConnected. destruct (negotiated c) eqn:En; [done|].
  apply bind_keeps; [exact submits_none_trans| |done]. unfold connect. rewrite En.
  apply bind_keeps; [exact submits_none_trans|..].
  - intros Hg. unfold on_transport. pose proof (connect_submits (tstate c) Hg) as Hc.
    destruct (t_connect tr (tstate c)) as [r s]. done.
  - intros _ s. apply bind_keeps; [exact submits_none_trans|..].
    + intros Hs. pose proof (invoke_submits Method.Hello helloParams Read s Hs ltac:(auto)) as Hi.
      assert (String.eqb Method.Hello m = false) as E by (apply String.eqb_neq; congruence).
      cbn zeta in Hi. rewrite E in Hi. split; [tauto|lia].
    + intros r s2. apply bind_keeps; [exact submits_none_trans|done|]. done.
Qed.

(** [scan] submits its request at most once, and only under an agreement. *)
Lemma scan_submits request c :
  m = Method.SubmitScan -> good c ->
  let c' := (scan' request c).2 in
  good c' /\ count c <= count c' <= count c + 1 /\ (count c < count c' -> negotiated c' <> None).
Proof.
  intros Hm Hg. pose proof (ensure_submits c ltac:(subst m; done) Hg) as [Hg1 Hc1].
  pose proof (ensure_negotiated c) as Hneg. unfold scan, submit, mbind, async_bind.
  destruct (ensure' c) as [[t1 [[]|e]|] c1]; simpl in *; [|split_and!; [done|lia..]|split_and!; [done|lia..]].
  specialize (Hneg t1 () c1 eq_refl).
  set (c2 := mkClient (negotiated c1) (tstate c1) (S (uuids c1)) (draws c1)).
  pose proof (invoke_submits Method.SubmitScan (encodeScanRequest request) Write c2 Hg1 ltac:(auto)) as [Hg3 Hc3].
  pose proof (invoke_negotiated Method.SubmitScan (encodeScanRequest request) Write c2) as Hn3.
  assert (String.eqb Method.SubmitScan m = true) as Em by (subst m; apply String.eqb_refl). rewrite Em in Hc3.
  unfold timed. destruct (invoke' Method.SubmitScan (encodeScanRequest request) Write c2) as [[t3 [r|e]|] c3]; simpl in *.
  - destruct (decodeDecision r); simpl; (split_and!; [done|lia..|by rewrite Hn3]).
  - split_and!; [done|lia..|by rewrite Hn3].
  - split_and!; [done|lia..|by rewrite Hn3].
Qed.
End submissions.
End client_lemmas.

Section client_bounds.
Context `{Zod} {T : Type} `{EventLoop T} (tr : Transport T).
Context (timeoutMs : Z) (retry : ResolvedRetry) (uuid : nat -> string) (jitter : nat -> Z).

(** *** Time *)

Lemma attempt_settles method params c :
  stays_alive T -> 0 < timeoutMs ->
  (forall m p s t x s', t_request tr m p s = (Settles t x, s') -> 0 <= t) ->
  settles_within (timer_ms timeoutMs) (attempt_once tr timeoutMs method params c).1.
Proof.
  intros Ha Ht Hr. apply withTimeout_settles; [by apply client_stays_alive|done|]. intros t r c' E. unfold on_transport in E.
  destruct (t_request tr method params (tstate c)) as [x s] eqn:E2. simplify_eq. by eapply Hr.
Qed.

Lemma invoke_settles method params cls c :
  stays_alive T -> 0 < timeoutMs -> 0 <= r_baseDelayMs retry -> 0 <= r_maxDelayMs retry ->
  (forall n, 0 <= jitter n < 2 ^ 53) ->
  (forall m p s t x s', t_request tr m p s = (Settles t x, s') -> 0 <= t) ->
  settles_within (invoke_bound timeoutMs retry) (invoke tr timeoutMs retry jitter method params cls c).1.
Proof.
  intros Ha Ht Hb Hm Hj Hr. unfold invoke, withRetry, invoke_bound. pose proof (timer_ms_bounds timeoutMs).
  eapply settles_within_weaken.
  - apply (retry_loop_settles _ _ (timer_ms timeoutMs) (Z.max 1 (r_maxDelayMs retry))); try done; try lia.
    + intros s. apply Hj.
    + intros i s. by apply attempt_settles.
    + intros ms s Hms. exists (timer_ms ms), (Ok tt). pose proof (timer_ms_bounds ms).
      cbn [sleep invoke_options]. rewrite realSleep_settles by (by apply client_stays_alive).
      split; [done|simpl in Hms; lia].
  - simpl. rewrite Z2Nat.id by lia. lia.
Qed.

Lemma invoke_bound_nonneg : 0 <= invoke_bound timeoutMs retry.
Proof. unfold invoke_bound. pose proof (timer_ms_bounds timeoutMs). nia. Qed.

Lemma settles_timed {St A} (m : async St A) st d : settles_within d (m st).1 -> settles_within d (timed m st).1.
Proof.
  intros (t & x & E & Ht). unfold timed. destruct (m st) as [r s]. simpl in E. subst r.
  destruct x; eexists _, _; (split; [done|lia]).
Qed.
End client_bounds.

(** A loop whose every attempt fails with the same retryable error runs out of attempts. *)
Lemma retry_loop_exhausts {St A} (I : St -> Prop) (op : Z -> async St A) (o : RetryOptions St) e attempts i n st :
  I st -> opt_isRetryable o e = true -> (forall ms s, exists t, sleep o ms s = (Settles t (Ok tt), s)) ->
  (forall i s, I s -> I (op i s).2 /\ exists t, (op i s).1 = Settles t (Err e)) ->
  (forall s, I s -> I (random o s).2) -> (forall a d x s, I s -> I (onRetry o a d x s)) ->
  I (retry_loop op o attempts i n st).2 /\
  exists t, (retry_loop op o attempts i n st).1 = Settles t (Err (RetryExhaustedError attempts e)).
Proof.
  intros HI He Hsl Hop Hr Hon. revert i st HI. induction n as [|n IH]; intros i st HI; cbn [retry_loop]; unfold try_catch;
    destruct (Hop i st HI) as [HI1 [t Et]]; destruct (op i st) as [r s1]; simpl in HI1, Et; subst r; rewrite He; cbn [negb].
  - split; [done|]. by eexists.
  - specialize (Hr s1 HI1). destruct (random o s1) as [draw s2]. simpl in Hr.
    unfold mbind, async_bind. cbn [modify]. set (s3 := onRetry o _ _ _ s2) in *.
    destruct (Hsl (backoffDelay i (baseDelayMs o) (maxDelayMs o) draw) s3) as [tsl ->].
    destruct (IH (i + 1) s3 ltac:(unfold s3; auto)) as [H1 [t' H2]].
    destruct (retry_loop op o attempts (i + 1) n _) as [r s5]. simpl in *. subst r. split; [done|]. by eexists.
Qed.

(** ** Properties *)

Section properties.
Context `{Zod} {T : Type} `{EventLoop T} (tr : Transport T).
Context (timeoutMs : Z) (retry : ResolvedRetry) (uuid : nat -> string) (jitter : nat -> Z).

(** What a settled [safeSubmit] can be. *)
Lemma safeSubmit_outcome params fallback c :
  match (safeSubmit tr timeoutMs retry uuid jitter params fallback c).1 with
  | Settles _ (Ok resp) =>
      (fromFallback resp = false /\ decision_wf (decision resp) /\
       exists s t r s', t_request tr Method.SubmitScan params s = (Settles t (Ok r), s') /\
         decodeDecision r = Some (decision resp)) \/
      (fromFallback resp = true /\ action (decision resp) = default Block fallback /\
       incomplete (decision resp) = true /\ elapsedMs resp = 0)
  | Settles _ (Err e) => isAvailabilityError e = false
  | Hangs => True
  end.
Proof.
  unfold safeSubmit, try_catch.
  destruct (submit tr timeoutMs retry uuid jitter params c) as [[t [resp|e]|] c'] eqn:E; [| |done].
  - left. apply bind_inv in E as (t1 & [] & s1 & t2 & _ & E & _).
    apply bind_inv in E as (t3 & rid & s2 & t4 & _ & E & _).
    apply bind_inv in E as (t5 & [r ms] & s3 & t6 & Einv & E & _).
    apply bind_inv in E as (t7 & d & s4 & t8 & Edec & E & _).
    unfold mret, async_ret in E. simplify_eq. split; [done|].
    unfold decode, lift in Edec. destruct (decodeDecision r) as [d'|] eqn:Ed; simplify_eq/=. split.
    + unfold decodeDecision in Ed. destruct (zparse DecisionWireSchema r) eqn:Ez; [|done].
      destruct (decodeDecision_total r o Ez) as (d' & E' & Hwf).
      unfold decodeDecision in E'. rewrite Ez, Ed in E'. by simplify_eq.
    + unfold timed in Einv. destruct (invoke _ _ _ _ _ _ _ s2) as [[t9 [r'|e]|] s9] eqn:Ei; simplify_eq.
      apply invoke_result in Ei as (s & t' & s' & Er). by exists s, t', r, s'.
  - destruct (isAvailabilityError e) eqn:Ea; simpl.
    + right. done.
    + done.
Qed.

(** C5: [safeScan] never invents an allow.  Whatever the transport does, a response that is not a
    fallback carries the decision decoded from a reply of the transport to this very request; a
    fallback response carries the configured action ([block] by default), is marked incomplete and
    from fallback; and what still throws is never an availability error. *)
Theorem safeScan_fail_closed request fallback c :
  match (safeScan tr timeoutMs retry uuid jitter request fallback c).1 with
  | Settles _ (Ok resp) =>
      (fromFallback resp = false /\ decision_wf (decision resp) /\
       exists s t r s', t_request tr Method.SubmitScan (encodeScanRequest request) s = (Settles t (Ok r), s') /\
         decodeDecision r = Some (decision resp)) \/
      (fromFallback resp = true /\ action (decision resp) = default Block fallback /\
       incomplete (decision resp) = true /\ elapsedMs resp = 0)
  | Settles _ (Err e) => isAvailabilityError e = false
  | Hangs => True
  end.
Proof. apply safeSubmit_outcome. Qed.

(** C12: a scan is submitted at most once.  Over a transport that hands nothing over when it reports
    [NotConnectedError], one [safeScan], with all its retries and its handshake, hands the
    request to the agent at most once, and only when a version has been agreed on. *)
Theorem safeScan_at_most_once `{!AtMostOnce tr Method.SubmitScan} request fallback c :
  t_ok tr Method.SubmitScan (tstate c) ->
  let c' := (safeScan tr timeoutMs retry uuid jitter request fallback c).2 in
  submitted tr Method.SubmitScan (tstate c) <= submitted tr Method.SubmitScan (tstate c')
    <= submitted tr Method.SubmitScan (tstate c) + 1 /\
  (submitted tr Method.SubmitScan (tstate c) < submitted tr Method.SubmitScan (tstate c') -> negotiated c' <> None).
Proof.
  intros Hok. pose proof (scan_submits tr timeoutMs retry uuid jitter _ request c eq_refl Hok) as Hs.
  unfold safeScan, safeSubmit, try_catch. change (submit _ _ _ _ _ _) with (scan tr timeoutMs retry uuid jitter request).
  destruct (scan tr timeoutMs retry uuid jitter request c) as [[t [resp|e]|] c1]; simpl in *.
  1, 3: tauto.
  destruct (isAvailabilityError e); simpl; tauto.
Qed.

Lemma ensure_settles w c :
  stays_alive T -> 0 < timeoutMs -> 0 <= r_baseDelayMs retry -> 0 <= r_maxDelayMs retry -> 0 <= w ->
  (forall n, 0 <= jitter n < 2 ^ 53) ->
  (forall m p s t x s', t_request tr m p s = (Settles t x, s') -> 0 <= t) ->
  (forall s, settles_within w (t_connect tr s).1) ->
  settles_within (w + invoke_bound timeoutMs retry) (ensureConnected tr timeoutMs retry jitter c).1.
Proof.
  intros Ha Ht Hb Hm Hw Hj Hr Hc. pose proof (invoke_bound_nonneg timeoutMs retry) as HB.
  unfold ensureConnected. destruct (negotiated c) eqn:En; [eexists _, _; split; [done|lia]|].
  apply settles_last; [|intros; apply settles_ret]. unfold connect. rewrite En.
  apply settles_bind; [|intros [] s|done].
  - unfold on_transport. specialize (Hc (tstate c)). by destruct (t_connect tr (tstate c)).
  - apply settles_last; [by apply invoke_settles|]. intros r s2.
    apply settles_now; [lia|apply settles_lift|]. intros n s3.
    apply settles_now; [lia|eexists _, _; split; [done|lia]|intros; apply settles_ret].
Qed.

Lemma safeSubmit_settles w params fallback c :
  stays_alive T -> 0 < timeoutMs -> 0 <= r_baseDelayMs retry -> 0 <= r_maxDelayMs retry -> 0 <= w ->
  (forall n, 0 <= jitter n < 2 ^ 53) ->
  (forall m p s t x s', t_request tr m p s = (Settles t x, s') -> 0 <= t) ->
  (forall s, settles_within w (t_connect tr s).1) ->
  settles_within (scan_bound w timeoutMs retry) (safeSubmit tr timeoutMs retry uuid jitter params fallback c).1.
Proof.
  intros Ha Ht Hb Hm Hw Hj Hr Hc. pose proof (invoke_bound_nonneg timeoutMs retry) as HB.
  unfold safeSubmit. apply settles_try; [|intros e s; destruct (negb _); [apply settles_throw|]; eexists _, _; split; [done|lia]].
  unfold submit, scan_bound. replace (w + 2 * invoke_bound timeoutMs retry)
    with ((w + invoke_bound timeoutMs retry) + invoke_bound timeoutMs retry) by lia.
  apply settles_bind; [by apply ensure_settles| |lia].
  intros [] s. apply settles_now; [done|eexists _, _; split; [done|lia]|]. intros rid s2.
  apply settles_last; [apply settles_timed; by apply invoke_settles|]. intros [r ms] s3.
  apply settles_now; [lia|apply settles_lift|intros; apply settles_ret].
Qed.

Lemma acknowledgeWarning_settles w eventId accepted c :
  stays_alive T -> 0 < timeoutMs -> 0 <= r_baseDelayMs retry -> 0 <= r_maxDelayMs retry -> 0 <= w ->
  (forall n, 0 <= jitter n < 2 ^ 53) ->
  (forall m p s t x s', t_request tr m p s = (Settles t x, s') -> 0 <= t) ->
  (forall s, settles_within w (t_connect tr s).1) ->
  settles_within (scan_bound w timeoutMs retry) (acknowledgeWarning tr timeoutMs retry jitter eventId accepted c).1.
Proof.
  intros Ha Ht Hb Hm Hw Hj Hr Hc. pose proof (invoke_bound_nonneg timeoutMs retry) as HB.
  unfold acknowledgeWarning, scan_bound. replace (w + 2 * invoke_bound timeoutMs retry)
    with ((w + invoke_bound timeoutMs retry) + invoke_bound timeoutMs retry) by lia.
  apply settles_bind; [by apply ensure_settles| |lia].
  intros [] s. apply settles_last; [by apply invoke_settles|]. intros r s2. apply settles_lift.
Qed.

(** C18: [safeScan] comes back in a process that stays alive.  The deadlines and the pauses of the
    SDK are timers that do not keep the process running ([unref]); as long as something else does
    (the helper, an open stream, the editor), with a positive deadline and a transport whose
    [connect] settles within [w] milliseconds, the promise settles within [scan_bound w]: the
    handshake and the submission, each with all its attempts, deadlines and pauses (16 s by
    default, plus [w]).  In a process that has nothing else to wait for it need not settle at all
    ([default_scan_drained]). *)
Theorem safeScan_settles w request fallback c :
  stays_alive T -> 0 < timeoutMs -> 0 <= r_baseDelayMs retry -> 0 <= r_maxDelayMs retry -> 0 <= w ->
  (forall n, 0 <= jitter n < 2 ^ 53) ->
  (forall m p s t x s', t_request tr m p s = (Settles t x, s') -> 0 <= t) ->
  (forall s, settles_within w (t_connect tr s).1) ->
  settles_within (scan_bound w timeoutMs retry) (safeScan tr timeoutMs retry uuid jitter request fallback c).1.
Proof. apply safeSubmit_settles. Qed.

(** The client only ever holds an agreement this SDK supports: every operation, whether it
    succeeds, throws or hangs, keeps the invariant that a stored version has a supported protocol
    and the SDK's schema. *)
Theorem client_version_invariant request fallback eventId accepted limit c :
  client_wf c ->
  client_wf (connect tr timeoutMs retry jitter c).2 /\
  client_wf (scan tr timeoutMs retry uuid jitter request c).2 /\
  client_wf (safeScan tr timeoutMs retry uuid jitter request fallback c).2 /\
  client_wf (status tr timeoutMs retry jitter c).2 /\
  client_wf (acknowledgeWarning tr timeoutMs retry jitter eventId accepted c).2 /\
  client_wf (recentDecisions tr timeoutMs retry jitter limit c).2 /\
  client_wf (close tr c).2.
Proof.
  intros Hc. assert (forall a b d : client T, (client_wf a -> client_wf b) -> (client_wf b -> client_wf d) -> client_wf a -> client_wf d) as Htr by tauto.
  assert (forall method params cls s, client_wf s -> client_wf (invoke tr timeoutMs retry jitter method params cls s).2) as Hinv
    by (intros; unfold client_wf in *; by rewrite invoke_negotiated).
  assert (forall request c, client_wf c -> client_wf (scan tr timeoutMs retry uuid jitter request c).2) as Hscan.
  { intros rq s. apply (bind_keeps (fun a b => client_wf a -> client_wf b)); [exact Htr|by apply ensure_wf|].
    intros [] s1. apply (bind_keeps (fun a b => client_wf a -> client_wf b)); [exact Htr|done|].
    intros rid s2. apply (bind_keeps (fun a b => client_wf a -> client_wf b)); [exact Htr| |].
    - intros Hs. specialize (Hinv Method.SubmitScan (encodeScanRequest rq) Write s2 Hs). unfold timed.
      by destruct (invoke _ _ _ _ _ _ _ s2) as [[? []|] ?].
    - intros [r ms] s3. by apply (bind_keeps (fun a b => client_wf a -> client_wf b)). }
  assert (forall A method params cls (k : option json -> async (client T) A) s,
            (forall r s, client_wf s -> client_wf (k r s).2) -> client_wf s ->
            client_wf ((_ ← ensureConnected tr timeoutMs retry jitter; r ← invoke tr timeoutMs retry jitter method params cls; k r) s).2) as Hcall.
  { intros A method params cls k s Hk. apply (bind_keeps (fun a b => client_wf a -> client_wf b)); [exact Htr|by apply ensure_wf|].
    intros [] s1. apply (bind_keeps (fun a b => client_wf a -> client_wf b)); [exact Htr|auto|auto]. }
  split_and!.
  - by apply connect_wf.
  - by apply Hscan.
  - revert Hc. apply (try_keeps (fun a b => client_wf a -> client_wf b)); [exact Htr|apply Hscan|].
    intros e s. by destruct (isAvailabilityError e).
  - apply Hcall; [done|exact Hc].
  - apply Hcall; [done|exact Hc].
  - apply Hcall; [done|exact Hc].
  - unfold close, mbind, async_bind, on_transport. simpl. by destruct (t_close tr (tstate c)).
Qed.
End properties.

(** A client that lost its channel does not reconnect: with an agreement stored and the transport
    disconnected, every [safeScan] answers with the fallback and leaves the transport as it was,
    disconnected and without a new call, so the next one fails in the same way. *)
Theorem client_never_reconnects `{Zod} `{EventLoop MockState} timeoutMs retry uuid jitter request fallback (c : client MockState) n :
  stays_alive MockState -> negotiated c = Some n -> connected (tstate c) = false ->
  let '(r, c') := safeScan MockTransport timeoutMs retry uuid jitter request fallback c in
  (exists t resp, r = Settles t (Ok resp) /\ fromFallback resp = true /\ action (decision resp) = default Block fallback) /\
  negotiated c' = Some n /\ tstate c' = tstate c.
Proof.
  intros Ha Hn Hd. unfold safeScan, safeSubmit, submit, try_catch, mbind, async_bind, ensureConnected. rewrite Hn. cbn [randomUUID].
  set (c1 := mkClient (negotiated c) _ _ _). unfold timed, invoke, withRetry.
  destruct (retry_loop_exhausts (fun s => negotiated s = Some n /\ tstate s = tstate c)
    (fun _ => attempt_once MockTransport timeoutMs Method.SubmitScan (encodeScanRequest request))
    (invoke_options retry jitter Write) (NotConnectedError "transport is not connected")
    (Z.max 1 (maxAttempts (invoke_options (T := MockState) retry jitter Write))) 0
    (Z.to_nat (Z.max 1 (maxAttempts (invoke_options (T := MockState) retry jitter Write)) - 1)) c1) as [[H1 H2] [t Et]]; try done.
  - intros ms s. eexists. apply realSleep_settles. by apply client_stays_alive.
  - intros i s [Hs1 Hs2]. unfold attempt_once, withTimeout, on_transport. cbn [t_request MockTransport].
    unfold mock_request. rewrite Hs2, Hd. cbn [negb]. pose proof (timer_ms_bounds timeoutMs).
    destruct (timeoutMs <=? 0); [|destruct (0 <? timer_ms timeoutMs) eqn:E; bool_simpl; [|lia]];
      (split; [done|by eexists]).
  - destruct (retry_loop _ _ _ _ _ c1) as [r c2]. simpl in *. subst r. simpl.
    split_and!; [by eexists _, _|done|done].
Qed.

(** ** Examples *)

(** The processes of the examples stay alive. *)
#[export] Instance mock_loop : EventLoop MockState := fun _ _ => true.
#[export] Instance unit_loop : EventLoop unit := fun _ _ => true.

(** A mock agent that allows every prompt; a client that has not connected yet. *)
Definition mock_allow : MockState :=
  respondWith Method.SubmitScan
    (encodeDecision (mkDecision "r" Allow Low Public None None None [] [] "ok" (NInt 1) (NInt 40) false)) mock_new.
Definition fresh_client (s : MockState) : client MockState := mkClient None s 0 0.
Definition sample_request : ScanRequest := mkScanRequest "hello" sample_context.

Lemma mock_allow_honest : honest mock_allow.
Proof.
  intros k f E c t msg. unfold mock_allow, respondWith, mock_new, on in E. simpl in E.
  destruct (decide (k = Method.SubmitScan)) as [->|]; [rewrite lookup_insert_eq in E; by simplify_eq|].
  rewrite lookup_insert_ne in E by done.
  destruct (decide (k = Method.Hello)) as [->|]; [rewrite lookup_insert_eq in E; by simplify_eq|].
  rewrite lookup_insert_ne, lookup_empty in E by done. done.
Qed.

Example default_scan_allows :
  (default_scan MockTransport (fun _ => "uuid") (fun _ => 0) sample_request None (fresh_client mock_allow)).1 =
  Settles 0 (Ok (makeScanResponse
    (mkDecision "r" Allow Low Public None None None [] [] "ok" (NInt 1) (NInt 40) false) "uuid" 0 None)).
Proof. vm_compute. reflexivity. Qed.

(** A hung agent: the deadline fires once, nothing is retried, the prompt is blocked. *)
Example default_scan_hung :
  match default_scan MockTransport (fun _ => "uuid") (fun _ => 0) sample_request None
          (fresh_client (hang Method.SubmitScan mock_new)) with
  | (Settles t (Ok resp), c) =>
      t = 2000 /\ action (decision resp) = Block /\ fromFallback resp = true /\
      List.length (calls_of Method.SubmitScan (calls (tstate c))) = 1%nat
  | _ => False
  end.
Proof. vm_compute. repeat split. Qed.

Lemma safeScan_at_most_once_witness :
  let c' := (default_scan MockTransport (fun _ => "uuid") (fun _ => 0) sample_request None (fresh_client mock_allow)).2 in
  submitted MockTransport Method.SubmitScan mock_allow <= submitted MockTransport Method.SubmitScan (tstate c')
    <= submitted MockTransport Method.SubmitScan mock_allow + 1 /\
  (submitted MockTransport Method.SubmitScan mock_allow < submitted MockTransport Method.SubmitScan (tstate c') -> negotiated c' <> None).
Proof.
  apply (safeScan_at_most_once MockTransport DEFAULT_TIMEOUT_MS (resolveRetry None) (fun _ => "uuid") (fun _ => 0)
           sample_request None (fresh_client mock_allow)).
  exact mock_allow_honest.
Defined.

(** A transport without state that answers every request after 7 ms. *)
Definition slow_transport : Transport unit :=
  {| t_connect := fun s => (Settles 3 (Ok tt), s); t_request := fun _ _ s => (Settles 7 (Ok None), s);
     t_abort := fun s => s; t_close := fun s => (Settles 0 (Ok tt), s) |}.

Lemma safeScan_settles_witness :
  settles_within (scan_bound 3 DEFAULT_TIMEOUT_MS (resolveRetry None))
    (default_scan slow_transport (fun _ => "uuid") (fun _ => 0) sample_request None (mkClient None tt 0 0)).1.
Proof.
  apply (safeScan_settles slow_transport DEFAULT_TIMEOUT_MS (resolveRetry None) (fun _ => "uuid") (fun _ => 0) 3
           sample_request None (mkClient None tt 0 0)).
  - intros s ms. reflexivity.
  - reflexivity.
  - vm_compute. discriminate.
  - vm_compute. discriminate.
  - lia.
  - intros _. lia.
  - simpl. intros m p s t x s' E. assert (7 = t) as <- by congruence. lia.
  - intros s. exists 3, (Ok tt). split; [reflexivity|lia].
Defined.

(** A helper that dies in the handshake: the state is whether it is running, and nothing else keeps
    the process alive. *)
#[export] Instance helper_loop : EventLoop bool := fun running _ => running.
Definition dying_transport : Transport bool :=
  {| t_connect := fun _ => (Settles 3 (Ok tt), true);
     t_request := fun _ _ running =>
       if running then (Settles 5 (Err (TransportError "xpc-bridge exited (code=1, signal=null)" None)), false)
       else (Settles 0 (Err (NotConnectedError "transport is not connected")), false);
     t_abort := fun s => s; t_close := fun _ => (Settles 0 (Ok tt), false) |}.

(** The pause before the second attempt of the handshake is an [unref]'d timer and the helper is gone:
    the scan never settles, neither with the fallback nor with an error. *)
Example default_scan_drained :
  (default_scan dying_transport (fun _ => "uuid") (fun _ => 0) sample_request None (mkClient None false 0 0)).1 = Hangs.
Proof. vm_compute. reflexivity. Qed.

Example default_scan_bound : scan_bound 0 DEFAULT_TIMEOUT_MS (resolveRetry None) = 16000.
Proof. reflexivity. Qed.

Lemma client_version_invariant_witness :
  client_wf (connect MockTransport 2000 DEFAULT_RETRY (fun _ => 0) (fresh_client mock_allow)).2 /\
  client_wf (scan MockTransport 2000 DEFAULT_RETRY (fun _ => "u") (fun _ => 0) sample_request (fresh_client mock_allow)).2 /\
  client_wf (safeScan MockTransport 2000 DEFAULT_RETRY (fun _ => "u") (fun _ => 0) sample_request None (fresh_client mock_allow)).2 /\
  client_wf (status MockTransport 2000 DEFAULT_RETRY (fun _ => 0) (fresh_client mock_allow)).2 /\
  client_wf (acknowledgeWarning MockTransport 2000 DEFAULT_RETRY (fun _ => 0) "e" true (fresh_client mock_allow)).2 /\
  client_wf (recentDecisions MockTransport 2000 DEFAULT_RETRY (fun _ => 0) 5 (fresh_client mock_allow)).2 /\
  client_wf (close MockTransport (fresh_client mock_allow)).2.
Proof. apply client_version_invariant. exact I. Defined.

Lemma client_never_reconnects_witness :
  let '(r, c') := default_scan MockTransport (fun _ => "uuid") (fun _ => 0) sample_request None
                    (mkClient (Some (mkNegotiated 1 SCHEMA_VERSION "a")) mock_allow 0 0) in
  (exists t resp, r = Settles t (Ok resp) /\ fromFallback resp = true /\ action (decision resp) = Block) /\
  negotiated c' = Some (mkNegotiated 1 SCHEMA_VERSION "a") /\ tstate c' = mock_allow.
Proof.
  exact (client_never_reconnects DEFAULT_TIMEOUT_MS (resolveRetry None) (fun _ => "uuid") (fun _ => 0) sample_request None
           (mkClient (Some (mkNegotiated 1 SCHEMA_VERSION "a")) mock_allow 0 0) (mkNegotiated 1 SCHEMA_VERSION "a")
           (fun _ _ => eq_refl) eq_refl eq_refl).
Defined.
