(* ===== verification/CliInput.v ===== *)
(** * Command-line framework: bypass, request building, enforcement

    [cli-connectors/framework/src]: [core/bypass.ts], [sdk/scan-request.ts],
    [policy/enforcement.ts], [policy/prompt.ts] and the types they share.  Text written to
    stderr is the list of the strings passed to [process.stderr.write].  The confirmation
    prompt is a third-party package: its answer is a parameter, [None] when it fails.
    A role or classification is one of the SDK's enumerations: strings outside them, which the
    casts of [createScanContext] let through, are not modelled. *)

From S2P Require Import Prelude Json Zod Enums Decision ScanRequest.

Definition newline : string := of_chars [chr 10].
Definition esc (s : string) : string := of_chars [chr 27] +:+ s.

(** The environment of the process. *)
Abbreviation env_t := (gmap string string).

(** ** [bypass.ts] *)

Definition BYPASS_FLAG : string := "--bypass".
Definition BYPASS_ENV_VAR : string := "VG_BYPASS".

Inductive BypassSource := FromFlag | FromEnv.

Record BypassResolution := mkBypass {
  bypass : bool;
  bypass_args : list string;
  bypass_source : option BypassSource
}.

(** [args.filter((arg) => arg !== flag)] *)
Definition strip (flag : string) (args : list string) : list string :=
  filter (fun arg => arg <> flag) args.

(** [stripped.length !== args.length] *)
Definition flag_present (flag : string) (args : list string) : bool :=
  negb (Nat.eqb (List.length (strip flag args)) (List.length args)).

Definition env_is_1 (name : string) (env : env_t) : bool := bool_decide (env !! name = Some "1").

Definition resolveBypass (args : list string) (env : env_t) : BypassResolution :=
  let stripped := strip BYPASS_FLAG args in
  if flag_present BYPASS_FLAG args then mkBypass true stripped (Some FromFlag)
  else if env_is_1 BYPASS_ENV_VAR env then mkBypass true stripped (Some FromEnv)
  else mkBypass false stripped None.

Definition rule : string := js_join "" (repeat "═" 68).

Definition printBypassWarning (toolName : string) (source : BypassSource) : list string :=
  let via := match source with FromFlag => "--bypass flag" | FromEnv => BYPASS_ENV_VAR +:+ "=1 environment variable" end in
  let lines :=
    [rule;
     " [VGuardrail] EMERGENCY BYPASS ACTIVE";
     " [VGuardrail] Policy scanning is DISABLED for this " +:+ toolName +:+ " run";
     " [VGuardrail] Requested via " +:+ via;
     " [VGuardrail] This invocation is being recorded for audit purposes.";
     rule] in
  [esc "[1;33m" +:+ js_join newline lines +:+ esc "[0m" +:+ newline].

(** ** [types.ts] *)

Record ExtractionContext := mkExtraction {
  prompt : string;
  files : list (string * string);       (* path, content *)
  stdinData : option string
}.

Record ExtractionResult := mkResult {
  found : bool;
  ex_context : option ExtractionContext;
  ex_error : option string
}.

Record InteractiveProfile := mkProfile { clearInputSequence : option string }.

(** The part of a [ToolDefinition] that is data; the extractor is an argument of the operations
    that call it. *)
Record ToolDefinition := mkTool {
  tool_name : string;
  displayName : string;
  executablePath : string;
  tool_provider : option string;
  defaultModel : option string;
  interactive : option InteractiveProfile
}.

(** [createToolDefinition] *)
Definition createToolDefinition (name displayName executablePath : string) (provider defaultModel : option string)
    (interactive : option InteractiveProfile) : ToolDefinition :=
  mkTool name displayName executablePath provider defaultModel interactive.

(** ** [scan-request.ts] *)

Definition MAX_PROMPT_LENGTH : Z := 100000.

(** [composeScanText] *)
Definition composeScanText (c : ExtractionContext) : string :=
  let prompt_part := if is_empty (prompt c) then [] else [prompt c] in
  let stdin_part :=
    match stdinData c with
    | Some d =>
        if negb (is_empty d) && negb (String.eqb d (prompt c)) && negb (js_includes (prompt c) d)
        then ["--- stdin ---" +:+ newline +:+ d] else []
    | None => []
    end in
  let file_part (f : string * string) :=
    if negb (is_empty (prompt c)) && js_includes (prompt c) f.2 then []
    else ["--- file: " +:+ f.1 +:+ " ---" +:+ newline +:+ f.2] in
  js_join (newline +:+ newline) (prompt_part ++ stdin_part ++ flat_map file_part (files c)).

(** [createScanContext] *)
Definition createScanContext (tool : ToolDefinition) (user : UserContext) (repo : option RepoContext) : ScanContext :=
  {| source := Some SrcCli;
     provider := if truthy (tool_provider tool) then tool_provider tool else None;
     model := None;
     app := Some (tool_name tool);
     repo := (fun r => mkRepo (repo_name r) (repo_classification r)) <$> repo;
     file := None;
     user := mkUser (userId user) (role user) (groups user) |}.

(** [truncatePrompt] *)
Definition truncatePrompt (p : string) : string :=
  if strlen p <=? MAX_PROMPT_LENGTH then p
  else slice_to (Z.to_nat MAX_PROMPT_LENGTH) p +:+ newline +:+ "... [truncated]".

Definition buildScanRequest (c : ExtractionContext) (tool : ToolDefinition) (user : UserContext)
    (repo : option RepoContext) : ScanRequest :=
  mkScanRequest (truncatePrompt (composeScanText c)) (createScanContext tool user repo).

Definition createExtractionContext (prompt : string) (files : option (list (string * string)))
    (stdinData : option string) : ExtractionContext :=
  mkExtraction prompt (default [] files) stdinData.

(** ** [prompt.ts] *)

Module COLORS.
Definition reset : string := esc "[0m".
Definition red : string := esc "[31m".
Definition yellow : string := esc "[33m".
Definition green : string := esc "[32m".
Definition bold : string := esc "[1m".
End COLORS.

Definition finding_line (color : string) (f : Finding) : string :=
  let category := "[" +:+ wire (f_category f) +:+ "] " in
  let preview := if is_empty (redactedPreview f) then "" else ": " +:+ redactedPreview f in
  "  " +:+ color +:+ "-" +:+ COLORS.reset +:+ " " +:+ category +:+ kind f +:+ preview +:+ newline.

Definition showWarningMessage (d : Decision) : list string :=
  [COLORS.yellow +:+ COLORS.bold +:+ "[VGuardrail] WARNING: Policy violation detected" +:+ COLORS.reset +:+ newline;
   COLORS.yellow +:+ reason d +:+ COLORS.reset +:+ newline +:+ newline]
  ++ match findings d with
     | [] => []
     | fs => ["Findings:" +:+ newline] ++ map (finding_line COLORS.yellow) fs ++ [newline]
     end.

(** [showWarningPrompt]: the answer and what is written; [answer] is the reply of the prompt
    package, [None] when its promise is rejected. *)
Definition showWarningPrompt (d : Decision) (answer : option bool) : bool * list string :=
  match answer with
  | Some true =>
      (true, showWarningMessage d ++ [COLORS.green +:+ "[VGuardrail] Proceeding with acknowledgement" +:+ COLORS.reset +:+ newline +:+ newline])
  | Some false =>
      (false, showWarningMessage d ++ [COLORS.red +:+ "[VGuardrail] Cancelled by user" +:+ COLORS.reset +:+ newline +:+ newline])
  | None => (false, showWarningMessage d)
  end.

Definition showBlockMessage (d : Decision) (note : option string) : list string :=
  [COLORS.red +:+ COLORS.bold +:+ "[VGuardrail] BLOCKED: " +:+ reason d +:+ COLORS.reset +:+ newline]
  ++ (if truthy note then [COLORS.red +:+ default "" note +:+ COLORS.reset +:+ newline] else [])
  ++ match findings d with
     | [] => []
     | fs => [newline +:+ "Findings:" +:+ newline] ++ map (finding_line COLORS.red) fs
     end
  ++ [newline].

Definition showInfoMessage (message : string) : list string :=
  [COLORS.green +:+ "[VGuardrail] " +:+ message +:+ COLORS.reset +:+ newline].
Definition showErrorMessage (message : string) : list string :=
  [COLORS.red +:+ "[VGuardrail] Error: " +:+ message +:+ COLORS.reset +:+ newline].

(** ** [enforcement.ts] *)

Inductive WarnTier := TierBlock | TierPrompt | TierNotice.

Definition warnTier (riskLevel : option RiskLevel) : WarnTier :=
  match riskLevel with
  | Some Critical | Some High => TierBlock
  | Some Low => TierNotice
  | _ => TierPrompt
  end.

Record EnforcementResult := mkEnforcement {
  enf_decision : Decision;
  shouldProceed : bool;
  warningAcknowledged : option bool
}.

Definition handleWarning (d : Decision) (answer : option bool) : EnforcementResult * list string :=
  match warnTier (Some (riskLevel d)) with
  | TierBlock =>
      (mkEnforcement d false (Some false), showBlockMessage d (Some "high risk — blocked, no override"))
  | TierNotice => (mkEnforcement d true (Some true), showWarningMessage d)
  | TierPrompt =>
      let '(acknowledged, out) := showWarningPrompt d answer in
      (mkEnforcement d acknowledged (Some acknowledged), out)
  end.

Definition enforceDecision (d : Decision) (answer : option bool) : EnforcementResult * list string :=
  match action d with
  | Allow => (mkEnforcement d true None, [])
  | Warn => handleWarning d answer
  | Block => (mkEnforcement d false None, showBlockMessage d None)
  end.

Definition to_upper (s : string) : string :=
  of_chars (map (fun c => if (97 <=? code c) && (code c <=? 122) then chr (code c - 32) else c) (to_chars s)).

Definition formatDecisionMessage (d : Decision) : string :=
  let head := "[VGuardrail] " +:+ to_upper (wire (action d)) +:+ ": " +:+ reason d in
  match findings d with
  | [] => head
  | fs =>
      head +:+ newline +:+ newline +:+ "Findings:" +:+
      js_join "" (map (fun f => newline +:+ "  - [" +:+ wire (f_category f) +:+ "] " +:+ kind f +:+
        (if is_empty (redactedPreview f) then "" else ": " +:+ redactedPreview f)) fs)
  end.

(** ** Specification *)

(** What lets a decision through at a terminal: an allow, a low-risk warning, or a medium-risk
    warning the user confirmed. *)
Definition permitted (d : Decision) (answer : option bool) : Prop :=
  action d = Allow \/ (action d = Warn /\ riskLevel d = Low) \/
  (action d = Warn /\ riskLevel d = Medium /\ answer = Some true).

(** [t] occurs in [s]. *)
Definition occurs (t s : string) : Prop := exists a b, s = a +:+ t +:+ b.

(** ** Strings *)

Lemma append_assoc (a b c : string) : (a +:+ b) +:+ c = a +:+ (b +:+ c).
Proof. induction a as [|x a IH]; [done|]. by rewrite !append_cons, IH. Qed.

Lemma append_nil_r (a : string) : a +:+ "" = a.
Proof. induction a as [|x a IH]; [done|]. by rewrite append_cons, IH. Qed.

Lemma occurs_refl s : occurs s s.
Proof. exists "", "". by rewrite append_nil_r. Qed.

Lemma occurs_trans a b c : occurs a b -> occurs b c -> occurs a c.
Proof. intros (x & y & ->) (u & v & ->). exists (u +:+ x), (y +:+ v). by rewrite !append_assoc. Qed.

Lemma occurs_app_l a t s : occurs t s -> occurs t (a +:+ s).
Proof. intros (x & y & ->). exists (a +:+ x), y. by rewrite !append_assoc. Qed.

Lemma occurs_app_r t s b : occurs t s -> occurs t (s +:+ b).
Proof. intros (x & y & ->). exists x, (y +:+ b). by rewrite !append_assoc. Qed.

Lemma prefix_split t s : String.prefix t s = true -> exists b, s = t +:+ b.
Proof.
  revert s. induction t as [|c t IH]; intros s; [by exists s|].
  destruct s as [|d s]; simpl; [done|]. destruct (ascii_dec c d) as [->|]; [|done].
  intros H. destruct (IH s H) as [b ->]. by exists b.
Qed.

Lemma index_occurs s t n : String.index 0 t s = Some n -> occurs t s.
Proof.
  revert n. induction s as [|c s IH]; intros n; cbn [String.index].
  - destruct t; [|done]. intros _. by exists "", "".
  - destruct (String.prefix t (String c s)) eqn:E.
    + intros _. apply prefix_split in E as [b ->]. by exists "", b.
    + destruct (String.index 0 t s) as [m|] eqn:E2; [|done]. intros _.
      apply (occurs_app_l (String c "")). by eapply IH.
Qed.

Lemma includes_occurs s t : js_includes s t = true -> occurs t s.
Proof. unfold js_includes. destruct (String.index 0 t s) eqn:E; [|done]. intros _. by eapply index_occurs. Qed.

Lemma join_occurs sep l x : x ∈ l -> occurs x (js_join sep l).
Proof.
  unfold js_join. induction l as [|y l IH]; intros Hin; [set_solver|].
  destruct l as [|z l].
  - apply list_elem_of_singleton in Hin as ->. simpl. apply occurs_refl.
  - change (String.concat sep (y :: z :: l)) with (y +:+ (sep +:+ String.concat sep (z :: l))).
    apply elem_of_cons in Hin as [->|Hin].
    + apply occurs_app_r, occurs_refl.
    + apply occurs_app_l, occurs_app_l. auto.
Qed.

(** ** Flags *)

Lemma strip_no_flag flag args : flag ∉ strip flag args.
Proof. unfold strip. intros H. apply list_elem_of_filter in H as [H _]. done. Qed.

Lemma strip_id flag args : flag ∉ args -> strip flag args = args.
Proof.
  unfold strip. induction args as [|a args IH]; intros Hn; [done|].
  rewrite filter_cons, decide_True by set_solver. f_equal. set_solver.
Qed.

Lemma flag_present_spec flag args : flag_present flag args = true <-> flag ∈ args.
Proof.
  unfold flag_present. rewrite negb_true_iff, Nat.eqb_neq. split.
  - intros Hl. destruct (decide (flag ∈ args)) as [|Hn]; [done|]. by rewrite (strip_id flag args Hn) in Hl.
  - intros Hin. assert (List.length (strip flag args) < List.length args)%nat; [|lia].
    unfold strip. induction args as [|a args IH]; [set_solver|]. rewrite filter_cons.
    pose proof (length_filter (fun arg => arg <> flag) args) as Hle.
    case_decide as Ha; simpl.
    + assert (flag ∈ args) as Hf by set_solver. specialize (IH Hf). lia.
    + lia.
Qed.

Lemma resolveBypass_args args env : bypass_args (resolveBypass args env) = strip BYPASS_FLAG args.
Proof. unfold resolveBypass. by destruct (flag_present BYPASS_FLAG args), (env_is_1 BYPASS_ENV_VAR env). Qed.

Lemma resolveBypass_spec args env :
  bypass (resolveBypass args env) = true <-> BYPASS_FLAG ∈ args \/ env !! BYPASS_ENV_VAR = Some "1".
Proof.
  unfold resolveBypass. pose proof (flag_present_spec BYPASS_FLAG args) as Hf.
  destruct (flag_present BYPASS_FLAG args); [naive_solver|].
  unfold env_is_1. case_bool_decide; naive_solver.
Qed.

Lemma resolveBypass_source args env :
  bypass (resolveBypass args env) = match bypass_source (resolveBypass args env) with Some _ => true | None => false end.
Proof. unfold resolveBypass. by destruct (flag_present BYPASS_FLAG args), (env_is_1 BYPASS_ENV_VAR env). Qed.

(** ** Enforcement *)

Lemma enforce_permitted d answer :
  shouldProceed (enforceDecision d answer).1 = true <-> permitted d answer.
Proof.
  unfold enforceDecision, handleWarning, permitted. destruct (action d); simpl.
  - naive_solver.
  - destruct (riskLevel d); simpl; try naive_solver. destruct answer as [[]|]; naive_solver.
  - naive_solver.
Qed.

(** ** Scanned text *)

Lemma compose_covers c t :
  t = prompt c \/ stdinData c = Some t \/ t ∈ map snd (files c) -> occurs t (composeScanText c).
Proof.
  intros Ht. unfold composeScanText.
  assert (Hprompt : forall u, u <> "" -> occurs u (prompt c) ->
            forall l, occurs u (js_join (newline +:+ newline) ((if is_empty (prompt c) then [] else [prompt c]) ++ l))).
  { intros u Hu Ho l. destruct (is_empty (prompt c)) eqn:E.
    - apply is_empty_spec in E. rewrite E in Ho. destruct Ho as (a & b & Hab). destruct a, u; simplify_eq; done.
    - eapply occurs_trans; [exact Ho|]. apply join_occurs. set_solver. }
  destruct (decide (t = "")) as [->|Hne]; [by eexists "", _|].
  destruct Ht as [->|[Hs|Hf]].
  - apply Hprompt; [done|]. apply occurs_refl.
  - rewrite Hs. destruct (negb (is_empty t) && negb (String.eqb t (prompt c)) && negb (js_includes (prompt c) t)) eqn:E.
    + eapply occurs_trans; [|apply join_occurs, elem_of_app; right; apply elem_of_app; left; by apply list_elem_of_singleton].
      apply occurs_app_l, occurs_app_l, occurs_refl.
    + apply Hprompt; [done|]. destruct (is_empty t) eqn:Et; [by apply is_empty_spec in Et|].
      destruct (String.eqb_spec t (prompt c)) as [->|]; [apply occurs_refl|]. simpl in E.
      apply negb_false_iff in E. by apply includes_occurs.
  - apply list_elem_of_fmap in Hf as ([path content] & -> & Hin). simpl in *.
    destruct (negb (is_empty (prompt c)) && js_includes (prompt c) content) eqn:E.
    + bool_simpl. apply Hprompt; [done|]. by apply includes_occurs.
    + eapply occurs_trans; [|apply (join_occurs _ _ ("--- file: " +:+ path +:+ " ---" +:+ newline +:+ content))].
      * do 4 apply occurs_app_l. apply occurs_refl.
      * apply elem_of_app; right; apply elem_of_app; right. apply list_elem_of_In, in_flat_map.
        exists (path, content). split; [by apply list_elem_of_In|]. cbn [snd fst]. rewrite E. by left.
Qed.

Lemma buildScanRequest_text c tool user repo :
  strlen (composeScanText c) <= MAX_PROMPT_LENGTH ->
  text (buildScanRequest c tool user repo) = composeScanText c.
Proof. intros Hl. simpl. unfold truncatePrompt. apply Z.leb_le in Hl. by rewrite Hl. Qed.

(** The scan of an over-long text only sees its first [MAX_PROMPT_LENGTH] characters. *)
Lemma substring_app_prefix a b : String.substring 0 (String.length a) (a +:+ b) = a.
Proof.
  induction a as [|c a IH]; [by destruct b|]. rewrite append_cons. cbn [String.length String.substring]. by rewrite IH.
Qed.

Lemma length_append a b : String.length (a +:+ b) = (String.length a + String.length b)%nat.
Proof. induction a as [|c a IH]; [done|]. rewrite append_cons. cbn [String.length]. lia. Qed.

Lemma truncate_long a b :
  strlen a = MAX_PROMPT_LENGTH -> b <> "" -> truncatePrompt (a +:+ b) = a +:+ newline +:+ "... [truncated]".
Proof.
  intros Ha Hb. unfold truncatePrompt, strlen in *. rewrite length_append.
  destruct (_ <=? _) eqn:E; bool_simpl.
  - destruct b; [done|]. cbn [String.length] in E. lia.
  - unfold slice_to. rewrite <- Ha, Nat2Z.id, substring_app_prefix. done.
Qed.

Lemma compose_prompt_only p : composeScanText (createExtractionContext p None None) = p.
Proof. unfold composeScanText. simpl. destruct (is_empty p) eqn:E; [|done]. by apply is_empty_spec in E as ->. Qed.

(** ** Properties *)

(** C33: enforcement at the terminal: execution proceeds exactly for an allow, a low-risk warning, or a
    medium-risk warning the user confirmed; so a block and a high or critical warning stop it
    whatever the user answers, and a failed prompt counts as a refusal. *)
Theorem enforceDecision_spec d answer :
  (shouldProceed (enforceDecision d answer).1 = true <-> permitted d answer) /\
  (action d = Block \/ action d = Warn /\ (riskLevel d = High \/ riskLevel d = Critical) ->
   shouldProceed (enforceDecision d answer).1 = false) /\
  (action d = Warn -> riskLevel d = Medium -> answer <> Some true -> shouldProceed (enforceDecision d answer).1 = false).
Proof.
  pose proof (enforce_permitted d answer) as Hp. split; [done|].
  destruct (shouldProceed (enforceDecision d answer).1); [|done].
  assert (permitted d answer) as Hd by (by apply Hp). unfold permitted in Hd. naive_solver congruence.
Qed.

(** Everything the user hands over is in the text that is scanned: as long as the composed text
    fits the limit, the prompt, the captured stdin and the content of every referenced file occur
    in the request's text, including those left out because the prompt already contains them. *)
Theorem scan_text_covers c tool user repo t :
  strlen (composeScanText c) <= MAX_PROMPT_LENGTH ->
  t = prompt c \/ stdinData c = Some t \/ t ∈ map snd (files c) ->
  occurs t (text (buildScanRequest c tool user repo)).
Proof. intros Hl Ht. rewrite buildScanRequest_text by done. by apply compose_covers. Qed.

Lemma scan_text_covers_witness :
  occurs "secret" (text (buildScanRequest (mkExtraction "summarise" [("notes.txt", "secret")] (Some "more"))
    (mkTool "ollama" "Ollama" "/usr/bin/ollama" None None None) (mkUser "u" RoleUser []) None)).
Proof. apply scan_text_covers; [vm_compute; discriminate|]. right. right. left. Defined.

(** Beyond the limit the scan is blind: two prompts that agree on their first 100,000 characters
    give the same request, whatever follows, although the tool receives the whole prompt. *)
Theorem scan_text_tail_unscanned a b b' tool user repo :
  strlen a = MAX_PROMPT_LENGTH -> b <> "" -> b' <> "" ->
  buildScanRequest (createExtractionContext (a +:+ b) None None) tool user repo
  = buildScanRequest (createExtractionContext (a +:+ b') None None) tool user repo.
Proof.
  intros Ha Hb Hb'. unfold buildScanRequest. rewrite !compose_prompt_only.
  by rewrite (truncate_long a b), (truncate_long a b').
Qed.

Definition padding : string := of_chars (repeat "x"%char 100000).

Lemma scan_text_tail_unscanned_witness :
  buildScanRequest (createExtractionContext (padding +:+ "AKIA") None None)
    (mkTool "ollama" "Ollama" "/usr/bin/ollama" None None None) (mkUser "u" RoleUser []) None
  = buildScanRequest (createExtractionContext (padding +:+ "ok") None None)
    (mkTool "ollama" "Ollama" "/usr/bin/ollama" None None None) (mkUser "u" RoleUser []) None.
Proof. apply scan_text_tail_unscanned; [vm_compute; reflexivity|discriminate|discriminate]. Defined.
