(* ===== verification/CliConnector.v ===== *)
(** * Command-line framework: the connector

    [cli-connectors/framework/src]: [sdk/client.ts] (the policy client over [Client.v]),
    [process/executor.ts], [process/signals.ts] and [core/connector.ts].  What the wrapper does
    to the outside is a list of effects, newest last.  The operating system and the parts the
    tool supplies are parameters: the outcome of spawning a program, the tool's context
    extractor, the answer of the confirmation prompt, the PTY session, the environment.

    Not modelled here: the constructor's configuration loading, [executeToolCaptured]'s output
    capture, debug logging. *)

From S2P Require Import Prelude Json Zod Enums Decision ScanRequest AuditEvent Resilience Framing Transport Client CliInput.

(** ** Effects *)

Inductive effect :=
| Stderr (s : string)
| Spawned (executable : string) (args : list string) (stdin : option string)
| PtyOpened (executable : string) (args : list string)
| Exited (code : Z).

(** ** [signals.ts] *)

Definition SIGNAL_NUMBERS (signal : string) : option Z :=
  snd <$> List.find (fun kv => String.eqb kv.1 signal)
    [("SIGINT", 2); ("SIGTERM", 15); ("SIGHUP", 1); ("SIGQUIT", 3); ("SIGABRT", 6); ("SIGKILL", 9);
     ("SIGUSR1", 10); ("SIGUSR2", 12); ("SIGPIPE", 13); ("SIGALRM", 14); ("SIGSTOP", 19); ("SIGTSTP", 20);
     ("SIGCONT", 18); ("SIGCHLD", 17); ("SIGBUS", 10); ("SIGFPE", 8); ("SIGSEGV", 11)].

(** [128 + (SIGNAL_NUMBERS[signal] || 1)] *)
Definition signal_exit_code (signal : string) : Z :=
  128 + match SIGNAL_NUMBERS signal with Some n => if n =? 0 then 1 else n | None => 1 end.

(** The module's variables. *)
Record signal_state := mkSignals { handlersInstalled : bool; childPid : option Z }.

Definition setupSignalHandlers (s : signal_state) : signal_state :=
  if handlersInstalled s then s else mkSignals true (childPid s).
Definition setChildPid (pid : Z) (s : signal_state) : signal_state := mkSignals (handlersInstalled s) (Some pid).
Definition clearChildPid (s : signal_state) : signal_state := mkSignals (handlersInstalled s) None.

(** [forwardSignal]: the signals sent, as pairs of a process and a signal. *)
Definition forwardSignal (signal : string) (s : signal_state) : list (Z * string) :=
  match childPid s with Some pid => [(pid, signal)] | None => [] end.

(** [handleSignal]: the signals sent and the exit code. *)
Definition handleSignal (signal : string) (s : signal_state) : list (Z * string) * Z :=
  (forwardSignal signal s, signal_exit_code signal).

(** ** [executor.ts] *)

(** What spawning a program comes to: [spawn] throws, the child exits, or it emits ['error']. *)
Inductive spawn_outcome :=
| SpawnThrows (message : string)
| ChildExits (code : option Z) (signal : option string)
| ChildErrors (message : string).

Record ExecutionResult := mkExec { exitCode : Z; started : bool; exec_error : option string }.

(** [code ?? (signal ? 128 + (SIGNAL_NUMBERS[signal] || 1) : 1)] *)
Definition exit_code_of (code : option Z) (signal : option string) : Z :=
  match code with
  | Some c => c
  | None => if truthy signal then signal_exit_code (default "" signal) else 1
  end.

Definition execution_result (executable : string) (o : spawn_outcome) : ExecutionResult * list effect :=
  match o with
  | SpawnThrows m =>
      (mkExec 1 false (Some m), [Stderr ("[VGuardrail] Failed to spawn " +:+ executable +:+ ": " +:+ m +:+ newline)])
  | ChildExits code signal => (mkExec (exit_code_of code signal) true None, [])
  | ChildErrors m => (mkExec 1 false (Some m), [Stderr ("[VGuardrail] Process error: " +:+ m +:+ newline)])
  end.

(** [resolveInteractiveGuard] *)
Definition INTERACTIVE_GUARD_FLAG : string := "--interactive-guard".
Definition INTERACTIVE_GUARD_ENV : string := "VG_INTERACTIVE_GUARD".

Definition resolveInteractiveGuard (args : list string) (env : env_t) : bool * list string :=
  let stripped := strip INTERACTIVE_GUARD_FLAG args in
  (flag_present INTERACTIVE_GUARD_FLAG args || env_is_1 INTERACTIVE_GUARD_ENV env, stripped).

(** [options.timeoutMs || 30000] *)
Definition policy_timeout (timeoutMs : option Z) : Z :=
  match timeoutMs with Some t => if t =? 0 then 30000 else t | None => 30000 end.

(** ** [sdk/client.ts] *)

Section policy_client.
Context `{Zod} {T : Type} `{EventLoop T} (tr : Transport T) (timeoutMs : Z) (uuid : nat -> string) (jitter : nat -> Z).

Definition policy_scan (request : ScanRequest) : async (client T) Decision :=
  try_catch
    (response ← safeScan tr timeoutMs DEFAULT_RETRY uuid jitter request (Some Block);
     mret (decision response))
    (fun e =>
       match e with
       | ValidationError _ _ | VersionMismatchError _ => throw e
       | _ => throw (OtherError "Error" ("Policy evaluation failed: " +:+ error_message e))
       end).

Definition scanStrict (request : ScanRequest) : async (client T) Decision :=
  response ← scan tr timeoutMs DEFAULT_RETRY uuid jitter request; mret (decision response).

(** [now] is the reading of [Date.now()]. *)
Definition acknowledgeBypass (now : Z) (toolName : string) : async (client T) unit :=
  try_catch
    (_ ← acknowledgeWarning tr timeoutMs DEFAULT_RETRY jitter ("bypass:" +:+ toolName +:+ ":" +:+ show_Z now) true;
     mret tt)
    (fun _ => mret tt).

Definition isAvailable : async (client T) bool :=
  try_catch
    (s ← status tr timeoutMs DEFAULT_RETRY jitter; mret (engineServing s))
    (fun _ => mret false).

Definition policy_close : async (client T) unit := close tr.
End policy_client.

(** ** [connector.ts] *)

(** The connector's state: its policy client and what it has done. *)
Record cli (T : Type) := mkCli { policyClient : client T; effects : list effect }.
Arguments mkCli {T} _ _.
Arguments policyClient {T} _.
Arguments effects {T} _.

(** The world around one run. *)
Record world := mkWorld {
  w_env : env_t;
  w_isTTY : bool;
  w_now : Z;
  w_extract : list string -> result string ExtractionResult;       (* Err: the message thrown *)
  w_spawn : string -> list string -> option string -> spawn_outcome;
  w_confirm : Decision -> option bool;
  w_pty : list string -> result error Z
}.

Section connector.
Context `{Zod} {T : Type} `{EventLoop T} (tr : Transport T) (timeoutMs : Z) (uuid : nat -> string) (jitter : nat -> Z).
Context (w : world) (tool : ToolDefinition) (userContext : UserContext) (repoContext : option RepoContext).

Abbreviation cmd := (async (cli T)).

Definition emit (es : list effect) : cmd unit :=
  modify (fun s => mkCli (policyClient s) (effects s ++ es)).

Definition on_client {A} (m : async (client T) A) : cmd A := fun s =>
  let '(r, c) := m (policyClient s) in (r, mkCli c (effects s)).

(** A promise nobody awaits. *)
Definition fork {A} (m : cmd A) : cmd unit := fun s => (Settles 0 (Ok tt), (m s).2).

(** A promise whose rejection is inspected. *)
Definition outcome_of {A} (m : cmd A) : cmd (result error A) := fun s =>
  match m s with
  | (Settles t r, s') => (Settles t (Ok r), s')
  | (Hangs, s') => (Hangs, s')
  end.

Definition executeTool (executable : string) (args : list string) (stdinData : option string) : cmd ExecutionResult :=
  let '(r, out) := execution_result executable (w_spawn w executable args stdinData) in
  _ ← emit (Spawned executable args stdinData :: out);
  mret r.

Definition spawnReal (args : list string) (stdinData : option string) : cmd unit :=
  r ← executeTool (executablePath tool) args stdinData;
  emit [Exited (exitCode r)].

Definition showError (message : string) : cmd unit :=
  emit [Stderr (esc "[31m[VGuardrail] " +:+ message +:+ esc "[0m" +:+ newline)].

(** [extractContext] *)
Definition extractContext (args : list string) : ExtractionResult :=
  match w_extract w args with
  | Ok r => r
  | Err message => mkResult false None (Some message)
  end.

Definition evaluatePolicy (request : ScanRequest) : cmd Decision :=
  on_client (policy_scan tr timeoutMs uuid jitter request).

Definition runInteractiveGuard (args : list string) : cmd unit :=
  _ ← emit [PtyOpened (executablePath tool) args];
  match w_pty w args with
  | Ok code => emit [Exited code]
  | Err _ =>
      _ ← showError "Interactive guard could not start a protected session. For security, the session was not opened.";
      emit [Exited 1]
  end.

(** Steps 3 (the [catch]) to 5 of [run]: enforce what the policy evaluation said. *)
Definition act_on (verdict : result error Decision) (args : list string) (stdinData : option string) : cmd unit :=
  match verdict with
  | Err _ => _ ← showError "Security check unavailable. Cannot proceed."; emit [Exited 1]
  | Ok d =>
      let '(enforcementResult, out) := enforceDecision d (w_confirm w d) in
      _ ← emit (map Stderr out);
      if negb (shouldProceed enforcementResult) then emit [Exited 1]
      else spawnReal args stdinData
  end.

(** The steps of [run] after the flags have been stripped. *)
Definition run_guarded (guardRequested : bool) (args : list string) : cmd unit :=
  let r := extractContext args in
  if truthy (ex_error r) then
    _ ← showError ("Failed to extract prompt context (" +:+ default "" (ex_error r)
                   +:+ "). For security, the command cannot be executed.");
    emit [Exited 1]
  else if negb (found r) then
    match guardRequested, interactive tool with
    | true, Some _ => if w_isTTY w then runInteractiveGuard args else spawnReal args None
    | true, None =>
        _ ← emit [Stderr (esc "[33m[VGuardrail] interactive guard not available for " +:+ displayName tool
                    +:+ "; passing through unscanned." +:+ esc "[0m" +:+ newline)];
        spawnReal args None
    | false, _ => spawnReal args None
    end
  else
    match ex_context r with
    | None => spawnReal args None
    | Some context =>
        let scanRequest := buildScanRequest context tool userContext repoContext in
        verdict ← outcome_of (evaluatePolicy scanRequest);
        act_on verdict args (stdinData context)
    end.

Definition run (rawArgs : list string) : cmd unit :=
  let b := resolveBypass rawArgs (w_env w) in
  match bypass b, bypass_source b with
  | true, Some source =>
      _ ← emit (map Stderr (printBypassWarning (displayName tool) source));
      _ ← fork (on_client (acknowledgeBypass tr timeoutMs jitter (w_now w) (tool_name tool)));
      spawnReal (bypass_args b) None
  | _, _ =>
      let '(guardRequested, args) := resolveInteractiveGuard (bypass_args b) (w_env w) in
      run_guarded guardRequested args
  end.
End connector.

(** ** Specification *)

(** The real tool was started, directly or under the PTY guard. *)
Definition is_start (e : effect) : bool :=
  match e with Spawned _ _ _ | PtyOpened _ _ => true | _ => false end.
Definition starts (es : list effect) : list effect := List.filter is_start es.

(** The wrapper exits, and exits once. *)
Definition is_exit (e : effect) : bool := match e with Exited _ => true | _ => false end.
Definition exits (es : list effect) : list effect := List.filter is_exit es.

(** ** Lemmas *)

Lemma starts_app a b : starts (a ++ b) = starts a ++ starts b.
Proof. apply List.filter_app. Qed.

Lemma exits_app a b : exits (a ++ b) = exits a ++ exits b.
Proof. apply List.filter_app. Qed.

Lemma starts_stderr l : starts (map Stderr l) = [].
Proof. by induction l. Qed.

Lemma exits_stderr l : exits (map Stderr l) = [].
Proof. by induction l. Qed.

Lemma execution_result_out executable o :
  starts (execution_result executable o).2 = [] /\ exits (execution_result executable o).2 = [].
Proof. by destruct o. Qed.

Section connector_lemmas.
Context `{Zod} {T : Type} `{EventLoop T} (tr : Transport T) (timeoutMs : Z) (uuid : nat -> string) (jitter : nat -> Z).
Context (w : world) (tool : ToolDefinition) (userContext : UserContext) (repoContext : option RepoContext).

Local Abbreviation spawn' := (spawnReal (T := T) w tool).
Local Abbreviation guarded' := (run_guarded tr timeoutMs uuid jitter w tool userContext repoContext).
Local Abbreviation run' := (run tr timeoutMs uuid jitter w tool userContext repoContext).

(** [spawnReal] starts the tool with exactly these arguments, then exits with its code. *)
Lemma spawnReal_effects args stdin s :
  exists out,
    spawn' args stdin s = (Settles 0 (Ok tt), mkCli (policyClient s)
      (effects s ++ Spawned (executablePath tool) args stdin :: out
       ++ [Exited (exitCode (execution_result (executablePath tool) (w_spawn w (executablePath tool) args stdin)).1)]))
    /\ starts out = [] /\ exits out = [].
Proof.
  pose proof (execution_result_out (executablePath tool) (w_spawn w (executablePath tool) args stdin)) as Ho.
  unfold spawnReal, executeTool. destruct (execution_result _ _) as [r out]. exists out. split; [|done].
  unfold mbind, async_bind, emit, modify, mret, async_ret. simpl. do 2 f_equal. rewrite <- app_assoc. done.
Qed.

(** The trace a command adds. *)
Definition adds (m : async (cli T) unit) (s : cli T) (P : list effect -> Prop) : Prop :=
  exists t s' out, m s = (Settles t (Ok tt), s') /\ effects s' = effects s ++ out /\ P out.

Lemma adds_emit es s (P : list effect -> Prop) : P es -> adds (emit es) s P.
Proof. intros HP. eexists 0, _, es. split_and!; [reflexivity|done|done]. Qed.

Lemma adds_bind m k s (P Q : list effect -> Prop) :
  adds m s P -> (forall s', adds k s' (fun out' => forall out, P out -> Q (out ++ out'))) -> adds (_ ← m; k) s Q.
Proof.
  intros (t & s1 & o1 & E1 & H1 & HP) Hk. destruct (Hk s1) as (t2 & s2 & o2 & E2 & H2 & HQ).
  exists (t + t2), s2, (o1 ++ o2). split_and!.
  - unfold mbind, async_bind. by rewrite E1, E2.
  - by rewrite H2, H1, app_assoc.
  - by apply HQ.
Qed.

(** The exit code of the tool, when it is started so. *)
Definition tool_exit (args : list string) (stdin : option string) : Z :=
  exitCode (execution_result (executablePath tool) (w_spawn w (executablePath tool) args stdin)).1.

Lemma adds_spawn_exit args stdin s (P : list effect -> Prop) :
  (forall out, starts out = [Spawned (executablePath tool) args stdin] -> exits out = [Exited (tool_exit args stdin)] -> P out) ->
  adds (spawn' args stdin) s P.
Proof.
  intros HP. destruct (spawnReal_effects args stdin s) as (out & E & Hs & He).
  eexists 0, _, _. split_and!; [exact E|reflexivity|]. apply HP.
  - change (Spawned ?a ?b ?c :: ?l) with ([Spawned a b c] ++ l). by rewrite !starts_app, Hs.
  - change (Spawned ?a ?b ?c :: ?l) with ([Spawned a b c] ++ l). by rewrite !exits_app, He.
Qed.

Lemma adds_spawn args stdin s (P : list effect -> Prop) :
  (forall out code, starts out = [Spawned (executablePath tool) args stdin] -> exits out = [Exited code] -> P out) ->
  adds (spawn' args stdin) s P.
Proof. intros HP. apply adds_spawn_exit. eauto. Qed.

(** A refusal: an explanation and exit code 1. *)
Lemma adds_refuse message s (P : list effect -> Prop) :
  (forall out, starts out = [] -> exits out = [Exited 1] -> P out) ->
  adds (_ ← showError message; emit [Exited 1]) s P.
Proof.
  intros HP. eapply (adds_bind _ _ _ (fun out => starts out = [] /\ exits out = [])).
  - by apply adds_emit.
  - intros s'. apply adds_emit. intros out [H1 H2]. apply HP; [by rewrite starts_app, H1|by rewrite exits_app, H2].
Qed.

(** What the scan of a request says, in the state the connector is in. *)
Definition verdict (request : ScanRequest) (s : cli T) : reply Decision :=
  (policy_scan tr timeoutMs uuid jitter request (policyClient s)).1.

(** Where a decision of [policy_scan] comes from: the agent's reply, or the blocking fallback. *)
Lemma policy_scan_ok request c t d c' :
  policy_scan tr timeoutMs uuid jitter request c = (Settles t (Ok d), c') ->
  action d = Block \/
  exists s u r s', t_request tr Method.SubmitScan (encodeScanRequest request) s = (Settles u (Ok r), s') /\
    decodeDecision r = Some d.
Proof.
  unfold policy_scan, try_catch.
  destruct ((safeScan tr timeoutMs DEFAULT_RETRY uuid jitter request (Some Block) ≫= _) c) as [[t1 [d1|e]|] c1] eqn:E; [| |done].
  - unfold safeScan in E. intros [= -> -> ->]. apply bind_inv in E as (t2 & resp & s2 & t3 & E & E2 & _).
    unfold mret, async_ret in E2. simplify_eq.
    pose proof (safeSubmit_outcome tr timeoutMs DEFAULT_RETRY uuid jitter (encodeScanRequest request) (Some Block) c) as Ho.
    rewrite E in Ho. cbn [fst] in Ho. destruct Ho as [(_ & _ & s & u & r & s' & Hr & Hd)|(_ & Ha & _)]; [right|left; exact Ha].
    by exists s, u, r, s'.
  - destruct e; done.
Qed.

Lemma permitted_not_block d a : permitted d a -> action d <> Block.
Proof. unfold permitted. naive_solver congruence. Qed.

(** What the trace is after a verdict. *)
Definition enforced (v : result error Decision) (args : list string) (stdin : option string) (out : list effect) : Prop :=
  (starts out = [] /\ exits out = [Exited 1] /\ forall d, v = Ok d -> ~ permitted d (w_confirm w d)) \/
  (exists d, v = Ok d /\ permitted d (w_confirm w d) /\
     starts out = [Spawned (executablePath tool) args stdin] /\ exits out = [Exited (tool_exit args stdin)]).

Lemma act_on_enforced v args stdin s : adds (act_on w tool v args stdin) s (enforced v args stdin).
Proof.
  unfold act_on, enforced. destruct v as [d|e].
  - pose proof (enforce_permitted d (w_confirm w d)) as Hp.
    destruct (enforceDecision d (w_confirm w d)) as [enf out0]. cbn [fst] in Hp.
    eapply (adds_bind _ _ _ (fun out => out = map Stderr out0)); [by apply adds_emit|]. intros s'.
    destruct (shouldProceed enf); cbn [negb].
    + apply adds_spawn_exit. intros out Hs Hx ? ->. rewrite starts_app, exits_app, starts_stderr, exits_stderr, Hs, Hx.
      right. exists d. split_and!; [done|by apply Hp|done..].
    + apply adds_emit. intros ? ->. rewrite starts_app, exits_app, starts_stderr, exits_stderr.
      left. split_and!; [done..|]. intros d' [= <-] Hd. by apply Hp in Hd.
  - apply adds_refuse. intros out Hs Hx. rewrite Hs, Hx. left. split_and!; [done..|]. intros d' [=].
Qed.

(** The branch of [run_guarded] that scans. *)
Lemma run_scans guard args s r c :
  w_extract w args = Ok r -> truthy (ex_error r) = false -> found r = true -> ex_context r = Some c ->
  match verdict (buildScanRequest c tool userContext repoContext) s with
  | Hangs => (guarded' guard args s).1 = Hangs /\ effects (guarded' guard args s).2 = effects s
  | Settles _ v => adds (guarded' guard args) s (enforced v args (stdinData c))
  end.
Proof.
  intros He Herr Hf Hc.
  assert (guarded' guard args s =
    (outcome_of (evaluatePolicy tr timeoutMs uuid jitter (buildScanRequest c tool userContext repoContext)) ≫=
     fun v => act_on w tool v args (stdinData c)) s) as E.
  { unfold run_guarded, extractContext. by rewrite He, Herr, Hf, Hc. }
  unfold adds. rewrite E. clear E. unfold verdict, mbind, async_bind, outcome_of, evaluatePolicy, on_client.
  destruct (policy_scan tr timeoutMs uuid jitter _ (policyClient s)) as [[t v|] c1]; [|done]. cbn [fst].
  destruct (act_on_enforced v args (stdinData c) (mkCli c1 (effects s))) as (t2 & s2 & out & E & H1 & H2).
  rewrite E. by eexists _, s2, out.
Qed.

(** The other branches: nothing is scanned. *)
Lemma run_passes_through guard args s :
  truthy (ex_error (extractContext w args)) = false ->
  found (extractContext w args) = false \/ ex_context (extractContext w args) = None ->
  adds (guarded' guard args) s (fun out => exists code, exits out = [Exited code] /\
    (starts out = [Spawned (executablePath tool) args None] \/ starts out = [PtyOpened (executablePath tool) args])).
Proof.
  intros Herr Hf. unfold run_guarded. rewrite Herr.
  assert (forall s, adds (spawn' args None) s (fun out => exists code, exits out = [Exited code] /\
    (starts out = [Spawned (executablePath tool) args None] \/ starts out = [PtyOpened (executablePath tool) args]))) as Hsp
    by (intros; apply adds_spawn; eauto).
  destruct (found (extractContext w args)) eqn:Ef; cbn [negb].
  { destruct Hf as [|Hf]; [done|]. rewrite Hf. apply Hsp. }
  destruct guard; [destruct (interactive tool); [destruct (w_isTTY w)|]|]; try apply Hsp.
  - unfold runInteractiveGuard. eapply (adds_bind _ _ _ (fun out => out = [PtyOpened (executablePath tool) args])); [by apply adds_emit|].
    intros s'. destruct (w_pty w args) as [code|e].
    + apply adds_emit. intros ? ->. by eauto.
    + apply adds_refuse. intros out Hs Hx ? ->. rewrite starts_app, exits_app, Hs, Hx. by eauto.
  - eapply (adds_bind _ _ _ (fun out => starts out = [] /\ exits out = [])); [by apply adds_emit|].
    intros s'. apply adds_spawn. intros out code Hs Hx o1 [H1 H2]. rewrite starts_app, exits_app, Hs, Hx, H1, H2. eauto.
Qed.

Lemma run_not_bypassed rawArgs s :
  bypass (resolveBypass rawArgs (w_env w)) = false ->
  run' rawArgs s = guarded' (resolveInteractiveGuard (strip BYPASS_FLAG rawArgs) (w_env w)).1
                     (strip INTERACTIVE_GUARD_FLAG (strip BYPASS_FLAG rawArgs)) s.
Proof. intros Hb. unfold run. rewrite Hb, resolveBypass_args. done. Qed.

Lemma run_bypassed rawArgs s :
  bypass (resolveBypass rawArgs (w_env w)) = true ->
  adds (run' rawArgs) s (fun out => exists code, exits out = [Exited code] /\
    starts out = [Spawned (executablePath tool) (strip BYPASS_FLAG rawArgs) None]).
Proof.
  intros Hb. unfold run. pose proof (resolveBypass_source rawArgs (w_env w)) as Hs. rewrite Hb in Hs |- *.
  destruct (bypass_source _) as [src|]; [|done].
  eapply (adds_bind _ _ _ (fun out => starts out = [] /\ exits out = []));
    [apply adds_emit; by rewrite starts_stderr, exits_stderr|].
  intros s1. eapply (adds_bind _ _ _ (fun out => out = [])).
  - eexists 0, _, []. split_and!; [reflexivity| |done]. unfold on_client.
    destruct (acknowledgeBypass _ _ _ _ _ _) as [r c]. simpl. by rewrite app_nil_r.
  - intros s2. rewrite resolveBypass_args. apply adds_spawn. intros out code Ho Hx ? -> o1 [H1 H2].
    rewrite !starts_app, !exits_app, Ho, Hx, H1, H2. eauto.
Qed.

(** A run whose extractor found a prompt. *)
Lemma run_permission rawArgs s r c :
  let args := strip INTERACTIVE_GUARD_FLAG (strip BYPASS_FLAG rawArgs) in
  let request := buildScanRequest c tool userContext repoContext in
  bypass (resolveBypass rawArgs (w_env w)) = false ->
  w_extract w args = Ok r -> truthy (ex_error r) = false -> found r = true -> ex_context r = Some c ->
  exists out, effects (run' rawArgs s).2 = effects s ++ out /\
    match (run' rawArgs s).1 with
    | Hangs => out = [] /\ verdict request s = Hangs
    | Settles _ _ =>
        (starts out = [] /\ exits out = [Exited 1]) \/
        (starts out = [Spawned (executablePath tool) args (stdinData c)] /\
         exits out = [Exited (tool_exit args (stdinData c))] /\
         exists u t v u' d, t_request tr Method.SubmitScan (encodeScanRequest request) u = (Settles t (Ok v), u') /\
           decodeDecision v = Some d /\ permitted d (w_confirm w d))
    end.
Proof.
  intros args request Hb He Herr Hf Hc. rewrite run_not_bypassed by done. fold args.
  pose proof (run_scans (resolveInteractiveGuard (strip BYPASS_FLAG rawArgs) (w_env w)).1 args s r c He Herr Hf Hc) as Hs.
  fold request in Hs. unfold verdict in *.
  destruct (policy_scan tr timeoutMs uuid jitter request (policyClient s)) as [[t v|] c1] eqn:Ep; cbn [fst] in Hs.
  - destruct Hs as (t2 & s2 & out & E & H1 & H2). rewrite E. exists out. split; [done|]. cbn [fst].
    destruct H2 as [(Hst & Hx & _)|(d & -> & Hp & Hst & Hx)]; [by left|]. right. split_and!; [done..|].
    apply policy_scan_ok in Ep as [Ha|(u & t' & v & u' & Hr & Hd)]; [by apply permitted_not_block in Hp|].
    by exists u, t', v, u', d.
  - exists []. destruct Hs as [Hh He2]. rewrite Hh, He2, app_nil_r. done.
Qed.
End connector_lemmas.

(** ** Properties *)

Section properties.
Context `{Zod} {T : Type} `{EventLoop T} (tr : Transport T) (timeoutMs : Z) (uuid : nat -> string) (jitter : nat -> Z).
Context (w : world) (tool : ToolDefinition) (userContext : UserContext) (repoContext : option RepoContext).


(** An extractor that fails stops the command: when it throws, or reports an error, with a
    non-empty message, nothing is started, nothing is scanned, and the exit code is 1. *)
Theorem run_extraction_error_fails_closed rawArgs s :
  let args := strip INTERACTIVE_GUARD_FLAG (strip BYPASS_FLAG rawArgs) in
  bypass (resolveBypass rawArgs (w_env w)) = false ->
  truthy (ex_error (extractContext w args)) = true ->
  exists out, effects (run tr timeoutMs uuid jitter w tool userContext repoContext rawArgs s).2 = effects s ++ out /\
    starts out = [] /\ exits out = [Exited 1] /\
    policyClient (run tr timeoutMs uuid jitter w tool userContext repoContext rawArgs s).2 = policyClient s.
Proof.
  intros args Hb He. rewrite run_not_bypassed by done. fold args. unfold run_guarded. rewrite He.
  eexists. split_and!; [unfold mbind, async_bind, emit, modify, showError; simpl; by rewrite <- app_assoc|done..].
Qed.

(** The message decides: an extractor that throws an error with an empty message is taken for
    one that found no prompt, and the tool is started unscanned with the user's arguments. *)
Theorem run_empty_error_fails_open rawArgs s :
  let args := strip INTERACTIVE_GUARD_FLAG (strip BYPASS_FLAG rawArgs) in
  bypass (resolveBypass rawArgs (w_env w)) = false -> w_extract w args = Err "" -> interactive tool = None ->
  exists out, effects (run tr timeoutMs uuid jitter w tool userContext repoContext rawArgs s).2 = effects s ++ out /\
    starts out = [Spawned (executablePath tool) args None].
Proof.
  intros args Hb He Hi. rewrite run_not_bypassed by done. fold args.
  assert (extractContext w args = mkResult false None (Some "")) as Ex by (unfold extractContext; by rewrite He).
  unfold run_guarded. rewrite Ex. cbn [truthy ex_error is_empty negb found]. rewrite Hi.
  destruct (resolveInteractiveGuard (strip BYPASS_FLAG rawArgs) (w_env w)).1.
  - destruct (adds_bind (emit (T := T) [Stderr (esc "[33m[VGuardrail] interactive guard not available for " +:+ displayName tool
                    +:+ "; passing through unscanned." +:+ esc "[0m" +:+ newline)])
                (spawnReal w tool args None) s (fun out => starts out = [])
                (fun out => starts out = [Spawned (executablePath tool) args None])) as (t & s' & out & E & H1 & H2).
    + by apply adds_emit.
    + intros s'. apply adds_spawn. intros out code Hs _ o1 H1. by rewrite starts_app, H1, Hs.
    + rewrite E. by exists out.
  - destruct (adds_spawn w tool args None s (fun out => starts out = [Spawned (executablePath tool) args None]))
      as (t & s' & out & E & H1 & H2); [done|]. rewrite E. by exists out.
Qed.

(** The emergency bypass: it is active exactly when the flag is among the arguments or the
    variable is [1]; then the tool is started once without a scan, and the wrapper exits.  The
    bypass flag is never forwarded, but [--interactive-guard] is: on this path it is not
    stripped. *)
Theorem run_bypass rawArgs s :
  BYPASS_FLAG ∈ rawArgs \/ w_env w !! BYPASS_ENV_VAR = Some "1" ->
  exists out code, effects (run tr timeoutMs uuid jitter w tool userContext repoContext rawArgs s).2 = effects s ++ out /\
    exits out = [Exited code] /\
    starts out = [Spawned (executablePath tool) (strip BYPASS_FLAG rawArgs) None] /\
    BYPASS_FLAG ∉ strip BYPASS_FLAG rawArgs /\
    (INTERACTIVE_GUARD_FLAG ∈ rawArgs -> INTERACTIVE_GUARD_FLAG ∈ strip BYPASS_FLAG rawArgs).
Proof.
  intros Hb. apply resolveBypass_spec in Hb.
  destruct (run_bypassed tr timeoutMs uuid jitter w tool userContext repoContext rawArgs s Hb)
    as (t & s' & out & E & H1 & code & Hx & Hs).
  rewrite E. exists out, code. split_and!; [done..|apply strip_no_flag|].
  intros Hg. unfold strip. apply list_elem_of_filter. done.
Qed.
End properties.

(** ** Examples *)

Definition sample_tool : ToolDefinition := mkTool "ollama" "Ollama" "/usr/bin/ollama" (Some "ollama") None None.

(** A world in which the prompt is everything after the subcommand and every program exits with 0. *)
Definition sample_world (extract : list string -> result string ExtractionResult) : world :=
  mkWorld ∅ false 0 extract (fun _ _ _ => ChildExits (Some 0) None) (fun _ => None) (fun _ => Ok 0).

Definition run_prompt (args : list string) : result string ExtractionResult :=
  match args with
  | _ :: p :: _ => Ok (mkResult true (Some (mkExtraction p [] None)) None)
  | _ => Ok (mkResult false None None)
  end.

Definition sample_cli (s : MockState) : cli MockState := mkCli (fresh_client s) [].

(** Against an agent that allows everything, and against one that is not there. *)
Example run_allowed :
  effects (run MockTransport 2000 (fun _ => "u") (fun _ => 0) (sample_world run_prompt) sample_tool
    (mkUser "u" RoleUser []) None ["run"; "hello"; "--interactive-guard"] (sample_cli mock_allow)).2
  = [Spawned "/usr/bin/ollama" ["run"; "hello"] None; Exited 0].
Proof. vm_compute. reflexivity. Qed.

Example run_no_agent :
  starts (effects (run MockTransport 2000 (fun _ => "u") (fun _ => 0) (sample_world run_prompt) sample_tool
    (mkUser "u" RoleUser []) None ["run"; "hello"] (sample_cli (hang Method.SubmitScan mock_new))).2) = []
  /\ exits (effects (run MockTransport 2000 (fun _ => "u") (fun _ => 0) (sample_world run_prompt) sample_tool
    (mkUser "u" RoleUser []) None ["run"; "hello"] (sample_cli (hang Method.SubmitScan mock_new))).2) = [Exited 1].
Proof. vm_compute. split; reflexivity. Qed.

(** A helper that dies in the handshake of a process with nothing else to wait for: the tool is not
    started, and the wrapper ends without an exit code of its own. *)
Example run_drained :
  (run dying_transport 2000 (fun _ => "u") (fun _ => 0) (sample_world run_prompt) sample_tool
    (mkUser "u" RoleUser []) None ["run"; "hello"] (mkCli (mkClient None false 0 0) [])).1 = Hangs /\
  effects (run dying_transport 2000 (fun _ => "u") (fun _ => 0) (sample_world run_prompt) sample_tool
    (mkUser "u" RoleUser []) None ["run"; "hello"] (mkCli (mkClient None false 0 0) [])).2 = [].
Proof. vm_compute. done. Qed.


Lemma run_extraction_error_fails_closed_witness :
  exists out, effects (run MockTransport 2000 (fun _ => "u") (fun _ => 0) (sample_world (fun _ => Err "boom")) sample_tool
      (mkUser "u" RoleUser []) None ["run"; "hello"] (sample_cli mock_allow)).2 = [] ++ out /\
    starts out = [] /\ exits out = [Exited 1] /\
    policyClient (run MockTransport 2000 (fun _ => "u") (fun _ => 0) (sample_world (fun _ => Err "boom")) sample_tool
      (mkUser "u" RoleUser []) None ["run"; "hello"] (sample_cli mock_allow)).2 = fresh_client mock_allow.
Proof.
  apply (run_extraction_error_fails_closed MockTransport 2000 (fun _ => "u") (fun _ => 0) (sample_world (fun _ => Err "boom"))
           sample_tool (mkUser "u" RoleUser []) None ["run"; "hello"] (sample_cli mock_allow)); vm_compute; reflexivity.
Defined.

Lemma run_empty_error_fails_open_witness :
  exists out, effects (run MockTransport 2000 (fun _ => "u") (fun _ => 0) (sample_world (fun _ => Err "")) sample_tool
      (mkUser "u" RoleUser []) None ["run"; "secret"] (sample_cli mock_allow)).2 = [] ++ out /\
    starts out = [Spawned "/usr/bin/ollama" ["run"; "secret"] None].
Proof.
  apply (run_empty_error_fails_open MockTransport 2000 (fun _ => "u") (fun _ => 0) (sample_world (fun _ => Err ""))
           sample_tool (mkUser "u" RoleUser []) None ["run"; "secret"] (sample_cli mock_allow)); vm_compute; reflexivity.
Defined.

Lemma run_bypass_witness :
  exists out code, effects (run MockTransport 2000 (fun _ => "u") (fun _ => 0) (sample_world run_prompt) sample_tool
      (mkUser "u" RoleUser []) None ["--bypass"; "--interactive-guard"; "run"] (sample_cli mock_allow)).2 = [] ++ out /\
    exits out = [Exited code] /\
    starts out = [Spawned "/usr/bin/ollama" (strip BYPASS_FLAG ["--bypass"; "--interactive-guard"; "run"]) None] /\
    BYPASS_FLAG ∉ strip BYPASS_FLAG ["--bypass"; "--interactive-guard"; "run"] /\
    (INTERACTIVE_GUARD_FLAG ∈ ["--bypass"; "--interactive-guard"; "run"] ->
     INTERACTIVE_GUARD_FLAG ∈ strip BYPASS_FLAG ["--bypass"; "--interactive-guard"; "run"]).
Proof.
  apply (run_bypass MockTransport 2000 (fun _ => "u") (fun _ => 0) (sample_world run_prompt) sample_tool
           (mkUser "u" RoleUser []) None ["--bypass"; "--interactive-guard"; "run"] (sample_cli mock_allow)).
  left. left.
Defined.
