(* ===== verification/AckStore.v ===== *)
(** * Resubmit-to-acknowledge store: [cli-connectors/framework/src/util/ack-store.ts]

    The store file holds a JSON object from keys to times.  It is modelled by the value its text
    parses to, [None] when it is missing or not JSON.  Writing it may fail, which throws: whether it
    does is up to the disk, the class [AckDisk].  The key of a submission is the SHA-256 of
    the scope and the text; the hash function is a parameter, and the properties are stated on
    keys. *)

From S2P Require Import Prelude Json Resilience.

Definition ACK_WINDOW_MS : Z := 60000.

(** [ackKey] *)
Definition ackKey (sha256 : string -> string) (scope txt : string) : string :=
  sha256 (scope +:+ of_chars [chr 10] +:+ txt).

(** The content of the store file. *)
Abbreviation ack_file := (option json).

(** [load]: the entries of the file whose value is a number. *)
Definition load (f : ack_file) : list (string * num) :=
  match f with
  | Some (JObj o) =>
      fold_left (fun out kv => match kv.2 with JNum n => obj_set kv.1 n out | _ => out end) o []
  | _ => []
  end.

(** Whether [mkdirSync] or [writeFileSync] throws when the store file is written at a time: the error,
    and what the file holds afterwards. *)
Class AckDisk : Type := write_fails : Z -> ack_file -> option (error * ack_file).

(** The store file can always be written. *)
Definition writable `{AckDisk} : Prop := forall now f, write_fails now f = None.

(** The text [save] writes *)
Definition saved (data : list (string * num)) : ack_file := Some (JObj (map (fun kv => (kv.1, JNum kv.2)) data)).

(** [save] *)
Definition save `{AckDisk} (now : Z) (data : list (string * num)) (f : ack_file) : result error unit * ack_file :=
  match write_fails now f with Some (e, held) => (Err e, held) | None => (Ok tt, saved data) end.

(** [now - ts > ACK_WINDOW_MS] *)
Definition expired (now : Z) (ts : num) : bool := num_lt ts (now - ACK_WINDOW_MS).

(** The loop that deletes the expired entries. *)
Definition prune (now : Z) (store : list (string * num)) : list (string * num) :=
  fold_left (fun s kv => if expired now kv.2 then obj_del kv.1 s else s) store store.

(** [consumeOrRecordAck] *)
Definition consumeOrRecordAck `{AckDisk} (key : string) (now : Z) (f : ack_file) : result error bool * ack_file :=
  let store := prune now (load f) in
  let pending := match obj_get key store with Some _ => true | None => false end in
  let store := if pending then obj_del key store else obj_set key (NInt now) store in
  match save now store f with
  | (Ok _, f') => (Ok pending, f')
  | (Err e, f') => (Err e, f')
  end.

(** ** Specification *)

(** The pending acknowledgement of a key that is still valid at [now]. *)
Definition pending_ack (now : Z) (f : ack_file) (key : string) : option num :=
  match obj_get key (load f) with
  | Some ts => if expired now ts then None else Some ts
  | None => None
  end.

(** ** Lemmas *)

Lemma load_NoDup f : NoDup (obj_keys (load f)).
Proof.
  destruct f as [[| | | | |o]|]; simpl; try constructor.
  assert (forall out, NoDup (obj_keys out) -> NoDup (obj_keys
    (fold_left (fun out kv => match kv.2 with JNum n => obj_set kv.1 n out | _ => out end) o out))) as H.
  { induction o as [|[k v] o IH]; intros out Hout; simpl; [done|]. apply IH. destruct v; try done. by apply obj_set_NoDup. }
  apply H. constructor.
Qed.

(** Loading what was saved gives it back. *)
Lemma load_saved data : obj_canon data -> load (saved data) = data.
Proof.
  intros Hc. unfold load, saved.
  assert (forall out, fold_left (fun out kv => match kv.2 with JNum n => obj_set kv.1 n out | _ => out end)
            (map (fun kv : string * num => (kv.1, JNum kv.2)) data) out
          = fold_left (fun o kv => obj_set kv.1 kv.2 o) data out) as ->.
  { clear. induction data as [|[k v] data IH]; intros out; simpl; [done|]. by rewrite IH. }
  apply (obj_of_list_id _ Hc).
Qed.

Lemma load_canon f : obj_canon (load f).
Proof.
  assert (obj_canon (@nil (string * num))) as H0 by (split; constructor).
  destruct f as [[| | | | |o]|]; simpl; try done. revert H0. generalize (@nil (string * num)).
  induction o as [|[k v] o IH]; intros out Hout; simpl; [done|]. apply IH. destruct v; try done. by apply obj_set_canon.
Qed.

Lemma obj_del_canon {A} k (o : list (string * A)) : obj_canon o -> obj_canon (obj_del k o).
Proof.
  intros [Hnd Hs]. split; [by apply obj_keys_del|]. clear Hnd.
  induction o as [|[k' v] o IH]; simpl in *; [done|]. apply StronglySorted_inv in Hs as [Hs Hall].
  destruct (String.eqb k k'); [done|]. simpl. constructor; [auto|].
  clear -Hall. induction o as [|[k2 v2] o IH]; simpl in *; [done|]. apply Forall_cons in Hall as [H1 H2].
  destruct (String.eqb k k2); [done|]. simpl. constructor; auto.
Qed.

Lemma prune_spec now store :
  obj_canon store ->
  obj_canon (prune now store) /\
  forall k, obj_get k (prune now store) =
    match obj_get k store with Some ts => if expired now ts then None else Some ts | None => None end.
Proof.
  intros Hc. unfold prune. pose proof (proj1 Hc) as Hnd.
  assert (forall l (s : list (string * num)), NoDup (obj_keys l) -> obj_canon s ->
    let s' := fold_left (fun s kv => if expired now kv.2 then obj_del kv.1 s else s) l s in
    obj_canon s' /\ forall k, obj_get k s' =
      match obj_get k l with Some ts => if expired now ts then None else obj_get k s | None => obj_get k s end) as H.
  { clear. induction l as [|[k0 v0] l IH]; intros s Hl Hs; simpl; [done|].
    apply NoDup_cons in Hl as [Hni Hl].
    assert (obj_canon (if expired now v0 then obj_del k0 s else s)) as Hs' by (destruct (expired now v0); [by apply obj_del_canon|done]).
    destruct (IH _ Hl Hs') as [H1 H2]. split; [done|]. intros k. rewrite H2.
    destruct (String.eqb_spec k k0) as [->|Hk].
    - rewrite (proj2 (obj_get_None k0 l) Hni). destruct (expired now v0); [|done].
      rewrite obj_get_del by apply Hs. by rewrite String.eqb_refl.
    - assert (obj_get k (if expired now v0 then obj_del k0 s else s) = obj_get k s) as ->; [|done].
      destruct (expired now v0); [|done]. rewrite obj_get_del by apply Hs.
      apply String.eqb_neq in Hk. by rewrite Hk. }
  destruct (H store store Hnd Hc) as [H1 H2]. split; [done|]. intros k. rewrite H2. by destruct (obj_get k store).
Qed.

Section store.
Context `{AckDisk}.

(** A store that cannot be written throws, whatever was pending. *)
Lemma consume_fails key now f e held :
  write_fails now f = Some (e, held) -> consumeOrRecordAck key now f = (Err e, held).
Proof. intros E. unfold consumeOrRecordAck, save. by rewrite E. Qed.

Lemma consume_spec key now f :
  write_fails now f = None ->
  let '(x, f') := consumeOrRecordAck key now f in
  let r := match pending_ack now f key with Some _ => true | None => false end in
  x = Ok r /\
  forall k, obj_get k (load f') =
    if String.eqb k key then (if r then None else Some (NInt now)) else pending_ack now f k.
Proof.
  intros Hw. destruct (prune_spec now (load f) (load_canon f)) as [Hc Hg]. unfold consumeOrRecordAck, save, pending_ack. rewrite Hw.
  rewrite Hg. destruct (obj_get key (load f)) as [t|]; [destruct (expired now t)|]; (split; [done|]); intros k.
  2: { rewrite load_saved by (by apply obj_del_canon). rewrite obj_get_del by apply Hc.
       destruct (String.eqb k key); [done|]. apply Hg. }
  all: rewrite load_saved by (by apply obj_set_canon); rewrite obj_get_set by apply Hc; destruct (String.eqb k key); [done|]; apply Hg.
Qed.

(** A yes is only given for a pending entry. *)
Lemma consume_yes key now f : (consumeOrRecordAck key now f).1 = Ok true -> is_Some (pending_ack now f key).
Proof.
  destruct (write_fails now f) as [[e held]|] eqn:E; [by rewrite (consume_fails key now f e held E)|].
  pose proof (consume_spec key now f E) as Hc. destruct (consumeOrRecordAck key now f) as [x f']. destruct Hc as [-> _].
  by destruct (pending_ack now f key).
Qed.

(** What a round throws is what writing the file threw. *)
Definition store_error (e : error) : Prop := exists now f held, write_fails now f = Some (e, held).

Lemma consume_throws key now f e : (consumeOrRecordAck key now f).1 = Err e -> store_error e.
Proof.
  destruct (write_fails now f) as [[e' held]|] eqn:E; [rewrite (consume_fails key now f e' held E); intros [= <-]; by exists now, f, held|].
  pose proof (consume_spec key now f E) as Hc. destruct (consumeOrRecordAck key now f) as [x f']. by destruct Hc as [-> _].
Qed.

(** ** Properties *)

(** One round of the protocol with a store that can be written: the answer is yes exactly when a
    pending entry for this key, at most [ACK_WINDOW_MS] old, is in the store; the entry is consumed by
    a yes and created by a no; every other key keeps its entry if it is still valid and loses it
    otherwise. *)
Theorem ack_round key now f :
  write_fails now f = None ->
  let '(x, f') := consumeOrRecordAck key now f in
  exists r, x = Ok r /\ (r = true <-> is_Some (pending_ack now f key)) /\
    obj_get key (load f') = (if r then None else Some (NInt now)) /\
    (forall k, k <> key -> obj_get k (load f') = pending_ack now f k).
Proof.
  intros Hw. pose proof (consume_spec key now f Hw) as Hs. destruct (consumeOrRecordAck key now f) as [x f'].
  destruct Hs as [-> Hs]. eexists. split_and!; [reflexivity|..].
  - destruct (pending_ack now f key); split; [by eexists|done|done|by intros [? ?]].
  - rewrite Hs. by rewrite String.eqb_refl.
  - intros k Hk. rewrite Hs. apply String.eqb_neq in Hk. by rewrite Hk.
Qed.

End store.

(** The disk of the examples *)
#[export] Instance good_disk : AckDisk := fun _ _ => None.


(** Acknowledged within the window; and a disk that is full, where resubmitting never helps. *)
Example acknowledged_once :
  (consumeOrRecordAck "k" 61000 (consumeOrRecordAck "k" 1000 None).2).1 = Ok true /\
  (let full : AckDisk := fun _ f => Some (OtherError "Error" "ENOSPC", f) in
   consumeOrRecordAck "k" 61000 (saved [("k", NInt 1000)])) = (Err (OtherError "Error" "ENOSPC"), saved [("k", NInt 1000)]).
Proof. vm_compute. done. Qed.
