(* ===== verification/PtyGuard.v ===== *)
(** * The interactive guard: [process/line-reconstructor.ts] and [process/pty-session.ts]

    [LineReconstructor]: the shadow buffer of the line being typed, as a function on its four
    fields.  [runPtySession]: the handling of one slice of keyboard input, with the scan of every
    submitted line through the policy client and the acknowledgement store.  What the session
    writes to the child and to the terminal is a list of effects, newest last.

    Input bytes are 8-bit characters (the source reads them as ['binary']).  Not modelled: the
    creation of the pseudo-terminal, raw mode, resizing, and the forwarding of the child's output, which are in [CliProcess]. *)

From S2P Require Import Prelude Json Zod Enums Decision ScanRequest Resilience Framing Transport Client CliInput CliConnector AckStore.

(** ** [line-reconstructor.ts] *)

Definition ESC : Z := 27.
Definition BS : Z := 8.
Definition DEL : Z := 127.
Definition CTRL_U : Z := 21.
Definition CTRL_W : Z := 23.
Definition CR : Z := 13.
Definition LF : Z := 10.

Definition PASTE_START : chars := chr 27 :: to_chars "[200~".
Definition PASTE_END : chars := chr 27 :: to_chars "[201~".

Record SubmittedLine := mkLine { line_text : string; line_dirty : bool }.

Record recon := mkRecon {
  buffer : chars;
  dirty : bool;
  pasting : bool;
  rpending : chars
}.
Definition recon_init : recon := mkRecon [] false false [].

(** [text.startsWith(p, i)] on the rest of the text *)
Fixpoint is_prefix (p s : chars) : bool :=
  match p, s with
  | [], _ => true
  | c :: p', d :: s' => (code c =? code d) && is_prefix p' s'
  | _ :: _, [] => false
  end.

(** [text.indexOf(p, i)]: the text before the first occurrence and the text after it. *)
Fixpoint split_at (p s : chars) : option (chars * chars) :=
  if is_prefix p s then Some ([], drop (List.length p) s)
  else match s with
       | [] => None
       | c :: s' => match split_at p s' with Some (a, b) => Some (c :: a, b) | None => None end
       end.

(** The number of characters up to the final byte of a CSI sequence. *)
Fixpoint csi_end (s : chars) : option nat :=
  match s with
  | [] => None
  | c :: s' => if (64 <=? code c) && (code c <=? 126) then Some 1%nat else S <$> csi_end s'
  end.

(** [escapeSequenceEnd]: the length of the sequence at the head of the text, [None] when it is
    incomplete. *)
Definition escapeSequenceEnd (s : chars) : option nat :=
  match s with
  | _ :: second :: rest =>
      if Ascii.eqb second "["%char then (fun n => (2 + n)%nat) <$> csi_end rest
      else if Ascii.eqb second "O"%char then (match rest with [] => None | _ :: _ => Some 3%nat end)
      else Some 2%nat
  | _ => None
  end.

(** [this.buffer.replace(/\S+\s*$/, '')] *)
Definition drop_last_word (b : chars) : chars :=
  let fix drop_word (s : chars) := match s with c :: s' => if is_space c then s else drop_word s' | [] => [] end in
  match drop_spaces (rev b) with
  | [] => b
  | s => rev (drop_word s)
  end.

Definition set_buffer (b : chars) (r : recon) : recon := mkRecon b (dirty r) (pasting r) (rpending r).
Definition clear (r : recon) : recon := mkRecon [] false (pasting r) (rpending r).
Definition mark_dirty (r : recon) : recon := mkRecon (buffer r) true (pasting r) (rpending r).
Definition set_pasting (p : bool) (r : recon) : recon := mkRecon (buffer r) (dirty r) p (rpending r).

(** The [while] loop of [push] on the rest of the text; every turn consumes a character. *)
Fixpoint push_text (fuel : nat) (text : chars) (r : recon) (submitted : list SubmittedLine)
    : recon * list SubmittedLine :=
  match fuel, text with
  | O, _ | _, [] => (r, submitted)
  | S f, c :: rest =>
      if pasting r then
        match split_at PASTE_END text with
        | None => (set_buffer (buffer r ++ text) r, submitted)
        | Some (before, after) =>
            push_text f after (set_pasting false (set_buffer (buffer r ++ before) r)) submitted
        end
      else
        let n := code c in
        if n =? ESC then
          if is_prefix PASTE_START text then
            push_text f (drop (List.length PASTE_START) text) (set_pasting true r) submitted
          else
            match escapeSequenceEnd text with
            | None => (mkRecon (buffer r) (dirty r) (pasting r) text, submitted)
            | Some k => push_text f (drop k text) (mark_dirty r) submitted
            end
        else if (n =? CR) || (n =? LF) then
          let submitted := submitted ++ [mkLine (of_chars (buffer r)) (dirty r)] in
          let rest := match rest with
                      | d :: rest' => if (n =? CR) && (code d =? LF) then rest' else rest
                      | [] => rest
                      end in
          push_text f rest (clear r) submitted
        else if (n =? BS) || (n =? DEL) then push_text f rest (set_buffer (removelast (buffer r)) r) submitted
        else if n =? CTRL_U then push_text f rest (clear r) submitted
        else if n =? CTRL_W then push_text f rest (set_buffer (drop_last_word (buffer r)) r) submitted
        else if n <? 32 then
          push_text f rest (if n =? 3 then clear r else mark_dirty r) submitted
        else push_text f rest (set_buffer (buffer r ++ [c]) r) submitted
  end.

(** [push(chunk)] *)
Definition recon_push (chunk : chars) (r : recon) : recon * list SubmittedLine :=
  let text := rpending r ++ chunk in
  push_text (List.length text) text (mkRecon (buffer r) (dirty r) (pasting r) []) [].

(** ** [pty-session.ts] *)

Inductive pty_effect :=
| ChildWrite (b : chars)
| Out (s : string)
| Scanned (request : ScanRequest).

Definition DEFAULT_CLEAR_SEQUENCE : string := of_chars [chr 21].

Definition RED : string := esc "[31m".
Definition YELLOW : string := esc "[33m".
Definition BOLD : string := esc "[1m".
Definition RESET : string := esc "[0m".
Definition crlf : string := of_chars [chr 13; chr 10].

Definition banner (color message : string) : string :=
  crlf +:+ color +:+ BOLD +:+ "[VGuardrail]" +:+ RESET +:+ color +:+ " " +:+ message +:+ RESET +:+ crlf.

Record pty (T : Type) := mkPty {
  p_client : client T;
  p_recon : recon;
  p_acks : ack_file;
  p_effects : list pty_effect
}.
Arguments mkPty {T} _ _ _ _.
Arguments p_client {T} _.
Arguments p_recon {T} _.
Arguments p_acks {T} _.
Arguments p_effects {T} _.

(** [firstNewline]: the bytes before the first CR or LF, that byte, and the bytes after it. *)
Fixpoint split_newline (b : chars) : option (chars * ascii * chars) :=
  match b with
  | [] => None
  | c :: b' =>
      if (code c =? CR) || (code c =? LF) then Some ([], c, b')
      else match split_newline b' with Some (x, nl, y) => Some (c :: x, nl, y) | None => None end
  end.

(** [line.text.trim().length === 0 || line.text.startsWith('/')], or no line at all. *)
Definition nothing_to_scan (line : option SubmittedLine) : bool :=
  match line with
  | None => true
  | Some l => is_empty (js_trim (line_text l)) || starts_with "/" (line_text l)
  end.

Section session.
Context `{Zod} {T : Type} `{EventLoop T} (tr : Transport T) (timeoutMs : Z) (uuid : nat -> string) (jitter : nat -> Z).
Context {disk : AckDisk} (sha256 : string -> string) (now : Z).
Context (tool : ToolDefinition) (user : UserContext) (repo : option RepoContext).

Abbreviation session := (async (pty T)).

Definition clearSeq : string :=
  default DEFAULT_CLEAR_SEQUENCE (p ← interactive tool; clearInputSequence p).

Definition record (es : list pty_effect) : session unit :=
  modify (fun s => mkPty (p_client s) (p_recon s) (p_acks s) (p_effects s ++ es)).

Definition child_write (b : chars) : session unit := record [ChildWrite b].
Definition writeOut (s : string) : session unit := record [Out s].

Definition buildRequest (txt : string) : ScanRequest :=
  buildScanRequest (createExtractionContext txt None None) tool user repo.

(** [reconstructor.push] *)
Definition reconstruct (b : chars) : session (list SubmittedLine) := fun s =>
  let '(r, lines) := recon_push b (p_recon s) in
  (Settles 0 (Ok lines), mkPty (p_client s) r (p_acks s) (p_effects s)).

Definition on_policy {A} (m : async (client T) A) : session A := fun s =>
  let '(r, c) := m (p_client s) in (r, mkPty c (p_recon s) (p_acks s) (p_effects s)).

(** [consumeOrRecordAck(`pty:${tool.name}`, text)] on the store file *)
Definition acknowledge (txt : string) : session bool := fun s =>
  let '(b, f) := consumeOrRecordAck (ackKey sha256 ("pty:" +:+ tool_name tool) txt) now (p_acks s) in
  (Settles 0 b, mkPty (p_client s) (p_recon s) f (p_effects s)).

(** A promise whose rejection is inspected, and one nobody awaits. *)
Definition inspect {A} (m : session A) : session (result error A) := fun s =>
  match m s with (Settles t r, s') => (Settles t (Ok r), s') | (Hangs, s') => (Hangs, s') end.
Definition detach {A} (m : session A) : session unit := fun s => (Settles 0 (Ok tt), (m s).2).

(** [gateLine] *)
Definition gateLine (txt : string) : session bool :=
  _ ← record [Scanned (buildRequest txt)];
  verdict ← inspect (on_policy (policy_scan tr timeoutMs uuid jitter (buildRequest txt)));
  match verdict with
  | Err _ => _ ← writeOut (banner RED "security check unavailable — line blocked (fail-closed)"); mret false
  | Ok d =>
      match action d with
      | Allow => mret true
      | Block => _ ← writeOut (banner RED ("BLOCKED: " +:+ reason d)); mret false
      | Warn =>
          match warnTier (Some (riskLevel d)) with
          | TierBlock => _ ← writeOut (banner RED ("BLOCKED (high risk, no override): " +:+ reason d)); mret false
          | TierNotice => _ ← writeOut (banner YELLOW ("warning: " +:+ reason d)); mret true
          | TierPrompt =>
              acknowledged ← acknowledge txt;
              if (acknowledged : bool) then
                _ ← writeOut (banner YELLOW ("acknowledged: " +:+ reason d));
                _ ← detach (on_policy (acknowledgeBypass tr timeoutMs jitter now ("warn:" +:+ tool_name tool)));
                mret true
              else
                _ ← writeOut (banner YELLOW ("medium risk: " +:+ reason d +:+ " — resubmit the same line within 60s to proceed"));
                mret false
          end
      end
  end.

(** What [processSlice] does at a newline, after the bytes before it. *)
Definition on_newline (nl : ascii) : session unit :=
  submitted ← reconstruct [nl];
  let line := head submitted in
  if nothing_to_scan line then child_write [chr 13]
  else
    proceed ← gateLine (match line with Some l => line_text l | None => "" end);
    child_write (if (proceed : bool) then [chr 13] else to_chars clearSeq).

(** Forward bytes that contain no newline. *)
Definition forward (b : chars) : session unit :=
  match b with [] => mret tt | _ => _ ← reconstruct b; child_write b end.

(** The [for] loop of [processSlice]; every turn consumes a byte. *)
Fixpoint process_loop (fuel : nat) (rest : chars) : session unit :=
  match fuel with
  | O => mret tt
  | S f =>
      match split_newline rest with
      | None => forward rest
      | Some (before, nl, rest') =>
          _ ← forward before;
          _ ← on_newline nl;
          process_loop f rest'
      end
  end.

Definition processSlice (chunk : chars) : session unit := process_loop (S (List.length chunk)) chunk.

(** [drain]: the queued chunks, in order. *)
Fixpoint drain (slices : list chars) : session unit :=
  match slices with [] => mret tt | b :: bs => _ ← processSlice b; drain bs end.
End session.

(** ** Specification *)

Definition is_newline (c : ascii) : bool := (code c =? CR) || (code c =? LF).

(** A byte the reconstructor takes as typed text. *)
Definition printable (c : ascii) : Prop := 32 <= code c /\ code c <> DEL.

(** Whether the verdict lets a line through; [acked] is the answer of the acknowledgement store, or
    what it threw, which only matters to a medium-risk warning. *)
Definition gate_ok (v : result error Decision) (acked : result error bool) : result error bool :=
  match v with
  | Err _ => Ok false
  | Ok d =>
      match action d with
      | Allow => Ok true
      | Block => Ok false
      | Warn => match riskLevel d with Low => Ok true | Medium => acked | _ => Ok false end
      end
  end.

Definition is_scan (e : pty_effect) : bool := match e with Scanned _ => true | _ => false end.
Definition is_enter (e : pty_effect) : bool := match e with ChildWrite [c] => code c =? CR | _ => false end.
Definition is_write (e : pty_effect) : bool := match e with ChildWrite _ => true | _ => false end.

(** An output line that is neither a write to the child nor a scan. *)
Definition quiet (e : pty_effect) : Prop := is_write e = false /\ is_scan e = false.

(** The specification of a session: from the state of the reconstructor and the bytes typed to what
    goes to the child, and the state left, [None] when the processing does not come to the end of the
    input.  Bytes without a newline go to the child as they are.  At a newline the reconstructor says
    what line was submitted.  If there is none, or nothing in it to scan, a carriage return goes to the
    child.  Otherwise the line is scanned, and the child gets the carriage return exactly when the gate
    lets it through, and else the clear sequence.  A scan that never settles, or a store of
    acknowledgements that cannot be written, is the end of it, and the child gets neither. *)
Section spec.
Context `{Zod} {T : Type} `{EventLoop T} (tr : Transport T) (timeoutMs : Z) (uuid : nat -> string) (jitter : nat -> Z).
Context {disk : AckDisk} (sha256 : string -> string).
Context (tool : ToolDefinition) (user : UserContext) (repo : option RepoContext).

(** The gate comes to [ok] for a line: what the scan of it said, with the store's answer. *)
Definition gate_says (txt : string) (ok : result error bool) : Prop :=
  exists c t v c' now f,
    policy_scan tr timeoutMs uuid jitter (buildRequest tool user repo txt) c = (Settles t v, c') /\
    ok = gate_ok v (consumeOrRecordAck (ackKey sha256 ("pty:" +:+ tool_name tool) txt) now f).1.

Definition scan_hangs (txt : string) : Prop :=
  exists c, (policy_scan tr timeoutMs uuid jitter (buildRequest tool user repo txt) c).1 = Hangs.

Inductive gated : recon -> chars -> list pty_effect -> option recon -> Prop :=
| gated_end r : gated r [] [] (Some r)
| gated_bytes r b r1 lines input out r2 :
    b <> [] -> Forall (fun c => is_newline c = false) b -> recon_push b r = (r1, lines) ->
    gated r1 input out r2 -> gated r (b ++ input) (ChildWrite b :: out) r2
| gated_unscanned r nl r1 lines input out r2 :
    is_newline nl = true -> recon_push [nl] r = (r1, lines) -> nothing_to_scan (head lines) = true ->
    gated r1 input out r2 -> gated r (nl :: input) (ChildWrite [chr 13] :: out) r2
| gated_scanned r nl r1 line lines ok outs input out r2 :
    is_newline nl = true -> recon_push [nl] r = (r1, line :: lines) -> nothing_to_scan (Some line) = false ->
    gate_says (line_text line) (Ok ok) -> Forall quiet outs ->
    gated r1 input out r2 ->
    gated r (nl :: input)
      (Scanned (buildRequest tool user repo (line_text line)) :: outs
       ++ ChildWrite (if (ok : bool) then [chr 13] else to_chars (clearSeq tool)) :: out) r2
| gated_cut r nl r1 line lines input :
    is_newline nl = true -> recon_push [nl] r = (r1, line :: lines) -> nothing_to_scan (Some line) = false ->
    scan_hangs (line_text line) \/ (exists e, gate_says (line_text line) (Err e)) ->
    gated r (nl :: input) [Scanned (buildRequest tool user repo (line_text line))] None.
End spec.

(** The reconstructor after a computation, if it has come to its end. *)
Definition ended {T} (x : reply unit * pty T) : option recon :=
  match x.1 with Settles _ (Ok _) => Some (p_recon x.2) | _ => None end.

(** The session went from [s] to [s'] by adding effects that all satisfy [Q]. *)
Definition extends {T} (Q : pty_effect -> Prop) (s s' : pty T) : Prop :=
  exists out, p_effects s' = p_effects s ++ out /\ Forall Q out.

(** ** The reconstructor *)

Lemma printable_code c : printable c ->
  (code c =? ESC) = false /\ (code c =? CR) = false /\ (code c =? LF) = false /\ (code c =? BS) = false /\
  (code c =? DEL) = false /\ (code c =? CTRL_U) = false /\ (code c =? CTRL_W) = false /\ (code c <? 32) = false.
Proof. unfold printable, ESC, CR, LF, BS, DEL, CTRL_U, CTRL_W. intros [H1 H2]. split_and!; try apply Z.eqb_neq; try apply Z.ltb_ge; lia. Qed.

Lemma push_text_printable f text r sub :
  Forall printable text -> pasting r = false -> (List.length text <= f)%nat ->
  push_text f text r sub = (set_buffer (buffer r ++ text) r, sub).
Proof.
  intros Ht. revert f r. induction Ht as [|c text Hc _ IH]; intros f r Hp Hf.
  - rewrite app_nil_r. destruct f; simpl; by destruct r.
  - simpl in Hf. destruct f as [|f]; [lia|]. cbn [push_text]. rewrite Hp.
    apply printable_code in Hc as (-> & -> & -> & -> & -> & -> & -> & ->). cbn [orb].
    rewrite IH by (done || lia). unfold set_buffer. simpl. by rewrite <- app_assoc.
Qed.

Lemma recon_push_printable text r :
  Forall printable text -> pasting r = false -> rpending r = [] ->
  recon_push text r = (set_buffer (buffer r ++ text) r, []).
Proof.
  intros Ht Hp Hr. unfold recon_push. rewrite Hr. cbn [Datatypes.app]. rewrite push_text_printable by done.
  unfold set_buffer. simpl. by rewrite Hr.
Qed.

Lemma recon_push_newline nl r :
  is_newline nl = true -> pasting r = false -> rpending r = [] ->
  recon_push [nl] r = (recon_init, [mkLine (of_chars (buffer r)) (dirty r)]).
Proof.
  intros Hn Hp Hr. unfold recon_push. rewrite Hr. cbn [Datatypes.app List.length push_text pasting]. rewrite Hp.
  unfold is_newline in Hn. rewrite Hn.
  assert ((code nl =? ESC) = false) as ->; [|done].
  apply orb_true_iff in Hn. apply Z.eqb_neq. unfold ESC, CR, LF in *. destruct Hn as [Hn|Hn]; apply Z.eqb_eq in Hn; lia.
Qed.

(** Inside a paste whose end marker is not in the chunk, nothing is ever submitted. *)
Lemma recon_push_pasting chunk r :
  pasting r = true -> rpending r = [] -> split_at PASTE_END chunk = None ->
  recon_push chunk r = (set_buffer (buffer r ++ chunk) r, []).
Proof.
  intros Hp Hr Hs. unfold recon_push. rewrite Hr. cbn [Datatypes.app].
  destruct chunk as [|c chunk]; [rewrite app_nil_r; destruct r; simpl in *; by subst|].
  cbn [List.length push_text pasting]. rewrite Hp, Hs. unfold set_buffer. simpl. by rewrite Hp, Hr.
Qed.

Lemma is_prefix_app p a b : is_prefix p a = true -> is_prefix p (a ++ b) = true.
Proof.
  revert a. induction p as [|c p IH]; intros [|d a]; simpl; try done.
  intros H. apply andb_true_iff in H as [-> H]. simpl. auto.
Qed.

Lemma split_at_app_None p a b : split_at p (a ++ b) = None -> split_at p a = None /\ split_at p b = None.
Proof.
  induction a as [|c a IH]; cbn [Datatypes.app split_at].
  - intros Hb. split; [|done]. destruct b as [|d b]; cbn [split_at] in Hb; destruct p as [|x p]; simpl in *; try done.
  - destruct (is_prefix p (c :: a ++ b)) eqn:E; [done|].
    destruct (split_at p (a ++ b)) as [[x y]|]; [done|]. intros _. destruct (IH eq_refl) as [H1 H2]. split; [|done].
    destruct (is_prefix p (c :: a)) eqn:E2; [apply (is_prefix_app p (c :: a) b) in E2; simpl in *; congruence|].
    by rewrite H1.
Qed.

Lemma split_newline_spec b :
  match split_newline b with
  | Some (x, nl, y) => b = x ++ nl :: y /\ is_newline nl = true /\ Forall (fun c => is_newline c = false) x
  | None => Forall (fun c => is_newline c = false) b
  end.
Proof.
  induction b as [|c b IH]; cbn [split_newline]; [constructor|].
  destruct ((code c =? CR) || (code c =? LF)) eqn:E; [by split_and!|].
  destruct (split_newline b) as [[[x nl] y]|].
  - destruct IH as (-> & H1 & H2). split_and!; [done|done|by constructor].
  - by constructor.
Qed.

Lemma split_newline_printable text nl rest :
  Forall printable text -> is_newline nl = true -> split_newline (text ++ nl :: rest) = Some (text, nl, rest).
Proof.
  intros Ht Hn. induction Ht as [|c text Hc _ IH]; cbn [Datatypes.app split_newline].
  - unfold is_newline in Hn. by rewrite Hn.
  - apply printable_code in Hc as (_ & -> & -> & _). cbn [orb]. by rewrite IH.
Qed.

Section session_lemmas.
Context `{Zod} {T : Type} `{EventLoop T} (tr : Transport T) (timeoutMs : Z) (uuid : nat -> string) (jitter : nat -> Z).
Context {disk : AckDisk} (sha256 : string -> string) (now : Z).
Context (tool : ToolDefinition) (user : UserContext) (repo : option RepoContext).

Local Abbreviation gate' := (gateLine tr timeoutMs uuid jitter sha256 now tool user repo).
Local Abbreviation newline' := (on_newline tr timeoutMs uuid jitter sha256 now tool user repo).
Local Abbreviation loop' := (process_loop tr timeoutMs uuid jitter sha256 now tool user repo).
Local Abbreviation slice' := (processSlice tr timeoutMs uuid jitter sha256 now tool user repo).
Local Abbreviation drain' := (drain tr timeoutMs uuid jitter sha256 now tool user repo).

Lemma extends_refl Q (s : pty T) : extends Q s s.
Proof. exists []. by rewrite app_nil_r. Qed.

Lemma extends_trans Q (a b c : pty T) : extends Q a b -> extends Q b c -> extends Q a c.
Proof.
  intros (o1 & H1 & Q1) (o2 & H2 & Q2). exists (o1 ++ o2). rewrite H2, H1, app_assoc. split; [done|].
  by apply Forall_app.
Qed.

Lemma extends_same Q (s s' : pty T) : p_effects s' = p_effects s -> extends Q s s'.
Proof. intros E. exists []. by rewrite app_nil_r. Qed.

Lemma extends_record Q es (s : pty T) : Forall Q es -> extends Q s (record es s).2.
Proof. intros HQ. by exists es. Qed.

Lemma extends_bind {A B} Q (m : async (pty T) A) (k : A -> async (pty T) B) s :
  extends Q s (m s).2 -> (forall a s', extends Q s' (k a s').2) -> extends Q s ((m ≫= k) s).2.
Proof. intros. apply bind_keeps; [apply extends_trans|done|done]. Qed.

Lemma gate_no_writes txt s : extends (fun e => is_write e = false) s (gate' txt s).2.
Proof.
  unfold gateLine. apply extends_bind; [apply extends_record; by repeat constructor|]. intros _ s1.
  apply extends_bind.
  { unfold inspect, on_policy. destruct (policy_scan _ _ _ _ _ _) as [[t r|] c]; by apply extends_same. }
  intros v s2. destruct v as [d|e].
  - assert (forall str b s', extends (fun e => is_write e = false) s' ((_ ← writeOut (T := T) str; mret (b : bool)) s').2) as Hout
      by (intros; apply extends_bind; [apply extends_record; by repeat constructor|intros; apply extends_refl]).
    destruct (action d); [apply extends_refl| |apply Hout].
    destruct (warnTier (Some (riskLevel d))); [apply Hout| |apply Hout].
    apply extends_bind.
    { unfold acknowledge. destruct (consumeOrRecordAck _ _ _). by apply extends_same. }
    intros [] s3; [|apply Hout].
    apply extends_bind; [apply extends_record; by repeat constructor|]. intros _ s4.
    apply extends_bind; [|intros; apply extends_refl].
    unfold detach, on_policy. destruct (acknowledgeBypass _ _ _ _ _ _) as [r c]. by apply extends_same.
  - apply extends_bind; [apply extends_record; by repeat constructor|intros; apply extends_refl].
Qed.

Lemma reconstruct_same b (s : pty T) : p_effects (reconstruct b s).2 = p_effects s.
Proof. unfold reconstruct. by destruct (recon_push b (p_recon s)). Qed.

(** The only writes to the child: bytes without a newline, the accepted Enter, the clear sequence. *)
Definition write_ok (e : pty_effect) : Prop :=
  match e with
  | ChildWrite b => Forall (fun c => is_newline c = false) b \/ b = [chr 13] \/ b = to_chars (clearSeq tool)
  | _ => True
  end.

Lemma on_newline_ok nl s : extends write_ok s (newline' nl s).2.
Proof.
  unfold on_newline. apply extends_bind; [apply extends_same, reconstruct_same|]. intros lines s1.
  destruct (nothing_to_scan (head lines)); [apply extends_record, Forall_singleton; simpl; auto|].
  apply extends_bind.
  - destruct (gate_no_writes (match head lines with Some l => line_text l | None => "" end) s1) as (out & E & Hout).
    exists out. split; [done|]. eapply Forall_impl; [exact Hout|]. by intros [].
  - intros ok s2. apply extends_record, Forall_singleton. simpl. destruct ok; auto.
Qed.

Lemma forward_ok b s : Forall (fun c => is_newline c = false) b -> extends write_ok s (forward (T := T) b s).2.
Proof.
  intros Hb. unfold forward. destruct b as [|c b]; [apply extends_refl|].
  apply extends_bind; [apply extends_same, reconstruct_same|]. intros _ s1.
  apply extends_record, Forall_singleton. by left.
Qed.

Lemma loop_ok f b s : extends write_ok s (loop' f b s).2.
Proof.
  revert b s. induction f as [|f IH]; intros b s; cbn [process_loop]; [apply extends_refl|].
  pose proof (split_newline_spec b) as Hb. destruct (split_newline b) as [[[x nl] y]|]; [|by apply forward_ok].
  destruct Hb as (_ & _ & Hx). apply extends_bind; [by apply forward_ok|]. intros _ s1.
  apply extends_bind; [apply on_newline_ok|]. intros _ s2. apply IH.
Qed.

Lemma drain_ok bs s : extends write_ok s (drain' bs s).2.
Proof.
  revert s. induction bs as [|b bs IH]; intros s; cbn [drain]; [apply extends_refl|].
  apply extends_bind; [apply loop_ok|]. intros _ s1. apply IH.
Qed.

(** [gateLine] scans the line once and answers as the verdict and the acknowledgement store say. *)
Lemma gate_spec txt s t v c :
  policy_scan tr timeoutMs uuid jitter (buildRequest tool user repo txt) (p_client s) = (Settles t v, c) ->
  let ok := gate_ok v (consumeOrRecordAck (ackKey sha256 ("pty:" +:+ tool_name tool) txt) now (p_acks s)).1 in
  exists t' s' outs,
    gate' txt s = (Settles t' ok, s') /\
    p_effects s' = p_effects s ++ Scanned (buildRequest tool user repo txt) :: outs /\
    Forall quiet outs /\ p_recon s' = p_recon s /\ (forall e, ok = Err e -> outs = []).
Proof.
  intros E. unfold gateLine. unfold mbind, async_bind. cbn [record modify]. unfold inspect, on_policy. cbn [p_client]. rewrite E.
  unfold writeOut, record, modify, mret, async_ret, acknowledge. cbn [p_acks p_client p_recon p_effects].
  assert (forall es o, (p_effects s ++ es) ++ [Out o] = p_effects s ++ es ++ [Out o]) as Ha by (intros; by rewrite <- app_assoc).
  destruct v as [d|e]; cbn [gate_ok].
  - destruct (action d).
    + do 3 eexists. split_and!; [reflexivity|reflexivity|constructor|done|done].
    + destruct (riskLevel d); cbn [warnTier].
      * do 3 eexists. split_and!; [reflexivity|cbn; by rewrite Ha|by repeat constructor|done|done].
      * destruct (consumeOrRecordAck _ _ _) as [[[]|e] f]; cbn [fst].
        -- unfold detach, on_policy. cbn [p_client]. destruct (acknowledgeBypass _ _ _ _ _ _) as [r c'].
           do 3 eexists. split_and!; [reflexivity|cbn; by rewrite Ha|by repeat constructor|done|done].
        -- do 3 eexists. split_and!; [reflexivity|cbn; by rewrite Ha|by repeat constructor|done|done].
        -- do 3 eexists. split_and!; [reflexivity|reflexivity|constructor|done|done].
      * do 3 eexists. split_and!; [reflexivity|cbn; by rewrite Ha|by repeat constructor|done|done].
      * do 3 eexists. split_and!; [reflexivity|cbn; by rewrite Ha|by repeat constructor|done|done].
    + do 3 eexists. split_and!; [reflexivity|cbn; by rewrite Ha|by repeat constructor|done|done].
  - do 3 eexists. split_and!; [reflexivity|cbn; by rewrite Ha|by repeat constructor|done|done].
Qed.

Lemma gate_hangs txt s c :
  policy_scan tr timeoutMs uuid jitter (buildRequest tool user repo txt) (p_client s) = (Hangs, c) ->
  exists s', gate' txt s = (Hangs, s') /\ p_effects s' = p_effects s ++ [Scanned (buildRequest tool user repo txt)].
Proof.
  intros E. unfold gateLine, mbind, async_bind. cbn [record modify]. unfold inspect, on_policy. cbn [p_client]. rewrite E.
  by eexists.
Qed.

(** *** The session meets its specification *)

Local Abbreviation gated' := (gated tr timeoutMs uuid jitter sha256 tool user repo).

Lemma gated_app r i1 o1 r1 i2 o2 r2 : gated' r i1 o1 (Some r1) -> gated' r1 i2 o2 r2 -> gated' r (i1 ++ i2) (o1 ++ o2) r2.
Proof.
  intros H1 H2. remember (Some r1) as x eqn:Ex. induction H1; simplify_eq; cbn [Datatypes.app].
  - done.
  - rewrite <- app_assoc. econstructor; eauto.
  - eapply gated_unscanned; eauto.
  - rewrite <- app_assoc. cbn [Datatypes.app]. eapply gated_scanned; eauto.
Qed.

Lemma gated_cut_app r i1 o1 i2 : gated' r i1 o1 None -> gated' r (i1 ++ i2) o1 None.
Proof.
  intros H1. remember None as x eqn:Ex. induction H1; simplify_eq; cbn [Datatypes.app].
  - rewrite <- app_assoc. econstructor; eauto.
  - eapply gated_unscanned; eauto.
  - eapply gated_scanned; eauto.
  - eapply gated_cut; eauto.
Qed.

(** What a part of the session does to the bytes [b]. *)
Definition meets (m : async (pty T) unit) (b : chars) (s : pty T) : Prop :=
  exists out, p_effects (m s).2 = p_effects s ++ out /\ gated' (p_recon s) b out (ended (m s)).

Lemma meets_bind m k b b' s :
  meets m b s -> (forall s', meets k b' s') -> meets (_ ← m; k) (b ++ b') s.
Proof.
  unfold meets, ended, mbind, async_bind. intros (o1 & E1 & G1) Hk. destruct (m s) as [[t [[]|e]|] s1]; cbn in *.
  - destruct (Hk s1) as (o2 & E2 & G2). destruct (k s1) as [x s2]. exists (o1 ++ o2). cbn in *.
    split; [by rewrite E2, E1, app_assoc|]. eapply gated_app; [exact G1|]. destruct x as [? []|]; exact G2.
  - exists o1. split; [done|]. by apply gated_cut_app.
  - exists o1. split; [done|]. by apply gated_cut_app.
Qed.

Lemma forward_meets b s : Forall (fun c => is_newline c = false) b -> meets (forward (T := T) b) b s.
Proof.
  intros Hb. unfold meets, forward. destruct b as [|c b]; [exists []; rewrite app_nil_r; split; [done|constructor]|].
  unfold mbind, async_bind, reconstruct. destruct (recon_push (c :: b) (p_recon s)) as [r lines] eqn:E.
  exists [ChildWrite (c :: b)]. split; [done|]. cbn. rewrite <- (app_nil_r (c :: b)) at 1.
  eapply gated_bytes; [done|done|exact E|constructor].
Qed.

Lemma on_newline_meets nl s : is_newline nl = true -> meets (newline' nl) [nl] s.
Proof.
  intros Hn. unfold meets, on_newline, mbind, async_bind, reconstruct.
  destruct (recon_push [nl] (p_recon s)) as [r lines] eqn:E.
  destruct (nothing_to_scan (head lines)) eqn:Es.
  { exists [ChildWrite [chr 13]]. split; [done|]. eapply gated_unscanned; [done|exact E|done|constructor]. }
  destruct lines as [|line lines]; [done|]. cbn [head] in *. set (s1 := mkPty (p_client s) r (p_acks s) (p_effects s)).
  destruct (policy_scan tr timeoutMs uuid jitter (buildRequest tool user repo (line_text line)) (p_client s1)) as [[t v|] c] eqn:Ep.
  - destruct (gate_spec (line_text line) s1 t v c Ep) as (t' & s' & outs & Eg & He & Hq & Hr & Hc).
    set (ok := gate_ok v _) in *. rewrite Eg.
    assert (gate_says tr timeoutMs uuid jitter sha256 tool user repo (line_text line) ok) as Hs by (by exists (p_client s1), t, v, c, now, (p_acks s1)).
    destruct ok as [ok|e].
    + eexists. split; [cbn; rewrite He; unfold s1; cbn; by rewrite <- app_assoc|]. unfold ended. cbn. rewrite Hr.
      eapply gated_scanned; [done|exact E|done|exact Hs|done|constructor].
    + rewrite (Hc e eq_refl) in He. eexists. split; [exact He|]. unfold ended. cbn.
      eapply gated_cut; [done|exact E|done|right; by exists e].
  - destruct (gate_hangs (line_text line) s1 c Ep) as (s' & Eg & He). rewrite Eg. eexists. split; [exact He|]. unfold ended. cbn.
    eapply gated_cut; [done|exact E|done|left]. exists (p_client s1). by rewrite Ep.
Qed.

Lemma loop_meets f b s : (List.length b < f)%nat -> meets (loop' f b) b s.
Proof.
  revert b s. induction f as [|f IH]; intros b s Hf; [lia|]. cbn [process_loop].
  pose proof (split_newline_spec b) as Hb. destruct (split_newline b) as [[[x nl] y]|]; [|by apply forward_meets].
  destruct Hb as (-> & Hn & Hx). rewrite length_app in Hf. simpl in Hf.
  change (nl :: y) with ([nl] ++ y). apply meets_bind; [by apply forward_meets|]. intros s1.
  apply meets_bind; [by apply on_newline_meets|]. intros s2. apply IH. lia.
Qed.

Lemma slice_meets b s : meets (slice' b) b s.
Proof. apply loop_meets. lia. Qed.

(** A newline for which the reconstructor yields no line goes to the child unscanned. *)
Lemma on_newline_unsubmitted nl s r :
  recon_push [nl] (p_recon s) = (r, []) ->
  newline' nl s = (Settles 0 (Ok tt), mkPty (p_client s) r (p_acks s) (p_effects s ++ [ChildWrite [chr 13]])).
Proof. intros E. unfold on_newline, mbind, async_bind, reconstruct. rewrite E. reflexivity. Qed.

Lemma forward_cons c b s r :
  recon_push (c :: b) (p_recon s) = (r, []) ->
  forward (T := T) (c :: b) s = (Settles 0 (Ok tt), mkPty (p_client s) r (p_acks s) (p_effects s ++ [ChildWrite (c :: b)])).
Proof. intros E. unfold forward, mbind, async_bind, reconstruct. rewrite E. reflexivity. Qed.

(** In a paste whose end marker does not come, from [s] to [s']: nothing is scanned, and as many
    Enters reach the child as there are newlines in [b]. *)
Definition unguarded (b : chars) (s s' : pty T) : Prop :=
  pasting (p_recon s') = true /\ rpending (p_recon s') = [] /\
  exists out, p_effects s' = p_effects s ++ out /\ Forall (fun e => is_scan e = false) out /\
    List.length (List.filter is_enter out) = List.length (List.filter is_newline b).

Lemma unguarded_app b1 b2 s s1 s2 : unguarded b1 s s1 -> unguarded b2 s1 s2 -> unguarded (b1 ++ b2) s s2.
Proof.
  intros (_ & _ & o1 & E1 & Q1 & L1) (Hp & Hr & o2 & E2 & Q2 & L2). split_and!; [done..|].
  exists (o1 ++ o2). rewrite E2, E1, app_assoc. split_and!; [done|by apply Forall_app|].
  by rewrite !List.filter_app, !length_app, L1, L2.
Qed.

Lemma filter_no_newline b : Forall (fun c => is_newline c = false) b -> List.filter is_newline b = [].
Proof. induction 1 as [|c b Hc _ IH]; simpl; [done|]. by rewrite Hc. Qed.

Lemma forward_pasting b s :
  pasting (p_recon s) = true -> rpending (p_recon s) = [] -> split_at PASTE_END b = None ->
  Forall (fun c => is_newline c = false) b ->
  exists s', forward (T := T) b s = (Settles 0 (Ok tt), s') /\ unguarded b s s'.
Proof.
  intros Hp Hr Hs Hb. destruct b as [|c b].
  - exists s. split; [done|]. split_and!; [done..|]. exists []. by rewrite app_nil_r.
  - eexists. split; [apply forward_cons, recon_push_pasting; done|]. split_and!; [done..|].
    exists [ChildWrite (c :: b)]. split_and!; [done|by repeat constructor|].
    rewrite (filter_no_newline _ Hb). apply Forall_cons in Hb as [Hc _].
    assert (is_enter (ChildWrite (c :: b)) = false) as Hi; [|simpl; simpl in Hi; by rewrite Hi].
    simpl. destruct b; [|done]. unfold is_newline in Hc. by apply orb_false_iff in Hc as [-> _].
Qed.

Lemma on_newline_pasting nl s :
  pasting (p_recon s) = true -> rpending (p_recon s) = [] -> split_at PASTE_END [nl] = None -> is_newline nl = true ->
  exists s', newline' nl s = (Settles 0 (Ok tt), s') /\ unguarded [nl] s s'.
Proof.
  intros Hp Hr Hs Hn. eexists. split; [apply on_newline_unsubmitted, recon_push_pasting; done|].
  split_and!; [done..|]. exists [ChildWrite [chr 13]]. split_and!; [done|by repeat constructor|].
  simpl. by rewrite Hn.
Qed.

Lemma loop_pasting f b s :
  pasting (p_recon s) = true -> rpending (p_recon s) = [] -> split_at PASTE_END b = None -> (List.length b < f)%nat ->
  exists s', loop' f b s = (Settles 0 (Ok tt), s') /\ unguarded b s s'.
Proof.
  revert b s. induction f as [|f IH]; intros b s Hp Hr Hs Hf; [lia|]. cbn [process_loop].
  pose proof (split_newline_spec b) as Hb. destruct (split_newline b) as [[[x nl] y]|]; [|by apply forward_pasting].
  destruct Hb as (-> & Hn & Hx). apply split_at_app_None in Hs as [Hs1 Hs2].
  change (nl :: y) with ([nl] ++ y) in Hs2. apply split_at_app_None in Hs2 as [Hs2 Hs3].
  destruct (forward_pasting x s Hp Hr Hs1 Hx) as (s1 & E1 & U1).
  destruct (on_newline_pasting nl s1 (proj1 U1) (proj1 (proj2 U1)) Hs2 Hn) as (s2 & E2 & U2).
  rewrite length_app in Hf. simpl in Hf.
  destruct (IH y s2 (proj1 U2) (proj1 (proj2 U2)) Hs3 ltac:(lia)) as (s3 & E3 & U3).
  exists s3. split; [unfold mbind, async_bind; by rewrite E1, E2, E3|].
  change (x ++ nl :: y) with (x ++ [nl] ++ y). eauto using unguarded_app.
Qed.

Lemma drain_pasting bs s :
  pasting (p_recon s) = true -> rpending (p_recon s) = [] -> Forall (fun b => split_at PASTE_END b = None) bs ->
  exists s', drain' bs s = (Settles 0 (Ok tt), s') /\ unguarded (List.concat bs) s s'.
Proof.
  intros Hp Hr Hbs. revert s Hp Hr. induction Hbs as [|b bs Hb _ IH]; intros s Hp Hr; cbn [drain].
  - exists s. split; [done|]. split_and!; [done..|]. exists []. by rewrite app_nil_r.
  - destruct (loop_pasting (S (List.length b)) b s Hp Hr Hb ltac:(lia)) as (s1 & E1 & U1).
    destruct (IH s1 (proj1 U1) (proj1 (proj2 U1))) as (s2 & E2 & U2).
    exists s2. split; [unfold mbind, async_bind, processSlice; by rewrite E1, E2|]. cbn [List.concat]. eauto using unguarded_app.
Qed.
End session_lemmas.

(** ** Properties *)

Section properties.
Context `{Zod} {T : Type} `{EventLoop T} (tr : Transport T) (timeoutMs : Z) (uuid : nat -> string) (jitter : nat -> Z).
Context {disk : AckDisk} (sha256 : string -> string) (now : Z).
Context (tool : ToolDefinition) (user : UserContext) (repo : option RepoContext).

(** What is written to the child: whatever is typed, in whatever slices, the bytes forwarded as they
    come contain no newline; the others are the carriage return and the clear sequence. *)
Theorem pty_enter_only_through_gate bs s :
  exists out, p_effects (drain tr timeoutMs uuid jitter sha256 now tool user repo bs s).2 = p_effects s ++ out /\
    forall b, ChildWrite b ∈ out ->
      Forall (fun c => is_newline c = false) b \/ b = [chr 13] \/ b = to_chars (clearSeq tool).
Proof.
  destruct (drain_ok tr timeoutMs uuid jitter sha256 now tool user repo bs s) as (out & E & Hout).
  exists out. split; [done|]. intros b Hb. rewrite Forall_forall in Hout. apply (Hout _ Hb).
Qed.


(** A paste whose end marker is split over two reads turns the guard off: the reconstructor only
    looks for the marker inside one chunk, so after it was missed every later Enter reaches the
    child and nothing is scanned, until some chunk happens to hold a whole end marker. *)
Theorem pty_split_paste_end_disables bs s :
  pasting (p_recon s) = true -> rpending (p_recon s) = [] ->
  Forall (fun b => split_at PASTE_END b = None) bs ->
  exists out, p_effects (drain tr timeoutMs uuid jitter sha256 now tool user repo bs s).2 = p_effects s ++ out /\
    Forall (fun e => is_scan e = false) out /\
    List.length (List.filter is_enter out) = List.length (List.filter is_newline (List.concat bs)).
Proof.
  intros Hp Hr Hbs. destruct (drain_pasting tr timeoutMs uuid jitter sha256 now tool user repo bs s Hp Hr Hbs)
    as (s' & E & _ & _ & out & H1 & H2 & H3). rewrite E. by exists out.
Qed.

(** Escape before Enter skips the scan: the reconstructor takes the two bytes for an alt-key, so no
    line is submitted, whatever is in the buffer, and the carriage return goes to the child. *)
Theorem pty_escape_enter_unscanned s :
  pasting (p_recon s) = false -> rpending (p_recon s) = [] ->
  p_effects (processSlice tr timeoutMs uuid jitter sha256 now tool user repo [chr 27; chr 13] s).2
  = p_effects s ++ [ChildWrite [chr 27]; ChildWrite [chr 13]].
Proof.
  intros Hp Hr. unfold processSlice. change (S (List.length [chr 27; chr 13])) with 3%nat. cbn [process_loop].
  change (split_newline [chr 27; chr 13]) with (Some ([chr 27], chr 13, @nil ascii)). cbv iota beta.
  assert (recon_push [chr 27] (p_recon s) = (mkRecon (buffer (p_recon s)) (dirty (p_recon s)) false [chr 27], [])) as E1.
  { unfold recon_push. rewrite Hr, Hp. reflexivity. }
  unfold mbind, async_bind. rewrite (forward_cons _ _ _ _ E1).
  rewrite (on_newline_unsubmitted _ _ _ _ _ _ _ _ _ _ _ (mkRecon (buffer (p_recon s)) true false [])) by reflexivity.
  cbn. by rewrite <- app_assoc.
Qed.
End properties.

(** ** Examples *)

Definition sample_pty (s : MockState) : pty MockState := mkPty (fresh_client s) recon_init None [].
Abbreviation sample_drain :=
  (drain MockTransport 2000 (fun _ => "u") (fun _ => 0) (fun s => s) 1000 sample_tool (mkUser "u" RoleUser []) None).
Abbreviation sample_slice :=
  (processSlice MockTransport 2000 (fun _ => "u") (fun _ => 0) (fun s => s) 1000 sample_tool (mkUser "u" RoleUser []) None).
Abbreviation sample_buildRequest := (buildRequest sample_tool (mkUser "u" RoleUser []) None).

(** A line typed in two reads, with a backspace. *)
Example pty_types_hello :
  p_effects (sample_drain [to_chars "helo" ++ [chr 127]; to_chars "lo" ++ [chr 13]] (sample_pty mock_allow)).2 =
  [ChildWrite (to_chars "helo" ++ [chr 127]); ChildWrite (to_chars "lo");
   Scanned (sample_buildRequest "hello"); ChildWrite [chr 13]].
Proof. vm_compute. reflexivity. Qed.

(** The session after a paste whose end marker came in two reads. *)
Definition after_split_paste : pty MockState :=
  (sample_drain [PASTE_START ++ to_chars "pasted" ++ firstn 3 PASTE_END; skipn 3 PASTE_END] (sample_pty mock_allow)).2.


Lemma pty_split_paste_end_disables_witness :
  exists out, p_effects (sample_drain [to_chars "my password" ++ [chr 13]] after_split_paste).2 = p_effects after_split_paste ++ out /\
    Forall (fun e => is_scan e = false) out /\
    List.length (List.filter is_enter out) = List.length (List.filter is_newline (List.concat [to_chars "my password" ++ [chr 13]])).
Proof.
  apply (pty_split_paste_end_disables MockTransport 2000 (fun _ => "u") (fun _ => 0) (fun s => s) 1000 sample_tool
           (mkUser "u" RoleUser []) None [to_chars "my password" ++ [chr 13]] after_split_paste).
  - vm_compute. reflexivity.
  - vm_compute. reflexivity.
  - repeat constructor; vm_compute; reflexivity.
Defined.

Lemma pty_escape_enter_unscanned_witness :
  p_effects (sample_slice [chr 27; chr 13] (sample_drain [to_chars "my password"] (sample_pty mock_allow)).2).2
  = p_effects (sample_drain [to_chars "my password"] (sample_pty mock_allow)).2 ++ [ChildWrite [chr 27]; ChildWrite [chr 13]].
Proof.
  apply (pty_escape_enter_unscanned MockTransport 2000 (fun _ => "u") (fun _ => 0) (fun s => s) 1000 sample_tool
           (mkUser "u" RoleUser []) None (sample_drain [to_chars "my password"] (sample_pty mock_allow)).2);
    vm_compute; reflexivity.
Defined.
