(* ===== verification/NativeHost.v ===== *)
(** * The native messaging host: [browser-connectors/chrome/native-host/src]

    [protocol.ts], [handlers.ts], [identity.ts] and [host.ts]; [framing.ts] is the [chrome] dialect
    of [Framing].  The host reads framed requests on stdin, drives a [ScanClient] and writes framed
    replies on stdout.  [runHost] is a state machine whose events are the callbacks of the streams
    and the settling of the handlers; a handler settles with any outcome [handleRequest] can have
    on some state of the client.

    A request's [context] is the JSON value the extension sent: the host casts it without a check,
    so the fields it copies into the scan request are arbitrary JSON values. *)

From S2P Require Import Prelude Json JsonText Zod Enums Decision ScanRequest AuditEvent Resilience Framing Transport Client.

(** ** [protocol.ts] *)

Inductive HostRequest :=
| ReqScan (id text : string) (context : json)
| ReqAck (id eventId : string) (accepted : bool)
| ReqStatus (id : string).

Inductive HostResponse :=
| RespScan (id : string) (decision : Decision)
| RespAck (id : string) (accepted : bool)
| RespStatus (id : string) (status : AgentStatus)
| RespError (id code message : string).

Definition request_id (r : HostRequest) : string :=
  match r with ReqScan id _ _ | ReqAck id _ _ | ReqStatus id => id end.
Definition response_id (r : HostResponse) : string :=
  match r with RespScan id _ | RespAck id _ | RespStatus id _ | RespError id _ _ => id end.

(** [{ id, invalid: true }] is [Err id]. *)
Definition parseRequest (value : json) : result (option string) HostRequest :=
  match value with
  | JNull | JBool _ | JNum _ | JStr _ => Err None
  | JArr _ | JObj _ =>
      match json_get "id" value with
      | Some (JStr id) =>
          if is_empty id then Err None
          else
            let p := json_get "payload" value in
            match json_get "type" value with
            | Some (JStr t) =>
                if String.eqb t "scan" then
                  match p ≫= json_get "text" with
                  | Some (JStr text) =>
                      let context :=
                        match p ≫= json_get "context" with
                        | Some (JObj o) => JObj o
                        | Some (JArr l) => JArr l
                        | _ => JObj []
                        end in
                      Ok (ReqScan id text context)
                  | _ => Err (Some id)
                  end
                else if String.eqb t "ack" then
                  match p ≫= json_get "eventId", p ≫= json_get "accepted" with
                  | Some (JStr eventId), Some (JBool accepted) => Ok (ReqAck id eventId accepted)
                  | _, _ => Err (Some id)
                  end
                else if String.eqb t "status" then Ok (ReqStatus id)
                else Err (Some id)
            | _ => Err (Some id)
            end
      | _ => Err None
      end
  end.

(** The JSON of the values the host sends: [JSON.stringify] of the domain objects of the SDK,
    properties in the order [decodeDecision] creates them, absent ones left out. *)
Definition finding_json (f : Finding) : json :=
  JObj
    [("detectorId", JStr (detectorId f)); ("category", enc_enum (f_category f)); ("kind", JStr (kind f));
     ("spanStart", JNum (spanStart f)); ("spanEnd", JNum (spanEnd f)); ("confidence", JNum (confidence f));
     ("severity", enc_enum (f_severity f)); ("redactedPreview", JStr (redactedPreview f));
     ("meta", JObj (map (fun kv => (kv.1, JStr kv.2)) (meta f)))].

Definition suppression_json (s : Suppression) : json :=
  JObj [("ruleId", JStr (ruleId s)); ("exceptionId", JStr (exceptionId s))].

Definition decision_json (d : Decision) : json :=
  JObj (compact
    [("requestId", Some (JStr (requestId d)));
     ("action", Some (enc_enum (action d)));
     ("riskLevel", Some (enc_enum (riskLevel d)));
     ("classification", Some (enc_enum (classification d)));
     ("findings", Some (JArr (map finding_json (findings d))));
     ("suppressions", Some (JArr (map suppression_json (suppressions d))));
     ("reason", Some (JStr (reason d)));
     ("policyVersion", Some (JNum (policyVersion d)));
     ("elapsedMicros", Some (JNum (elapsedMicros d)));
     ("incomplete", Some (JBool (incomplete d)));
     ("category", enc_enum <$> category d);
     ("matchedRuleId", JStr <$> matchedRuleId d);
     ("severity", enc_enum <$> severity d)]).

Definition status_json (s : AgentStatus) : json :=
  JObj (compact
    [("engineServing", Some (JBool (engineServing s)));
     ("activePolicyVersion", Some (JNum (activePolicyVersion s)));
     ("queuedEvents", Some (JNum (queuedEvents s)));
     ("engineConnected", Some (JBool (engineConnected s)));
     ("agentVersion", Some (JStr (agentVersion s)));
     ("lastUploadOutcome", JStr <$> lastUploadOutcome s)]).

Definition error_reply (id code message : string) : json :=
  JObj [("id", JStr id); ("ok", JBool false); ("error", JObj [("code", JStr code); ("message", JStr message)])].

Definition response_json (r : HostResponse) : json :=
  match r with
  | RespScan id d => JObj [("id", JStr id); ("ok", JBool true); ("type", JStr "scan"); ("decision", decision_json d)]
  | RespAck id a => JObj [("id", JStr id); ("ok", JBool true); ("type", JStr "ack"); ("accepted", JBool a)]
  | RespStatus id s => JObj [("id", JStr id); ("ok", JBool true); ("type", JStr "status"); ("status", status_json s)]
  | RespError id code message => error_reply id code message
  end.

(** ** [identity.ts] *)

Definition ConnectorIdentity : Type := UserContext.

Definition VALID_ROLES : list string := map role_wire role_members.

(** [userInfo]: the user name, or [None] when [os.userInfo] throws. *)
Definition fallbackIdentity (userInfo : option string) : ConnectorIdentity :=
  mkUser (or_else userInfo "unknown-user") RoleUser [].

(** [file]: the text of the configuration file, [None] when it cannot be read. *)
Definition loadIdentity `{JsonCodec} (userInfo : option string) (file : option chars) : ConnectorIdentity :=
  match file with
  | None => fallbackIdentity userInfo
  | Some raw =>
      match parse raw with
      | None | Some JNull => fallbackIdentity userInfo
      | Some parsed =>
          let fallback := fallbackIdentity userInfo in
          let userId :=
            match json_get "userId" parsed with
            | Some (JStr s) => if is_empty s then userId fallback else s
            | _ => userId fallback
            end in
          let role :=
            match json_get "role" parsed with
            | Some (JStr s) => default RoleUser (of_wire s)
            | _ => RoleUser
            end in
          let groups :=
            match json_get "groups" parsed with
            | Some (JArr l) => omap as_str l
            | _ => []
            end in
          mkUser userId role groups
      end
  end.

(** ** [handlers.ts] *)

(** The object literal of [handleScan]; its [source] is always ['browser']. *)
Record HostScanRequest := mkHostScan {
  hs_text : string;
  hs_provider : option json;
  hs_model : option json;
  hs_app : json;
  hs_user : UserContext
}.

(** The interface [ScanClient]. *)
Record ScanClient (C : Type) := mkScanClient {
  sc_safeScan : HostScanRequest -> option Action -> async C Decision;
  sc_acknowledgeWarning : string -> bool -> async C bool;
  sc_status : async C AgentStatus
}.
Arguments mkScanClient {C} _ _ _.
Arguments sc_safeScan {C} _ _ _.
Arguments sc_acknowledgeWarning {C} _ _ _.
Arguments sc_status {C} _.

(** [context.app ?? 'chrome'] *)
Definition app_or_chrome (a : option json) : json :=
  match a with None | Some JNull => JStr "chrome" | Some v => v end.

Definition scan_request_of (identity : ConnectorIdentity) (text : string) (context : json) : HostScanRequest :=
  mkHostScan text (json_get "provider" context) (json_get "model" context)
    (app_or_chrome (json_get "app" context)) identity.

Section handlers.
Context {C : Type} (client : ScanClient C) (identity : ConnectorIdentity).

(** [uuid] is the [randomUUID] of the catch block. *)
Definition handleScan (uuid id text : string) (context : json) : async C HostResponse :=
  try_catch
    (d ← sc_safeScan client (scan_request_of identity text context) (Some Block);
     mret (RespScan id d))
    (fun _ => mret (RespScan id (syntheticDecision uuid Block "connector error; fail-closed block" None None))).

Definition handleAck (id eventId : string) (accepted : bool) : async C HostResponse :=
  try_catch
    (a ← sc_acknowledgeWarning client eventId accepted; mret (RespAck id a))
    (fun _ => mret (RespError id "ACK_FAILED" "acknowledge failed")).

Definition handleStatus (id : string) : async C HostResponse :=
  try_catch
    (s ← sc_status client; mret (RespStatus id s))
    (fun _ => mret (RespError id "STATUS_FAILED" "status unavailable")).

Definition handleRequest (uuid : string) (req : HostRequest) : async C HostResponse :=
  match req with
  | ReqScan id text context => handleScan uuid id text context
  | ReqAck id eventId accepted => handleAck id eventId accepted
  | ReqStatus id => handleStatus id
  end.
End handlers.

(** *** The SDK's client as the host's client

    What [encodeScanRequest] makes of the host's request: it copies the fields as they are. *)
Definition host_wire (r : HostScanRequest) : json :=
  JObj
    [("text", JStr (hs_text r));
     ("context", JObj (compact
        [("source", Some (enc_enum SrcBrowser));
         ("provider", hs_provider r);
         ("model", hs_model r);
         ("app", Some (hs_app r));
         ("repo", None);
         ("file", None);
         ("user", Some (encodeUser (hs_user r)))]))].

Definition sdk_client `{Zod} {T} `{EventLoop T} (tr : Transport T) (timeoutMs : Z) (retry : ResolvedRetry)
    (uuid : nat -> string) (jitter : nat -> Z) : ScanClient (client T) :=
  mkScanClient
    (fun r fallback => resp ← safeSubmit tr timeoutMs retry uuid jitter (host_wire r) fallback; mret (decision resp))
    (acknowledgeWarning tr timeoutMs retry jitter)
    (status tr timeoutMs retry jitter).

(** ** [host.ts] *)

(** The local variables of [runHost].  [running] and [accepted] name the handlers in flight by their
    number, [sent] logs the values enqueued and the handler each answers; the rest is the code's own state. *)
Record host := mkHost {
  h_buffer : chars;                        (* decoder *)
  h_ended : bool;
  h_inFlight : Z;
  h_running : gmap nat HostRequest;
  h_accepted : list HostRequest;           (* the requests handled so far; n is the n-th *)
  h_chain : list chars;                    (* writeChain: the frames enqueued, oldest first *)
  h_sent : list (option nat * json);
  h_written : nat;                         (* frames whose write has completed *)
  h_finished : bool;
  h_awaits : nat;                          (* the length of writeChain when finished was set *)
  h_closed : bool;                         (* client.close() called *)
  h_resolved : bool;
  h_crashed : bool                         (* an exception left a stream callback *)
}.

Definition host_init : host := mkHost [] false 0 ∅ [] [] [] 0 false 0 false false false.

Definition set_buffer b h := mkHost b (h_ended h) (h_inFlight h) (h_running h) (h_accepted h) (h_chain h) (h_sent h) (h_written h) (h_finished h) (h_awaits h) (h_closed h) (h_resolved h) (h_crashed h).
Definition set_ended h := mkHost (h_buffer h) true (h_inFlight h) (h_running h) (h_accepted h) (h_chain h) (h_sent h) (h_written h) (h_finished h) (h_awaits h) (h_closed h) (h_resolved h) (h_crashed h).
Definition set_flight k r n h := mkHost (h_buffer h) (h_ended h) k r n (h_chain h) (h_sent h) (h_written h) (h_finished h) (h_awaits h) (h_closed h) (h_resolved h) (h_crashed h).
Definition set_chain c s h := mkHost (h_buffer h) (h_ended h) (h_inFlight h) (h_running h) (h_accepted h) c s (h_written h) (h_finished h) (h_awaits h) (h_closed h) (h_resolved h) (h_crashed h).
Definition set_written w h := mkHost (h_buffer h) (h_ended h) (h_inFlight h) (h_running h) (h_accepted h) (h_chain h) (h_sent h) w (h_finished h) (h_awaits h) (h_closed h) (h_resolved h) (h_crashed h).
Definition set_finished h := mkHost (h_buffer h) (h_ended h) (h_inFlight h) (h_running h) (h_accepted h) (h_chain h) (h_sent h) (h_written h) true (List.length (h_chain h)) (h_closed h) (h_resolved h) (h_crashed h).
Definition set_closed h := mkHost (h_buffer h) (h_ended h) (h_inFlight h) (h_running h) (h_accepted h) (h_chain h) (h_sent h) (h_written h) (h_finished h) (h_awaits h) true (h_resolved h) (h_crashed h).
Definition set_resolved h := mkHost (h_buffer h) (h_ended h) (h_inFlight h) (h_running h) (h_accepted h) (h_chain h) (h_sent h) (h_written h) (h_finished h) (h_awaits h) (h_closed h) true (h_crashed h).
Definition set_crashed h := mkHost (h_buffer h) (h_ended h) (h_inFlight h) (h_running h) (h_accepted h) (h_chain h) (h_sent h) (h_written h) (h_finished h) (h_awaits h) (h_closed h) (h_resolved h) true.

Section host.
Context `{JsonCodec}.

(** [enqueueWrite(encodeMessage(v))]; the reply of the handler [who]. *)
Definition enqueue (who : option nat) (v : json) (h : host) : result error host :=
  match encodeMessage v with
  | Ok buf => Ok (set_chain (h_chain h ++ [buf]) (h_sent h ++ [(who, v)]) h)
  | Err e => Err e
  end.

Definition maybeFinish (h : host) : host :=
  if h_finished h || negb (h_ended h) || (0 <? h_inFlight h) then h else set_finished h.

(** [dispatch]: an oversized reply makes [encodeMessage] throw out of it. *)
Definition dispatch (raw : json) (h : host) : result error host :=
  match parseRequest raw with
  | Err (Some id) => enqueue None (error_reply id "BAD_REQUEST" "malformed request") h
  | Err None => Ok h
  | Ok req => Ok (set_flight (h_inFlight h + 1) (<[List.length (h_accepted h) := req]> (h_running h))
                  (h_accepted h ++ [req]) h)
  end.

(** The [for] loop of the ['data'] callback: an exception ends the process. *)
Fixpoint dispatch_all (messages : list json) (h : host) : host :=
  match messages with
  | [] => h
  | m :: ms => match dispatch m h with Ok h' => dispatch_all ms h' | Err _ => set_crashed h end
  end.

Definition onData (chunk : chars) (h : host) : host :=
  match MessageDecoder_push (h_buffer h) chunk with
  | (Err _, b) => maybeFinish (set_ended (set_buffer b h))
  | (Ok messages, b) => dispatch_all messages (set_buffer b h)
  end.

(** ['end'] and ['error'] *)
Definition onEnd (h : host) : host := maybeFinish (set_ended h).

(** The promise chain after [handleRequest]: reply, or log, then [inFlight--]. *)
Definition onHandled (n : nat) (r : result error HostResponse) (h : host) : host :=
  let h1 :=
    match r with
    | Ok resp => match enqueue (Some n) (response_json resp) h with Ok h' => h' | Err _ => h end
    | Err _ => h
    end in
  maybeFinish (set_flight (h_inFlight h1 - 1) (delete n (h_running h1)) (h_accepted h1) h1).

Inductive hevent :=
| HData (chunk : chars)
| HEnd
| HHandled (n : nat) (r : result error HostResponse)
| HWritten                (* the callback of output.write for the oldest unwritten frame *)
| HClose                  (* the chain awaited at the end settles: client.close() *)
| HResolve.

Definition hhandle (ev : hevent) (h : host) : host :=
  match ev with
  | HData chunk => onData chunk h
  | HEnd => onEnd h
  | HHandled n r => onHandled n r h
  | HWritten => set_written (S (h_written h)) h
  | HClose => set_closed h
  | HResolve => set_resolved h
  end.

Context {C : Type} (client : ScanClient C) (identity : ConnectorIdentity).

(** [r] is an outcome the handler of [req] can have. *)
Definition handler_outcome (req : HostRequest) (r : result error HostResponse) : Prop :=
  exists uuid c t c', handleRequest client identity uuid req c = (Settles t r, c').

Definition henabled (ev : hevent) (h : host) : Prop :=
  h_crashed h = false /\
  match ev with
  | HData _ | HEnd => True
  | HHandled n r => exists req, h_running h !! n = Some req /\ handler_outcome req r
  | HWritten => (h_written h < List.length (h_chain h))%nat
  | HClose => h_finished h = true /\ (h_awaits h <= h_written h)%nat /\ h_closed h = false
  | HResolve => h_closed h = true
  end.

Inductive hstep (h : host) (ev : hevent) : host -> Prop :=
| hstep_intro : henabled ev h -> hstep h ev (hhandle ev h).

Definition hsteps : host -> list hevent -> host -> Prop := rtc_trace hstep.
End host.

(** ** Handlers *)

Section handler_lemmas.
Context {C : Type} (client : ScanClient C) (identity : ConnectorIdentity).

(** A handler that settles has a reply to its request: the engine's answer when the client gave
    one, a blocking decision or an error report otherwise. *)
Definition answers (req : HostRequest) (resp : HostResponse) : Prop :=
  match req, resp with
  | ReqScan id text context, RespScan id' d =>
      id' = id /\
      (action d = Block \/
       exists c t c', sc_safeScan client (scan_request_of identity text context) (Some Block) c = (Settles t (Ok d), c'))
  | ReqAck id eventId accepted, RespAck id' a =>
      id' = id /\ exists c t c', sc_acknowledgeWarning client eventId accepted c = (Settles t (Ok a), c')
  | ReqAck id _ _, RespError id' code _ => id' = id /\ code = "ACK_FAILED"
  | ReqStatus id, RespStatus id' st => id' = id /\ exists c t c', sc_status client c = (Settles t (Ok st), c')
  | ReqStatus id, RespError id' code _ => id' = id /\ code = "STATUS_FAILED"
  | _, _ => False
  end.

(** The shape shared by the three handlers: call the client, wrap its value, and on any exception
    answer [fallback]. *)
Lemma guarded_call {A B} (m : async C A) (wrap : A -> B) (fallback : B) c t r c' :
  try_catch (a ← m; mret (wrap a)) (fun _ => mret fallback) c = (Settles t r, c') ->
  r = Ok fallback \/ exists a t1, r = Ok (wrap a) /\ m c = (Settles t1 (Ok a), c').
Proof.
  unfold try_catch, mbind, async_bind, mret, async_ret.
  destruct (m c) as [[t1 [a|e]|] c1]; simpl; intros E; simplify_eq; [right; by exists a, t1|by left].
Qed.

Lemma handler_answers req r :
  handler_outcome client identity req r -> exists resp, r = Ok resp /\ answers req resp.
Proof.
  intros (uuid & c & t & c' & E). destruct req as [id text context|id eventId accepted|id]; simpl in E;
    apply guarded_call in E as [->|(a & t1 & -> & E)]; eexists; (split; [done|]); simpl; eauto 10.
Qed.

Lemma answers_id req resp : answers req resp -> response_id resp = request_id req.
Proof. destruct req, resp; simpl; naive_solver. Qed.
End handler_lemmas.

(** ** The loop *)

Section host_lemmas.
Context `{JsonCodec} {C : Type} (client : ScanClient C) (identity : ConnectorIdentity).

(** The log of replies: what is in the chain is the log encoded; a handler answers at most once, after
    which it no longer runs, and with an answer to its own request. *)
Record replies_ok (h : host) : Prop := {
  ro_frames : Forall2 (fun tv b => encodeMessage tv.2 = Ok b) (h_sent h) (h_chain h);
  ro_once : NoDup (omap fst (h_sent h));
  ro_answers : forall n v, (Some n, v) ∈ h_sent h -> h_running h !! n = None /\
    exists req resp, h_accepted h !! n = Some req /\ v = response_json resp /\ answers client identity req resp;
  ro_running : forall n req, h_running h !! n = Some req -> h_accepted h !! n = Some req
}.

(** The counters. *)
Record counters_ok (h : host) : Prop := {
  co_flight : h_inFlight h = Z.of_nat (size (h_running h));
  co_written : (h_written h <= List.length (h_chain h))%nat;
  co_awaits : (h_awaits h <= List.length (h_chain h))%nat;
  co_finished : h_finished h = true -> h_ended h = true;
  co_closed : h_closed h = true -> h_finished h = true /\ (h_awaits h <= h_written h)%nat;
  co_resolved : h_resolved h = true -> h_closed h = true
}.

(** Nothing is forgotten: an ended host is finishing or has a handler in flight. *)
Definition finishes (h : host) : Prop :=
  h_crashed h = false -> h_ended h = true -> h_finished h = true \/ 0 < h_inFlight h.

Definition hinv (h : host) : Prop := replies_ok h /\ counters_ok h /\ finishes h.

Lemma enqueue_ok who v h h' :
  enqueue who v h = Ok h' ->
  exists buf, encodeMessage v = Ok buf /\ h' = set_chain (h_chain h ++ [buf]) (h_sent h ++ [(who, v)]) h.
Proof. unfold enqueue. destruct (encodeMessage v) as [buf|e]; intros E; simplify_eq; eauto. Qed.

Lemma counters_chain c s h :
  (List.length (h_chain h) <= List.length c)%nat -> counters_ok h -> counters_ok (set_chain c s h).
Proof. intros Hl []. split; simpl; auto; lia. Qed.

Lemma enqueue_counters who v h h' : enqueue who v h = Ok h' -> counters_ok h -> counters_ok h'.
Proof.
  intros (buf & _ & ->)%enqueue_ok. apply counters_chain. rewrite length_app. lia.
Qed.

Lemma enqueue_bad v h h' : enqueue None v h = Ok h' -> replies_ok h -> replies_ok h'.
Proof.
  intros (buf & Eb & ->)%enqueue_ok [Hf Ho Ha Hr]. split; simpl.
  - apply Forall2_app; [done|by constructor].
  - rewrite omap_app. simpl. by rewrite app_nil_r.
  - intros n w [Hin|Hin]%elem_of_app; [auto|]. apply list_elem_of_singleton in Hin. simplify_eq.
  - done.
Qed.

Lemma maybeFinish_replies h : replies_ok h -> replies_ok (maybeFinish h).
Proof. unfold maybeFinish. destruct (_ || _); [done|]. intros []. by split. Qed.

Lemma maybeFinish_counters h : counters_ok h -> counters_ok (maybeFinish h).
Proof.
  unfold maybeFinish. destruct (h_finished h || negb (h_ended h) || (0 <? h_inFlight h)) eqn:E; [done|].
  bool_simpl. intros []. split; simpl; auto. intros Hc. apply co_closed0 in Hc as [? _]. congruence.
Qed.

Lemma maybeFinish_finishes h : finishes (maybeFinish h).
Proof.
  unfold maybeFinish, finishes. destruct (h_finished h) eqn:E1; simpl; [by left|].
  destruct (h_ended h) eqn:E2; simpl; [|congruence].
  destruct (0 <? h_inFlight h) eqn:E3; simpl; bool_simpl; auto.
Qed.

Lemma counters_ended h : counters_ok h -> counters_ok (set_ended h).
Proof. intros []. split; simpl; auto. Qed.

Lemma host_dispatch_inv raw h h' : hinv h -> dispatch raw h = Ok h' -> hinv h'.
Proof.
  intros (Hr & Hc & Hf). unfold dispatch. destruct (parseRequest raw) as [req|[id|]].
  - intros [= <-]. assert (h_running h !! List.length (h_accepted h) = None) as Hfresh.
    { destruct (h_running h !! List.length (h_accepted h)) eqn:E; [|done].
      apply (ro_running _ Hr) in E. apply lookup_lt_Some in E. lia. }
    split_and!.
    + destruct Hr as [H1 H2 H3 H4]. split; simpl; auto.
      * intros n v Hin. destruct (H3 n v Hin) as (Hn & rq & rs & Hacc & ? & ?).
        pose proof (lookup_lt_Some _ _ _ Hacc). split.
        -- rewrite lookup_insert_ne; [done|lia].
        -- exists rq, rs. by rewrite lookup_app_l.
      * intros n rq. destruct (decide (n = List.length (h_accepted h))) as [->|].
        -- rewrite lookup_insert_eq. intros [= ->]. by rewrite lookup_app_r, Nat.sub_diag.
        -- rewrite lookup_insert_ne by done. intros E%H4. rewrite lookup_app_l; [done|]. by eapply lookup_lt_Some.
    + destruct Hc as [Hc1 ? ? ? ? ?]. split; simpl; auto. rewrite map_size_insert_None by done. lia.
    + intros Hcr He. right. simpl. rewrite (co_flight _ Hc). lia.
  - intros E. split_and!; [by eapply enqueue_bad|by eapply enqueue_counters|].
    apply enqueue_ok in E as (buf & _ & ->). exact Hf.
  - by intros [= <-].
Qed.

Lemma crash_inv h : hinv h -> hinv (set_crashed h).
Proof. intros ([] & [] & Hf). split_and!; [by split|by split|]. intros E. discriminate E. Qed.

Lemma host_dispatch_all_inv ms h : hinv h -> hinv (dispatch_all ms h).
Proof.
  revert h. induction ms as [|m ms IH]; intros h Hi; simpl; [done|].
  destruct (dispatch m h) as [h'|e] eqn:E; [eauto using host_dispatch_inv|by apply crash_inv].
Qed.

Lemma buffer_inv b h : hinv h -> hinv (set_buffer b h).
Proof. intros ([] & [] & Hf). split_and!; [by split|by split|exact Hf]. Qed.

Lemma onEnd_inv h : hinv h -> hinv (onEnd h).
Proof.
  intros (Hr & Hc & _). split_and!.
  - apply maybeFinish_replies. destruct Hr. by split.
  - by apply maybeFinish_counters, counters_ended.
  - apply maybeFinish_finishes.
Qed.

Lemma onData_inv chunk h : hinv h -> hinv (onData chunk h).
Proof.
  intros Hi. unfold onData. destruct (MessageDecoder_push (h_buffer h) chunk) as [[ms|e] b].
  - by apply host_dispatch_all_inv, buffer_inv.
  - change (hinv (onEnd (set_buffer b h))). by apply onEnd_inv, buffer_inv.
Qed.

Lemma reply_enqueue n req resp h h' :
  enqueue (Some n) (response_json resp) h = Ok h' -> h_running h !! n = Some req -> answers client identity req resp ->
  replies_ok h -> replies_ok (set_flight (h_inFlight h' - 1) (delete n (h_running h')) (h_accepted h') h').
Proof.
  intros (buf & Eb & ->)%enqueue_ok Hn Ha [H1 H2 H3 H4]. split; simpl.
  - apply Forall2_app; [done|by constructor].
  - rewrite omap_app. simpl. apply NoDup_app. split_and!; [done| |apply NoDup_singleton].
    intros m (x & Hin & Ex)%list_elem_of_omap ->%list_elem_of_singleton. destruct x as [o v]. simpl in Ex. subst o.
    destruct (H3 n v Hin). congruence.
  - intros m v [Hin|Hin]%elem_of_app.
    + destruct (H3 m v Hin) as [Hm Hx]. split; [|done].
      by rewrite lookup_delete_ne by congruence.
    + apply list_elem_of_singleton in Hin. simplify_eq. rewrite lookup_delete_eq. split; [done|].
      exists req, resp. eauto.
  - intros m rq. rewrite lookup_delete_Some. naive_solver.
Qed.

Lemma drop_replies n h :
  replies_ok h -> replies_ok (set_flight (h_inFlight h - 1) (delete n (h_running h)) (h_accepted h) h).
Proof.
  intros [H1 H2 H3 H4]. split; simpl; auto.
  - intros m v Hin. destruct (H3 m v Hin) as [Hm ?]. split; [|done]. by rewrite lookup_delete_None; right.
  - intros m rq. rewrite lookup_delete_Some. naive_solver.
Qed.

Lemma flight_counters n req h :
  h_running h !! n = Some req -> counters_ok h ->
  counters_ok (set_flight (h_inFlight h - 1) (delete n (h_running h)) (h_accepted h) h).
Proof.
  intros Hn [Hc ? ? ? ? ?]. split; simpl; auto. rewrite map_size_delete_Some by (by eexists).
  assert (size (h_running h) <> 0%nat); [|lia]. intros E%map_size_empty_inv. rewrite E in Hn. by rewrite lookup_empty in Hn.
Qed.

Lemma onHandled_inv n r h :
  hinv h -> (exists req, h_running h !! n = Some req /\ handler_outcome client identity req r) -> hinv (onHandled n r h).
Proof.
  intros (Hr & Hc & _) (req & Hn & Ho). apply handler_answers in Ho as (resp & -> & Ha). unfold onHandled.
  split_and!; [apply maybeFinish_replies|apply maybeFinish_counters|apply maybeFinish_finishes];
    destruct (enqueue (Some n) (response_json resp) h) as [h'|e] eqn:E.
  - by eapply reply_enqueue.
  - by apply drop_replies.
  - pose proof (enqueue_counters _ _ _ _ E Hc). apply enqueue_ok in E as (buf & _ & ->).
    by apply (flight_counters n req).
  - by apply (flight_counters n req).
Qed.

Lemma hstep_inv h ev h' : hinv h -> hstep client identity h ev h' -> hinv h'.
Proof.
  intros Hi [Hen]. destruct Hen as [Hcr Hen]. destruct ev as [chunk| |n r| | |]; simpl.
  - by apply onData_inv.
  - by apply onEnd_inv.
  - by apply onHandled_inv.
  - destruct Hi as ([] & [] & Hf). split_and!; [by split| |exact Hf]. split; simpl; auto; try lia.
    intros Hcl. destruct (co_closed0 Hcl). split; [done|lia].
  - destruct Hen as (Hfin & Haw & Hcl). destruct Hi as ([] & [] & Hf). split_and!; [by split|by split|exact Hf].
  - destruct Hi as ([] & [] & Hf). split_and!; [by split| |exact Hf]. split; simpl; auto.
Qed.

Lemma host_init_inv : hinv host_init.
Proof.
  split_and!; [split; simpl|split; simpl; try done; lia|done].
  - constructor.
  - constructor.
  - intros n v Hin. by apply elem_of_nil in Hin.
  - intros n req. by rewrite lookup_empty.
Qed.

Lemma hsteps_inv evs h : hsteps client identity host_init evs h -> hinv h.
Proof. apply rtc_trace_invariant; [eauto using hstep_inv|apply host_init_inv]. Qed.

(** The frames enqueued are the log, encoded. *)
Lemma chain_encodes l bufs :
  Forall2 (fun (tv : option nat * json) b => encodeMessage tv.2 = Ok b) l bufs ->
  encode_all chrome (map snd l) = Ok (List.concat bufs).
Proof.
  induction 1 as [|[o v] b l bufs Hb _ IH]; simpl; [done|].
  unfold encodeMessage in Hb. simpl in Hb. rewrite Hb. simpl. by rewrite IH.
Qed.
End host_lemmas.

(** The writes that are left, then the close and the resolution. *)
Lemma host_drain `{JsonCodec} {C} (client : ScanClient C) identity k h :
  h_crashed h = false -> h_finished h = true -> h_closed h = false ->
  (h_awaits h <= List.length (h_chain h))%nat -> (List.length (h_chain h) - h_written h = k)%nat ->
  exists evs h', hsteps client identity h evs h' /\ h_resolved h' = true /\ h_sent h' = h_sent h /\
    Forall (fun ev => ev = HWritten \/ ev = HClose \/ ev = HResolve) evs.
Proof.
  revert h. induction k as [|k IH]; intros h Hcr Hf Hcl Haw Hk.
  - exists [HClose; HResolve], (set_resolved (set_closed h)). split_and!; [|done|done|constructor; [auto|constructor; [auto|constructor]]].
    eapply trace_cons; [apply hstep_intro; split; [done|]; split_and!; [done|lia|done]|].
    eapply trace_cons; [apply hstep_intro; split; done|]. constructor.
  - destruct (IH (set_written (S (h_written h)) h)) as (evs & h' & Hs & Hr & Hse & Hall); simpl; try done; [lia|].
    exists (HWritten :: evs), h'. split_and!; [|done|done|constructor; auto].
    eapply trace_cons; [|exact Hs]. apply hstep_intro. split; [done|simpl; lia].
Qed.

(** What the scan handler answers with the SDK's client. *)
Lemma handleScan_outcome `{Zod} {T} `{EventLoop T} (tr : Transport T) timeoutMs retry uuids jitter identity uuid id text context c t r c' :
  handleScan (sdk_client tr timeoutMs retry uuids jitter) identity uuid id text context c = (Settles t r, c') ->
  exists d, r = Ok (RespScan id d) /\
    (action d = Block \/
     exists s t r s', t_request tr Method.SubmitScan (host_wire (scan_request_of identity text context)) s
                        = (Settles t (Ok r), s') /\ decodeDecision r = Some d).
Proof.
  intros E. unfold handleScan in E. apply guarded_call in E as [->|(d & t1 & -> & E)]; [eexists; split; [done|by left]|].
  exists d. split; [done|]. cbn [sc_safeScan sdk_client] in E. apply bind_inv in E as (t2 & resp & s2 & t3 & E & E2 & _).
  unfold mret, async_ret in E2. simplify_eq.
  pose proof (safeSubmit_outcome tr timeoutMs retry uuids jitter
                (host_wire (scan_request_of identity text context)) (Some Block) c) as Ho.
  rewrite E in Ho. cbn [fst] in Ho. destruct Ho as [(_ & _ & Ho)|(_ & Ha & _)]; [by right|by left].
Qed.

(** ** Properties *)

(** The browser path is fail-closed in the host: with the SDK's client, a scan handler that settles
    always answers its own request with a decision, which either blocks or was decoded from a reply
    of the agent to this request; and with a connection that settles within [w] it does settle,
    within the bound of [safeScan], as long as the process is kept running (the host reads stdin until
    the browser closes it). *)
Theorem host_scan_fail_closed `{Zod} {T} `{EventLoop T} (tr : Transport T) timeoutMs retry uuids jitter identity uuid id text context c :
  let m := handleScan (sdk_client tr timeoutMs retry uuids jitter) identity uuid id text context c in
  match m.1 with
  | Settles _ (Ok (RespScan id' d)) =>
      id' = id /\
      (action d = Block \/
       exists s t r s', t_request tr Method.SubmitScan (host_wire (scan_request_of identity text context)) s
                          = (Settles t (Ok r), s') /\ decodeDecision r = Some d)
  | Settles _ _ => False
  | Hangs => True
  end /\
  (forall w, stays_alive T -> 0 < timeoutMs -> 0 <= r_baseDelayMs retry -> 0 <= r_maxDelayMs retry -> 0 <= w ->
     (forall n, 0 <= jitter n < 2 ^ 53) ->
     (forall m p s t x s', t_request tr m p s = (Settles t x, s') -> 0 <= t) ->
     (forall s, settles_within w (t_connect tr s).1) -> settles_within (scan_bound w timeoutMs retry) m.1).
Proof.
  cbv zeta. split.
  - destruct (handleScan _ _ _ _ _ _ c) as [[t r|] c'] eqn:E; [|done]. cbn [fst].
    by apply handleScan_outcome in E as (d & -> & Hd).
  - intros w. intros. set (B := scan_bound w timeoutMs retry). unfold handleScan.
    replace B with ((B + 0) + 0) by lia. apply settles_catch; [|intros; apply settles_ret|lia].
    apply settles_bind; [|intros; apply settles_ret|lia]. cbn [sc_safeScan sdk_client].
    replace B with (B + 0) by lia. apply settles_bind; [by apply safeSubmit_settles|intros; apply settles_ret|lia].
Qed.


(** The host shuts down cleanly.  The client is closed only after stdin has ended and the replies
    queued at that time are written; and a host whose stdin has ended is never stuck: if no handler is
    in flight it has finished, and completing the writes closes the client and resolves the promise
    of [runHost] without dropping a reply. *)
Theorem host_shutdown `{JsonCodec} {C} (client : ScanClient C) identity evs h :
  hsteps client identity host_init evs h ->
  (h_closed h = true -> h_ended h = true /\ h_finished h = true /\ (h_awaits h <= h_written h)%nat) /\
  (h_crashed h = false -> h_ended h = true ->
   (exists n req, h_running h !! n = Some req) \/
   h_finished h = true /\
   (h_closed h = false -> exists evs' h', hsteps client identity h evs' h' /\ h_resolved h' = true /\ h_sent h' = h_sent h /\
      Forall (fun ev => ev = HWritten \/ ev = HClose \/ ev = HResolve) evs')).
Proof.
  intros (Hr & Hc & Hf)%hsteps_inv. destruct Hc as [Hfl Hw Haw Hfin Hcl Hres]. split.
  - intros [? ?]%Hcl. auto.
  - intros Hcr He. destruct (Hf Hcr He) as [Hd|Hpos].
    + right. split; [done|]. intros Hnc. by eapply host_drain.
    + left. destruct (map_choose (h_running h)) as (n & req & E); [|by exists n, req].
      intros E. rewrite E, map_size_empty in Hfl. lia.
Qed.

(** A broken identity file never grants a role: [loadIdentity] always returns an identity with a
    user, and any role but [user] was named by the role string of a file that parses. *)
Theorem identity_defaults `{JsonCodec} userInfo file :
  let i := loadIdentity userInfo file in
  userId i <> "" /\
  (role i <> RoleUser -> exists raw o, file = Some raw /\ parse raw = Some (JObj o) /\
     obj_get "role" o = Some (JStr (role_wire (role i)))) /\
  (file = None \/ (exists raw, file = Some raw /\ parse raw = None) -> i = fallbackIdentity userInfo).
Proof.
  cbv zeta. assert (or_else userInfo "unknown-user" <> "") as Hu by (destruct userInfo as [[|]|]; done).
  unfold loadIdentity. destruct file as [raw|]; [|split_and!; [done..|naive_solver]].
  destruct (parse raw) as [v|] eqn:Ep; [|split_and!; [done..|naive_solver]].
  destruct v as [| | | | |o]; try (split_and!; [done..|naive_solver congruence]).
  cbn [json_get userId role]. split_and!.
  - destruct (obj_get "userId" o) as [[| | |s| |]|]; try done. destruct (is_empty s) eqn:E; [done|].
    intros ->. discriminate E.
  - destruct (obj_get "role" o) as [[| | |s| |]|] eqn:Er; try done.
    intros Hne. exists raw, o. split_and!; [done..|]. rewrite Er. repeat f_equal.
    destruct (of_wire s) as [rl|] eqn:Ew; [|done]. simpl in *. by apply (of_wire_Some (A := Role)) in Ew.
  - intros [?|(raw' & ? & ?)]; simplify_eq.
Qed.

(** ** Examples *)

(** A client whose every call fails. *)
Definition dead_client : ScanClient unit :=
  mkScanClient (fun _ _ => throw (NotConnectedError "no agent")) (fun _ _ => throw (NotConnectedError "no agent"))
    (throw (NotConnectedError "no agent")).
Definition someone : ConnectorIdentity := mkUser "u" RoleUser [].

Definition scan_frame : chars :=
  match encodeMessage (H := json_text)
          (JObj [("id", JStr "a"); ("type", JStr "scan"); ("payload", JObj [("text", JStr "hi")])]) with
  | Ok b => b
  | Err _ => []
  end.

Definition blocked_reply : HostResponse :=
  RespScan "a" (syntheticDecision "u1" Block "connector error; fail-closed block" None None).

(** One scan request arrives in two chunks, stdin ends, the handler settles. *)
Definition one_scan : list hevent :=
  [HData (take 7 scan_frame); HData (drop 7 scan_frame); HEnd; HHandled 0 (Ok blocked_reply)].
Definition after_one_scan : host := fold_left (fun h ev => hhandle (H := json_text) ev h) one_scan host_init.

Lemma one_scan_run : hsteps (H := json_text) dead_client someone host_init one_scan after_one_scan.
Proof.
  apply (along_trace (henabled dead_client someone) (hhandle (H := json_text))); [by constructor|].
  unfold one_scan. cbn [enabled_along].
  split_and!; [split; [vm_compute; reflexivity|exact I]..| |exact I]. split; [vm_compute; reflexivity|].
  exists (ReqScan "a" "hi" (JObj [])). split; [vm_compute; reflexivity|].
  exists "u1", tt, 0, tt. vm_compute. reflexivity.
Qed.

Lemma one_scan_sent : map snd (h_sent after_one_scan) = [response_json blocked_reply].
Proof. vm_compute. reflexivity. Qed.


Lemma host_shutdown_witness :
  h_finished after_one_scan = true /\
  exists evs' h', hsteps (H := json_text) dead_client someone after_one_scan evs' h' /\ h_resolved h' = true /\
    h_sent h' = h_sent after_one_scan /\ Forall (fun ev => ev = HWritten \/ ev = HClose \/ ev = HResolve) evs'.
Proof.
  destruct (host_shutdown (H := json_text) dead_client someone one_scan after_one_scan one_scan_run) as [_ Hs].
  destruct Hs as [(n & req & Hr)|[Hf Hs]]; [vm_compute; reflexivity..| |].
  - exfalso. replace (h_running after_one_scan) with (∅ : gmap nat HostRequest) in Hr by (vm_compute; reflexivity).
    rewrite lookup_empty in Hr. discriminate Hr.
  - split; [exact Hf|apply Hs; vm_compute; reflexivity].
Defined.
