(* ===== verification/ExtTransport.v ===== *)
(** * The extension's background: decisions, the native bridge and the transport chain

    [browser-connectors/chrome/extension/src]: [shared/contract.ts], [shared/protocol.ts],
    [background/native-bridge.ts], [background/transport.ts], [background/transports/native.ts],
    [background/transports/safari.ts] and the handlers of [background/service-worker.ts].

    The extension never validates a decision: it is the JSON value it received, [None] when the
    property it is read from is missing.  [NativeBridge] is a state machine driven by the calls of
    [request] and the callbacks of the port and of the timers; a port is a number, a request is named
    by the [randomUUID] of its caller. *)

From S2P Require Import Prelude Json JsonText Enums Decision Resilience.

(** A decision as the extension holds it. *)
Abbreviation xdecision := (option json).

(** [v === s] for a string constant *)
Definition is_str (s : string) (v : option json) : bool :=
  match v with Some (JStr t) => String.eqb t s | _ => false end.

(** A value in a template literal *)
Fixpoint json_string (v : json) : string :=
  match v with
  | JNull => "null"
  | JBool b => if b then "true" else "false"
  | JNum n => of_chars (print_num n)
  | JStr s => s
  | JArr l => js_join "," (map (fun x => match x with JNull => "" | _ => json_string x end) l)
  | JObj _ => "[object Object]"
  end.
Definition js_string (v : option json) : string := from_option json_string "undefined" v.

(** [typeof v === 'object' && v !== null] *)
Definition is_object (v : json) : bool := match v with JArr _ | JObj _ => true | _ => false end.

(** ** [contract.ts] *)

Definition SEND_ANYWAY_THRESHOLD : Z := 55.
Definition WARN_MEDIUM_FLOOR : Z := 20.

Inductive WarnTier := TierBlock | TierPrompt | TierNotice.

#[export] Instance WarnTier_eq_dec : EqDecision WarnTier.
Proof. solve_decision. Defined.

Definition warnTier (riskLevel : option json) : WarnTier :=
  if is_str "critical" riskLevel || is_str "high" riskLevel then TierBlock
  else if is_str "low" riskLevel then TierNotice
  else TierPrompt.

Definition failClosedBlock (now : Z) (reason : string) : json :=
  JObj
    [("requestId", JStr ("local-" +:+ show_Z now)); ("action", JStr "block"); ("riskLevel", JStr "high");
     ("findings", JArr []); ("reason", JStr reason)].

(** ** [protocol.ts] *)

Record ScanFile := mkScanFile {
  sf_name : string;
  sf_mime : option string;
  sf_base64 : string
}.

Inductive NativeRequest :=
| NScan (id text : string) (context : json)
| NAck (id eventId : string) (accepted : bool).

Definition native_id (r : NativeRequest) : string := match r with NScan id _ _ | NAck id _ _ => id end.

Definition native_json (r : NativeRequest) : json :=
  match r with
  | NScan id text context =>
      JObj [("id", JStr id); ("type", JStr "scan"); ("payload", JObj [("text", JStr text); ("context", context)])]
  | NAck id eventId accepted =>
      JObj [("id", JStr id); ("type", JStr "ack");
            ("payload", JObj [("eventId", JStr eventId); ("accepted", JBool accepted)])]
  end.

(** ** [native-bridge.ts] *)

Definition errorResponse (id code message : string) : json :=
  JObj [("id", JStr id); ("ok", JBool false); ("error", JObj [("code", JStr code); ("message", JStr message)])].

Record bridge_state := mkBridge {
  b_port : option nat;                     (* this.port *)
  b_opened : gset nat;                     (* ports connected so far *)
  b_gone : gset nat;                       (* ports that disconnected *)
  b_pending : gset string;                 (* the keys of this.pending *)
  b_timers : gset string;                  (* requests whose timer is armed *)
  b_promises : gmap string (option json);  (* the promise of each request: open, or its response *)
  b_posted : list (nat * json)             (* messages posted, newest last *)
}.

Definition bridge_init : bridge_state := mkBridge None ∅ ∅ ∅ ∅ ∅ [].

Definition set_port p b := mkBridge p (b_opened b) (b_gone b) (b_pending b) (b_timers b) (b_promises b) (b_posted b).
Definition set_opened o b := mkBridge (b_port b) o (b_gone b) (b_pending b) (b_timers b) (b_promises b) (b_posted b).
Definition set_gone g b := mkBridge (b_port b) (b_opened b) g (b_pending b) (b_timers b) (b_promises b) (b_posted b).
Definition set_pending p b := mkBridge (b_port b) (b_opened b) (b_gone b) p (b_timers b) (b_promises b) (b_posted b).
Definition set_timers t b := mkBridge (b_port b) (b_opened b) (b_gone b) (b_pending b) t (b_promises b) (b_posted b).
Definition set_promises p b := mkBridge (b_port b) (b_opened b) (b_gone b) (b_pending b) (b_timers b) p (b_posted b).
Definition set_posted l b := mkBridge (b_port b) (b_opened b) (b_gone b) (b_pending b) (b_timers b) (b_promises b) l.

(** [resolve(response)]: only the first call of a promise's resolve has an effect. *)
Definition resolve (id : string) (response : json) (b : bridge_state) : bridge_state :=
  match b_promises b !! id with
  | Some None => set_promises (<[id := Some response]> (b_promises b)) b
  | _ => b
  end.

(** [if (this.pending.delete(id)) { clearTimeout(timer); resolve(response) }] *)
Definition retire (id : string) (response : json) (b : bridge_state) : bridge_state :=
  if bool_decide (id ∈ b_pending b) then
    resolve id response (set_timers (b_timers b ∖ {[id]}) (set_pending (b_pending b ∖ {[id]}) b))
  else b.

(** [ensurePort]: [fresh] is the port [connect()] returns, [None] when it throws. *)
Definition ensurePort (fresh : option nat) (b : bridge_state) : option (nat * bridge_state) :=
  match b_port b with
  | Some p => Some (p, b)
  | None =>
      match fresh with
      | Some p => Some (p, set_port (Some p) (set_opened (b_opened b ∪ {[p]}) b))
      | None => None
      end
  end.

(** [request]: [posts] tells whether [postMessage] returns normally. *)
Definition request (req : NativeRequest) (fresh : option nat) (posts : bool) (b : bridge_state) : bridge_state :=
  let id := native_id req in
  match ensurePort fresh b with
  | None =>
      set_promises (<[id := Some (errorResponse id "DISCONNECT" "native host unavailable")]> (b_promises b)) b
  | Some (port, b1) =>
      let b2 := set_promises (<[id := None]> (b_promises b1)) b1 in
      let b3 := set_pending (b_pending b2 ∪ {[id]}) (set_timers (b_timers b2 ∪ {[id]}) b2) in
      if posts then set_posted (b_posted b3 ++ [(port, native_json req)]) b3
      else retire id (errorResponse id "DISCONNECT" "native host write failed") b3
  end.

(** The callback of the timer of [id] *)
Definition onTimeout (id : string) (b : bridge_state) : bridge_state :=
  retire id (errorResponse id "TIMEOUT" "native host timeout") (set_timers (b_timers b ∖ {[id]}) b).

Definition onMessage (message : json) (b : bridge_state) : bridge_state :=
  if negb (is_object message) then b
  else
    match json_get "id" message with
    | Some (JStr id) => retire id message b
    | _ => b
    end.

(** [onDisconnect] *)
Definition onDisconnect (b : bridge_state) : bridge_state :=
  let b1 := set_port None b in
  set_pending ∅
    (foldr (fun id s =>
              resolve id (errorResponse id "DISCONNECT" "native host disconnected") (set_timers (b_timers s ∖ {[id]}) s))
       b1 (elements (b_pending b1))).

Inductive bevent :=
| BRequest (req : NativeRequest) (fresh : option nat) (posts : bool)
| BTimer (id : string)
| BMessage (p : nat) (message : json)
| BDisconnect (p : nat).

Definition bhandle (ev : bevent) (b : bridge_state) : bridge_state :=
  match ev with
  | BRequest req fresh posts => request req fresh posts b
  | BTimer id => onTimeout id b
  | BMessage _ message => onMessage message b
  | BDisconnect p => onDisconnect (set_gone (b_gone b ∪ {[p]}) b)
  end.

(** When an event can happen: request ids and ports are fresh, only an armed timer fires, messages
    and the single disconnection come from a connected port. *)
Definition benabled (ev : bevent) (b : bridge_state) : Prop :=
  match ev with
  | BRequest req fresh _ => b_promises b !! native_id req = None /\ (forall p, fresh = Some p -> p ∉ b_opened b)
  | BTimer id => id ∈ b_timers b
  | BMessage p _ | BDisconnect p => p ∈ b_opened b /\ p ∉ b_gone b
  end.

Inductive bstep (b : bridge_state) (ev : bevent) : bridge_state -> Prop :=
| bstep_intro : benabled ev b -> bstep b ev (bhandle ev b).

Definition bsteps : bridge_state -> list bevent -> bridge_state -> Prop := rtc_trace bstep.

(** ** [transports/native.ts] and [transports/safari.ts] *)

Definition failure (message : string) : error := OtherError "Error" message.

(** What [scan] makes of a response: the error of a response without an [error] object is the
    [TypeError] of reading its code. *)
Definition scan_of_response (who : string) (res : json) : result error xdecision :=
  if negb (opt_truthy (json_get "ok" res)) then
    match json_get "error" res with
    | None | Some JNull => Err (OtherError "TypeError" "")
    | Some e =>
        Err (failure (who +:+ " scan failed: " +:+ js_string (json_get "code" e) +:+ ": " +:+ js_string (json_get "message" e)))
    end
  else if negb (is_str "scan" (json_get "type" res)) then
    Err (failure (who +:+ " returned unexpected type: " +:+ js_string (json_get "type" res)))
  else Ok (json_get "decision" res).

(** [res.ok && res.type === 'ack' ? res.accepted : false] *)
Definition ack_of_response (res : json) : option json :=
  if opt_truthy (json_get "ok" res) && is_str "ack" (json_get "type" res) then json_get "accepted" res
  else Some (JBool false).

(** [NativeHostTransport.scan]; [respond] is what the bridge resolves with for a request. *)
Definition native_scan (uuid : string) (respond : NativeRequest -> json) (text : string) (context : json)
    (files : list ScanFile) : result error xdecision :=
  match files with
  | _ :: _ => Err (failure "native host does not support file scanning")
  | [] => scan_of_response "native host" (respond (NScan uuid text context))
  end.

Definition native_ack (uuid : string) (respond : NativeRequest -> json) (eventId : string) (accepted : bool) : option json :=
  ack_of_response (respond (NAck uuid eventId accepted)).

(** [toResponse]: the message must be an object with a string id. *)
Definition toResponse (message : option json) : result error json :=
  match message with
  | Some m =>
      if is_object m && (match json_get "id" m with Some (JStr _) => true | _ => false end) then Ok m
      else Err (failure "malformed app extension response")
  | None => Err (failure "malformed app extension response")
  end.

(** [SafariAppTransport]; [send] is [sendNativeMessage].  Files are ignored. *)
Definition safari_scan (uuid : string) (send : NativeRequest -> result error (option json)) (text : string) (context : json)
    (files : list ScanFile) : result error xdecision :=
  match send (NScan uuid text context) with
  | Err e => Err e
  | Ok m => match toResponse m with Err e => Err e | Ok res => scan_of_response "app extension" res end
  end.

Definition safari_ack (uuid : string) (send : NativeRequest -> result error (option json)) (eventId : string) (accepted : bool)
    : option json :=
  match send (NAck uuid eventId accepted) with
  | Err _ => Some (JBool false)
  | Ok m => match toResponse m with Err _ => Some (JBool false) | Ok res => ack_of_response res end
  end.

(** ** [transport.ts] and [service-worker.ts] *)

(** The interface [ScanTransport], over a state [W] of the world. *)
Record ScanTransport (W : Type) := mkScanTransport {
  st_scan : string -> json -> list ScanFile -> async W xdecision;
  st_ack : string -> bool -> async W (option json)
}.
Arguments mkScanTransport {W} _ _.
Arguments st_scan {W} _ _ _ _.
Arguments st_ack {W} _ _ _.

Section chain.
Context {W : Type} (now : Z).

Fixpoint scanThroughTransports (transports : list (ScanTransport W)) (text : string) (context : json)
    (files : list ScanFile) : async W xdecision :=
  match transports with
  | [] => mret (Some (failClosedBlock now "agent unavailable; prompt blocked"))
  | t :: ts => try_catch (st_scan t text context files) (fun _ => scanThroughTransports ts text context files)
  end.

Fixpoint ackThroughTransports (transports : list (ScanTransport W)) (eventId : string) (accepted : bool) : async W bool :=
  match transports with
  | [] => mret false
  | t :: ts => r ← st_ack t eventId accepted; if opt_truthy r then mret true else ackThroughTransports ts eventId accepted
  end.

(** The messages of the content script *)
Inductive ContentMessage :=
| MsgScan (text : string) (context : json)
| MsgScanFile (file : ScanFile) (context : json)
| MsgAck (eventId : string) (accepted : bool).

Inductive ContentReply :=
| ScanReply (decision : xdecision)
| AckReply (ok : bool).

Definition onContentMessage (transports : list (ScanTransport W)) (m : ContentMessage) : async W ContentReply :=
  match m with
  | MsgScan text context => d ← scanThroughTransports transports text context []; mret (ScanReply d)
  | MsgScanFile file context => d ← scanThroughTransports transports "" context [file]; mret (ScanReply d)
  | MsgAck eventId accepted => ok ← ackThroughTransports transports eventId accepted; mret (AckReply ok)
  end.
End chain.

(** ** The bridge *)

(** Requests that wait have their timer armed and their promise open; a settled promise holds a
    response with the id of its request, and a response that is not an error report is one of the
    messages [received]; the current port is connected. *)
Record bridge_ok (received : json -> Prop) (b : bridge_state) : Prop := {
  bo_timers : b_pending b = b_timers b;
  bo_open : forall id, id ∈ b_pending b <-> b_promises b !! id = Some None;
  bo_settled : forall id r, b_promises b !! id = Some (Some r) ->
    json_get "id" r = Some (JStr id) /\ (opt_truthy (json_get "ok" r) = true -> received r);
  bo_port : forall p, b_port b = Some p -> p ∈ b_opened b /\ p ∉ b_gone b;
  bo_gone : b_gone b ⊆ b_opened b
}.

(** Promises keep their value. *)
Definition keeps (b b' : bridge_state) : Prop :=
  forall id r, b_promises b !! id = Some (Some r) -> b_promises b' !! id = Some (Some r).

Section bridge.
Context (received : json -> Prop).
Local Abbreviation ok := (bridge_ok received).

(** A response that may settle the request [id]. *)
Definition fit (id : string) (r : json) : Prop :=
  json_get "id" r = Some (JStr id) /\ (opt_truthy (json_get "ok" r) = true -> received r).

Lemma error_fit id code message : fit id (errorResponse id code message).
Proof. split; [done|]. intros E. discriminate E. Qed.

Lemma retire_spec id r b :
  id ∈ b_pending b -> b_promises b !! id = Some None ->
  retire id r b =
  mkBridge (b_port b) (b_opened b) (b_gone b) (b_pending b ∖ {[id]}) (b_timers b ∖ {[id]})
    (<[id := Some r]> (b_promises b)) (b_posted b).
Proof. intros Hp Ho. unfold retire. rewrite bool_decide_eq_true_2 by done. unfold resolve. simpl. by rewrite Ho. Qed.

Lemma retire_ok id r b : fit id r -> ok b -> ok (retire id r b) /\ keeps b (retire id r b).
Proof.
  intros [Hid Hok] [Ht Ho Hs Hport Hg]. unfold retire. case_bool_decide as Hp; [|split; [by split|by intros ???]].
  assert (b_promises b !! id = Some None) as Hopen by (by apply Ho).
  unfold resolve. simpl. rewrite Hopen. split.
  - split; simpl; [by rewrite Ht| | |done..].
    + intros j. rewrite elem_of_difference, elem_of_singleton, Ho.
      destruct (decide (j = id)) as [->|]; [rewrite lookup_insert_eq; naive_solver|].
      rewrite lookup_insert_ne by done. naive_solver.
    + intros j x. destruct (decide (j = id)) as [->|]; [rewrite lookup_insert_eq; by intros [= <-]|].
      rewrite lookup_insert_ne by done. auto.
  - intros j x E. simpl. rewrite lookup_insert_ne; [done|]. congruence.
Qed.

(** A settled request is not pending, so its timer, should it still fire, changes nothing. *)
Lemma timeout_retire id b :
  ok b -> id ∈ b_timers b -> onTimeout id b = retire id (errorResponse id "TIMEOUT" "native host timeout") b.
Proof.
  intros [Ht Ho _ _ _] Hin. assert (id ∈ b_pending b) as Hp by (by rewrite Ht). pose proof (proj1 (Ho id) Hp).
  unfold onTimeout. rewrite !retire_spec by done. simpl. f_equal. set_solver.
Qed.

(** A new promise, settled at once. *)
Lemma settled_ok id r b :
  b_promises b !! id = None -> fit id r -> ok b ->
  ok (set_promises (<[id := Some r]> (b_promises b)) b) /\ keeps b (set_promises (<[id := Some r]> (b_promises b)) b).
Proof.
  intros Hnew Hr [Ht Ho Hs Hport Hg]. split.
  - split; simpl; [done| | |done..].
    + intros j. rewrite Ho. destruct (decide (j = id)) as [->|]; [rewrite lookup_insert_eq, Hnew; naive_solver|].
      by rewrite lookup_insert_ne.
    + intros j x. destruct (decide (j = id)) as [->|]; [rewrite lookup_insert_eq; by intros [= <-]|].
      rewrite lookup_insert_ne by done. auto.
  - intros j x E. simpl. rewrite lookup_insert_ne; [done|congruence].
Qed.

(** A new promise, left open, with its timer. *)
Definition register (id : string) (b : bridge_state) : bridge_state :=
  let b2 := set_promises (<[id := None]> (b_promises b)) b in
  set_pending (b_pending b2 ∪ {[id]}) (set_timers (b_timers b2 ∪ {[id]}) b2).

Lemma register_ok id b :
  b_promises b !! id = None -> ok b -> ok (register id b) /\ keeps b (register id b).
Proof.
  intros Hnew [Ht Ho Hs Hport Hg]. split.
  - split; simpl; [by rewrite Ht| | |done..].
    + intros j. rewrite elem_of_union, elem_of_singleton, Ho.
      destruct (decide (j = id)) as [->|]; [rewrite lookup_insert_eq; naive_solver|].
      rewrite lookup_insert_ne by done. naive_solver.
    + intros j x. destruct (decide (j = id)) as [->|]; [by rewrite lookup_insert_eq|].
      rewrite lookup_insert_ne by done. auto.
  - intros j x E. simpl. rewrite lookup_insert_ne; [done|congruence].
Qed.

Lemma ensurePort_ok fresh b port b1 :
  (forall p, fresh = Some p -> p ∉ b_opened b) -> ensurePort fresh b = Some (port, b1) -> ok b ->
  ok b1 /\ b_promises b1 = b_promises b.
Proof.
  intros Hfresh Ep Hb. unfold ensurePort in Ep. destruct (b_port b) as [p|]; [by simplify_eq|].
  destruct Hb as [Ht Ho Hs Hport Hg]. destruct fresh as [p|]; [|done]. simplify_eq. split; [|done]. specialize (Hfresh port eq_refl).
  split; simpl; [done..| |set_solver]. intros q [= <-]. set_solver.
Qed.

Lemma request_ok req fresh posts b :
  benabled (BRequest req fresh posts) b -> ok b -> ok (request req fresh posts b) /\ keeps b (request req fresh posts b).
Proof.
  intros [Hnew Hfresh] Hb. unfold request. destruct (ensurePort fresh b) as [[port b1]|] eqn:Ep;
    [|apply settled_ok; [done|apply error_fit|done]].
  destruct (ensurePort_ok _ _ _ _ Hfresh Ep Hb) as [Hb1 Epr]. rewrite <- Epr in Hnew.
  destruct (register_ok (native_id req) b1 Hnew Hb1) as [Hr Hk]. fold (register (native_id req) b1).
  assert (keeps b (register (native_id req) b1)) as Hk' by (intros j x E; apply Hk; by rewrite Epr).
  destruct posts.
  - split; [|exact Hk']. destruct Hr. by split.
  - destruct (retire_ok (native_id req) (errorResponse (native_id req) "DISCONNECT" "native host write failed")
                (register (native_id req) b1)) as [H1 H2]; [apply error_fit|done|].
    split; [done|]. intros j x E. by apply H2, Hk'.
Qed.

(** The loop of [onDisconnect] settles what it visits. *)
Lemma disconnect_loop l b :
  let b' := foldr (fun id s => resolve id (errorResponse id "DISCONNECT" "native host disconnected")
                                 (set_timers (b_timers s ∖ {[id]}) s)) b l in
  b_port b' = b_port b /\ b_opened b' = b_opened b /\ b_gone b' = b_gone b /\ b_pending b' = b_pending b /\
  b_timers b' = b_timers b ∖ list_to_set l /\
  (forall j, b_promises b' !! j =
     match b_promises b !! j with
     | Some None => if decide (j ∈ l) then Some (Some (errorResponse j "DISCONNECT" "native host disconnected")) else Some None
     | other => other
     end).
Proof.
  clear received. induction l as [|id l IH]; cbn [foldr].
  - split_and!; [done..|set_solver|]. intros j. destruct (b_promises b !! j) as [[]|]; [done| |done].
    case_decide; [set_solver|done].
  - cbv zeta in IH |- *. set (s := foldr _ b l) in *. destruct IH as (H1 & H2 & H3 & H4 & H5 & H6).
    unfold resolve. cbn [b_promises set_timers]. pose proof (H6 id) as Hid.
    destruct (b_promises s !! id) as [[x|]|] eqn:Es; cbn; rewrite ?H1, ?H2, ?H3, ?H4, ?H5;
      (split_and!; [done..|set_solver|]); intros j.
    all: assert (j <> id -> b_promises s !! j =
        match b_promises b !! j with
        | Some None => if decide (j ∈ id :: l) then Some (Some (errorResponse j "DISCONNECT" "native host disconnected")) else Some None
        | other => other
        end) as Hother
        by (intros Hne; rewrite H6; destruct (b_promises b !! j) as [[]|]; try done;
            destruct (decide (j ∈ l)), (decide (j ∈ id :: l)); set_solver).
    all: destruct (decide (j = id)) as [->|Hne]; [|rewrite ?lookup_insert_ne by done; by apply Hother].
    all: rewrite ?lookup_insert_eq, ?Es; destruct (b_promises b !! id) as [[y|]|]; try done.
    all: rewrite (decide_True (P := id ∈ id :: l)) by set_solver; by destruct (decide (id ∈ l)).
Qed.

Lemma onDisconnect_ok p b :
  p ∈ b_opened b -> ok b ->
  let b' := onDisconnect (set_gone (b_gone b ∪ {[p]}) b) in
  ok b' /\ keeps b b' /\ b_pending b' = ∅ /\ forall id, b_promises b' !! id <> Some None.
Proof.
  intros Hp [Ht Ho Hs Hport Hg]. cbv zeta. unfold onDisconnect.
  set (b1 := set_port None (set_gone (b_gone b ∪ {[p]}) b)).
  destruct (disconnect_loop (elements (b_pending b1)) b1) as (H1 & H2 & H3 & H4 & H5 & H6).
  set (b2 := foldr _ b1 _) in *.
  assert (forall id, b_promises b2 !! id <> Some None) as Hnone.
  { intros id. rewrite H6. change (b_promises b1) with (b_promises b). destruct (b_promises b !! id) as [[]|] eqn:E; try done.
    case_decide as Hd; [done|]. exfalso. apply Hd, elem_of_elements. by apply Ho. }
  split_and!; [|intros j x E; simpl; rewrite H6; change (b_promises b1) with (b_promises b); by rewrite E|done|done].
  split; simpl.
  - rewrite H5. change (b_timers b1) with (b_timers b). change (b_pending b1) with (b_pending b). rewrite Ht. set_solver.
  - intros id. split; [set_solver|]. intros E. by apply Hnone in E.
  - intros id r E. rewrite H6 in E. change (b_promises b1) with (b_promises b) in E.
    destruct (b_promises b !! id) as [[x|]|] eqn:Eb; simplify_eq; [by apply Hs|].
    case_decide; simplify_eq. apply error_fit.
  - rewrite H1. done.
  - rewrite H2, H3. simpl. set_solver.
Qed.
End bridge.

Lemma bstep_ok (received : json -> Prop) b ev b' :
  (forall p m, ev = BMessage p m -> received m) -> bridge_ok received b -> bstep b ev b' ->
  bridge_ok received b' /\ keeps b b'.
Proof.
  intros Hrec Hb [Hen]. destruct ev as [req fresh posts|id|p m|p]; cbn [bhandle].
  - by apply request_ok.
  - cbn [benabled] in Hen. rewrite (timeout_retire received) by done. apply retire_ok; [apply error_fit|done].
  - unfold onMessage. destruct (is_object m); cbn [negb]; [|by split; [|intros ???]].
    destruct (json_get "id" m) as [[| | |id| |]|] eqn:Eid; try by split; [|intros ???].
    apply retire_ok; [|done]. split; [done|]. intros _. by eapply Hrec.
  - destruct Hen as [Hp _]. by destruct (onDisconnect_ok received p b Hp Hb) as (? & ? & _).
Qed.

Lemma bsteps_ok (received : json -> Prop) b evs b' :
  (forall p m, BMessage p m ∈ evs -> received m) -> bridge_ok received b -> bsteps b evs b' ->
  bridge_ok received b' /\ keeps b b'.
Proof.
  intros Hrec Hb Hs. induction Hs as [b|b ev b1 evs b2 Hstep _ IH]; [by split; [|intros ???]|].
  destruct (bstep_ok received b ev b1) as [H1 K1]; [intros p m ->; by eapply Hrec; left|done..|].
  destruct IH as [H2 K2]; [intros p m Hin; by eapply Hrec; right|done|].
  split; [done|]. intros id r E. by apply K2, K1.
Qed.

Lemma bridge_init_ok received : bridge_ok received bridge_init.
Proof. split; simpl; [done|intros id; rewrite lookup_empty; set_solver|intros id r; by rewrite lookup_empty|done|set_solver]. Qed.

(** ** The chain *)

Lemma chain_outcome {W} now (ts : list (ScanTransport W)) text context files w :
  match (scanThroughTransports now ts text context files w).1 with
  | Settles _ (Ok d) =>
      d = Some (failClosedBlock now "agent unavailable; prompt blocked") \/
      exists t w1 u w2, t ∈ ts /\ st_scan t text context files w1 = (Settles u (Ok d), w2)
  | Settles _ (Err _) => False
  | Hangs => True
  end.
Proof.
  revert w. induction ts as [|t ts IH]; intros w; simpl; [by left|].
  unfold try_catch. destruct (st_scan t text context files w) as [[u [d|e]|] w'] eqn:E; simpl; [|specialize (IH w')|done].
  - right. exists t, w, u, w'. split; [by left|done].
  - destruct (scanThroughTransports now ts text context files w') as [[u' [d|e']|] w'']; simpl in *; [|done..].
    destruct IH as [->|(t' & w1 & u1 & w2 & Hin & Et)]; [by left|right].
    exists t', w1, u1, w2. split; [by right|done].
Qed.

Lemma chain_settles {W} now (ts : list (ScanTransport W)) text context files w D :
  0 <= D -> (forall t w, t ∈ ts -> settles_within D (st_scan t text context files w).1) ->
  settles_within (D * Z.of_nat (List.length ts)) (scanThroughTransports now ts text context files w).1.
Proof.
  intros HD. revert w. induction ts as [|t ts IH]; intros w Ht; cbn [scanThroughTransports List.length].
  - rewrite Z.mul_0_r. apply settles_ret.
  - replace (D * Z.of_nat (S (List.length ts))) with (D + D * Z.of_nat (List.length ts)) by lia.
    apply settles_catch; [apply Ht; by left| |lia]. intros e w'. apply IH. intros t' w1 Hin. apply Ht. by right.
Qed.

(** ** Properties *)

(** C15: the native bridge is fail-closed and never loses a request.  In every state it can reach: a
    request that waits has its timer armed, and when the timer fires the request is answered with an
    error; a disconnection answers everything that waits; an answer carries the id of its request, is
    never replaced, and when it is not an error report it is a message the host really sent. *)
Theorem bridge_fail_closed evs b id :
  bsteps bridge_init evs b ->
  match b_promises b !! id with
  | Some None =>
      benabled (BTimer id) b /\
      b_promises (bhandle (BTimer id) b) !! id = Some (Some (errorResponse id "TIMEOUT" "native host timeout")) /\
      (forall p, benabled (BDisconnect p) b -> forall j, b_promises (bhandle (BDisconnect p) b) !! j <> Some None)
  | Some (Some r) =>
      json_get "id" r = Some (JStr id) /\
      (opt_truthy (json_get "ok" r) = true -> exists p, BMessage p r ∈ evs) /\
      (forall evs' b', bsteps b evs' b' -> b_promises b' !! id = Some (Some r))
  | None => id ∉ b_pending b
  end.
Proof.
  intros Hs. destruct (bsteps_ok (fun r => exists p, BMessage p r ∈ evs) bridge_init evs b) as [Hb _];
    [eauto|apply bridge_init_ok|done|].
  destruct (b_promises b !! id) as [[r|]|] eqn:E.
  - destruct (bo_settled _ _ Hb id r E) as [H1 H2]. split_and!; [done|done|]. intros evs' b' Hs'.
    destruct (bsteps_ok (fun _ => True) b evs' b') as [_ K]; [done| |done|by apply K].
    destruct Hb as [? ? Hst ? ?]. split; auto. intros j x Ej. destruct (Hst j x Ej). by split.
  - assert (id ∈ b_timers b) as Ht by (rewrite <- (bo_timers _ _ Hb); by apply (bo_open _ _ Hb)). split_and!.
    + exact Ht.
    + cbn [bhandle]. rewrite (timeout_retire _ _ _ Hb Ht), retire_spec; [apply lookup_insert_eq| |done].
      by rewrite (bo_timers _ _ Hb).
    + intros p [Hp _] j. by apply (onDisconnect_ok _ p b Hp Hb).
  - intros Hin. apply (bo_open _ _ Hb) in Hin. congruence.
Qed.

(** C21: the transport chain never invents a decision and never throws: what the service worker
    answers to a scan is the fail-closed block or a decision returned by one of the transports for
    the same text, context and files; and it answers whenever every transport settles. *)
Theorem chain_fail_closed {W} now (ts : list (ScanTransport W)) text context files w D :
  match (scanThroughTransports now ts text context files w).1 with
  | Settles _ (Ok d) =>
      d = Some (failClosedBlock now "agent unavailable; prompt blocked") \/
      exists t w1 u w2, t ∈ ts /\ st_scan t text context files w1 = (Settles u (Ok d), w2)
  | Settles _ (Err _) => False
  | Hangs => ~ (0 <= D /\ forall t w, t ∈ ts -> settles_within D (st_scan t text context files w).1)
  end.
Proof.
  pose proof (chain_outcome now ts text context files w) as Ho.
  pose proof (chain_settles now ts text context files w D) as Hs.
  destruct (scanThroughTransports now ts text context files w) as [[u [d|e]|] w']; simpl in *; [done..|].
  intros [HD Ht]. destruct (Hs HD Ht) as (t & x & E & _). discriminate E.
Qed.

(** ** Examples *)

Definition ping : list bevent :=
  [BRequest (NScan "r1" "hi" (JObj [])) (Some 0%nat) true; BRequest (NAck "r2" "e" true) (Some 1%nat) true;
   BMessage 0 (JObj [("id", JStr "r1"); ("ok", JBool true)])].
Definition after_ping : bridge_state := fold_left (fun b ev => bhandle ev b) ping bridge_init.

Lemma bridge_fail_closed_witness :
  b_promises after_ping !! "r1" = Some (Some (JObj [("id", JStr "r1"); ("ok", JBool true)])) /\
  exists p, BMessage p (JObj [("id", JStr "r1"); ("ok", JBool true)]) ∈ ping.
Proof.
  assert (bsteps bridge_init ping after_ping) as Hrun.
  { apply (along_trace benabled bhandle); [by constructor|].
    unfold ping. cbn [enabled_along]. split_and!; [split; [reflexivity|intros p _; set_solver]|split; [vm_compute; reflexivity|intros p [= <-]]| |exact I].
    - apply (bool_decide_unpack _). vm_compute. exact I.
    - split; apply (bool_decide_unpack _); vm_compute; exact I. }
  pose proof (bridge_fail_closed ping after_ping "r1" Hrun) as Hb.
  replace (b_promises after_ping !! "r1") with (Some (Some (JObj [("id", JStr "r1"); ("ok", JBool true)]))) in Hb
    by (vm_compute; reflexivity).
  split; [vm_compute; reflexivity|]. destruct Hb as (_ & Hok & _). apply Hok. reflexivity.
Defined.
