(* ===== verification/ExtGate.v ===== *)
(** * The content gate and the upload hook of the extension

    [browser-connectors/chrome/extension/src]: [content/gate.ts], [content/upload-policy.ts],
    [content/page-hook.ts], the relay of [content/content-script.ts], [adapters/registry.ts] and the
    key test of [adapters/common.ts].

    [Gate] is a state machine: its events are the DOM events it listens to, the settling of the scans
    and of the warning dialogs it started, and the timers of [replay].  The page is what the site's
    adapter reads from it: the text of the prompt input, and whether there is a send button.  A submit
    event that reaches the page makes it send the text that is in the input at that time. *)

From S2P Require Import Prelude Json Zod Enums Decision Resilience ExtTransport.

(** ** Acting on a decision *)

(** [Set] keeps one of several equal primitives; parsed objects are never the same object. *)
Definition same_value (a b : option json) : bool :=
  match a, b with
  | Some (JNum x), Some (JNum y) => bool_decide (x = y)
  | Some x, Some y => literal_eqb x y
  | None, None => true
  | _, _ => false
  end.

Fixpoint distinct_go (seen l : list (option json)) : list (option json) :=
  match l with
  | [] => []
  | x :: xs => if existsb (same_value x) seen then distinct_go seen xs else x :: distinct_go (x :: seen) xs
  end.

(** [decision.findings.map((f) => f.category)]: [None] is the [TypeError] of a missing list or a
    null element. *)
Definition finding_category (f : json) : option (option json) :=
  match f with JNull => None | _ => Some (json_get "category" f) end.

Definition distinctCategories (d : xdecision) : option (list (option json)) :=
  match d ≫= json_get "findings" with
  | Some (JArr l) => distinct_go [] <$> traverse finding_category l
  | _ => None
  end.

Inductive gate_effect :=
| BlockNotice (title : option string) (reason : option json) (categories : list (option json))
| WarnNotice (reason : option json) (categories : list (option json))
| WarnModal (reason riskLevel : option json) (categories : list (option json))
| Ack (eventId : option json) (accepted : bool).

(** What [decide] does with a decision: the calls it makes, then whether it replays the submit, or
    waits for the dialog it opened, or an exception ends it. *)
Inductive decided :=
| Replays (effects : list gate_effect)
| Stops (effects : list gate_effect)
| Asks (modal : gate_effect) (eventId : option json)
| Throws.

Definition HIGH_RISK_TITLE : string := "Blocked by policy — high risk".

Definition on_decision (d : xdecision) : decided :=
  match distinctCategories d with
  | None => Throws
  | Some categories =>
      let get k := d ≫= json_get k in
      let escalate := Stops [BlockNotice (Some HIGH_RISK_TITLE) (get "reason") categories; Ack (get "requestId") false] in
      if is_str "allow" (get "action") then Replays []
      else if is_str "block" (get "action") then Stops [BlockNotice None (get "reason") categories]
      else if is_str "warn" (get "action") then
        match get "riskScore" with
        | Some (JNum score) =>
            if num_gt score SEND_ANYWAY_THRESHOLD then escalate
            else
              let level := if num_gt score WARN_MEDIUM_FLOOR then "medium" else "low" in
              Asks (WarnModal (get "reason") (Some (JStr level)) categories) (get "requestId")
        | _ =>
            match warnTier (get "riskLevel") with
            | TierBlock => escalate
            | TierNotice => Replays [WarnNotice (get "reason") categories; Ack (get "requestId") true]
            | TierPrompt => Asks (WarnModal (get "reason") (get "riskLevel") categories) (get "requestId")
            end
        end
      else Stops []
  end.

(** ** The gate *)

Inductive phase :=
| Scanning (text : string)
| Asking (text : string) (d : xdecision) (eventId : option json).

(** [bypass] and [timers] (the callbacks of [setTimeout(…, 0)] outstanding) are the gate's; [input]
    and [button] are the page.  The rest records what happened: the calls of [decide] under way, the
    texts scanned, the prompts the page sent and on which call's authority, the calls that replayed
    with the text, decision and answer they had. *)
Record gate := mkGate {
  g_bypass : bool;
  g_timers : nat;
  g_input : option string;
  g_button : bool;
  g_open : gmap nat phase;
  g_next : nat;
  g_scans : list string;
  g_effects : list gate_effect;
  g_window : option nat;
  g_granted : gmap nat (string * xdecision * option bool);
  g_page : list (string * option nat)
}.

Definition gate_init (input : option string) (button : bool) : gate :=
  mkGate false 0 input button ∅ 0 [] [] None ∅ [].

Definition set_bypass b n w g := mkGate b n (g_input g) (g_button g) (g_open g) (g_next g) (g_scans g) (g_effects g) w (g_granted g) (g_page g).
Definition set_dom i b g := mkGate (g_bypass g) (g_timers g) i b (g_open g) (g_next g) (g_scans g) (g_effects g) (g_window g) (g_granted g) (g_page g).
Definition set_open o g := mkGate (g_bypass g) (g_timers g) (g_input g) (g_button g) o (g_next g) (g_scans g) (g_effects g) (g_window g) (g_granted g) (g_page g).
Definition set_scans n s g := mkGate (g_bypass g) (g_timers g) (g_input g) (g_button g) (g_open g) n s (g_effects g) (g_window g) (g_granted g) (g_page g).
Definition set_effects e g := mkGate (g_bypass g) (g_timers g) (g_input g) (g_button g) (g_open g) (g_next g) (g_scans g) e (g_window g) (g_granted g) (g_page g).
Definition set_granted m g := mkGate (g_bypass g) (g_timers g) (g_input g) (g_button g) (g_open g) (g_next g) (g_scans g) (g_effects g) (g_window g) m (g_page g).
Definition set_page l g := mkGate (g_bypass g) (g_timers g) (g_input g) (g_button g) (g_open g) (g_next g) (g_scans g) (g_effects g) (g_window g) (g_granted g) l.

Definition emit (l : list gate_effect) (g : gate) : gate := set_effects (g_effects g ++ l) g.

(** A submit event reaches the page. *)
Definition page_submit (who : option nat) (g : gate) : gate :=
  match g_input g with
  | Some t => set_page (g_page g ++ [(t, who)]) g
  | None => g
  end.

(** [intercept]: a blank prompt is left to the page, any other is scanned. *)
Definition intercept (text : string) (g : gate) : gate :=
  if is_empty (js_trim text) then page_submit None g
  else set_open (<[g_next g := Scanning text]> (g_open g)) (set_scans (S (g_next g)) (g_scans g ++ [text]) g).

(** [onKeydown] for a key that is ([submitKey]) or is not the submit key *)
Definition onKeydown (submitKey : bool) (g : gate) : gate :=
  if g_bypass g then (if submitKey then page_submit (g_window g) g else g)
  else
    match g_input g with
    | Some text => if submitKey then intercept text g else g
    | None => g
    end.

(** [onClick] for a click that hits ([onButton]) or misses the send button *)
Definition onClick (onButton : bool) (g : gate) : gate :=
  let hit := g_button g && onButton in
  if g_bypass g then (if hit then page_submit (g_window g) g else g)
  else if negb hit then g
  else match g_input g with Some text => intercept text g | None => g end.

(** [replay] for the call [n]: the synthetic click passes our own listener and reaches the page. *)
Definition replay (n : nat) (text : string) (d : xdecision) (answer : option bool) (g : gate) : gate :=
  let g1 := set_granted (<[n := (text, d, answer)]> (g_granted g)) (set_bypass true (S (g_timers g)) (Some n) g) in
  onClick true g1.

(** The rest of [decide] once the scan has settled *)
Definition onScanned (n : nat) (text : string) (r : result error xdecision) (g : gate) : gate :=
  let g1 := set_open (delete n (g_open g)) g in
  match r with
  | Err _ => emit [BlockNotice None (Some (JStr "agent unavailable; prompt blocked")) []] g1
  | Ok d =>
      match on_decision d with
      | Replays effects => replay n text d None (emit effects g1)
      | Stops effects => emit effects g1
      | Asks modal eventId => emit [modal] (set_open (<[n := Asking text d eventId]> (g_open g)) g)
      | Throws => g1
      end
  end.

(** ... and once the user has answered the dialog *)
Definition onAnswered (n : nat) (text : string) (d : xdecision) (eventId : option json) (proceed : bool) (g : gate) : gate :=
  let g1 := emit [Ack eventId proceed] (set_open (delete n (g_open g)) g) in
  if proceed then replay n text d (Some true) g1 else g1.

Inductive gevent :=
| GKeydown (submitKey : bool)
| GClick (onButton : bool)
| GPage (input : option string) (button : bool)       (* the user edits, or the site redraws *)
| GScanned (n : nat) (text : string) (r : result error xdecision)
| GAnswered (n : nat) (text : string) (d : xdecision) (eventId : option json) (proceed : bool)
| GTimer.

Definition ghandle (ev : gevent) (g : gate) : gate :=
  match ev with
  | GKeydown submitKey => onKeydown submitKey g
  | GClick onButton => onClick onButton g
  | GPage input button => set_dom input button g
  | GScanned n text r => onScanned n text r g
  | GAnswered n text d eventId proceed => onAnswered n text d eventId proceed g
  | GTimer => set_bypass false (pred (g_timers g)) None g
  end.

Definition genabled (ev : gevent) (g : gate) : Prop :=
  match ev with
  | GScanned n text _ => g_open g !! n = Some (Scanning text)
  | GAnswered n text d eventId _ => g_open g !! n = Some (Asking text d eventId)
  | GTimer => (0 < g_timers g)%nat
  | _ => True
  end.

Inductive gstep (g : gate) (ev : gevent) : gate -> Prop :=
| gstep_intro : genabled ev g -> gstep g ev (ghandle ev g).

Definition gsteps : gate -> list gevent -> gate -> Prop := rtc_trace gstep.

(** ** What the policy promises *)

(** A prompt may be sent on the decision [d] and the user's answer [a]: an allow; or a warn that is
    not high risk, by its score when it has one and by its level otherwise, and that the user
    accepted, unless it is a low-level warn without a score. *)
Definition may_send (d : xdecision) (a : option bool) : Prop :=
  let get k := d ≫= json_get k in
  get "action" = Some (JStr "allow") \/
  get "action" = Some (JStr "warn") /\
  match get "riskScore" with
  | Some (JNum score) => num_gt score SEND_ANYWAY_THRESHOLD = false /\ a = Some true
  | _ =>
      get "riskLevel" <> Some (JStr "high") /\ get "riskLevel" <> Some (JStr "critical") /\
      (a = Some true \/ get "riskLevel" = Some (JStr "low"))
  end.

(** ** The decision table *)

Lemma is_str_spec s v : is_str s v = true <-> v = Some (JStr s).
Proof.
  destruct v as [[| | |t| |]|]; simpl; try (split; congruence).
  rewrite String.eqb_eq. split; [by intros ->|by intros [= ->]].
Qed.

Lemma warnTier_spec l :
  match warnTier l with
  | TierBlock => l = Some (JStr "high") \/ l = Some (JStr "critical")
  | TierNotice => l = Some (JStr "low")
  | TierPrompt => l <> Some (JStr "high") /\ l <> Some (JStr "critical") /\ l <> Some (JStr "low")
  end.
Proof.
  unfold warnTier. destruct (is_str "critical" l) eqn:E1; [apply is_str_spec in E1; simpl; auto|].
  destruct (is_str "high" l) eqn:E2; [apply is_str_spec in E2; simpl; auto|]. simpl.
  destruct (is_str "low" l) eqn:E3; [by apply is_str_spec|].
  split_and!; intros ->; discriminate.
Qed.

(** The table replays, or opens the dialog, exactly where the policy lets the prompt out. *)
Lemma on_decision_may_send d a :
  match on_decision d with
  | Replays _ => may_send d None /\ may_send d a
  | Asks _ _ => may_send d a <-> a = Some true
  | Stops _ => ~ may_send d a
  | Throws => distinctCategories d = None
  end.
Proof.
  unfold on_decision, may_send. destruct (distinctCategories d); [|done].
  destruct (is_str "allow" (d ≫= json_get "action")) eqn:E1; [apply is_str_spec in E1; auto|].
  assert (d ≫= json_get "action" <> Some (JStr "allow")) as N1 by (intros E; by rewrite E in E1).
  destruct (is_str "block" (d ≫= json_get "action")) eqn:E2; [apply is_str_spec in E2; rewrite E2; naive_solver|].
  destruct (is_str "warn" (d ≫= json_get "action")) eqn:E3.
  2:{ intros [?|[E _]]; [done|]. by rewrite E in E3. }
  apply is_str_spec in E3. rewrite E3. clear E1 E2 E3 N1.
  pose proof (warnTier_spec (d ≫= json_get "riskLevel")) as Ht.
  assert (forall P : Prop, (Some (JStr "warn") = Some (JStr "allow") \/ Some (JStr "warn") = Some (JStr "warn") /\ P) <-> P) as Hw
    by (intros P; split; [intros [E|[_ ?]]; [discriminate E|done]|auto]).
  destruct (d ≫= json_get "riskScore") as [[| |score| | |]|]; rewrite ?Hw.
  3:{ destruct (num_gt score SEND_ANYWAY_THRESHOLD); rewrite ?Hw; naive_solver. }
  all: destruct (warnTier (d ≫= json_get "riskLevel")); rewrite ?Hw; naive_solver congruence.
Qed.

(** ** The gate *)

Definition phase_text (p : phase) : string := match p with Scanning t | Asking t _ _ => t end.

Record gate_ok (g : gate) : Prop := {
  go_open : forall n ph, g_open g !! n = Some ph -> phase_text ph ∈ g_scans g /\
    match ph with Scanning _ => True | Asking _ d _ => exists m e, on_decision d = Asks m e end;
  go_granted : forall n s d a, g_granted g !! n = Some (s, d, a) -> s ∈ g_scans g /\ may_send d a;
  go_window : g_bypass g = true -> exists n, g_window g = Some n /\ is_Some (g_granted g !! n);
  go_page : forall t who, (t, who) ∈ g_page g ->
    (who = None /\ js_trim t = "") \/ exists n, who = Some n /\ is_Some (g_granted g !! n)
}.

Lemma page_submit_ok who g :
  (forall t, g_input g = Some t -> (who = None /\ js_trim t = "") \/ exists n, who = Some n /\ is_Some (g_granted g !! n)) ->
  gate_ok g -> gate_ok (page_submit who g).
Proof.
  unfold page_submit. destruct (g_input g) as [t|]; [|done]. intros Hw [Ho Hg Hb Hp]. split; simpl; auto.
  intros t' who' [Hin|Hin]%elem_of_app; [auto|]. apply list_elem_of_singleton in Hin. simplify_eq. auto.
Qed.

Lemma intercept_ok text g : g_input g = Some text -> gate_ok g -> gate_ok (intercept text g).
Proof.
  intros Hi Hg. unfold intercept. destruct (is_empty (js_trim text)) eqn:E.
  - apply page_submit_ok; [|done]. intros t Ht. left. apply is_empty_spec in E. by simplify_eq.
  - destruct Hg as [Ho Hgr Hb Hp]. split; simpl; auto.
    + intros n ph. destruct (decide (n = g_next g)) as [->|].
      * rewrite lookup_insert_eq. intros [= <-]. simpl. split; [set_solver|done].
      * rewrite lookup_insert_ne by done. intros Hn. destruct (Ho n ph Hn). split; [set_solver|done].
    + intros n s d a Hn. destruct (Hgr n s d a Hn). split; [set_solver|done].
Qed.

Lemma onClick_ok onButton g : gate_ok g -> gate_ok (onClick onButton g).
Proof.
  intros Hg. unfold onClick. destruct (g_bypass g) eqn:Eb.
  - destruct (_ && _); [|done]. apply page_submit_ok; [|done]. intros t _. right.
    destruct (go_window _ Hg Eb) as (n & -> & ?). eauto.
  - destruct (negb _); [done|]. destruct (g_input g) eqn:Ei; [by apply intercept_ok|done].
Qed.

Lemma onKeydown_ok submitKey g : gate_ok g -> gate_ok (onKeydown submitKey g).
Proof.
  intros Hg. unfold onKeydown. destruct (g_bypass g) eqn:Eb.
  - destruct submitKey; [|done]. apply page_submit_ok; [|done]. intros t _. right.
    destruct (go_window _ Hg Eb) as (n & -> & ?). eauto.
  - destruct (g_input g) eqn:Ei; [|done]. destruct submitKey; [by apply intercept_ok|done].
Qed.

(** Steps that only close a call or record effects. *)
Lemma closed_ok n l g : gate_ok g -> gate_ok (emit l (set_open (delete n (g_open g)) g)).
Proof.
  intros [Ho Hg Hb Hp]. split; simpl; auto. intros m ph. rewrite lookup_delete_Some. naive_solver.
Qed.

Lemma replay_ok n text d a g : text ∈ g_scans g -> may_send d a -> gate_ok g -> gate_ok (replay n text d a g).
Proof.
  intros Ht Hm [Ho Hg Hb Hp]. unfold replay. apply onClick_ok. split; simpl; auto.
  - intros m s d' a'. destruct (decide (m = n)) as [->|].
    + rewrite lookup_insert_eq. by intros [= <- <- <-].
    + rewrite lookup_insert_ne by done. apply Hg.
  - intros _. exists n. rewrite lookup_insert_eq. eauto.
  - intros t who Hin. destruct (Hp t who Hin) as [?|(m & -> & Hm')]; [auto|right]. exists m. split; [done|].
    rewrite lookup_insert. case_decide; [eauto|done].
Qed.

Lemma gstep_ok g ev g' : gate_ok g -> gstep g ev g' -> gate_ok g'.
Proof.
  intros Hg [Hen]. destruct ev as [submitKey|onButton|input button|n text r|n text d eventId proceed|]; cbn [ghandle].
  - by apply onKeydown_ok.
  - by apply onClick_ok.
  - destruct Hg. by split.
  - destruct (go_open _ Hg _ _ Hen) as [Ht _]. unfold onScanned. destruct r as [d|e]; [|by apply closed_ok].
    pose proof (on_decision_may_send d None) as Hd. destruct (on_decision d) as [effects|effects|modal eventId|] eqn:Ed.
    + apply replay_ok; [done|apply Hd|by apply closed_ok].
    + by apply closed_ok.
    + destruct Hg as [Ho Hgr Hb Hp]. split; simpl; auto. intros m ph.
      destruct (decide (m = n)) as [->|]; [rewrite lookup_insert_eq; intros [= <-]; split; [exact Ht|by exists modal, eventId]|].
      rewrite lookup_insert_ne by done. apply Ho.
    + pose proof (closed_ok n [] g Hg) as Hc. unfold emit in Hc. destruct Hc as [? ? ? ?]. by split.
  - destruct (go_open _ Hg _ _ Hen) as [Ht (m & e & Ed)]. unfold onAnswered.
    destruct proceed; [|by apply closed_ok]. apply replay_ok; [done| |by apply closed_ok].
    pose proof (on_decision_may_send d (Some true)) as Hd. rewrite Ed in Hd. by apply Hd.
  - destruct Hg. by split.
Qed.

Lemma gate_init_ok input button : gate_ok (gate_init input button).
Proof.
  split; unfold gate_init; cbn [g_open g_granted g_page g_bypass].
  - intros n ph E. by apply lookup_empty_Some in E.
  - intros n s d a E. by apply lookup_empty_Some in E.
  - done.
  - intros t who Hin. by apply elem_of_nil in Hin.
Qed.

Lemma gsteps_ok input button evs g : gsteps (gate_init input button) evs g -> gate_ok g.
Proof. apply rtc_trace_invariant; [eauto using gstep_ok|apply gate_init_ok]. Qed.

(** *** Without edits *)

(** Every text the gate or the page handles is the one in the input. *)
Record unedited (i : option string) (g : gate) : Prop := {
  un_input : g_input g = i;
  un_open : forall n ph, g_open g !! n = Some ph -> i = Some (phase_text ph);
  un_granted : forall n s d a, g_granted g !! n = Some (s, d, a) -> i = Some s;
  un_page : forall t who, (t, who) ∈ g_page g -> i = Some t
}.

Lemma page_submit_unedited i who g : unedited i g -> unedited i (page_submit who g).
Proof.
  intros [Hi Ho Hg Hp]. unfold page_submit. destruct (g_input g) as [t|] eqn:E; [|by split; [congruence|..]].
  split; simpl; [congruence|done|done|]. intros t' who' [Hin|Hin]%elem_of_app; [by eapply Hp|].
  apply list_elem_of_singleton in Hin. by simplify_eq.
Qed.

Lemma intercept_unedited i text g : g_input g = Some text -> unedited i g -> unedited i (intercept text g).
Proof.
  intros E Hu. unfold intercept. destruct (is_empty _); [by apply page_submit_unedited|].
  destruct Hu as [Hi Ho Hg Hp]. split; simpl; [done| |done|done]. intros n ph.
  destruct (decide (n = g_next g)) as [->|]; [rewrite lookup_insert_eq; intros [= <-]; simpl; congruence|].
  rewrite lookup_insert_ne by done. apply Ho.
Qed.

Lemma onClick_unedited i onButton g : unedited i g -> unedited i (onClick onButton g).
Proof.
  intros Hu. unfold onClick. destruct (g_bypass g); [destruct (_ && _); [by apply page_submit_unedited|done]|].
  destruct (negb _); [done|]. destruct (g_input g) eqn:E; [by apply intercept_unedited|done].
Qed.

Lemma closed_unedited i n l g : unedited i g -> unedited i (emit l (set_open (delete n (g_open g)) g)).
Proof. intros [Hi Ho Hg Hp]. split; simpl; [done| |done|done]. intros m ph. rewrite lookup_delete_Some. intros [_ ?]. by eapply Ho. Qed.

Lemma replay_unedited i n text d a g : i = Some text -> unedited i g -> unedited i (replay n text d a g).
Proof.
  intros Ht [Hi Ho Hg Hp]. unfold replay. apply onClick_unedited. split; simpl; [done|done| |done].
  intros m s d' a'. destruct (decide (m = n)) as [->|]; [rewrite lookup_insert_eq; by intros [= <- <- <-]|].
  rewrite lookup_insert_ne by done. apply Hg.
Qed.

Lemma gstep_unedited i g ev g' : (forall x y, ev <> GPage x y) -> unedited i g -> gstep g ev g' -> unedited i g'.
Proof.
  intros Hne Hu [Hen]. destruct ev as [submitKey|onButton|input button|n text r|n text d eventId proceed|]; cbn [ghandle].
  - unfold onKeydown. destruct (g_bypass g); [destruct submitKey; [by apply page_submit_unedited|done]|].
    destruct (g_input g) eqn:E; [|done]. destruct submitKey; [by apply intercept_unedited|done].
  - by apply onClick_unedited.
  - by destruct (Hne input button).
  - pose proof (un_open _ _ Hu _ _ Hen) as Ht. unfold onScanned. destruct r as [d|e]; [|by apply closed_unedited].
    destruct (on_decision d) as [effects|effects|modal eventId|].
    + apply replay_unedited; [done|by apply closed_unedited].
    + by apply closed_unedited.
    + destruct Hu as [Hi Ho Hg Hp]. split; simpl; [done| |done|done]. intros m ph.
      destruct (decide (m = n)) as [->|]; [rewrite lookup_insert_eq; by intros [= <-]|].
      rewrite lookup_insert_ne by done. apply Ho.
    + pose proof (closed_unedited i n [] g Hu) as [? ? ? ?]. by split.
  - pose proof (un_open _ _ Hu _ _ Hen) as Ht. unfold onAnswered. destruct proceed; [|by apply closed_unedited].
    apply replay_unedited; [done|by apply closed_unedited].
  - destruct Hu. by split.
Qed.

Lemma gsteps_unedited i g evs g' :
  (forall x y, GPage x y ∉ evs) -> unedited i g -> gsteps g evs g' -> unedited i g'.
Proof.
  intros Hne Hu Hs. induction Hs as [g|g ev g1 evs g2 Hstep _ IH]; [done|]. apply IH.
  - intros x y Hin. apply (Hne x y). by right.
  - eapply gstep_unedited; [|done..]. intros x y ->. apply (Hne x y). by left.
Qed.

Lemma gate_init_unedited input button : unedited input (gate_init input button).
Proof.
  split; unfold gate_init; cbn [g_input g_open g_granted g_page].
  - done.
  - intros n ph E. by apply lookup_empty_Some in E.
  - intros n s d a E. by apply lookup_empty_Some in E.
  - intros t who Hin. by apply elem_of_nil in Hin.
Qed.

(** ** Properties *)

(** Complete mediation.  Whatever the user, the page, the scans and the timers do, a prompt the page
    sends is blank, or it was sent inside the one-shot window of a replay, and that replay belongs to
    an intercepted prompt that was scanned and whose decision, with the user's answer, permits
    sending: no decision, an unknown action, a block or a high-risk warn never opens the window. *)
Theorem gate_mediation input button evs g t who :
  gsteps (gate_init input button) evs g -> (t, who) ∈ g_page g ->
  (who = None /\ js_trim t = "") \/
  exists n s d a, who = Some n /\ g_granted g !! n = Some (s, d, a) /\ s ∈ g_scans g /\ may_send d a.
Proof.
  intros Hok%gsteps_ok Hin. destruct (go_page _ Hok t who Hin) as [?|(n & -> & [[s d] a] & Hg)]; [auto|right].
  exists n, s, d, a. destruct (go_granted _ Hok _ _ _ _ Hg). auto.
Qed.

(** As long as the prompt is not edited, what the page sends is what was scanned: in a run in which
    the input does not change, a prompt sent in the window of a replay is the text that replay's
    decision is about. *)
Theorem gate_sends_scanned input button evs g t n s d a :
  gsteps (gate_init input button) evs g -> (forall x y, GPage x y ∉ evs) ->
  (t, Some n) ∈ g_page g -> g_granted g !! n = Some (s, d, a) -> t = s /\ t ∈ g_scans g.
Proof.
  intros Hs Hne Hin Hg. pose proof (gsteps_ok _ _ _ _ Hs) as Hok.
  destruct (gsteps_unedited input _ _ _ Hne (gate_init_unedited input button) Hs) as [_ _ Hgr Hp].
  apply Hp in Hin. pose proof (Hgr _ _ _ _ Hg). destruct (go_granted _ Hok _ _ _ _ Hg). by simplify_eq.
Qed.

(** The decision is about the text at the time of the key press, but the replay sends the text of
    the input at the time of the decision: a prompt edited while its scan is under way is sent
    without ever having been scanned. *)
Theorem gate_edit_race t t' d :
  js_trim t <> "" -> on_decision d = Replays [] ->
  exists g, gsteps (gate_init (Some t) true) [GKeydown true; GPage (Some t') true; GScanned 0 t (Ok d)] g /\
    g_page g = [(t', Some 0%nat)] /\ g_scans g = [t].
Proof.
  intros Ht Hd. assert (is_empty (js_trim t) = false) as He.
  { destruct (is_empty (js_trim t)) eqn:E; [by apply is_empty_spec in E|done]. }
  assert (ghandle (GKeydown true) (gate_init (Some t) true) =
          mkGate false 0 (Some t) true (<[0%nat := Scanning t]> ∅) 1 [t] [] None ∅ []) as E1
    by (cbn; unfold intercept; by rewrite He).
  eexists. split.
  - apply (along_trace genabled ghandle); [by constructor|]. cbn [enabled_along]. rewrite E1. split_and!; [done|done| |done].
    apply lookup_insert_eq.
  - cbn [fold_left]. rewrite E1. cbn [ghandle set_dom]. unfold onScanned. rewrite Hd. done.
Qed.

(** ** Examples *)

Definition allow_decision : xdecision := Some (JObj [("action", JStr "allow"); ("findings", JArr [])]).
Definition warn_decision : xdecision :=
  Some (JObj [("action", JStr "warn"); ("riskLevel", JStr "medium"); ("requestId", JStr "r"); ("findings", JArr [])]).

(** A warned prompt the user sends anyway, and an Enter in the window the replay opened. *)
Definition warned_run : list gevent :=
  [GKeydown true; GScanned 0 "hi" (Ok warn_decision); GAnswered 0 "hi" warn_decision (Some (JStr "r")) true; GKeydown true; GTimer].
Definition after_warned : gate := fold_left (fun g ev => ghandle ev g) warned_run (gate_init (Some "hi") true).

Lemma warned_steps : gsteps (gate_init (Some "hi") true) warned_run after_warned.
Proof.
  apply (along_trace genabled ghandle); [by constructor|]. unfold warned_run. cbn [enabled_along].
  split_and!; try exact I; try (vm_compute; reflexivity); apply (bool_decide_unpack _); vm_compute; exact I.
Qed.

Lemma gate_mediation_witness :
  g_page after_warned = [("hi", Some 0%nat); ("hi", Some 0%nat)] /\
  exists n s d a, Some 0%nat = Some n /\ g_granted after_warned !! n = Some (s, d, a) /\ s ∈ g_scans after_warned /\ may_send d a.
Proof.
  split; [reflexivity|].
  destruct (gate_mediation (Some "hi") true warned_run after_warned "hi" (Some 0%nat) warned_steps) as [[E _]|H].
  - apply (bool_decide_unpack _). vm_compute. exact I.
  - discriminate E.
  - exact H.
Defined.

Lemma gate_sends_scanned_witness : "hi" = "hi" /\ "hi" ∈ g_scans after_warned.
Proof.
  apply (gate_sends_scanned (Some "hi") true warned_run after_warned "hi" 0 "hi" warn_decision (Some true) warned_steps).
  - intros x y. unfold warned_run. rewrite !elem_of_cons, elem_of_nil. intros Hin. repeat destruct Hin as [Hin|Hin]; discriminate Hin || destruct Hin.
  - apply (bool_decide_unpack _). vm_compute. exact I.
  - reflexivity.
Defined.

Lemma gate_edit_race_witness :
  exists g, gsteps (gate_init (Some "hi") true) [GKeydown true; GPage (Some "secret") true; GScanned 0 "hi" (Ok allow_decision)] g /\
    g_page g = [("secret", Some 0%nat)] /\ g_scans g = ["hi"].
Proof. apply (gate_edit_race "hi" "secret" allow_decision); [vm_compute; discriminate|reflexivity]. Defined.
