(* ===== verification/ExtUpload.v ===== *)
(** * Uploads and sites: [upload-policy.ts], [page-hook.ts], the relay of [content-script.ts], [adapters/]

    The page hook replaces [window.fetch]: it extracts the files of a request body, asks the content
    script for a verdict on each and lets the request through unless one is refused.  A [Blob] is its
    size, type and bytes ([None] when [arrayBuffer] rejects); the verdict channel is a function of
    the file, [None] when no answer comes before the timeout. *)

From S2P Require Import Prelude Base64 Json Resilience ExtTransport ExtGate.

(** ** [upload-policy.ts] *)

Definition MAX_UPLOAD_BYTES : Z := 10 * 1024 * 1024.

(** [None]: reading [decision.action] throws. *)
Definition shouldBlockUpload (d : xdecision) : option bool :=
  match d with
  | None | Some JNull => None
  | Some v =>
      if is_str "block" (json_get "action" v) then Some true
      else if is_str "warn" (json_get "action" v) then
        let score := match json_get "riskScore" v with Some (JNum n) => n | _ => NInt 0 end in
        Some (num_gt score SEND_ANYWAY_THRESHOLD)
      else Some false
  end.

Record Blob := mkBlob {
  b_size : Z;
  b_type : string;
  b_bytes : option chars
}.

Record UploadFile := mkUpload {
  uf_blob : Blob;
  uf_name : string
}.

Inductive form_value :=
| FormText (s : string)
| FormFile (blob : Blob) (name : string).

Inductive fetch_body :=
| BodyForm (values : list form_value)
| BodyFile (blob : Blob) (name : string)
| BodyBlob (blob : Blob)
| BodyOther.

Definition or_upload (name : string) : string := if is_empty name then "upload" else name.

Definition extractUploadFiles (body : fetch_body) : list UploadFile :=
  match body with
  | BodyForm values =>
      omap (fun v => match v with FormFile blob name => Some (mkUpload blob (or_upload name)) | FormText _ => None end) values
  | BodyFile blob name => [mkUpload blob (or_upload name)]
  | BodyBlob blob => [mkUpload blob "upload.bin"]
  | BodyOther => []
  end.

(** The loop with chunks of [chunk] bytes: every turn but the last appends a chunk, so one turn per
    byte is enough fuel. *)
Fixpoint binary_loop (chunk fuel : nat) (bytes binary : chars) : chars :=
  match fuel, bytes with
  | _, [] | O, _ => binary
  | S f, _ => binary_loop chunk f (drop chunk bytes) (binary ++ take chunk bytes)
  end.

Definition bytesToBase64 (bytes : chars) : string :=
  of_chars (btoa (binary_loop (Z.to_nat 32768) (List.length bytes) bytes [])).

(** [Ok None]: too large; [Err]: the file cannot be read. *)
Definition encodeUploadFile (file : UploadFile) (maxBytes : Z) : result error (option ScanFile) :=
  if maxBytes <? b_size (uf_blob file) then Ok None
  else
    match b_bytes (uf_blob file) with
    | None => Err (OtherError "NotReadableError" "")
    | Some bytes =>
        Ok (Some (mkScanFile (uf_name file)
                    (if is_empty (b_type (uf_blob file)) then None else Some (b_type (uf_blob file)))
                    (bytesToBase64 bytes)))
    end.

(** ** The relay of [content-script.ts]

    The verdict posted for a file when the background answers [reply]. *)
Definition relay (reply : result error xdecision) (file : ScanFile) : bool :=
  if is_empty (sf_base64 file) || is_empty (sf_name file) then true
  else
    match reply with
    | Err _ => true
    | Ok d =>
        match shouldBlockUpload d with
        | None => true
        | Some false => true
        | Some true => match distinctCategories d with None => true | Some _ => false end
        end
    end.

(** ** [page-hook.ts] *)

Definition VERDICT_TIMEOUT_MS : Z := 8000.

(** [requestVerdict] *)
Definition requestVerdict (verdict : ScanFile -> option bool) (file : ScanFile) : bool := default true (verdict file).

(** The [for] loop of [patchedFetch]: does the request go out? *)
Fixpoint upload_loop (verdict : ScanFile -> option bool) (files : list UploadFile) : bool :=
  match files with
  | [] => true
  | f :: fs =>
      match encodeUploadFile f MAX_UPLOAD_BYTES with
      | Err _ => true
      | Ok None => upload_loop verdict fs
      | Ok (Some encoded) => if requestVerdict verdict encoded then upload_loop verdict fs else false
      end
  end.

Definition patchedFetch (verdict : ScanFile -> option bool) (body : fetch_body) : bool :=
  upload_loop verdict (extractUploadFiles body).

(** ** [adapters/common.ts] and [adapters/registry.ts] *)

Record KeyboardEvent := mkKey {
  key : string; shiftKey : bool; ctrlKey : bool; metaKey : bool; altKey : bool; isComposing : bool
}.

Definition isPlainEnter (e : KeyboardEvent) : bool :=
  String.eqb (key e) "Enter" && negb (shiftKey e) && negb (ctrlKey e) && negb (metaKey e) && negb (altKey e)
  && negb (isComposing e).

(** The part of a [SiteAdapter] that is data *)
Record SiteAdapter := mkAdapter {
  sa_id : string;
  sa_provider : string;
  hostPatterns : list string
}.

Definition openaiAdapter : SiteAdapter := mkAdapter "openai" "openai" ["chatgpt.com"; "chat.openai.com"].
Definition anthropicAdapter : SiteAdapter := mkAdapter "anthropic" "anthropic" ["claude.ai"].
Definition geminiAdapter : SiteAdapter := mkAdapter "gemini" "google" ["gemini.google.com"].
Definition perplexityAdapter : SiteAdapter := mkAdapter "perplexity" "perplexity" ["perplexity.ai"; "www.perplexity.ai"].

Definition PROVIDERS : list SiteAdapter := [openaiAdapter; anthropicAdapter; geminiAdapter; perplexityAdapter].

(** [s.endsWith(p)] *)
Definition ends_with (p s : string) : bool :=
  (String.length p <=? String.length s)%nat && String.eqb (slice_from (String.length s - String.length p) s) p.

Definition host_matches (host pattern : string) : bool := String.eqb host pattern || ends_with ("." +:+ pattern) host.

Definition matchAdapter (host : string) : option SiteAdapter :=
  find (fun a => existsb (host_matches host) (hostPatterns a)) PROVIDERS.

(** ** Uploads *)

Lemma binary_loop_app chunk fuel bytes binary :
  (0 < chunk)%nat -> (List.length bytes <= fuel)%nat -> binary_loop chunk fuel bytes binary = binary ++ bytes.
Proof.
  intros HC. revert bytes binary. induction fuel as [|f IH]; intros bytes binary Hl.
  - destruct bytes; [simpl; by rewrite app_nil_r|simpl in Hl; lia].
  - destruct bytes as [|x bytes]; [simpl; by rewrite app_nil_r|]. cbn [binary_loop].
    rewrite IH; [by rewrite <- app_assoc, take_drop|]. rewrite length_drop. simpl in *. lia.
Qed.

(** The chunks do not show. *)
Lemma bytesToBase64_spec bytes : bytesToBase64 bytes = of_chars (btoa bytes).
Proof. unfold bytesToBase64. rewrite binary_loop_app; [done|exact (Pos2Nat.is_pos 32768)|done]. Qed.

Lemma relay_spec reply file :
  relay reply file = false <->
  sf_base64 file <> "" /\ sf_name file <> "" /\
  exists d, reply = Ok d /\ shouldBlockUpload d = Some true /\ distinctCategories d <> None.
Proof.
  unfold relay. destruct (is_empty (sf_base64 file)) eqn:E1; simpl.
  { apply is_empty_spec in E1. naive_solver. }
  destruct (is_empty (sf_name file)) eqn:E2; simpl.
  { apply is_empty_spec in E2. naive_solver. }
  assert (sf_base64 file <> "" /\ sf_name file <> "") as [N1 N2].
  { split; intros E; rewrite E in *; discriminate. }
  destruct reply as [d|e]; [|naive_solver].
  destruct (shouldBlockUpload d) as [[]|] eqn:Eb; [|naive_solver..].
  destruct (distinctCategories d) eqn:Ec; [|naive_solver]. split; [|done]. intros _. split_and!; [done..|].
  exists d. split_and!; [done..|congruence].
Qed.

(** A file of the request that the hook has scanned and been refused. *)
Definition refused (verdict : ScanFile -> option bool) (f : UploadFile) : Prop :=
  exists sf, encodeUploadFile f MAX_UPLOAD_BYTES = Ok (Some sf) /\ verdict sf = Some false.

Definition readable (f : UploadFile) : Prop := isOk (encodeUploadFile f MAX_UPLOAD_BYTES) = true.

Lemma upload_loop_spec verdict files :
  upload_loop verdict files = false <->
  exists pre f post, files = pre ++ f :: post /\ Forall readable pre /\ refused verdict f.
Proof.
  induction files as [|f fs IH]; simpl.
  - split; [done|]. intros (pre & f & post & E & _). by destruct pre.
  - assert (readable f -> ~ refused verdict f ->
            ((exists pre f' post, f :: fs = pre ++ f' :: post /\ Forall readable pre /\ refused verdict f') <->
             upload_loop verdict fs = false)) as Hskip.
    { intros Hr Hn. rewrite IH. split.
      - intros (pre & f' & post & E & Hp & Hf). destruct pre as [|p pre]; simplify_eq/=; [done|].
        inv Hp. eauto 10.
      - intros (pre & f' & post & -> & Hp & Hf). exists (f :: pre), f', post. split_and!; [done|by constructor|done]. }
    unfold readable, refused in Hskip. unfold readable, refused.
    destruct (encodeUploadFile f MAX_UPLOAD_BYTES) as [[sf|]|e] eqn:Ee; simpl in Hskip.
    + unfold requestVerdict. destruct (verdict sf) as [[]|] eqn:Ev; simpl.
      * rewrite Hskip; [done..|]. intros (sf' & [= <-] & ?). congruence.
      * split; [|done]. intros _. exists [], f, fs. split_and!; [done|constructor|eauto].
      * rewrite Hskip; [done..|]. intros (sf' & [= <-] & ?). congruence.
    + rewrite Hskip; [done..|]. intros (sf' & ? & ?). congruence.
    + split; [done|]. intros (pre & f' & post & E & Hp & sf & Hf & _). destruct pre as [|p pre]; simplify_eq/=; [congruence|].
      inv Hp. by rewrite Ee in *.
Qed.

(** ** Sites *)

Lemma substring_all s : String.substring 0 (String.length s) s = s.
Proof. induction s as [|c s IH]; simpl; [done|by rewrite IH]. Qed.

Lemma substring_prefix_suffix n s :
  (n <= String.length s)%nat -> s = String.substring 0 n s +:+ String.substring n (String.length s - n) s.
Proof.
  revert n. induction s as [|c s IH]; intros n Hn; [by destruct n|].
  destruct n as [|n]; simpl in *; [by rewrite substring_all|].
  change (String c s = String c (String.substring 0 n s +:+ String.substring n (String.length s - n) s)).
  f_equal. apply IH. lia.
Qed.

Lemma ends_with_spec p s : ends_with p s = true -> exists q, s = q +:+ p.
Proof.
  unfold ends_with, slice_from. intros [Hl He]%andb_true_iff. apply Nat.leb_le in Hl. apply String.eqb_eq in He.
  exists (String.substring 0 (String.length s - String.length p) s).
  rewrite (substring_prefix_suffix (String.length s - String.length p) s) at 1 by lia. f_equal.
  replace (String.length s - (String.length s - String.length p))%nat with (String.length p) in He by lia.
  by replace (String.length s - (String.length s - String.length p))%nat with (String.length p) by lia.
Qed.

(** ** Properties *)

(** An upload is stopped exactly when policy refuses one of its files: the hook withholds the
    request iff some file, after files that could all be read, is within the size cap, is not empty,
    and the background's decision on it is a block or a warn over the risk threshold with a list of
    findings.  In every other case, also when the pipeline fails, the request goes out. *)
Theorem upload_stopped_iff reply body :
  patchedFetch (fun f => Some (relay (reply f) f)) body = false <->
  exists pre f post sf d, extractUploadFiles body = pre ++ f :: post /\ Forall readable pre /\
    encodeUploadFile f MAX_UPLOAD_BYTES = Ok (Some sf) /\ sf_base64 sf <> "" /\ sf_name sf <> "" /\
    reply sf = Ok d /\ shouldBlockUpload d = Some true /\ distinctCategories d <> None.
Proof.
  unfold patchedFetch. rewrite upload_loop_spec. split.
  - intros (pre & f & post & E & Hp & sf & Hf & [= Hr]). apply relay_spec in Hr as (? & ? & d & ? & ? & ?).
    exists pre, f, post, sf, d. auto 10.
  - intros (pre & f & post & sf & d & E & Hp & Hf & ? & ? & ? & ? & ?). exists pre, f, post. split_and!; [done..|].
    exists sf. split; [done|]. f_equal. apply relay_spec. eauto 10.
Qed.

(** The gate is installed exactly on the sites it names: the adapter chosen for a host is one of
    the registry, and the host is one of its patterns or a subdomain of one; no look-alike host
    that merely contains or ends in the name of a site is matched. *)
Theorem match_adapter_sound host a :
  matchAdapter host = Some a ->
  a ∈ PROVIDERS /\ exists p, p ∈ hostPatterns a /\ (host = p \/ exists sub, host = sub +:+ "." +:+ p).
Proof.
  unfold matchAdapter. intros [Hin Hm]%find_some. split; [by apply list_elem_of_In|].
  apply existsb_exists in Hm as (p & Hp & Hm). exists p. split; [by apply list_elem_of_In|].
  unfold host_matches in Hm. apply orb_true_iff in Hm as [E%String.eqb_eq|E]; [auto|right]. by apply ends_with_spec.
Qed.

Lemma match_adapter_sound_witness :
  matchAdapter "www.chatgpt.com" = Some openaiAdapter /\ openaiAdapter ∈ PROVIDERS /\ matchAdapter "evilchatgpt.com" = None.
Proof.
  split; [reflexivity|]. split; [|reflexivity].
  apply (match_adapter_sound "www.chatgpt.com" openaiAdapter). reflexivity.
Defined.
