(* ===== verification/ExtHttp.v ===== *)
(** * The HTTP transport of the extension: [backend/http-client.ts] and [background/transports/http.ts]

    The extension's storage is a map of JSON values; [fetch] is a parameter over a state of the world,
    as are the facts the browser gives about itself.  [scanViaHttp] calls itself after a 401 or 403
    without a bound: it takes fuel, and running out of fuel is a promise that has not settled. *)

From S2P Require Import Prelude Json JsonText Enums Decision Resilience ExtTransport ExtGate ExtUpload.

(** ** Constants *)

Definition DEFAULT_BACKEND_URL : string := "http://localhost:8080".
Definition DEFAULT_ORG_ID : string := "local-org".
Definition DEFAULT_ROLE : string := "device".
Definition DEVICE_ID_KEY : string := "vg_device_id".
Definition DEVICE_TOKEN_KEY : string := "vg_device_token".
Definition BACKEND_URL_KEY : string := "vg_backend_url".
Definition ORG_ID_KEY : string := "vg_org_id".

(** ** The world *)

Record http_request := mkReq {
  req_url : string;
  req_headers : list (string * string);
  req_body : json
}.

(** [resp_json] is [None] when [response.json()] rejects. *)
Record http_response := mkResp {
  resp_status : Z;
  resp_json : option json
}.

Definition resp_ok (r : http_response) : bool := (200 <=? resp_status r) && (resp_status r <=? 299).

(** UA client hints: [hint_*] are [undefined] or a string. *)
Record UaHints := mkHints { hint_platform : option string; hint_platformVersion : option string; hint_model : option string }.

(** What the browser says about itself.  [chromeVersion] is the match of [/Chrome\/([\d.]+)/] in the
    user agent; [hints] is [None] without the API and [Some None] when it rejects. *)
Record browser_facts := mkBrowser {
  runtime_id : string;
  chromeVersion : option string;
  manifestVersion : option string;
  hints : option (option UaHints)
}.

Record ext (W : Type) := mkExt {
  x_storage : gmap string json;
  x_draws : nat;
  x_world : W
}.
Arguments mkExt {W} _ _ _.
Arguments x_storage {W} _.
Arguments x_draws {W} _.
Arguments x_world {W} _.

(** [v ?? d] *)
Definition or_default (v : option json) (d : string) : json :=
  match v with None | Some JNull => JStr d | Some w => w end.

Definition json_opt_str (s : option string) : option json := JStr <$> s.

Section http.
Context {W : Type} (fetch : http_request -> async W http_response) (facts : browser_facts).
Context (suffix : nat -> string).       (* Math.random().toString(36).substring(2, 8) *)
Context (now : Z).

Abbreviation call := (async (ext W)).

Definition do_fetch (r : http_request) : call http_response := fun x =>
  let '(resp, w) := fetch r (x_world x) in (resp, mkExt (x_storage x) (x_draws x) w).

Definition getStorageValue (key : string) : call (option json) := fun x => (Settles 0 (Ok (x_storage x !! key)), x).

(** Storing [undefined] stores nothing. *)
Definition setStorageValue (key : string) (v : option json) : call unit := fun x =>
  (Settles 0 (Ok tt),
   mkExt (match v with Some j => <[key := j]> (x_storage x) | None => x_storage x end) (x_draws x) (x_world x)).

Record BackendConfig := mkConfig { backendUrl : json; orgId : json }.

Definition getConfig : call BackendConfig :=
  url ← getStorageValue BACKEND_URL_KEY;
  org ← getStorageValue ORG_ID_KEY;
  mret (mkConfig (or_default url DEFAULT_BACKEND_URL) (or_default org DEFAULT_ORG_ID)).

(** ** Registration *)

Definition generateDeviceId : call string := fun x =>
  (Settles 0 (Ok ("ext-" +:+ slice_to 8 (runtime_id facts) +:+ "-" +:+ suffix (x_draws x))),
   mkExt (x_storage x) (S (x_draws x)) (x_world x)).

Definition collectDeviceFacts : list (string * json) :=
  match hints facts with
  | Some (Some hi) =>
      (match hint_platform hi, hint_platformVersion hi with
       | Some p, Some v => if is_empty p || is_empty v then [] else [("os_version", JStr (p +:+ " " +:+ v))]
       | _, _ => []
       end) ++
      (match hint_model hi with Some m => if is_empty m then [] else [("model", JStr m)] | None => [] end)
  | _ => []
  end.

Definition registration_body (deviceId : string) : json :=
  JObj
    ([("device_id", JStr deviceId);
      ("hostname", JStr ("chrome-ext-" +:+ slice_to 8 (runtime_id facts)));
      ("platform", JStr ("chrome/" +:+ default "unknown" (chromeVersion facts)));
      ("agent_version", JStr (default "0.1.0" (manifestVersion facts)))] ++ collectDeviceFacts).

(** [errBody.error?.message ?? errorMsg], the exceptions of the [try] block ignored *)
Definition http_error_message (r : http_response) : string :=
  let msg := "HTTP " +:+ show_Z (resp_status r) in
  match resp_json r with
  | None | Some JNull => msg
  | Some b =>
      match json_get "error" b with
      | None | Some JNull => msg
      | Some e => json_string (or_default (json_get "message" e) msg)
      end
  end.

(** [(await response.json()).k]: the exceptions of a body that does not parse or is null *)
Definition field_of_json (k : string) (r : http_response) : result error (option json) :=
  match resp_json r with
  | None => Err (OtherError "SyntaxError" "")
  | Some JNull => Err (OtherError "TypeError" "")
  | Some b => Ok (json_get k b)
  end.

Definition registerDevice : call (option json) :=
  config ← getConfig;
  deviceId ← generateDeviceId;
  _ ← setStorageValue DEVICE_ID_KEY (Some (JStr deviceId));
  response ← do_fetch
    (mkReq (json_string (backendUrl config) +:+ "/devices/register")
       [("Content-Type", "application/json"); ("x-vg-org-id", json_string (orgId config));
        ("x-device-id", deviceId); ("x-vg-role", DEFAULT_ROLE)]
       (registration_body deviceId));
  if negb (resp_ok response) then throw (failure ("Device registration failed: " +:+ http_error_message response))
  else
    token ← lift (field_of_json "access_token" response);
    _ ← setStorageValue DEVICE_TOKEN_KEY token;
    mret token.

(** ** Scans *)

Definition file_json (f : ScanFile) : json :=
  JObj ([("name", JStr (sf_name f))] ++ (match sf_mime f with Some m => [("mime", JStr m)] | None => [] end)
        ++ [("content_base64", JStr (sf_base64 f))]).

(** [body.files] is set only for a non-empty list. *)
Definition scan_body (text : string) (context : json) (files : list ScanFile) : json :=
  JObj ([("text", JStr text); ("context", context)] ++
        match files with [] => [] | _ => [("files", JArr (map file_json files))] end).

(** The token and the device id, registering when there is no token *)
Definition credentials : call (option json * json) :=
  stored ← getStorageValue DEVICE_TOKEN_KEY;
  device ← getStorageValue DEVICE_ID_KEY;
  token ← (if opt_truthy stored then mret stored else registerDevice);
  deviceId ← (if opt_truthy device then mret (default JNull device)
              else d ← getStorageValue DEVICE_ID_KEY; mret (or_default d "ext-unknown"));
  mret (token, deviceId).

Definition auth_headers (config : BackendConfig) (token : option json) (deviceId : json) : list (string * string) :=
  [("Content-Type", "application/json"); ("Authorization", "Bearer " +:+ js_string token);
   ("x-vg-org-id", json_string (orgId config)); ("x-device-id", json_string deviceId); ("x-vg-role", DEFAULT_ROLE)].

(** [if (typeof raw.k === 'number') decision.k' = raw.k] *)
Definition copy_number (k k' : string) (d : json) : json :=
  match d, json_get k d with
  | JObj o, Some (JNum n) => JObj (obj_set k' (JNum n) o)
  | _, _ => d
  end.

(** The decision of a reply, with the numbers of the Send-Anyway gate under the names it reads *)
Definition decision_of (r : http_response) : result error xdecision :=
  match field_of_json "decision" r with
  | Err e => Err e
  | Ok None | Ok (Some JNull) => Err (OtherError "TypeError" "")
  | Ok (Some d) => Ok (Some (copy_number "confidence" "confidence" (copy_number "risk_score" "riskScore" d)))
  end.

Definition is_denied (r : http_response) : bool := (resp_status r =? 401) || (resp_status r =? 403).

Fixpoint scanViaHttp (fuel : nat) (text : string) (context : json) (files : list ScanFile) : call xdecision :=
  match fuel with
  | O => fun x => (Hangs, x)
  | S f =>
      config ← getConfig;
      '(token, deviceId) ← credentials;
      response ← do_fetch (mkReq (json_string (backendUrl config) +:+ "/scan") (auth_headers config token deviceId)
                            (scan_body text context files));
      if resp_ok response then lift (decision_of response)
      else if is_denied response then _ ← registerDevice; scanViaHttp f text context []
      else throw (failure ("Scan failed: " +:+ http_error_message response))
  end.

(** ** Acknowledgements *)

Definition ack_body (eventId : string) (accepted : bool) (deviceId : json) (iso : string) : json :=
  JObj
    [("upload_id", JStr ("ack-" +:+ show_Z now));
     ("events", JArr [JObj
        [("event_id", JStr eventId); ("device_id", deviceId); ("timestamp_ms", JNum (NInt now));
         ("event_type", JStr "warning_acknowledged"); ("severity", JStr "info");
         ("details", JObj [("accepted", JBool accepted); ("acknowledged_at", JStr iso)])]])].

Definition ackViaHttp (iso : string) (eventId : string) (accepted : bool) : call bool :=
  config ← getConfig;
  '(token, deviceId) ← credentials;
  response ← do_fetch (mkReq (json_string (backendUrl config) +:+ "/events/batch") (auth_headers config token deviceId)
                        (ack_body eventId accepted deviceId iso));
  mret (resp_ok response).

(** ** [transports/http.ts] *)

Definition http_scan (fuel : nat) (text : string) (context : json) (files : list ScanFile) : call xdecision :=
  try_catch (scanViaHttp fuel text context files)
    (fun _ => _ ← registerDevice; scanViaHttp fuel text context files).

Definition http_ack (iso : string) (eventId : string) (accepted : bool) : call (option json) :=
  try_catch (b ← ackViaHttp iso eventId accepted; mret (Some (JBool b))) (fun _ => mret (Some (JBool false))).

Definition HttpBackendTransport (fuel : nat) (iso : string) : ScanTransport (ext W) :=
  mkScanTransport (http_scan fuel) (http_ack iso).
End http.

(** ** Scans *)

Section http_lemmas.
Context {W : Type} (fetch : http_request -> async W http_response) (facts : browser_facts) (suffix : nat -> string).

Lemma do_fetch_inv r x t resp x' :
  do_fetch fetch r x = (Settles t (Ok resp), x') -> exists w w', fetch r w = (Settles t (Ok resp), w').
Proof. unfold do_fetch. destruct (fetch r (x_world x)) as [rp w'] eqn:E. intros [= -> <-]. eauto. Qed.

Lemma scan_decision fuel text context files x t d x' :
  scanViaHttp fetch facts suffix fuel text context files x = (Settles t (Ok d), x') ->
  exists url headers files' w u resp w',
    fetch (mkReq url headers (scan_body text context files')) w = (Settles u (Ok resp), w') /\
    resp_ok resp = true /\ decision_of resp = Ok d /\ (files' = files \/ files' = []).
Proof.
  revert files x t. induction fuel as [|f IH]; intros files x t E; [done|]. cbn [scanViaHttp] in E.
  apply bind_inv in E as (t1 & config & x1 & t2 & _ & E & _).
  apply bind_inv in E as (t3 & [token deviceId] & x2 & t4 & _ & E & _).
  apply bind_inv in E as (t5 & response & x3 & t6 & Ef & E & _).
  apply do_fetch_inv in Ef as (w & w' & Ef).
  destruct (resp_ok response) eqn:Eok.
  - unfold lift in E. simplify_eq. eexists _, _, files, _, _, _, _. split_and!; [exact Ef|done|done|by left].
  - destruct (is_denied response); [|done]. apply bind_inv in E as (t7 & token' & x4 & t8 & _ & E & _).
    apply IH in E as (url & headers & files' & w1 & u & resp & w2 & E1 & E2 & E3 & E4).
    exists url, headers, files', w1, u, resp, w2. split_and!; [done..|]. right. by destruct E4.
Qed.
End http_lemmas.

(** ** Servers *)

Definition header (k : string) (r : http_request) : option string := obj_get k (req_headers r).

Definition token_reply : http_response := mkResp 200 (Some (JObj [("access_token", JStr "new")])).
Definition decision_reply (action : string) : http_response :=
  mkResp 200 (Some (JObj [("decision", JObj [("action", JStr action); ("findings", JArr [])])])).

(** A backend that knows the token [new] only, blocks every file and allows a prompt without one. *)
Definition strict_backend (r : http_request) : async unit http_response := fun w =>
  (Settles 1 (Ok
     match header "Authorization" r with
     | None => token_reply
     | Some a =>
         if String.eqb a "Bearer new" then
           match json_get "files" (req_body r) with
           | Some _ => decision_reply "block"
           | None => decision_reply "allow"
           end
         else mkResp 401 None
     end), w).

(** A backend that registers devices but denies every scan. *)
Definition denying_backend (r : http_request) : async unit http_response := fun w =>
  (Settles 1 (Ok match header "Authorization" r with None => token_reply | Some _ => mkResp 403 None end), w).

Definition with_token (token : string) : ext unit :=
  mkExt {[DEVICE_TOKEN_KEY := JStr token; DEVICE_ID_KEY := JStr "dev"]} 0 tt.

Lemma with_token_lookup token :
  x_storage (with_token token) !! DEVICE_TOKEN_KEY = Some (JStr token) /\
  x_storage (with_token token) !! DEVICE_ID_KEY = Some (JStr "dev") /\
  x_storage (with_token token) !! BACKEND_URL_KEY = None /\ x_storage (with_token token) !! ORG_ID_KEY = None.
Proof. split_and!; reflexivity. Qed.

Lemma denying_registers facts suffix x :
  exists t x', registerDevice denying_backend facts suffix x = (Settles t (Ok (Some (JStr "new"))), x').
Proof. eexists _, _. reflexivity. Qed.

Lemma denying_credentials facts suffix x :
  exists t c x', credentials denying_backend facts suffix x = (Settles t (Ok c), x').
Proof.
  unfold credentials, getStorageValue, mbind, async_bind.
  destruct (opt_truthy (x_storage x !! DEVICE_TOKEN_KEY)), (opt_truthy (x_storage x !! DEVICE_ID_KEY));
    eexists _, _, _; reflexivity.
Qed.

Lemma denying_hangs facts suffix fuel text context files x :
  (scanViaHttp denying_backend facts suffix fuel text context files x).1 = Hangs.
Proof.
  revert files x. induction fuel as [|f IH]; intros files x; [done|]. cbn [scanViaHttp].
  unfold mbind at 1, async_bind at 1. cbn [getConfig]. unfold mbind at 1, async_bind at 1.
  destruct (getConfig x) as [[t1 [config|e]|] x1] eqn:Ec; [|discriminate Ec..].
  destruct (denying_credentials facts suffix x1) as (t2 & [token deviceId] & x2 & E2). rewrite E2.
  unfold mbind at 1, async_bind at 1. unfold do_fetch at 1. cbn.
  destruct (denying_registers facts suffix (mkExt (x_storage x2) (x_draws x2) (x_world x2))) as (t3 & x3 & E3).
  unfold mbind, async_bind. rewrite E3. specialize (IH [] x3).
  destruct (scanViaHttp denying_backend facts suffix f text context [] x3) as [r x4]. simpl in IH. by subst r.
Qed.

(** ** Properties *)

(** The HTTP transport never invents a decision: what it returns is the decision of a successful reply
    of the backend to a scan of this very text and context, with these files or, after a denial,
    with none. *)
Theorem http_decision_from_backend {W} (fetch : http_request -> async W http_response) facts suffix fuel
    text context files x t d x' :
  http_scan fetch facts suffix fuel text context files x = (Settles t (Ok d), x') ->
  exists url headers files' w u resp w',
    fetch (mkReq url headers (scan_body text context files')) w = (Settles u (Ok resp), w') /\
    resp_ok resp = true /\ decision_of resp = Ok d /\ (files' = files \/ files' = []).
Proof.
  unfold http_scan, try_catch.
  destruct (scanViaHttp fetch facts suffix fuel text context files x) as [[t1 [d1|e]|] x1] eqn:E; [| |done].
  - intros [= <- <- <-]. by apply scan_decision in E.
  - destruct ((_ ← registerDevice fetch facts suffix; scanViaHttp fetch facts suffix fuel text context files) x1)
      as [[t2 r|] x2] eqn:E2; [|done].
    intros [= <- -> <-]. apply bind_inv in E2 as (t3 & token & x3 & t4 & _ & E2 & _). by apply scan_decision in E2.
Qed.

(** A stale device token turns a file scan into a scan of nothing: against a backend that blocks
    every file, an upload made with a fresh token is stopped, but the same upload made with a token
    the backend no longer knows is scanned again without its file and goes out. *)
Theorem http_retry_loses_files facts suffix fuel context f :
  exists t t' d d' x x',
    http_scan strict_backend facts suffix (S (S fuel)) "" context [f] (with_token "new") = (Settles t (Ok d), x) /\
    shouldBlockUpload d = Some true /\
    http_scan strict_backend facts suffix (S (S fuel)) "" context [f] (with_token "old") = (Settles t' (Ok d'), x') /\
    shouldBlockUpload d' = Some false.
Proof. eexists _, _, _, _, _, _. split_and!; reflexivity. Qed.

(** The retry of a denied scan has no bound: against a backend that registers devices and denies
    every scan, the promise never settles, whatever the number of turns. *)
Theorem http_denied_never_settles facts suffix fuel text context files x :
  (http_scan denying_backend facts suffix fuel text context files x).1 = Hangs.
Proof.
  unfold http_scan, try_catch. pose proof (denying_hangs facts suffix fuel text context files x) as E.
  destruct (scanViaHttp denying_backend facts suffix fuel text context files x) as [r x']. simpl in E. by subst r.
Qed.

Lemma http_decision_from_backend_witness :
  exists url headers files' w u resp w',
    strict_backend (mkReq url headers (scan_body "hi" (JObj []) files')) w = (Settles u (Ok resp), w') /\
    resp_ok resp = true /\
    decision_of resp = Ok (Some (JObj [("action", JStr "allow"); ("findings", JArr [])])) /\
    (files' = [] \/ files' = []).
Proof.
  eapply (http_decision_from_backend strict_backend (mkBrowser "id" None None None) (fun _ => "x") 2 "hi" (JObj []) []
            (with_token "new")).
  reflexivity.
Defined.
