(* ===== verification/Browser.v ===== *)
(** * The browser path end to end

    The extension's request as the host reads it, and the host's reply as the extension and its gate
    read it: the two sides are written independently ([shared/protocol.ts] and [shared/contract.ts]
    mirror [native-host/src/protocol.ts] and the SDK's decision by hand) and only share JSON. *)

From S2P Require Import Prelude Json JsonText Zod Enums Decision ScanRequest AuditEvent Resilience Framing Transport Client NativeHost ExtTransport ExtGate.

(** The host's request for a request of the extension whose context is an object *)
Definition host_request (r : NativeRequest) : HostRequest :=
  match r with NScan id text context => ReqScan id text context | NAck id eventId accepted => ReqAck id eventId accepted end.

Definition context_is_object (r : NativeRequest) : bool :=
  match r with NScan _ _ (JObj _) | NAck _ _ _ => true | NScan _ _ _ => false end.

Lemma parseRequest_native r :
  is_empty (native_id r) = false -> context_is_object r = true -> parseRequest (native_json r) = Ok (host_request r).
Proof.
  destruct r as [id text [| | | | |o]|id eventId accepted]; intros Hid Hc; try discriminate Hc;
    cbn in Hid |- *; by rewrite Hid.
Qed.

(** What the gate reads of a decision the host sent *)
Lemma decision_json_fields d :
  json_get "action" (decision_json d) = Some (JStr (action_wire (action d))) /\
  json_get "riskLevel" (decision_json d) = Some (JStr (level_wire (riskLevel d))) /\
  json_get "riskScore" (decision_json d) = None /\
  json_get "findings" (decision_json d) = Some (JArr (map finding_json (findings d))).
Proof. unfold decision_json. destruct (category d), (matchedRuleId d), (severity d); split_and!; reflexivity. Qed.

Lemma decision_json_categories d : is_Some (distinctCategories (Some (decision_json d))).
Proof.
  unfold distinctCategories. cbn [mbind option_bind]. destruct (decision_json_fields d) as (_ & _ & _ & ->).
  rewrite (traverse_map_inv _ _ (fun f => json_get "category" (finding_json f))) by done. by eexists.
Qed.

(** The gate lets a decision of the host out exactly as the policy's table says. *)
Lemma may_send_decision d a :
  may_send (Some (decision_json d)) a <->
  action d = Allow \/ action d = Warn /\ (riskLevel d = Low \/ riskLevel d = Medium /\ a = Some true).
Proof.
  unfold may_send. cbn [mbind option_bind]. destruct (decision_json_fields d) as (-> & -> & -> & _).
  destruct (action d), (riskLevel d); cbn; naive_solver congruence.
Qed.

Lemma scan_of_host_reply who id d :
  scan_of_response who (response_json (RespScan id d)) = Ok (Some (decision_json d)).
Proof. reflexivity. Qed.

(** C2: the browser path is fail-closed from end to end.  A scan the extension sends is read by the host
    as the same scan; when its handler settles, the extension reads the reply as a decision, and the
    gate can let the prompt out only if the agent itself answered this text with that decision, and
    the decision is an allow, a low-risk warn, or a medium-risk warn the user accepted. *)
Theorem browser_end_to_end `{Zod} {T} `{EventLoop T} (tr : Transport T) timeoutMs retry uuids jitter identity id text o uuid c t r c' :
  is_empty id = false ->
  parseRequest (native_json (NScan id text (JObj o))) = Ok (host_request (NScan id text (JObj o))) /\
  (handleRequest (sdk_client tr timeoutMs retry uuids jitter) identity uuid (host_request (NScan id text (JObj o))) c = (Settles t r, c') ->
   exists resp d, r = Ok resp /\ response_id resp = id /\
     scan_of_response "native host" (response_json resp) = Ok (Some (decision_json d)) /\
     on_decision (Some (decision_json d)) <> Throws /\
     forall a, may_send (Some (decision_json d)) a ->
       (exists s u reply s', t_request tr Method.SubmitScan (host_wire (scan_request_of identity text (JObj o))) s
                               = (Settles u (Ok reply), s') /\ decodeDecision reply = Some d) /\
       (action d = Allow \/ action d = Warn /\ (riskLevel d = Low \/ riskLevel d = Medium /\ a = Some true))).
Proof.
  intros Hid. split; [by apply (parseRequest_native (NScan id text (JObj o)))|]. intros E.
  apply handleScan_outcome in E as (d & -> & Hd). exists (RespScan id d), d.
  split_and!; [done|done|apply scan_of_host_reply| |].
  - intros E. pose proof (on_decision_may_send (Some (decision_json d)) None) as Hm. rewrite E in Hm.
    destruct (decision_json_categories d) as [l El]. congruence.
  - intros a Ha%may_send_decision. split; [|done]. destruct Hd as [Hb|Hd]; [|done]. rewrite Hb in Ha. naive_solver.
Qed.

(** ** Examples *)

Lemma browser_end_to_end_witness :
  parseRequest (native_json (NScan "i" "hello" (JObj []))) = Ok (host_request (NScan "i" "hello" (JObj []))) /\
  exists t resp c', handleRequest (sdk_client MockTransport 2000 DEFAULT_RETRY (fun _ => "u") (fun _ => 0)) someone "u"
    (ReqScan "i" "hello" (JObj [])) (fresh_client mock_allow) = (Settles t (Ok resp), c') /\ response_id resp = "i".
Proof.
  destruct (handleRequest (sdk_client MockTransport 2000 DEFAULT_RETRY (fun _ => "u") (fun _ => 0)) someone "u"
              (ReqScan "i" "hello" (JObj [])) (fresh_client mock_allow)) as [[t r|] c'] eqn:E;
    [|vm_compute in E; discriminate E].
  destruct (browser_end_to_end MockTransport 2000 DEFAULT_RETRY (fun _ => "u") (fun _ => 0) someone "i" "hello" [] "u"
              (fresh_client mock_allow) t r c' eq_refl) as [Hp Hr].
  split; [exact Hp|]. destruct (Hr E) as (resp & d & -> & Hid & _). exists t, resp, c'. split; [reflexivity|exact Hid].
Defined.
