(* ===== verification/Dashboard.v ===== *)
(** * The dashboard's access control: [dashboard/lib/auth] and [dashboard/lib/api]

    [rbac.ts], [rbac-middleware.ts], [jwt.ts], [session-store.ts], [local-mode.ts],
    [request-context.ts], [scoped-repository.ts] (the org filter) and the pipeline of
    [with-rbac.ts].  The verification of a token's signature ([jose]) and the Cognito endpoints
    are parameters; the cookies are a map from names to values with their ages.  A route's
    regular expression is the list of its alternatives over the segments of the path. *)

From S2P Require Import Prelude Json JsonText.

(** ** Roles: [types/auth.ts] and [rbac.ts] *)

Inductive DashRole := SuperAdmin | OrgAdmin | Auditor | Viewer.

#[export] Instance DashRole_eq_dec : EqDecision DashRole.
Proof. solve_decision. Defined.

Definition dash_role_name (r : DashRole) : string :=
  match r with SuperAdmin => "super_admin" | OrgAdmin => "org_admin" | Auditor => "auditor" | Viewer => "viewer" end.

Definition ROLES : list DashRole := [SuperAdmin; OrgAdmin; Auditor; Viewer].

Definition role_of_name (s : string) : option DashRole := find (fun r => String.eqb s (dash_role_name r)) ROLES.

Definition ROLE_HIERARCHY (r : DashRole) : Z :=
  match r with SuperAdmin => 100 | OrgAdmin => 80 | Auditor => 50 | Viewer => 20 end.

Definition ALLOWED_CREATION_TARGETS (r : DashRole) : list DashRole :=
  match r with SuperAdmin => [SuperAdmin; OrgAdmin; Auditor; Viewer] | OrgAdmin => [Auditor; Viewer] | Auditor => [] | Viewer => [] end.

Definition PAGE_ACCESS : list (string * list DashRole) :=
  [("/dashboard", [SuperAdmin; OrgAdmin; Auditor; Viewer]);
   ("/devices", [SuperAdmin; OrgAdmin; Auditor; Viewer]);
   ("/devices/[id]", [SuperAdmin; OrgAdmin; Auditor; Viewer]);
   ("/policies", [SuperAdmin; OrgAdmin; Auditor]);
   ("/policies/[id]", [SuperAdmin; OrgAdmin; Auditor]);
   ("/policies/new", [SuperAdmin; OrgAdmin]);
   ("/violations", [SuperAdmin; OrgAdmin; Auditor; Viewer]);
   ("/exceptions", [SuperAdmin; OrgAdmin; Auditor]);
   ("/exceptions/[id]", [SuperAdmin; OrgAdmin; Auditor]);
   ("/exceptions/new", [SuperAdmin; OrgAdmin]);
   ("/audit", [SuperAdmin; OrgAdmin; Auditor]);
   ("/audit/[event_id]", [SuperAdmin; OrgAdmin; Auditor]);
   ("/settings", [SuperAdmin; OrgAdmin]);
   ("/settings/users", [SuperAdmin; OrgAdmin]);
   ("/settings/enrollment", [SuperAdmin; OrgAdmin])].

Definition canViewPage (role : DashRole) (path : string) : bool :=
  match obj_get path PAGE_ACCESS with Some allowed => bool_decide (role ∈ allowed) | None => false end.

Definition is_one_of (s : string) (l : list string) : bool := existsb (String.eqb s) l.

Definition canPerformAction (role : DashRole) (action : string) : bool :=
  if is_one_of action ["create:policy"; "update:policy"; "delete:policy"; "publish:policy"; "create:exception";
                       "approve:exception"; "deactivate:device"; "manage:settings"; "manage:enrollment"]
  then bool_decide (role = SuperAdmin \/ role = OrgAdmin)
  else if is_one_of action ["create:super_admin"] then bool_decide (role = SuperAdmin)
  else if is_one_of action ["view:audit"; "export:audit"] then bool_decide (role = SuperAdmin \/ role = OrgAdmin \/ role = Auditor)
  else is_one_of action ["view:violations"].

Definition canCreateUser (callerRole targetRole : DashRole) : bool :=
  bool_decide (targetRole ∈ ALLOWED_CREATION_TARGETS callerRole).

Definition isAtLeast (callerRole requiredRole : DashRole) : bool := ROLE_HIERARCHY requiredRole <=? ROLE_HIERARCHY callerRole.

(** The labels and targets of the menu; the icon is always the same. *)
Definition getSidebarItems (role : DashRole) : list (string * string) :=
  [("Dashboard", "/dashboard"); ("Devices", "/devices")] ++
  (if bool_decide (role <> Viewer) then [("Policies", "/policies")] else []) ++
  [("Violations", "/violations")] ++
  (if bool_decide (role <> Viewer) then [("Exceptions", "/exceptions")] else []) ++
  (if bool_decide (role = SuperAdmin \/ role = OrgAdmin \/ role = Auditor) then [("Audit", "/audit")] else []) ++
  (if bool_decide (role = SuperAdmin \/ role = OrgAdmin) then [("Settings", "/settings")] else []).

(** ** Errors: [errors.ts], [jwt.ts], [response.ts] *)

Inductive dash_error :=
| ApiError (status : Z) (errcode message : string)
| AuthError (errcode message : string)
| PlainError (message : string).

Definition forbiddenError (message : string) : dash_error := ApiError 403 "forbidden" message.

(** [apiErrorFromUnknown]: status, code and message of the reply *)
Definition apiErrorFromUnknown (e : dash_error) : Z * string * string :=
  match e with
  | ApiError status c m => (status, c, m)
  | AuthError _ _ => (401, "unauthorized", "Authentication required")
  | PlainError m =>
      if String.eqb m "Authentication required" then (401, "unauthorized", "Authentication required")
      else (500, "internal_error", "Internal server error")
  end.

(** ** Routes: [rbac-middleware.ts] *)

Inductive Permission := PRead | PWrite | PAudit | PSettings | PUsers.

#[export] Instance Permission_eq_dec : EqDecision Permission.
Proof. solve_decision. Defined.

(** A segment of a pattern: a literal, or [[^/]+]. *)
Inductive seg := Lit (s : string) | AnySeg.

Record RoutePermission := mkRoute {
  rp_method : string;
  rp_path : list (list seg);          (* the alternatives *)
  rp_permission : Permission;
  rp_action : option string
}.

Definition segments (path : string) : list string := js_split "/"%char path.

Definition seg_test (p : seg) (s : string) : bool :=
  match p with Lit l => String.eqb l s | AnySeg => negb (is_empty s) end.

Fixpoint segs_test (ps : list seg) (ss : list string) : bool :=
  match ps, ss with
  | [], [] => true
  | p :: ps', s :: ss' => seg_test p s && segs_test ps' ss'
  | _, _ => false
  end.

Definition path_test (alts : list (list seg)) (path : string) : bool :=
  existsb (fun alt => segs_test alt (segments path)) alts.

Definition api (l : list string) : list seg := Lit "" :: Lit "api" :: map Lit l.
(** [^/api/x$], [^/api/x(?:/[^/]+)?$] and [^/api/x/[^/]+$] *)
Definition exactly (x : string) : list (list seg) := [api [x]].
Definition one_id (x : string) : list (list seg) := [api [x] ++ [AnySeg]].
Definition maybe_id (x : string) : list (list seg) := [api [x]; api [x] ++ [AnySeg]].

Definition ROUTE_PERMISSIONS : list RoutePermission :=
  [mkRoute "GET" [api ["dashboard"]; api ["dashboard"; "stats"]] PRead None;
   mkRoute "GET" (maybe_id "devices") PRead None;
   mkRoute "DELETE" (one_id "devices") PWrite (Some "deactivate:device");
   mkRoute "GET" (maybe_id "violations") PRead (Some "view:violations");
   mkRoute "GET" (maybe_id "policies") PRead None;
   mkRoute "POST" (exactly "policies") PWrite (Some "create:policy");
   mkRoute "PATCH" (one_id "policies") PWrite (Some "update:policy");
   mkRoute "GET" (maybe_id "exceptions") PRead None;
   mkRoute "POST" (exactly "exceptions") PWrite (Some "create:exception");
   mkRoute "POST" (one_id "exceptions") PWrite (Some "approve:exception");
   mkRoute "GET" (maybe_id "audit") PAudit (Some "view:audit");
   mkRoute "GET" (maybe_id "users") PUsers None;
   mkRoute "POST" (exactly "users") PUsers None;
   mkRoute "DELETE" (one_id "users") PSettings (Some "manage:settings");
   mkRoute "GET" [api ["settings"]; api ["org"]] PSettings None;
   mkRoute "PATCH" [api ["settings"]; api ["org"]] PSettings (Some "manage:settings")].

(** [method.toUpperCase()] *)
Definition to_upper (s : string) : string :=
  of_chars (map (fun c => if (97 <=? code c) && (code c <=? 122) then chr (code c - 32) else c) (to_chars s)).

Definition routePermissionFor (method path : string) : option RoutePermission :=
  find (fun entry => String.eqb (rp_method entry) (to_upper method) && path_test (rp_path entry) path) ROUTE_PERMISSIONS.

Definition authorizeRoute (role : DashRole) (method path : string) : result dash_error unit :=
  match routePermissionFor method path with
  | None => Ok tt
  | Some mapping =>
      if bool_decide (role = SuperAdmin) then Ok tt
      else
        match rp_action mapping with
        | Some action =>
            if negb (canPerformAction role action)
            then Err (forbiddenError ("Role '" +:+ dash_role_name role +:+ "' cannot perform '" +:+ action +:+ "'"))
            else Ok tt
        | None => Ok tt
        end ≫= fun _ =>
        if bool_decide (role = Viewer) && bool_decide (rp_permission mapping <> PRead)
        then Err (forbiddenError "Viewer role is read-only")
        else if bool_decide (role = Auditor) && bool_decide (rp_permission mapping ∉ [PRead; PAudit])
        then Err (forbiddenError "Auditor role is read-only")
        else Ok tt
  end.

Definition assertCanCreateRole (callerRole targetRole : DashRole) : result dash_error unit :=
  if negb (canCreateUser callerRole targetRole)
  then Err (forbiddenError ("Role '" +:+ dash_role_name callerRole +:+ "' cannot create user with role '"
              +:+ dash_role_name targetRole +:+ "'"))
  else Ok tt.

(** ** Tokens: [jwt.ts] and [local-mode.ts] *)

Record UserSession := mkSession {
  s_id : string;
  s_email : string;
  s_role : DashRole;
  s_orgId : string;
  s_orgName : string;
  s_groups : list string
}.

Record CognitoJwtClaims := mkClaims {
  c_sub : string;
  c_email : string;
  c_groups : list string;
  c_orgId : string;
  c_orgName : option string;
  c_role : option string
}.

(** [process.env]: [DISABLE_AUTH === 'true'], the two ways to ask for mock authentication, and the
    issuer and client id the configuration resolves to ([''] when missing). *)
Record dash_env := mkEnv {
  e_authDisabled : bool;
  e_mockAuth : bool;
  e_issuer : string;
  e_clientId : string
}.

Definition MOCK_USER_SESSION : UserSession :=
  mkSession "u-dev-001" "admin@localhost.dev" SuperAdmin "local-org" "Local Dev Org" ["super_admin"; "org_admin"; "auditor"].
Definition MOCK_ACCESS_TOKEN : string :=
  "eyJhbGciOiJub25lIiwidHlwIjoiSldUIn0.eyJzdWIiOiJ1LWRldi0wMDEiLCJleHAiOjQxMDI0NDc5OTl9.".
Definition MOCK_REFRESH_TOKEN : string := "mock-refresh-token-local".
Definition MOCK_ID_TOKEN : string := MOCK_ACCESS_TOKEN.
Definition MOCK_MAX_AGE_SECONDS : Z := 60 * 60 * 24 * 30.

Definition as_string (v : option json) : option string := match v with Some (JStr s) => Some s | _ => None end.

Definition stringClaim (payload : json) (key : string) : result dash_error string :=
  match as_string (json_get key payload) with
  | Some v => if is_empty v then Err (AuthError "invalid_token" ("Missing " +:+ key +:+ " claim")) else Ok v
  | None => Err (AuthError "invalid_token" ("Missing " +:+ key +:+ " claim"))
  end.

Definition groupsClaim (payload : json) : list string :=
  match json_get "cognito:groups" payload with
  | Some (JArr l) => omap (fun v => as_string (Some v)) l
  | _ => []
  end.

(** The names of the roles a group list holds, in the order of [ROLES] *)
Definition roleFromClaims (claims : CognitoJwtClaims) : result dash_error DashRole :=
  match c_role claims ≫= role_of_name with
  | Some r => Ok r
  | None =>
      match find (fun r => is_one_of (dash_role_name r) (c_groups claims)) ROLES with
      | Some r => Ok r
      | None => Err (AuthError "invalid_role" "Token does not contain a supported role")
      end
  end.

Definition claimsToSession (claims : CognitoJwtClaims) : result dash_error UserSession :=
  role ← roleFromClaims claims;
  if is_empty (c_orgId claims) then Err (AuthError "invalid_org" "Token does not contain an org_id claim")
  else Ok (mkSession (c_sub claims) (c_email claims) role (c_orgId claims)
             (default (c_orgId claims) (c_orgName claims)) (c_groups claims)).

Definition mock_claims : CognitoJwtClaims :=
  mkClaims (s_id MOCK_USER_SESSION) (s_email MOCK_USER_SESSION) (s_groups MOCK_USER_SESSION) (s_orgId MOCK_USER_SESSION)
    (Some (s_orgName MOCK_USER_SESSION)) (Some (dash_role_name (s_role MOCK_USER_SESSION))).

(** A cookie's value and its age in seconds *)
Abbreviation jar := (gmap string (string * Z)).

Section auth.
(** [jwtVerify token issuer audience]: the payload of a token whose signature, issuer, audience and
    dates hold; [refreshCognitoTokens]: the access, refresh and id tokens for a refresh token;
    [revokes]: does the revocation endpoint answer?  [None] is an exception. *)
Context (jwtVerify : string -> string -> string -> option json).
Context (refreshCognitoTokens : string -> option (string * option string * string)).
Context (env : dash_env).

Definition payload_claims (payload : json) : result dash_error CognitoJwtClaims :=
  sub ← stringClaim payload "sub";
  email ← stringClaim payload "email";
  orgId ← stringClaim payload "custom:org_id";
  Ok (mkClaims sub email (groupsClaim payload) orgId (as_string (json_get "custom:org_name" payload))
        (match as_string (json_get "custom:role" payload) with
         | Some r => if is_empty r then None else Some r
         | None => None
         end)).

Definition verifyCognitoJwt (token : string) : result dash_error CognitoJwtClaims :=
  if e_authDisabled env then Ok mock_claims
  else if is_empty (e_issuer env) || is_empty (e_clientId env)
  then Err (AuthError "auth_misconfigured" "Cognito issuer or client id is missing")
  else
    match jwtVerify token (e_issuer env) (e_clientId env) with
    | None => Err (AuthError "invalid_token" "Token verification failed")
    | Some payload => payload_claims payload
    end.

Definition verifySessionToken (token : string) : result dash_error UserSession :=
  if e_authDisabled env then Ok MOCK_USER_SESSION
  else claims ← verifyCognitoJwt token; claimsToSession claims.

(** ** Cookies: [session-store.ts] *)

Definition ACCESS_TOKEN_COOKIE : string := "vg_access_token".
Definition REFRESH_TOKEN_COOKIE : string := "vg_refresh_token".
Definition ID_TOKEN_COOKIE : string := "vg_id_token".
Definition SESSION_COOKIE : string := "vg_session".
Definition ACCESS_MAX_AGE_SECONDS : Z := 60 * 15.
Definition REFRESH_MAX_AGE_SECONDS : Z := 60 * 60 * 24 * 30.

Definition cookie (name : string) (j : jar) : option string := fst <$> (j !! name).

Definition session_json (s : UserSession) : json :=
  JObj [("id", JStr (s_id s)); ("email", JStr (s_email s)); ("role", JStr (dash_role_name (s_role s)));
        ("orgId", JStr (s_orgId s)); ("orgName", JStr (s_orgName s)); ("groups", JArr (map JStr (s_groups s)))].

Definition session_cookie_text (s : UserSession) : string := of_chars (print_json (session_json s)).

Record StoredAuthSession := mkStored {
  accessToken : string;
  refreshToken : option string;
  idToken : string;
  session : UserSession
}.

Definition setStoredSession (input : StoredAuthSession) (j : jar) : jar :=
  if e_authDisabled env then
    <[SESSION_COOKIE := (session_cookie_text MOCK_USER_SESSION, MOCK_MAX_AGE_SECONDS)]>
      (<[ID_TOKEN_COOKIE := (MOCK_ID_TOKEN, MOCK_MAX_AGE_SECONDS)]>
        (<[ACCESS_TOKEN_COOKIE := (MOCK_ACCESS_TOKEN, MOCK_MAX_AGE_SECONDS)]> j))
  else
    let j1 :=
      <[SESSION_COOKIE := (session_cookie_text (session input), ACCESS_MAX_AGE_SECONDS)]>
        (<[ID_TOKEN_COOKIE := (idToken input, ACCESS_MAX_AGE_SECONDS)]>
          (<[ACCESS_TOKEN_COOKIE := (accessToken input, ACCESS_MAX_AGE_SECONDS)]> j)) in
    match refreshToken input with
    | Some r => if is_empty r then j1 else <[REFRESH_TOKEN_COOKIE := (r, REFRESH_MAX_AGE_SECONDS)]> j1
    | None => j1
    end.

Definition clearStoredSession (j : jar) : jar :=
  delete SESSION_COOKIE (delete ID_TOKEN_COOKIE (delete REFRESH_TOKEN_COOKIE (delete ACCESS_TOKEN_COOKIE j))).

Definition mock_stored : StoredAuthSession :=
  mkStored MOCK_ACCESS_TOKEN (Some MOCK_REFRESH_TOKEN) MOCK_ID_TOKEN MOCK_USER_SESSION.

Definition getStoredSession (j : jar) : option StoredAuthSession * jar :=
  if e_authDisabled env then (Some mock_stored, j)
  else
    match cookie ACCESS_TOKEN_COOKIE j, cookie ID_TOKEN_COOKIE j with
    | Some a, Some i =>
        if is_empty a || is_empty i then (None, j)
        else
          match verifySessionToken i with
          | Ok s => (Some (mkStored a (cookie REFRESH_TOKEN_COOKIE j) i s), j)
          | Err _ => (None, clearStoredSession j)
          end
    | _, _ => (None, j)
    end.

Definition refreshStoredSession (j : jar) : option StoredAuthSession * jar :=
  if e_authDisabled env then (Some mock_stored, j)
  else
    match cookie REFRESH_TOKEN_COOKIE j with
    | Some r =>
        if is_empty r then (None, clearStoredSession j)
        else
          match refreshCognitoTokens r with
          | None => (None, clearStoredSession j)
          | Some (access, refresh, id) =>
              match verifySessionToken id with
              | Err _ => (None, clearStoredSession j)
              | Ok s =>
                  let stored := mkStored access (Some (default r refresh)) id s in
                  (Some stored, setStoredSession stored j)
              end
          end
    | None => (None, clearStoredSession j)
    end.

Definition getOrRefreshStoredSession (j : jar) : option StoredAuthSession * jar :=
  match getStoredSession j with
  | (Some s, j') => (Some s, j')
  | (None, j') => refreshStoredSession j'
  end.

(** The refresh token to revoke, and the cookies; revocation errors are ignored. *)
Definition logoutStoredSession (j : jar) : option string * jar :=
  if e_authDisabled env then (None, clearStoredSession j)
  else
    match cookie REFRESH_TOKEN_COOKIE j with
    | Some r => (if is_empty r then None else Some r, clearStoredSession j)
    | None => (None, clearStoredSession j)
    end.

(** ** [request-context.ts] *)

Record RequestContext := mkCtx {
  ctx_session : UserSession;
  ctx_role : DashRole;
  ctx_orgId : string
}.

Definition context_of (s : UserSession) : RequestContext := mkCtx s (s_role s) (s_orgId s).

Definition MOCK_SESSION : UserSession :=
  mkSession "u-001" "admin@corp.example.com" OrgAdmin "org-default" "Acme Corp" ["org_admin"; "auditor"].

(** [isSession], with the record it describes; the groups are not checked beyond being a list. *)
Definition isSession (v : json) : option UserSession :=
  id ← as_string (json_get "id" v);
  email ← as_string (json_get "email" v);
  orgId ← as_string (json_get "orgId" v);
  orgName ← as_string (json_get "orgName" v);
  groups ← match json_get "groups" v with Some (JArr l) => Some (omap (fun x => as_string (Some x)) l) | _ => None end;
  role ← as_string (json_get "role" v) ≫= role_of_name;
  Some (mkSession id email role orgId orgName groups).

(** [parse]: [JSON.parse] of a cookie *)
Definition extractRequestContext (parse : string -> option json) (j : jar) : result dash_error RequestContext * jar :=
  if negb (e_mockAuth env) then
    match getOrRefreshStoredSession j with
    | (Some stored, j') => (Ok (context_of (session stored)), j')
    | (None, j') => (Err (PlainError "Authentication required"), j')
    end
  else
    match cookie SESSION_COOKIE j with
    | Some raw =>
        if is_empty raw then
          match getOrRefreshStoredSession j with
          | (Some stored, j') => (Ok (context_of (session stored)), j')
          | (None, j') => (Ok (context_of MOCK_SESSION), j')
          end
        else
          (* isSession(null) throws inside the try block, like a parse error *)
          (Ok (context_of (default MOCK_SESSION (parse raw ≫= isSession))), j)
    | None =>
        match getOrRefreshStoredSession j with
        | (Some stored, j') => (Ok (context_of (session stored)), j')
        | (None, j') => (Ok (context_of MOCK_SESSION), j')
        end
    end.

(** ** [with-rbac.ts]

    [handler] receives the context and the token the repositories use; [action] is the option of
    [withAction], which [withBff] does not read. *)
Definition withBff {R} (parse : string -> option json) (action : option string)
    (handler : RequestContext -> option string -> result dash_error R) (method path : string) (j : jar)
    : result (Z * string * string) R * jar :=
  match extractRequestContext parse j with
  | (Err e, j') => (Err (apiErrorFromUnknown e), j')
  | (Ok ctx, j') =>
      match authorizeRoute (ctx_role ctx) method path with
      | Err e => (Err (apiErrorFromUnknown e), j')
      | Ok _ =>
          let '(token, j'') :=
            if e_authDisabled env then (Some MOCK_ID_TOKEN, j')
            else let '(s, j'') := getStoredSession j' in (idToken <$> s, j'') in
          match handler ctx token with
          | Ok r => (Ok r, j'')
          | Err e => (Err (apiErrorFromUnknown e), j'')
          end
      end
  end.

Definition withRead {R} (parse : string -> option json) handler : string -> string -> jar -> result (Z * string * string) R * jar :=
  withBff parse None handler.
Definition withAction {R} (parse : string -> option json) (action : string) handler
    : string -> string -> jar -> result (Z * string * string) R * jar :=
  withBff parse (Some action) handler.
End auth.

(** ** [scoped-repository.ts] *)

Abbreviation filters := (list (string * json)).

Definition stripOrgId (f : option filters) : option filters := obj_del "org_id" <$> f.

(** [{ ...(filters ?? {}), org_id: orgId }] *)
Definition withOrgFilter (f : option filters) (orgId : string) : filters := obj_set "org_id" (JStr orgId) (default [] f).

(** A list operation of the scoped repositories over the one of the base *)
Definition scoped_list {Q R} (base : Q -> filters -> R) (s : UserSession) (query : Q) (f : option filters) : R :=
  base query (withOrgFilter (stripOrgId f) (s_orgId s)).

(** [org.update]: [{ ...patch, org_id: orgId }] *)
Definition scoped_org_update {R} (base : filters -> R) (s : UserSession) (patch : filters) : R :=
  base (obj_set "org_id" (JStr (s_orgId s)) patch).

(** The operations by id go to the base as they are. *)
Definition scoped_get {R} (base : string -> R) (s : UserSession) (id : string) : R := base id.

(** ** Roles *)

(** A set of roles is closed under higher roles. *)
Definition upward (allowed : list DashRole) : bool :=
  forallb (fun lo => forallb (fun hi => negb (isAtLeast hi lo) || bool_decide (hi ∈ allowed)) ROLES) allowed.

Lemma elem_ROLES r : r ∈ ROLES.
Proof. destruct r; set_solver. Qed.

Lemma upward_spec allowed hi lo : upward allowed = true -> isAtLeast hi lo = true -> lo ∈ allowed -> hi ∈ allowed.
Proof.
  intros Hu Hge Hin. unfold upward in Hu. rewrite forallb_forall in Hu.
  specialize (Hu lo (proj1 (list_elem_of_In _ _) Hin)). rewrite forallb_forall in Hu.
  specialize (Hu hi (proj1 (list_elem_of_In _ _) (elem_ROLES hi))). rewrite Hge in Hu. simpl in Hu. by bool_simpl.
Qed.

Lemma pages_upward : forallb (fun kv => upward kv.2) PAGE_ACCESS = true.
Proof. vm_compute. reflexivity. Qed.

Lemma page_monotone hi lo path : isAtLeast hi lo = true -> canViewPage lo path = true -> canViewPage hi path = true.
Proof.
  unfold canViewPage. destruct (obj_get path PAGE_ACCESS) as [allowed|] eqn:E; [|done]. intros Hge Hlo.
  apply obj_get_elem in E; [|apply (bool_decide_unpack _); vm_compute; exact I]. pose proof pages_upward as Hu. rewrite forallb_forall in Hu.
  specialize (Hu (path, allowed) (proj1 (list_elem_of_In _ _) E)). simpl in Hu. bool_simpl.
  apply bool_decide_eq_true_2. by eapply upward_spec.
Qed.

Lemma action_monotone hi lo action :
  isAtLeast hi lo = true -> canPerformAction lo action = true -> canPerformAction hi action = true.
Proof.
  unfold canPerformAction. destruct (is_one_of action _); [|destruct (is_one_of action _); [|destruct (is_one_of action _)]];
    destruct hi, lo; vm_compute; congruence.
Qed.

Lemma create_monotone hi lo target : isAtLeast hi lo = true -> canCreateUser lo target = true -> canCreateUser hi target = true.
Proof. destruct hi, lo, target; vm_compute; congruence. Qed.

Lemma authorize_ok role method path :
  authorizeRoute role method path = Ok tt <->
  match routePermissionFor method path with
  | None => True
  | Some mapping =>
      role = SuperAdmin \/
      from_option (canPerformAction role) true (rp_action mapping) = true /\
      (role = Viewer -> rp_permission mapping = PRead) /\
      (role = Auditor -> rp_permission mapping = PRead \/ rp_permission mapping = PAudit)
  end.
Proof.
  unfold authorizeRoute. destruct (routePermissionFor method path) as [mapping|]; [|done].
  destruct mapping as [m p perm [a|]]; cbn [rp_action rp_permission from_option].
  - destruct role; cbn; try naive_solver;
      (destruct (canPerformAction _ a); cbn; [|naive_solver]); destruct perm; cbn; naive_solver.
  - destruct role, perm; cbn; naive_solver.
Qed.

Lemma authorize_monotone hi lo method path :
  isAtLeast hi lo = true -> authorizeRoute lo method path = Ok tt -> authorizeRoute hi method path = Ok tt.
Proof.
  rewrite !authorize_ok. destruct (routePermissionFor method path) as [mapping|]; [|done]. intros Hge [->|(Ha & Hv & Hu)].
  - left. by destruct hi.
  - right. split.
    + destruct (rp_action mapping) as [a|]; [|done]. simpl in *. by eapply action_monotone.
    + destruct hi, lo; try discriminate Hge; naive_solver.
Qed.

(** ** Routes *)

(** The routes of [app/api] that change something *)
Definition SERVED_MUTATIONS : list (string * list seg) :=
  [("DELETE", api ["devices"] ++ [AnySeg]); ("POST", api ["exceptions"]); ("POST", api ["exceptions"] ++ [AnySeg]);
   ("POST", api ["users"]); ("DELETE", api ["users"] ++ [AnySeg]); ("PATCH", api ["settings"]); ("PATCH", api ["org"])].

Lemma segs_test_inv ps ss : segs_test ps ss = true -> Forall2 (fun p s => seg_test p s = true) ps ss.
Proof.
  revert ss. induction ps as [|p ps IH]; intros [|s ss] H; try discriminate H; [constructor|]. simpl in H. bool_simpl.
  constructor; auto.
Qed.

Lemma mutation_admin role m alt path :
  (m, alt) ∈ SERVED_MUTATIONS -> segs_test alt (segments path) = true -> authorizeRoute role m path = Ok tt ->
  role = SuperAdmin \/ role = OrgAdmin.
Proof.
  intros Hin Hp Ha. rewrite authorize_ok in Ha. unfold routePermissionFor, path_test in Ha.
  revert Hp Ha. generalize (segments path). intros ss Hp%segs_test_inv Ha.
  unfold SERVED_MUTATIONS in Hin. apply list_elem_of_In in Hin. cbn [In] in Hin.
  repeat (destruct Hin as [Hin|Hin]; [injection Hin as <- <-|]); [..|destruct Hin].
  all: cbn [api map Datatypes.app] in Hp; repeat (apply Forall2_cons_inv_l in Hp as (? & ? & ? & Hp & ->)); apply Forall2_nil_inv_l in Hp as ->.
  all: cbn [seg_test] in *; repeat match goal with H : String.eqb _ _ = true |- _ => apply String.eqb_eq in H as <- end.
  all: repeat match goal with H : negb (is_empty ?x) = true |- _ => destruct x; [discriminate H|clear H] end.
  all: vm_compute in Ha; destruct role; naive_solver.
Qed.

(** ** Sessions *)

Section sessions.
Context (jwtVerify : string -> string -> string -> option json).
Context (refreshCognitoTokens : string -> option (string * option string * string)).
Context (env : dash_env).

(** A session vouched for by the token [i]: its payload was verified for our issuer and client, and the
    session is what the claims of that payload say. *)
Definition vouched (i : string) (s : UserSession) : Prop :=
  exists payload claims, jwtVerify i (e_issuer env) (e_clientId env) = Some payload /\
    payload_claims payload = Ok claims /\ claimsToSession claims = Ok s.

Definition no_cookies (j : jar) : Prop :=
  Forall (fun n => j !! n = None) [ACCESS_TOKEN_COOKIE; REFRESH_TOKEN_COOKIE; ID_TOKEN_COOKIE; SESSION_COOKIE].

Lemma clear_no_cookies j : no_cookies (clearStoredSession j).
Proof.
  unfold no_cookies, clearStoredSession. rewrite !Forall_cons, Forall_nil. split_and!; try done;
    rewrite !lookup_delete_None; tauto.
Qed.

Lemma verify_vouched i s :
  e_authDisabled env = false -> verifySessionToken jwtVerify env i = Ok s -> vouched i s.
Proof.
  intros Hd. unfold verifySessionToken, verifyCognitoJwt. rewrite Hd.
  destruct (_ || _); [done|]. destruct (jwtVerify i (e_issuer env) (e_clientId env)) as [payload|] eqn:Ep; [|done].
  destruct (payload_claims payload) as [claims|e] eqn:Ec; [|done]. intros E. by exists payload, claims.
Qed.

Lemma stored_spec j :
  e_authDisabled env = false ->
  match getOrRefreshStoredSession jwtVerify refreshCognitoTokens env j with
  | (Some st, j') => vouched (idToken st) (session st) /\ cookie ID_TOKEN_COOKIE j' = Some (idToken st)
  | (None, j') => no_cookies j'
  end.
Proof.
  intros Hd. assert (forall j, match refreshStoredSession jwtVerify refreshCognitoTokens env j with
    | (Some st, j') => vouched (idToken st) (session st) /\ cookie ID_TOKEN_COOKIE j' = Some (idToken st)
    | (None, j') => no_cookies j'
    end) as Hr.
  { intros j0. unfold refreshStoredSession. rewrite Hd. destruct (cookie REFRESH_TOKEN_COOKIE j0) as [r|]; [|apply clear_no_cookies].
    destruct (is_empty r); [apply clear_no_cookies|].
    destruct (refreshCognitoTokens r) as [[[access refresh] id]|]; [|apply clear_no_cookies].
    destruct (verifySessionToken jwtVerify env id) as [s|e] eqn:Ev; [|apply clear_no_cookies]. split; [by apply verify_vouched|].
    unfold setStoredSession, cookie. rewrite Hd. cbn [refreshToken idToken session accessToken].
    by destruct (is_empty _); rewrite ?lookup_insert_ne, lookup_insert_eq by done. }
  unfold getOrRefreshStoredSession, getStoredSession. rewrite Hd.
  destruct (cookie ACCESS_TOKEN_COOKIE j) as [a|]; [|apply Hr]. destruct (cookie ID_TOKEN_COOKIE j) as [i|] eqn:Ei; [|apply Hr].
  destruct (_ || _); [apply Hr|].
  destruct (verifySessionToken jwtVerify env i) as [s|e] eqn:Ev; [|apply Hr]. split; [by apply verify_vouched|done].
Qed.

(** What a route handler that ran to its end has behind it. *)
Lemma bff_ok {R} parse action (handler : RequestContext -> option string -> result dash_error R) method path j r j' :
  e_authDisabled env = false -> e_mockAuth env = false ->
  withBff jwtVerify refreshCognitoTokens env parse action handler method path j = (Ok r, j') ->
  exists s i token, vouched i s /\ handler (context_of s) token = Ok r /\ authorizeRoute (s_role s) method path = Ok tt.
Proof.
  intros Hd Hm. unfold withBff, extractRequestContext. rewrite Hm, Hd. cbn [negb].
  pose proof (stored_spec j Hd) as Hs.
  destruct (getOrRefreshStoredSession jwtVerify refreshCognitoTokens env j) as [[st|] j1]; [|done]. destruct Hs as [Hv _].
  cbn [context_of ctx_role]. destruct (authorizeRoute (s_role (session st)) method path) as [[]|e] eqn:Ea; [|done].
  destruct (getStoredSession jwtVerify env j1) as [s2 j2].
  destruct (handler (context_of (session st)) (idToken <$> s2)) as [r'|e] eqn:Eh; [|done].
  intros [= <- <-]. by exists (session st), (idToken st), (idToken <$> s2).
Qed.
End sessions.

(** ** Properties *)

(** Higher roles inherit: whatever a role may see, do, create or call, every role above it in the
    hierarchy may too, for all pages, actions, target roles and routes. *)
Theorem roles_inherit hi lo :
  isAtLeast hi lo = true ->
  (forall path, canViewPage lo path = true -> canViewPage hi path = true) /\
  (forall action, canPerformAction lo action = true -> canPerformAction hi action = true) /\
  (forall target, canCreateUser lo target = true -> canCreateUser hi target = true) /\
  (forall method path, authorizeRoute lo method path = Ok tt -> authorizeRoute hi method path = Ok tt).
Proof.
  intros Hge. split_and!; intros.
  - by eapply page_monotone.
  - by eapply action_monotone.
  - by eapply create_monotone.
  - by eapply authorize_monotone.
Qed.

Lemma roles_inherit_witness :
  isAtLeast OrgAdmin Auditor = true /\ (canViewPage Auditor "/audit" = true -> canViewPage OrgAdmin "/audit" = true).
Proof.
  split; [reflexivity|]. apply (roles_inherit OrgAdmin Auditor). reflexivity.
Defined.

(** Only a verified administrator changes anything.  With authentication on, a handler of the
    dashboard's API that completes ran for a session built from the claims of a token verified for
    this issuer and client, on a route that session's role may call; and on every route that
    changes devices, exceptions, users or settings, that role is an administrator. *)
Theorem mutations_need_admin {R} jwtVerify refreshCognitoTokens env parse action
    (handler : RequestContext -> option string -> result dash_error R) method alt path j r j' :
  e_authDisabled env = false -> e_mockAuth env = false ->
  withBff jwtVerify refreshCognitoTokens env parse action handler method path j = (Ok r, j') ->
  exists s i token, vouched jwtVerify env i s /\ handler (context_of s) token = Ok r /\
    authorizeRoute (s_role s) method path = Ok tt /\
    ((method, alt) ∈ SERVED_MUTATIONS -> segs_test alt (segments path) = true -> s_role s = SuperAdmin \/ s_role s = OrgAdmin).
Proof.
  intros Hd Hm E. destruct (bff_ok _ _ _ _ _ _ _ _ _ _ _ Hd Hm E) as (s & i & token & Hv & Hh & Ha).
  exists s, i, token. split_and!; [done..|]. intros Hin Hp. by eapply mutation_admin.
Qed.

(** A session is never served from cookies alone: the session store returns only sessions vouched for
    by a verified token, which is then the id token in the cookies; and when neither the stored nor a
    refreshed token verifies, all four cookies are gone. *)
Theorem session_store_sound jwtVerify refreshCognitoTokens env j :
  e_authDisabled env = false ->
  match getOrRefreshStoredSession jwtVerify refreshCognitoTokens env j with
  | (Some st, j') => vouched jwtVerify env (idToken st) (session st) /\ cookie ID_TOKEN_COOKIE j' = Some (idToken st)
  | (None, j') => no_cookies j'
  end.
Proof. apply stored_spec. Qed.

(** Lists are scoped to the caller's organisation: whatever filters a request carries, also an
    organisation of its own, the list operation of the base sees the organisation of the session and
    every other filter unchanged. *)
Theorem lists_org_scoped {Q R} (base : Q -> filters -> R) s query f :
  NoDup (obj_keys (default [] f)) ->
  exists g, scoped_list base s query f = base query g /\ obj_get "org_id" g = Some (JStr (s_orgId s)) /\
    forall k, k <> "org_id" -> obj_get k g = obj_get k (default [] f).
Proof.
  intros Hnd. eexists. split; [reflexivity|]. unfold withOrgFilter, stripOrgId.
  assert (NoDup (obj_keys (default [] (obj_del "org_id" <$> f)))) as Hnd'
    by (destruct f; simpl in *; [by apply obj_keys_del|constructor]).
  split; [by rewrite obj_get_set, String.eqb_refl by done|]. intros k Hk%String.eqb_neq.
  rewrite obj_get_set, Hk by done. destruct f as [o|]; simpl in *; [by rewrite obj_get_del, Hk|done].
Qed.

(** ** Examples *)

Definition sample_env : dash_env := mkEnv false false "https://issuer" "client".
Definition sample_payload : json :=
  JObj [("sub", JStr "u1"); ("email", JStr "a@b.c"); ("custom:org_id", JStr "org"); ("cognito:groups", JArr [JStr "org_admin"])].
(** A verifier that accepts one token. *)
Definition sample_verify (token issuer audience : string) : option json :=
  if String.eqb token "good" then Some sample_payload else None.
Definition sample_jar : jar := {[ACCESS_TOKEN_COOKIE := ("a", 900); ID_TOKEN_COOKIE := ("good", 900)]}.
Definition echo_role (ctx : RequestContext) (token : option string) : result dash_error DashRole := Ok (ctx_role ctx).

Lemma mutations_need_admin_witness :
  exists s i token, vouched sample_verify sample_env i s /\ echo_role (context_of s) token = Ok OrgAdmin /\
    authorizeRoute (s_role s) "DELETE" "/api/devices/d1" = Ok tt /\
    (("DELETE", api ["devices"] ++ [AnySeg]) ∈ SERVED_MUTATIONS ->
     segs_test (api ["devices"] ++ [AnySeg]) (segments "/api/devices/d1") = true -> s_role s = SuperAdmin \/ s_role s = OrgAdmin).
Proof.
  eapply (mutations_need_admin sample_verify (fun _ => None) sample_env (fun _ => None) (Some "deactivate:device") echo_role
            "DELETE" (api ["devices"] ++ [AnySeg]) "/api/devices/d1" sample_jar); vm_compute; reflexivity.
Defined.

Lemma session_store_sound_witness :
  match getOrRefreshStoredSession sample_verify (fun _ => None) sample_env sample_jar with
  | (Some st, j') => vouched sample_verify sample_env (idToken st) (session st) /\ cookie ID_TOKEN_COOKIE j' = Some (idToken st)
  | (None, j') => no_cookies j'
  end.
Proof. apply (session_store_sound sample_verify (fun _ => None) sample_env sample_jar). reflexivity. Defined.

Lemma lists_org_scoped_witness :
  exists g, scoped_list (fun (q : nat) (g : filters) => g) MOCK_SESSION 1%nat (Some [("org_id", JStr "other"); ("status", JStr "active")]) = g /\
    obj_get "org_id" g = Some (JStr "org-default") /\ forall k, k <> "org_id" ->
      obj_get k g = obj_get k (default [] (Some [("org_id", JStr "other"); ("status", JStr "active")])).
Proof.
  apply (lists_org_scoped (fun (q : nat) (g : filters) => g) MOCK_SESSION 1%nat).
  apply (bool_decide_unpack _). vm_compute. exact I.
Defined.
