(* ===== verification/CliUtil.v ===== *)
(** * Command-line framework: executable resolution, validation, identity

    [cli-connectors/framework/src]: [util/executable.ts], [util/validation.ts], [util/xpc-env.ts] and
    [core/user-context.ts], with the parts of Node's POSIX [path] module they use.  The file system
    is a parameter: which paths are executable files, and what they are after following links. *)

From S2P Require Import Prelude Json CliInput.

(** ** [node:path] *)

(** The segments of a path, empty ones left out. *)
Definition path_segs (p : string) : list string := filter (fun s => is_empty s = false) (js_split "/"%char p).

Definition is_absolute (p : string) : bool := starts_with "/" p.

(** Resolve [.] and [..]; above the root [..] is dropped, in a relative path it is kept. *)
Definition push_seg (absolute : bool) (stack : list string) (s : string) : list string :=
  if String.eqb s "." then stack
  else if String.eqb s ".." then
    match stack with
    | [] => if absolute then [] else [".."]
    | top :: rest => if String.eqb top ".." then ".." :: stack else rest
    end
  else s :: stack.

Definition normalize_segs (absolute : bool) (l : list string) : list string :=
  rev (fold_left (push_seg absolute) l []).

Definition ends_slash (p : string) : bool :=
  match rev (to_chars p) with c :: _ => Ascii.eqb c "/"%char | [] => false end.

(** [path.normalize] *)
Definition path_normalize (p : string) : string :=
  if is_empty p then "."
  else
    let body := js_join "/" (normalize_segs (is_absolute p) (path_segs p)) in
    if is_absolute p then "/" +:+ body +:+ (if ends_slash p && negb (is_empty body) then "/" else "")
    else if is_empty body then (if ends_slash p then "./" else ".")
    else body +:+ (if ends_slash p then "/" else "").

(** [path.join(a, b)] *)
Definition path_join (a b : string) : string :=
  let joined := js_join "/" (filter (fun s => is_empty s = false) [a; b]) in
  if is_empty joined then "." else path_normalize joined.

(** [path.basename] and [path.dirname] of a path without doubled slashes *)
Definition path_basename (p : string) : string := default "" (last (path_segs p)).

Definition path_dirname (p : string) : string :=
  match path_segs p with
  | [] => if is_absolute p then "/" else "."
  | [_] => if is_absolute p then "/" else "."
  | l => (if is_absolute p then "/" else "") +:+ js_join "/" (removelast l)
  end.

(** The segments of [path.resolve(p)] in the working directory with the segments [cwd]. *)
Definition resolve_segs (cwd : list string) (p : string) : list string :=
  normalize_segs true (if is_absolute p then path_segs p else cwd ++ path_segs p).

(** The segments of [path.relative(from, to)] *)
Fixpoint relative_segs (from to : list string) : list string :=
  match from, to with
  | f :: from', t :: to' => if String.eqb f t then relative_segs from' to' else map (fun _ => "..") from ++ to
  | _, _ => map (fun _ => "..") from ++ to
  end.

(** ** [executable.ts] *)

(** [x_exec p]: [p] is a regular file we may execute; [x_realpath]: [None] when it throws. *)
Record fs := mkFs {
  x_exec : string -> bool;
  x_realpath : string -> option string
}.

Record ResolveExecutableOptions := mkResolve {
  names : list string;
  envVar : option string;
  extraDirs : option (list string)
}.

Definition defaultExtraDirs (env : env_t) : list string :=
  let home := default "" (env !! "HOME") in
  ["/usr/local/bin"; "/opt/homebrew/bin"] ++ (if is_empty home then [] else [home +:+ "/.local/bin"; home +:+ "/bin"]).

Definition dedupe (entries : list string) : list string := js_set entries.

Section resolution.
Context (disk : fs) (env : env_t).
(** [process.argv[1]] as an absolute path, for [path.resolve] *)
Context (entry : option string).

Definition wrapperDirectory : option string :=
  match entry with
  | None => None
  | Some e => if is_empty e then None else Some (path_dirname (default e (x_realpath disk e)))
  end.

Definition isVGuardrailWrapper (candidate : string) (selfDir : option string) : bool :=
  let resolved := default candidate (x_realpath disk candidate) in
  starts_with "vg-" (path_basename resolved) ||
  match selfDir with Some d => String.eqb (path_dirname resolved) d | None => false end.

(** The inner and outer [for] loops *)
Definition usable (candidate : string) : bool :=
  x_exec disk candidate && negb (isVGuardrailWrapper candidate wrapperDirectory).

Definition search_dirs (o : ResolveExecutableOptions) : list string :=
  let pathDirs := filter (fun d => is_empty d = false) (js_split ":"%char (default "" (env !! "PATH"))) in
  dedupe (pathDirs ++ default (defaultExtraDirs env) (extraDirs o)).

Definition find_executable (o : ResolveExecutableOptions) : option string :=
  find usable (flat_map (fun name => map (fun dir => path_join dir name) (search_dirs o)) (names o)).

Definition override (o : ResolveExecutableOptions) : option string :=
  match envVar o with
  | Some v => if is_empty v then None else match env !! v with Some p => if is_empty p then None else Some p | None => None end
  | None => None
  end.

(** [None] is [undefined], for an empty list of names. *)
Definition resolveRealExecutable (o : ResolveExecutableOptions) : option string :=
  match override o with
  | Some p => Some p
  | None =>
      match find_executable o with
      | Some candidate => Some candidate
      | None => head (names o)
      end
  end.

(** What the operating system runs for a bare name: the first executable of that name on the path. *)
Definition os_lookup (name : string) : option string :=
  find (x_exec disk) (map (fun dir => path_join dir name)
    (filter (fun d => is_empty d = false) (js_split ":"%char (default "" (env !! "PATH"))))).
End resolution.

(** ** [validation.ts] *)

(** [{ valid, error }]: [None] is valid. *)
Definition validatePath (cwd : list string) (filePath : string) : option string :=
  if is_empty filePath || is_empty (js_trim filePath) then Some "Empty path"
  else if js_includes filePath (of_chars [chr 0]) then Some "Path contains null bytes"
  else
    let relative := js_join "/" (relative_segs cwd (resolve_segs cwd filePath)) in
    if starts_with ".." relative then Some "Path is outside allowed directory" else None.

Definition sanitizePath (cwd : list string) (filePath : string) : string :=
  "/" +:+ js_join "/" (resolve_segs cwd (of_chars (filter (fun c => c <> chr 0) (to_chars filePath)))).

Definition MAX_ARG_LENGTH : Z := 100000.

Definition argument_errors (i : nat) (arg : string) : list string :=
  (if js_includes arg (of_chars [chr 0]) then ["Argument " +:+ show_Z (Z.of_nat i) +:+ " contains null bytes"] else []) ++
  (if MAX_ARG_LENGTH <? strlen arg
   then ["Argument " +:+ show_Z (Z.of_nat i) +:+ " exceeds maximum length (" +:+ show_Z (strlen arg) +:+ " > "
         +:+ show_Z MAX_ARG_LENGTH +:+ ")"] else []).

Definition validateArguments (args : list string) : bool * list string :=
  let errors := List.concat (imap argument_errors args) in
  (bool_decide (errors = []), errors).

Definition validatePrompt (prompt : string) (maxLength : Z) : option string :=
  if is_empty prompt || is_empty (js_trim prompt) then Some "Empty prompt"
  else if maxLength <? strlen prompt
  then Some ("Prompt exceeds maximum length (" +:+ show_Z (strlen prompt) +:+ " > " +:+ show_Z maxLength +:+ ")")
  else None.

(** [[a-zA-Z0-9_-]] *)
Definition is_name_char (c : ascii) : bool :=
  let n := code c in
  ((97 <=? n) && (n <=? 122)) || ((65 <=? n) && (n <=? 90)) || ((48 <=? n) && (n <=? 57)) || (n =? 95) || (n =? 45).

Definition validateToolName (name : string) : option string :=
  if is_empty name || is_empty (js_trim name) then Some "Empty tool name"
  else if negb (forallb is_name_char (to_chars name)) then Some "Tool name contains invalid characters"
  else if 64 <? strlen name then Some "Tool name too long (max 64 characters)"
  else None.

(** ** [xpc-env.ts] *)

Definition DEFAULT_BRIDGE_PATH : string := "/usr/local/bin/vguardrail-xpc-bridge".
Definition LOCAL_AGENT_PLIST : string := "Library/LaunchAgents/com.vguardrail.agent.local.plist".

Definition set_if_unset (key value : string) (condition : bool) (env : env_t) : env_t :=
  match env !! key with
  | None => if condition then <[key := value]> env else env
  | Some _ => env
  end.

Definition prepareXpcEnvironment (home : string) (exists_ : string -> bool) (env : env_t) : env_t :=
  set_if_unset "VG_XPC_USER_AGENT" "1" (exists_ (path_join home LOCAL_AGENT_PLIST))
    (set_if_unset "VG_XPC_BRIDGE_PATH" DEFAULT_BRIDGE_PATH (exists_ DEFAULT_BRIDGE_PATH) env).

(** ** [user-context.ts] *)

Record UserConfig := mkUserConfig { uc_id : option string; uc_role : option string; uc_groups : option (list string) }.
Record CliUser := mkCliUser { cu_userId : string; cu_role : string; cu_groups : list string }.

Definition getUserFromEnv (env : env_t) (username : string) : string :=
  or_else (env !! "USER") (or_else (env !! "USERNAME") (or_else (Some username) "unknown")).

Definition resolveUserContext (env : env_t) (username : string) (config : option UserConfig) : CliUser :=
  mkCliUser (or_else (config ≫= uc_id) (getUserFromEnv env username))
    (or_else (config ≫= uc_role) "user") (default [] (config ≫= uc_groups)).

Definition validateUserContext (u : CliUser) : bool := (0 <? strlen (cu_userId u)) && (0 <? strlen (cu_role u)).

Definition anonymizeUserContext (u : CliUser) : CliUser :=
  mkCliUser ("user_" +:+ slice_to 4 (cu_userId u)) (cu_role u) (cu_groups u).

(** ** Resolution *)

Lemma resolution_cases disk env entry o p :
  resolveRealExecutable disk env entry o = Some p ->
  override env o = Some p \/
  (override env o = None /\ usable disk entry p = true /\
   exists dir name, dir ∈ search_dirs env o /\ name ∈ names o /\ p = path_join dir name) \/
  (override env o = None /\ head (names o) = Some p /\
   forall dir name, dir ∈ search_dirs env o -> name ∈ names o -> usable disk entry (path_join dir name) = false).
Proof.
  unfold resolveRealExecutable. destruct (override env o) as [q|]; [by left|]. intros Hp. right.
  destruct (find_executable disk env entry o) as [q|] eqn:E; unfold find_executable in E.
  - left. simplify_eq. apply find_some in E as [Hin Hu]. split_and!; [done..|].
    apply in_flat_map in Hin as (name & Hn & Hd). apply in_map_iff in Hd as (dir & <- & Hd).
    exists dir, name. split_and!; [by apply list_elem_of_In..|done].
  - right. split_and!; [done..|]. intros dir name Hd Hn. apply (find_none _ _ E), in_flat_map.
    exists name. split; [by apply list_elem_of_In|]. apply in_map_iff. exists dir. split; [done|by apply list_elem_of_In].
Qed.

(** ** Paths *)

Lemma relative_split from to :
  exists c from' to', from = c ++ from' /\ to = c ++ to' /\ relative_segs from to = map (fun _ => "..") from' ++ to'.
Proof.
  revert to. induction from as [|f from IH]; intros to; [by exists [], [], to|].
  destruct to as [|t to]; [by exists [], (f :: from), []|]. cbn [relative_segs].
  destruct (String.eqb_spec f t) as [<-|]; [|by exists [], (f :: from), (t :: to)].
  destruct (IH to) as (c & from' & to' & -> & -> & E). by exists (f :: c), from', to'.
Qed.

Lemma join_dotdot l : starts_with ".." (js_join "/" (".." :: l)) = true.
Proof. unfold js_join. destruct l as [|x l]; reflexivity. Qed.

(** ** Properties *)

(** The wrapper never picks a wrapper: the executable it resolves is the user's override, or a file it
    found on the search path that is executable and, links followed, neither is named like a
    launcher nor lives in the launcher's own directory; only when no candidate qualifies is it the
    bare name, for the operating system to look up. *)
Theorem resolve_not_wrapper disk env entry o p :
  resolveRealExecutable disk env entry o = Some p ->
  override env o = Some p \/
  (x_exec disk p = true /\ isVGuardrailWrapper disk p (wrapperDirectory disk entry) = false /\
   exists dir name, dir ∈ search_dirs env o /\ name ∈ names o /\ p = path_join dir name) \/
  (head (names o) = Some p /\
   forall dir name, dir ∈ search_dirs env o -> name ∈ names o -> usable disk entry (path_join dir name) = false).
Proof.
  intros [?|[(_ & Hu & Hx)|(_ & Hh & Hn)]]%resolution_cases; [by left|right; left|right; right; auto].
  unfold usable in Hu. bool_simpl. auto.
Qed.

(** A path that validates stays below the working directory. *)
Theorem validated_path_within cwd p :
  validatePath cwd p = None -> exists rest, resolve_segs cwd p = cwd ++ rest.
Proof.
  unfold validatePath. destruct (_ || _); [done|]. destruct (js_includes _ _); [done|]. cbv zeta.
  destruct (relative_split cwd (resolve_segs cwd p)) as (c & from' & to' & Ec & Er & ->).
  destruct from' as [|f from']; [|cbn [map Datatypes.app]; by rewrite join_dotdot].
  intros _. exists to'. rewrite Er, Ec. by rewrite app_nil_r.
Qed.

(** What the user has set is never overwritten. *)
Lemma prepare_keeps home exists_ env k v : env !! k = Some v -> prepareXpcEnvironment home exists_ env !! k = Some v.
Proof.
  assert (forall key value b (e : env_t), e !! k = Some v -> set_if_unset key value b e !! k = Some v) as Hs.
  { intros key value b e E. unfold set_if_unset. destruct (e !! key) eqn:Ek; [done|]. destruct b; [|done].
    rewrite lookup_insert_ne; [done|congruence]. }
  intros E. by apply Hs, Hs.
Qed.

(** ** Examples *)

(** A launcher installed under the tool's name by a link, before the tool itself if that is there. *)
Definition linked_fs (tool_installed : bool) : fs :=
  mkFs (fun p => String.eqb p "/vg/bin/gemini" || (tool_installed && String.eqb p "/usr/bin/gemini"))
    (fun p => Some (if String.eqb p "/vg/bin/gemini" then "/vg/lib/vg-gemini" else p)).
Definition linked_env : env_t := {["PATH" := "/vg/bin:/usr/bin"]}.
Definition gemini : ResolveExecutableOptions := mkResolve ["gemini"] (Some "VG_GEMINI_PATH") (Some []).

Lemma resolve_not_wrapper_witness :
  override linked_env gemini = Some "/usr/bin/gemini" \/
  (x_exec (linked_fs true) "/usr/bin/gemini" = true /\
   isVGuardrailWrapper (linked_fs true) "/usr/bin/gemini" (wrapperDirectory (linked_fs true) (Some "/vg/lib/vg-gemini")) = false /\
   exists dir name, dir ∈ search_dirs linked_env gemini /\ name ∈ names gemini /\ "/usr/bin/gemini" = path_join dir name) \/
  (head (names gemini) = Some "/usr/bin/gemini" /\
   forall dir name, dir ∈ search_dirs linked_env gemini -> name ∈ names gemini ->
     usable (linked_fs true) (Some "/vg/lib/vg-gemini") (path_join dir name) = false).
Proof.
  apply (resolve_not_wrapper (linked_fs true) linked_env (Some "/vg/lib/vg-gemini") gemini). vm_compute. reflexivity.
Defined.

(** The bare name of the last resort is looked up on the same path: with the tool uninstalled it finds
    the launcher again. *)
Lemma fallback_finds_launcher :
  resolveRealExecutable (linked_fs false) linked_env (Some "/vg/lib/vg-gemini") gemini = Some "gemini" /\
  os_lookup (linked_fs false) linked_env "gemini" = Some "/vg/bin/gemini" /\
  isVGuardrailWrapper (linked_fs false) "/vg/bin/gemini" (wrapperDirectory (linked_fs false) (Some "/vg/lib/vg-gemini")) = true.
Proof. split_and!; vm_compute; reflexivity. Qed.

Lemma path_examples :
  path_join "/usr/bin/" "../lib/./x" = "/usr/lib/x" /\ path_dirname "/a/b/c" = "/a/b" /\ path_basename "/a/vg-x" = "vg-x" /\
  validatePath ["home"; "u"] "src/../a.txt" = None /\ validatePath ["home"; "u"] "../v/a" = Some "Path is outside allowed directory".
Proof. split_and!; vm_compute; reflexivity. Qed.
