(* ===== verification/CliFiles.v ===== *)
(** * Command-line framework: file capture, standard input, logging

    [cli-connectors/framework/src/util]: [file.ts], [stdin.ts] and [logger.ts].  The file system is a
    parameter, a function from absolute paths to what is there ([None]: every access throws); standard
    input is the list of the chunks it delivers.  The log's clock is a parameter. *)

From Stdlib Require Import Wf_nat.
From S2P Require Import Prelude Json JsonText CliInput CliUtil.

(** ** Text of a buffer *)

(** The stand-in for a character outside the 8-bit code units. *)
Definition SUBSTITUTE : ascii := chr 26.

(** [buffer.toString('utf-8')]: total, as in Node; a byte that is not part of the coding of one of
    U+0000 to U+00FF becomes the stand-in. *)
Fixpoint utf8_text (b : chars) : chars :=
  match b with
  | [] => []
  | c :: b1 =>
      if code c <? 128 then c :: utf8_text b1
      else if (194 <=? code c) && (code c <=? 195) then
        match b1 with
        | d :: b2 =>
            if (128 <=? code d) && (code d <=? 191)
            then chr ((code c - 192) * 64 + (code d - 128)) :: utf8_text b2
            else SUBSTITUTE :: utf8_text b1
        | [] => [SUBSTITUTE]
        end
      else SUBSTITUTE :: utf8_text b1
  end.

Definition buffer_text (b : chars) : string := of_chars (utf8_text b).

(** ** [stdin.ts] *)

Definition MAX_STDIN_SIZE : Z := 1 * 1024 * 1024.

Definition isStdinPiped (isTTY : bool) : bool := negb isTTY.

(** The [for await] loop: the bytes collected, and the chunks left in the stream when it breaks. *)
Fixpoint read_chunks (total : Z) (chunks : chars) (stream : list chars) : chars * list chars :=
  match stream with
  | [] => (chunks, [])
  | buffer :: stream' =>
      let total' := total + Z.of_nat (List.length buffer) in
      if MAX_STDIN_SIZE <=? total' then (chunks ++ buffer, stream')
      else read_chunks total' (chunks ++ buffer) stream'
  end.

Definition stdin_content (content : string) : string :=
  if MAX_STDIN_SIZE <? strlen content then slice_to (Z.to_nat MAX_STDIN_SIZE) content else content.

Definition readStdin (stream : list chars) : string * list chars :=
  let '(chunks, rest) := read_chunks 0 [] stream in
  (stdin_content (buffer_text chunks), rest).

(** ** [file.ts] *)

Definition MAX_FILE_SIZE : Z := 10 * 1024 * 1024.
Definition MAX_CONTENT_LENGTH : Z := 1 * 1024 * 1024.

Inductive node := FileNode (bytes : chars) | OtherNode.

Section file_capture.
(** What is at an absolute path, and the segments of the working directory. *)
Context (disk : string -> option node) (cwd : list string).

Definition path_resolve (p : string) : string := "/" +:+ js_join "/" (resolve_segs cwd p).

Definition resolvesWithinProject (resolvedPath : string) : bool :=
  if negb (starts_with (path_resolve "") resolvedPath) then
    let relativePath := js_join "/" (relative_segs cwd (path_segs resolvedPath)) in
    if starts_with ".." relativePath then true else true
  else true.

Definition readPartialFile (bytes : chars) (maxBytes : Z) : string :=
  buffer_text (take (Z.to_nat (Z.min maxBytes MAX_CONTENT_LENGTH)) bytes).

Definition readFileContent (filePath : string) (maxSize : Z) : option string :=
  let resolvedPath := path_resolve filePath in
  if negb (resolvesWithinProject resolvedPath) then None
  else
    match disk resolvedPath with
    | Some (FileNode bytes) =>
        if maxSize <? Z.of_nat (List.length bytes) then Some (readPartialFile bytes MAX_CONTENT_LENGTH)
        else Some (buffer_text bytes)
    | Some OtherNode | None => None
    end.

Definition truncateContent (content : string) (maxLength : Z) : string :=
  if strlen content <=? maxLength then content
  else slice_to (Z.to_nat maxLength) content +:+ newline +:+ "... [truncated]".

Definition readFiles (files : list string) : list (string * string) :=
  omap (fun filePath =>
    match readFileContent filePath MAX_FILE_SIZE with
    | None => None
    | Some content => Some (filePath, truncateContent content MAX_CONTENT_LENGTH)
    end) files.

Definition isValidFile (filePath : string) : bool :=
  match disk (path_resolve filePath) with Some (FileNode _) => true | _ => false end.
End file_capture.

(** [path.extname]: the last dot of the base name and what follows, unless the name starts with it. *)
Fixpoint after_last_dot (s : chars) : option chars :=
  match s with
  | [] => None
  | c :: s' =>
      match after_last_dot s' with
      | Some e => Some e
      | None => if Ascii.eqb c "."%char then Some (c :: s') else None
      end
  end.

Definition path_extname (p : string) : string :=
  let base := path_basename p in
  if String.eqb base ".." then ""
  else
    match after_last_dot (to_chars base) with
    | Some e => if Nat.eqb (List.length e) (String.length base) then "" else of_chars e
    | None => ""
    end.

(** [.replace('.', '')]: the first dot of an extension is its first character. *)
Definition getFileExtension (filePath : string) : string := slice_from 1 (path_extname filePath).

(** ** [logger.ts] *)

Inductive LogLevel := LDebug | LInfo | LWarn | LError | LNone.

Definition LOG_LEVELS (l : LogLevel) : Z :=
  match l with LDebug => 0 | LInfo => 1 | LWarn => 2 | LError => 3 | LNone => 4 end.

Definition level_name (l : LogLevel) : string :=
  match l with LDebug => "debug" | LInfo => "info" | LWarn => "warn" | LError => "error" | LNone => "none" end.

(** The initial [currentLogLevel]; the current one is an argument of what reads it, and setting
    it returns the new one. *)
Definition initialLogLevel : LogLevel := LWarn.
Definition setLogLevel (level _ : LogLevel) : LogLevel := level.

(** [s.toLowerCase()] on 8-bit code units *)
Definition lower_char (c : ascii) : ascii :=
  let n := code c in
  if ((65 <=? n) && (n <=? 90)) || ((192 <=? n) && (n <=? 222) && negb (n =? 215)) then chr (n + 32) else c.
Definition to_lower (s : string) : string := of_chars (map lower_char (to_chars s)).

Definition sensitiveFields : list string :=
  ["prompt"; "text"; "content"; "secret"; "password"; "token"; "apiKey"; "api_key"; "authorization"; "credential"].

Definition sensitive_key (key : string) : bool :=
  let lowerKey := to_lower key in existsb (fun sf => js_includes lowerKey sf) sensitiveFields.

Definition sanitizeField (kv : string * json) : string * json :=
  if sensitive_key kv.1 then (kv.1, JStr "[REDACTED]")
  else
    match kv.2 with
    | JStr value => if 1000 <? strlen value then (kv.1, JStr (slice_to 1000 value +:+ "...")) else kv
    | _ => kv
    end.

Definition sanitizeFields (fields : option (list (string * json))) : option (list (string * json)) :=
  (fun o => obj_of_list (map sanitizeField o)) <$> fields.

Inductive log_line := LogOut (s : string) | LogErr (s : string).

(** [log] at the time [timestamp] *)
Definition log (timestamp : string) (level : LogLevel) (message : string) (fields : option (list (string * json))) : log_line :=
  let sanitizedFields := sanitizeFields fields in
  let head := "[" +:+ timestamp +:+ "] [VGuardrail] [" +:+ to_upper (level_name level) +:+ "] " +:+ message in
  let line :=
    match sanitizedFields with
    | Some ((_ :: _) as o) => head +:+ " " +:+ of_chars (print_json (JObj o)) +:+ newline
    | _ => head +:+ newline
    end in
  match level with LError | LWarn => LogErr line | _ => LogOut line end.

(** [debug], [info], [warn] and [error]: what is written when the current level is [current]. *)
Definition log_at (timestamp : string) (level current : LogLevel) (message : string)
    (fields : option (list (string * json))) : list log_line :=
  if LOG_LEVELS current <=? LOG_LEVELS level then [log timestamp level message fields] else [].

(** [{ ...context, ...fields }] *)
Definition spread_into {A} (o fields : list (string * A)) : list (string * A) :=
  fold_left (fun acc kv => obj_set kv.1 kv.2 acc) fields o.

(** [createChildLogger] *)
Definition child_log (context : list (string * json)) (timestamp : string) (level current : LogLevel) (message : string)
    (fields : option (list (string * json))) : list log_line :=
  log_at timestamp level current message (Some (spread_into (obj_of_list context) (default [] fields))).

(** ** Standard input *)

Lemma length_of_chars l : String.length (of_chars l) = List.length l.
Proof. induction l as [|c l IH]; [done|]. cbn. by rewrite <- IH. Qed.

Lemma length_slice_to n s : (String.length (slice_to n s) <= n)%nat.
Proof.
  unfold slice_to. revert n. induction s as [|c s IH]; intros [|n]; cbn [String.substring String.length]; try lia.
  specialize (IH n). lia.
Qed.

Lemma slice_to_prefix n s : exists t, s = slice_to n s +:+ t.
Proof.
  unfold slice_to. revert n. induction s as [|c s IH]; intros [|n]; [by exists ""..|by exists (String c s)|].
  destruct (IH n) as [t Ht]. exists t. cbn [String.substring]. by rewrite append_cons, <- Ht.
Qed.

Lemma read_chunks_app total chunks stream :
  exists taken, (read_chunks total chunks stream).1 = chunks ++ List.concat taken /\ stream = taken ++ (read_chunks total chunks stream).2.
Proof.
  revert total chunks. induction stream as [|b stream IH]; intros total chunks; cbn [read_chunks].
  - exists []. by rewrite app_nil_r.
  - destruct (_ <=? _); cbn [fst snd].
    + exists [b]. cbn [List.concat Datatypes.app]. by rewrite app_nil_r.
    + destruct (IH (total + Z.of_nat (List.length b)) (chunks ++ b)) as (taken & E1 & E2).
      exists (b :: taken). cbn [List.concat Datatypes.app]. rewrite E1, app_assoc. split; [done|]. by rewrite <- E2.
Qed.

(** The loop stops before the end of the stream only when the limit is reached. *)
Lemma read_chunks_limit total chunks stream :
  total = Z.of_nat (List.length chunks) ->
  (read_chunks total chunks stream).2 <> [] -> MAX_STDIN_SIZE <= Z.of_nat (List.length (read_chunks total chunks stream).1).
Proof.
  revert total chunks. induction stream as [|b stream IH]; intros total chunks Ht; cbn [read_chunks]; [done|].
  destruct (_ <=? _) eqn:E; cbn [fst snd]; bool_simpl.
  - intros _. rewrite length_app. lia.
  - apply IH. rewrite length_app. lia.
Qed.

Lemma utf8_text_length b : (List.length (utf8_text b) <= List.length b)%nat.
Proof.
  induction b as [b IH] using (induction_ltof1 _ (@List.length ascii)); unfold ltof in IH.
  destruct b as [|c b]; [done|]. cbn [utf8_text].
  assert (List.length (utf8_text b) <= List.length b)%nat by (apply IH; simpl; lia).
  destruct (code c <? 128); [simpl; lia|]. destruct (_ && _); [|simpl; lia].
  destruct b as [|d b]; [simpl; lia|].
  destruct (_ && _); [|cbn [List.length] in *; lia].
  assert (List.length (utf8_text b) <= List.length b)%nat by (apply IH; simpl; lia). simpl. lia.
Qed.

Lemma utf8_text_decode b s : utf8_decode b = Some s -> utf8_text b = s.
Proof.
  revert s. induction b as [b IH] using (induction_ltof1 _ (@List.length ascii)); unfold ltof in IH; intros s.
  destruct b as [|c b]; cbn [utf8_decode utf8_text]; [by intros [= <-]|].
  destruct (code c <? 128).
  - intros (s' & E & ->)%fmap_Some. f_equal. apply IH; [simpl; lia|done].
  - destruct (_ && _); [|done]. destruct b as [|d b]; [done|]. destruct (_ && _); [|done].
    intros (s' & E & ->)%fmap_Some. f_equal. apply IH; [simpl; lia|done].
Qed.

(** The whole text is read when it is below the limit. *)
Lemma readStdin_all stream :
  Z.of_nat (List.length (List.concat stream)) < MAX_STDIN_SIZE -> readStdin stream = (buffer_text (List.concat stream), []).
Proof.
  intros Hl. unfold readStdin.
  pose proof (read_chunks_app 0 [] stream) as (taken & E1 & E2). pose proof (read_chunks_limit 0 [] stream eq_refl) as Hlim.
  destruct (read_chunks 0 [] stream) as [chunks rest]. cbn [fst snd Datatypes.app] in *. subst.
  rewrite concat_app, length_app in Hl. destruct rest as [|b rest]; [|specialize (Hlim ltac:(done)); lia].
  rewrite app_nil_r. f_equal. unfold stdin_content. destruct (_ <? _) eqn:E; [|done]. bool_simpl.
  unfold strlen, buffer_text in E. rewrite length_of_chars in E.
  pose proof (utf8_text_length (List.concat taken)). lia.
Qed.

Lemma stdin_content_bound s : strlen (stdin_content s) <= MAX_STDIN_SIZE.
Proof.
  unfold stdin_content. destruct (_ <? _) eqn:E; bool_simpl; [|done].
  unfold strlen. pose proof (length_slice_to (Z.to_nat MAX_STDIN_SIZE) s). assert (0 <= MAX_STDIN_SIZE) by done. lia.
Qed.

Lemma stdin_content_prefix s : exists t, s = stdin_content s +:+ t.
Proof. unfold stdin_content. destruct (_ <? _); [apply slice_to_prefix|exists ""; by rewrite append_nil_r]. Qed.

(** ** Files *)

Lemma buffer_text_length b : strlen (buffer_text b) <= Z.of_nat (List.length b).
Proof. unfold strlen, buffer_text. rewrite length_of_chars. pose proof (utf8_text_length b). lia. Qed.

Lemma readPartialFile_bound bytes maxBytes : 0 <= maxBytes -> strlen (readPartialFile bytes maxBytes) <= MAX_CONTENT_LENGTH.
Proof.
  intros Hm. unfold readPartialFile.
  pose proof (buffer_text_length (take (Z.to_nat (Z.min maxBytes MAX_CONTENT_LENGTH)) bytes)) as Hb.
  rewrite length_take in Hb. assert (0 <= MAX_CONTENT_LENGTH) by done. lia.
Qed.

Lemma readFileContent_spec disk cwd p maxSize :
  readFileContent disk cwd p maxSize =
  match disk (path_resolve cwd p) with
  | Some (FileNode bytes) =>
      Some (buffer_text (if maxSize <? Z.of_nat (List.length bytes) then take (Z.to_nat MAX_CONTENT_LENGTH) bytes else bytes))
  | _ => None
  end.
Proof.
  unfold readFileContent.
  assert (resolvesWithinProject cwd (path_resolve cwd p) = true) as ->.
  { unfold resolvesWithinProject. destruct (negb _); [|done]. by destruct (starts_with _ _). }
  cbn [negb]. destruct (disk _) as [[bytes|]|]; [|done..]. unfold readPartialFile. rewrite Z.min_id. by destruct (_ <? _).
Qed.

Lemma truncateContent_bound s m :
  0 <= m -> strlen (truncateContent s m) <= m + 16 /\ (strlen s <= m -> truncateContent s m = s).
Proof.
  intros Hm. unfold truncateContent. destruct (_ <=? _) eqn:E; bool_simpl; [split; [lia|done]|]. split; [|lia].
  unfold strlen in *. rewrite !length_append. pose proof (length_slice_to (Z.to_nat m) s).
  change (String.length newline) with 1%nat. change (String.length "... [truncated]") with 15%nat. lia.
Qed.

(** ** The log *)

Lemma sanitize_keys o : obj_keys (map sanitizeField o) = obj_keys o.
Proof.
  unfold obj_keys. rewrite map_map. apply map_ext. intros [k v]. unfold sanitizeField. cbn [fst snd].
  destruct (sensitive_key _); [done|]. destruct v; try done. by destruct (_ <? _).
Qed.

Lemma sanitizeFields_elem o k v :
  NoDup (obj_keys o) -> (k, v) ∈ obj_of_list (map sanitizeField o) -> exists v', (k, v') ∈ o /\ (k, v) = sanitizeField (k, v').
Proof.
  intros Hn Hin. rewrite obj_of_list_Permutation in Hin by (by rewrite sanitize_keys).
  apply list_elem_of_fmap in Hin as ([k' v'] & E & Hin). exists v'.
  assert (k = k') as ->; [|done].
  apply (f_equal fst) in E. cbn [fst] in E. rewrite E. unfold sanitizeField. cbn [fst snd].
  destruct (sensitive_key _); [done|]. destruct v'; try done. by destruct (_ <? _).
Qed.

(** ** Properties *)

(** Capturing standard input is bounded and loses nothing it need not: the text is at most
    [MAX_STDIN_SIZE] long and is the beginning of the text of the chunks that were taken; chunks are
    left behind only once that many bytes were taken, and below the limit the text is all of it. *)
Theorem stdin_capture stream :
  let '(content, rest) := readStdin stream in
  strlen content <= MAX_STDIN_SIZE /\
  (exists taken, stream = taken ++ rest /\ (exists t, buffer_text (List.concat taken) = content +:+ t) /\
    (rest <> [] -> MAX_STDIN_SIZE <= Z.of_nat (List.length (List.concat taken)))) /\
  (Z.of_nat (List.length (List.concat stream)) < MAX_STDIN_SIZE -> content = buffer_text (List.concat stream) /\ rest = []).
Proof.
  pose proof (readStdin_all stream) as Hall. unfold readStdin in *.
  pose proof (read_chunks_app 0 [] stream) as (taken & E1 & E2). pose proof (read_chunks_limit 0 [] stream eq_refl) as Hlim.
  destruct (read_chunks 0 [] stream) as [chunks rest]. cbn [fst snd Datatypes.app] in *. subst chunks. split_and!.
  - apply stdin_content_bound.
  - exists taken. split_and!; [done|apply stdin_content_prefix|done].
  - intros Hl. specialize (Hall Hl). by simplify_eq.
Qed.

(** Captured files are bounded: a file captured for a scan has at most [MAX_CONTENT_LENGTH] characters
    and the truncation mark; a file of at most [MAX_FILE_SIZE] bytes is read whole, a larger one to
    its first [MAX_CONTENT_LENGTH] bytes; what is no regular file or cannot be read is left out. *)
Theorem file_capture disk cwd paths p content :
  (p, content) ∈ readFiles disk cwd paths ->
  p ∈ paths /\ strlen content <= MAX_CONTENT_LENGTH + 16 /\
  exists bytes, disk (path_resolve cwd p) = Some (FileNode bytes) /\
    (Z.of_nat (List.length bytes) <= MAX_CONTENT_LENGTH -> content = buffer_text bytes) /\
    (MAX_FILE_SIZE < Z.of_nat (List.length bytes) ->
     content = buffer_text (take (Z.to_nat MAX_CONTENT_LENGTH) bytes)).
Proof.
  unfold readFiles. rewrite list_elem_of_omap. intros (q & Hq & E). rewrite readFileContent_spec in E.
  destruct (disk (path_resolve cwd q)) as [[bytes|]|] eqn:Ed; [|done..]. simplify_eq. split; [done|].
  pose proof (truncateContent_bound (buffer_text (if MAX_FILE_SIZE <? Z.of_nat (List.length bytes)
    then take (Z.to_nat MAX_CONTENT_LENGTH) bytes else bytes)) MAX_CONTENT_LENGTH ltac:(done)) as [Hb Hid].
  split; [done|]. exists bytes. split_and!; [done| |]; intros Hl; rewrite Hid; destruct (_ <? _) eqn:E; bool_simpl; try done.
  - pose proof (eq_refl : MAX_FILE_SIZE = 10 * MAX_CONTENT_LENGTH). assert (0 <= MAX_CONTENT_LENGTH) by done. lia.
  - pose proof (eq_refl : MAX_FILE_SIZE = 10 * MAX_CONTENT_LENGTH). assert (0 <= MAX_CONTENT_LENGTH) by done. lia.
  - pose proof (buffer_text_length bytes). lia.
  - lia.
  - pose proof (buffer_text_length (take (Z.to_nat MAX_CONTENT_LENGTH) bytes)) as Ht. rewrite length_take in Ht.
    assert (0 <= MAX_CONTENT_LENGTH) by done. lia.
  - lia.
Qed.

(** The log does not carry what its sanitiser recognises: under a key whose lower-case form contains one
    of the sensitive names the value is the placeholder, and no string value is longer than 1003. *)
Theorem log_redaction o out k v :
  NoDup (obj_keys o) -> sanitizeFields (Some o) = Some out -> (k, v) ∈ out ->
  (sensitive_key k = true -> v = JStr "[REDACTED]") /\
  (forall s, v = JStr s -> strlen s <= 1003) /\
  (sensitive_key k = false -> (forall s, v <> JStr s) -> (k, v) ∈ o).
Proof.
  intros Hn [= <-] Hin. destruct (sanitizeFields_elem o k v Hn Hin) as (v' & Ho & E).
  unfold sanitizeField in E. cbn [fst snd] in E.
  destruct (sensitive_key k) eqn:Es; simplify_eq.
  - split_and!; [done|intros s [= <-]; vm_compute; discriminate|done].
  - split_and!; [done| |].
    + intros s ->. destruct v'; simplify_eq. destruct (_ <? _) eqn:Ev; simplify_eq; bool_simpl; [|lia].
      unfold strlen. rewrite length_append. pose proof (length_slice_to 1000 s0). cbn [String.length]. lia.
    + intros _ Hs. destruct v'; simplify_eq; try done. exfalso. destruct (_ <? _); simplify_eq; by eapply Hs.
Qed.

(** ** Examples *)

Definition one_file : string -> option node :=
  fun p => if String.eqb p "/w/a.txt" then Some (FileNode (to_chars "hello")) else None.

Lemma file_capture_witness :
  "a.txt" ∈ ["b.txt"; "a.txt"] /\ strlen "hello" <= MAX_CONTENT_LENGTH + 16 /\
  exists bytes, one_file (path_resolve ["w"] "a.txt") = Some (FileNode bytes) /\
    (Z.of_nat (List.length bytes) <= MAX_CONTENT_LENGTH -> "hello" = buffer_text bytes) /\
    (MAX_FILE_SIZE < Z.of_nat (List.length bytes) -> "hello" = buffer_text (take (Z.to_nat MAX_CONTENT_LENGTH) bytes)).
Proof. apply (file_capture one_file ["w"]). apply (bool_decide_unpack _); vm_compute; exact I. Defined.

Lemma log_redaction_witness :
  (sensitive_key "authToken" = true -> JStr "[REDACTED]" = JStr "[REDACTED]") /\
  (forall s, JStr "[REDACTED]" = JStr s -> strlen s <= 1003) /\
  (sensitive_key "authToken" = false -> (forall s, JStr "[REDACTED]" <> JStr s) -> ("authToken", JStr "[REDACTED]") ∈ [("authToken", JStr "abc")]).
Proof.
  apply (log_redaction [("authToken", JStr "abc")] [("authToken", JStr "[REDACTED]")]).
  - apply (bool_decide_unpack _); vm_compute; exact I.
  - vm_compute. reflexivity.
  - left.
Defined.

(** The key is lower-cased before it is compared, the sensitive name [apiKey] is not: an API key logged
    under that very name is written out. *)
Lemma log_api_key_leaks : sanitizeFields (Some [("apiKey", JStr "sk-123")]) = Some [("apiKey", JStr "sk-123")].
Proof. vm_compute. reflexivity. Qed.

Lemma extname_examples :
  getFileExtension "src/a.test.ts" = "ts" /\ getFileExtension ".env" = "" /\ getFileExtension "a/b." = "" /\ getFileExtension "x/.." = "".
Proof. split_and!; vm_compute; reflexivity. Qed.
