(* ===== verification/CliAdapters.v ===== *)
(** * Command-line tool adapters

    [cli-connectors/adapters/*/src/index.ts]: a module per tool, with the extractor that finds the
    prompt in the arguments, the tool definition and the entry point over the connector of
    [CliConnector].  An extractor returns its result, what it wrote to stderr, and what it left of
    standard input; the terminal, standard input and the file system are the fields of [surroundings].

    The [for] loops over an index become recursion on the arguments from that index on; [next_arg] and
    [skip_arg] are [args[++i]] and what follows. *)

From S2P Require Import Prelude Json JsonText Zod Enums Decision ScanRequest AuditEvent Resilience Framing Transport Client CliInput CliConnector CliUtil CliFiles.
From Stdlib Require Import Wf_nat.

Record surroundings := mkSurroundings {
  a_isTTY : bool;
  a_stdin : list chars;
  a_disk : string -> option node;
  a_cwd : list string
}.

Record extraction := mkExtracted {
  x_result : ExtractionResult;
  x_stderr : list string;
  x_stdin : list chars
}.

Abbreviation extractor := (surroundings -> list string -> extraction).

(** ** Shared steps *)

Definition has_next (rest : list string) : bool := match rest with [] => false | _ :: _ => true end.
Definition next_arg (rest : list string) : string := match rest with [] => "" | a :: _ => a end.
Definition skip_arg (rest : list string) : list string := match rest with [] => rest | _ :: rest' => rest' end.

Definition is_flag (arg : string) : bool := starts_with "-" arg.
Definition is_quote (c : ascii) : bool := (code c =? 34) || (code c =? 39).

Definition drop_quote (s : chars) : chars := match s with c :: s' => if is_quote c then s' else s | [] => [] end.

(** [.replace(/^["']|["']$/g, '')] *)
Definition unquote (s : string) : string := of_chars (rev (drop_quote (rev (drop_quote (to_chars s))))).

(** [arg.slice(prefix.length).replace(...)] *)
Definition flag_value (flag arg : string) : string := unquote (slice_from (String.length flag) arg).

Definition not_found : ExtractionResult := mkResult false None None.
Definition found_context (c : ExtractionContext) : ExtractionResult := mkResult true (Some c) None.

(** Leave standard input alone, writing [out]. *)
Definition untouched (e : surroundings) (r : ExtractionResult) (out : list string) : extraction := mkExtracted r out (a_stdin e).

(** The part the adapters that read standard input share:
    capture it when it is piped, let it stand for a missing prompt, and report what was found. *)
Definition with_stdin (e : surroundings) (prompt : string) (notice : list string) : extraction :=
  if isStdinPiped (a_isTTY e) then
    let '(stdinData, rest) := readStdin (a_stdin e) in
    let prompt := if is_empty prompt then stdinData else prompt in
    if is_empty prompt && is_empty stdinData then mkExtracted not_found notice rest
    else mkExtracted (found_context (createExtractionContext prompt None (Some stdinData))) [] rest
  else if is_empty prompt then untouched e not_found notice
  else untouched e (found_context (createExtractionContext prompt None None)) [].

(** ** [claude] *)

Module Claude.
Fixpoint scan_args (prompt : string) (filesToRead args : list string) : string * list string :=
  match args with
  | [] => (prompt, filesToRead)
  | arg :: rest =>
      if String.eqb arg "--prompt" && has_next rest then scan_args (next_arg rest) filesToRead (skip_arg rest)
      else if starts_with "--prompt=" arg then scan_args (flag_value "--prompt=" arg) filesToRead rest
      else if String.eqb arg "--read" && has_next rest then scan_args prompt (filesToRead ++ [next_arg rest]) (skip_arg rest)
      else if negb (is_flag arg) && is_empty prompt then scan_args arg filesToRead rest
      else scan_args prompt filesToRead rest
  end.

Definition extractContext : extractor := fun e args =>
  let '(prompt, filesToRead) := scan_args "" [] args in
  let hasStdin := negb (a_isTTY e) in
  if is_empty prompt && negb hasStdin && bool_decide (filesToRead = []) then untouched e not_found []
  else
    let fileContents := readFiles (a_disk e) (a_cwd e) filesToRead in
    untouched e (found_context (createExtractionContext prompt (Some fileContents) None)) [].

Definition executable : ResolveExecutableOptions := mkResolve ["claude"; "claude-code"] (Some "VG_CLAUDE_PATH") None.
Definition tool (path : string) : ToolDefinition :=
  createToolDefinition "claude-code" "Claude Code" path (Some "anthropic") (Some "claude-opus-4") None.
End Claude.

(** ** [codex] *)

Module Codex.
Definition VALUE_FLAGS : list string :=
  ["-m"; "--model"; "-p"; "--profile"; "-s"; "--sandbox"; "-a"; "--ask-for-approval"; "-c"; "--config"; "-C"; "--cd";
   "-i"; "--image"; "--color"; "--output-schema"; "--output-last-message"].
Definition NON_PROMPT_SUBCOMMANDS : list string :=
  ["login"; "logout"; "mcp"; "proto"; "completion"; "debug"; "apply"; "resume"; "sandbox"].

(** [None]: the loop returned [{ found: false }]. *)
Fixpoint scan_args (positional : list string) (firstPositionalSeen execMode : bool) (args : list string)
    : option (list string * bool) :=
  match args with
  | [] => Some (positional, execMode)
  | arg :: rest =>
      if bool_decide (arg ∈ VALUE_FLAGS) then scan_args positional firstPositionalSeen execMode (skip_arg rest)
      else if is_flag arg && negb (String.eqb arg "-") then scan_args positional firstPositionalSeen execMode rest
      else
        let push := if String.eqb arg "-" then positional else positional ++ [arg] in
        if negb firstPositionalSeen then
          if String.eqb arg "exec" then scan_args positional true true rest
          else if bool_decide (arg ∈ NON_PROMPT_SUBCOMMANDS) then None
          else scan_args push true execMode rest
        else scan_args push firstPositionalSeen execMode rest
  end.

Definition exec_notice : string :=
  "[VGuardrail] No prompt detected for codex exec; passing through without scanning." +:+ newline.

Definition extractContext : extractor := fun e args =>
  match scan_args [] false false args with
  | None => untouched e not_found []
  | Some (positional, execMode) => with_stdin e (js_join " " positional) (if execMode then [exec_notice] else [])
  end.

Definition executable : ResolveExecutableOptions := mkResolve ["codex"] (Some "VG_CODEX_PATH") None.
Definition tool (path : string) : ToolDefinition :=
  createToolDefinition "codex-cli" "Codex CLI" path (Some "openai") (Some "gpt-5-codex")
    (Some (mkProfile (Some (of_chars [chr 21])))).
End Codex.

(** ** [gemini] *)

Module Gemini.
Definition VALUE_FLAGS : list string :=
  ["-m"; "--model"; "-e"; "--extensions"; "--include-directories"; "--proxy"; "--sandbox-image";
   "--allowed-mcp-server-names"; "--allowed-tools"; "--approval-mode"; "--telemetry-target";
   "--telemetry-otlp-endpoint"; "--telemetry-outfile"].

(** [None]: an interactive session was requested. *)
Fixpoint scan_args (flagPrompt : string) (positional args : list string) : option (string * list string) :=
  match args with
  | [] => Some (flagPrompt, positional)
  | arg :: rest =>
      if String.eqb arg "-i" || String.eqb arg "--interactive" then None
      else if (String.eqb arg "-p" || String.eqb arg "--prompt") && has_next rest
      then scan_args (next_arg rest) positional (skip_arg rest)
      else if starts_with "--prompt=" arg then scan_args (flag_value "--prompt=" arg) positional rest
      else if bool_decide (arg ∈ VALUE_FLAGS) then scan_args flagPrompt positional (skip_arg rest)
      else if negb (is_flag arg) then scan_args flagPrompt (positional ++ [arg]) rest
      else scan_args flagPrompt positional rest
  end.

Definition interactive_notice : string :=
  "[VGuardrail] Interactive Gemini session: no prompt to scan; prompts typed inside the session are not intercepted." +:+ newline.
Definition no_prompt_notice : string :=
  "[VGuardrail] No prompt detected; passing through to Gemini without scanning." +:+ newline.

Definition extractContext : extractor := fun e args =>
  match scan_args "" [] args with
  | None => untouched e not_found [interactive_notice]
  | Some (flagPrompt, positional) =>
      with_stdin e (if is_empty flagPrompt then js_join " " positional else flagPrompt) [no_prompt_notice]
  end.

Definition executable : ResolveExecutableOptions := mkResolve ["gemini"] (Some "VG_GEMINI_PATH") None.
Definition tool (path : string) : ToolDefinition :=
  createToolDefinition "gemini-cli" "Gemini CLI" path (Some "google") (Some "gemini-2.5-pro")
    (Some (mkProfile (Some (of_chars [chr 21])))).
End Gemini.

(** ** [ollama] *)

Module Ollama.
Definition VALUE_FLAGS : list string := ["--format"; "--keepalive"; "--think"].

(** The subcommand and the arguments after it. *)
Fixpoint find_subcommand (args : list string) : option (string * list string) :=
  match args with
  | [] => None
  | arg :: rest =>
      if bool_decide (arg ∈ VALUE_FLAGS) then find_subcommand (skip_arg rest)
      else if is_flag arg then find_subcommand rest
      else Some (arg, rest)
  end.

Fixpoint scan_args (model : string) (promptWords args : list string) : list string :=
  match args with
  | [] => promptWords
  | arg :: rest =>
      if bool_decide (arg ∈ VALUE_FLAGS) then scan_args model promptWords (skip_arg rest)
      else if is_flag arg then scan_args model promptWords rest
      else if is_empty model then scan_args arg promptWords rest
      else scan_args model (promptWords ++ [arg]) rest
  end.

Definition no_subcommand_notice : string :=
  "[VGuardrail] No Ollama subcommand detected; passing through without scanning." +:+ newline.
Definition chat_notice : string :=
  "[VGuardrail] Ollama chat is an interactive session: prompts are exchanged inside the session and cannot be intercepted per-message; passing through without scanning." +:+ newline.
Definition maintenance_notice (subcommand : string) : string :=
  "[VGuardrail] Ollama maintenance command " +:+ of_chars [chr 34] +:+ subcommand +:+ of_chars [chr 34]
  +:+ ": no prompt to scan; passing through." +:+ newline.
Definition interactive_notice : string :=
  "[VGuardrail] Interactive Ollama run session: prompts typed inside the session are not intercepted." +:+ newline.

Definition extractContext : extractor := fun e args =>
  let '(subcommand, after) := default ("", []) (find_subcommand args) in
  if is_empty subcommand then untouched e not_found [no_subcommand_notice]
  else if negb (String.eqb subcommand "run") then
    untouched e not_found [if String.eqb subcommand "chat" then chat_notice else maintenance_notice subcommand]
  else with_stdin e (js_join " " (scan_args "" [] after)) [interactive_notice].

Definition executable : ResolveExecutableOptions := mkResolve ["ollama"] (Some "VG_OLLAMA_PATH") None.
Definition tool (path : string) : ToolDefinition := createToolDefinition "ollama" "Ollama" path (Some "ollama") None None.
End Ollama.

(** ** [sgpt] *)

Module Sgpt.
Definition VALUE_FLAGS : list string :=
  ["--model"; "--temperature"; "--top-p"; "--top-probability"; "--role"; "--create-role"; "--show-role"; "--show-chat"].

(** [None]: a REPL session was requested. *)
Fixpoint scan_args (positionalPrompt : string) (args : list string) : option string :=
  match args with
  | [] => Some positionalPrompt
  | arg :: rest =>
      if String.eqb arg "--repl" || starts_with "--repl=" arg then None
      else if String.eqb arg "--chat" && has_next rest then scan_args positionalPrompt (skip_arg rest)
      else if bool_decide (arg ∈ VALUE_FLAGS) then scan_args positionalPrompt (skip_arg rest)
      else if is_flag arg then scan_args positionalPrompt rest
      else if is_empty positionalPrompt then scan_args arg rest
      else scan_args positionalPrompt rest
  end.

Definition repl_notice : string :=
  "[VGuardrail] Interactive Shell-GPT REPL session: prompts typed inside the session are not intercepted." +:+ newline.
Definition no_prompt_notice : string :=
  "[VGuardrail] No prompt detected; passing through to Shell-GPT without scanning." +:+ newline.

Definition extractContext : extractor := fun e args =>
  match scan_args "" args with
  | None => untouched e not_found [repl_notice]
  | Some positionalPrompt => with_stdin e positionalPrompt [no_prompt_notice]
  end.

Definition executable : ResolveExecutableOptions := mkResolve ["sgpt"] (Some "VG_SGPT_PATH") None.
Definition tool (path : string) : ToolDefinition := createToolDefinition "sgpt" "Shell-GPT" path (Some "sgpt") None None.
End Sgpt.

(** ** [gh-copilot] *)

Module GhCopilot.
Definition VALUE_FLAGS : list string := ["-t"; "--target"; "--hostname"].

Fixpoint scan_args (subcommand prompt : string) (args : list string) : string * string :=
  match args with
  | [] => (subcommand, prompt)
  | arg :: rest =>
      if bool_decide (arg ∈ VALUE_FLAGS) then scan_args subcommand prompt (skip_arg rest)
      else if is_flag arg then scan_args subcommand prompt rest
      else if is_empty subcommand then scan_args arg prompt rest
      else if is_empty prompt then scan_args subcommand arg rest
      else scan_args subcommand prompt rest
  end.

Definition not_copilot_notice : string :=
  "[VGuardrail] Not a GitHub Copilot invocation; passing through to gh without scanning." +:+ newline.
Definition interactive_notice : string :=
  "[VGuardrail] Interactive Copilot session: prompts typed inside the session are not intercepted." +:+ newline.
Definition maintenance_notice (subcommand : string) : string :=
  "[VGuardrail] Copilot maintenance command " +:+ of_chars [chr 34] +:+ subcommand +:+ of_chars [chr 34]
  +:+ ": no prompt to scan; passing through." +:+ newline.
Definition no_prompt_notice (subcommand : string) : string :=
  "[VGuardrail] gh copilot " +:+ subcommand
  +:+ " without an inline prompt is interactive; prompts typed inside the session are not intercepted." +:+ newline.

Definition extractContext : extractor := fun e args =>
  match args with
  | arg0 :: rest =>
      if negb (String.eqb arg0 "copilot") then untouched e not_found [not_copilot_notice]
      else
        let '(subcommand, prompt) := scan_args "" "" rest in
        if negb (String.eqb subcommand "suggest") && negb (String.eqb subcommand "explain") then
          untouched e not_found [if is_empty subcommand then interactive_notice else maintenance_notice subcommand]
        else if is_empty prompt then untouched e not_found [no_prompt_notice subcommand]
        else untouched e (found_context (createExtractionContext prompt None None)) []
  | [] => untouched e not_found [not_copilot_notice]
  end.

Definition executable : ResolveExecutableOptions := mkResolve ["gh"] (Some "VG_GH_PATH") None.
Definition tool (path : string) : ToolDefinition :=
  createToolDefinition "gh-copilot" "GitHub Copilot CLI" path (Some "github") None None.
End GhCopilot.

(** ** [llama] and [aider]: a prompt given inline or in a file *)

(** The part they share after their loop: read the file, refuse when it cannot be read, and let its
    content stand for a missing inline prompt. *)
Definition with_prompt_file (e : surroundings) (inline file error_prefix : string) (notice : list string) : extraction :=
  if is_empty inline && is_empty file then untouched e not_found notice
  else if is_empty file then untouched e (found_context (createExtractionContext inline (Some []) None)) []
  else
    match readFileContent (a_disk e) (a_cwd e) file MAX_FILE_SIZE with
    | None => untouched e (mkResult false None (Some (error_prefix +:+ file))) []
    | Some content =>
        untouched e (found_context
          (createExtractionContext (if is_empty inline then content else inline) (Some [(file, content)]) None)) []
    end.

Module Llama.
Fixpoint scan_args (prompt promptFile : string) (args : list string) : string * string :=
  match args with
  | [] => (prompt, promptFile)
  | arg :: rest =>
      if (String.eqb arg "-p" || String.eqb arg "--prompt") && has_next rest
      then scan_args (next_arg rest) promptFile (skip_arg rest)
      else if starts_with "--prompt=" arg then scan_args (flag_value "--prompt=" arg) promptFile rest
      else if starts_with "-p=" arg then scan_args (flag_value "-p=" arg) promptFile rest
      else if (String.eqb arg "-f" || String.eqb arg "--file") && has_next rest
      then scan_args prompt (next_arg rest) (skip_arg rest)
      else if starts_with "--file=" arg then scan_args prompt (flag_value "--file=" arg) rest
      else if starts_with "-f=" arg then scan_args prompt (flag_value "-f=" arg) rest
      else scan_args prompt promptFile rest
  end.

Definition no_prompt_notice : string :=
  "[VGuardrail] No -p/--prompt or -f/--file detected; interactive llama.cpp sessions are not intercepted. Passing through without scanning." +:+ newline.

Definition extractContext : extractor := fun e args =>
  let '(prompt, promptFile) := scan_args "" "" args in
  with_prompt_file e prompt promptFile "Cannot read prompt file: " [no_prompt_notice].

Definition executable : ResolveExecutableOptions := mkResolve ["llama-cli"; "main"; "llama"] (Some "VG_LLAMA_BIN") None.
Definition tool (path : string) : ToolDefinition := createToolDefinition "llama-cpp" "llama.cpp" path (Some "llama-cpp") None None.
End Llama.

Module Aider.
Fixpoint scan_args (message messageFile : string) (args : list string) : string * string :=
  match args with
  | [] => (message, messageFile)
  | arg :: rest =>
      if (String.eqb arg "--message" || String.eqb arg "--msg" || String.eqb arg "-m") && has_next rest
      then scan_args (next_arg rest) messageFile (skip_arg rest)
      else if starts_with "--message=" arg then scan_args (flag_value "--message=" arg) messageFile rest
      else if starts_with "--msg=" arg then scan_args (flag_value "--msg=" arg) messageFile rest
      else if String.eqb arg "--message-file" && has_next rest then scan_args message (next_arg rest) (skip_arg rest)
      else if starts_with "--message-file=" arg then scan_args message (flag_value "--message-file=" arg) rest
      else scan_args message messageFile rest
  end.

Definition interactive_notice : string :=
  "[VGuardrail] Interactive Aider session: prompts typed inside the session are not intercepted." +:+ newline.

Definition extractContext : extractor := fun e args =>
  let '(message, messageFile) := scan_args "" "" args in
  with_prompt_file e message messageFile "Cannot read --message-file: " [interactive_notice].

Definition executable : ResolveExecutableOptions := mkResolve ["aider"] (Some "VG_AIDER_PATH") None.
Definition tool (path : string) : ToolDefinition := createToolDefinition "aider" "Aider" path (Some "aider") None None.
End Aider.

(** ** [mlx] *)

Module Mlx.
(** [None]: no prompt flag was seen. *)
Fixpoint scan_args (prompt : option string) (args : list string) : option string :=
  match args with
  | [] => prompt
  | arg :: rest =>
      if String.eqb arg "--prompt" && has_next rest then scan_args (Some (next_arg rest)) (skip_arg rest)
      else if starts_with "--prompt=" arg then scan_args (Some (flag_value "--prompt=" arg)) rest
      else scan_args prompt rest
  end.

Definition no_prompt_notice : string :=
  "[VGuardrail] No --prompt detected; passing through to MLX LM without scanning." +:+ newline.
Definition terminal_notice : string :=
  "[VGuardrail] --prompt - with no piped stdin: the prompt is typed into the terminal and is not intercepted. Passing through without scanning." +:+ newline.
Definition empty_notice : string := "[VGuardrail] Empty prompt; passing through to MLX LM without scanning." +:+ newline.

Definition extractContext : extractor := fun e args =>
  match scan_args None args with
  | None => untouched e not_found [no_prompt_notice]
  | Some prompt =>
      if String.eqb prompt "-" then
        if negb (isStdinPiped (a_isTTY e)) then untouched e not_found [terminal_notice]
        else
          let '(stdinData, rest) := readStdin (a_stdin e) in
          if is_empty stdinData then mkExtracted not_found [empty_notice] rest
          else mkExtracted (found_context (createExtractionContext stdinData None (Some stdinData))) [] rest
      else if is_empty prompt then untouched e not_found [empty_notice]
      else untouched e (found_context (createExtractionContext prompt None None)) []
  end.

Definition executable : ResolveExecutableOptions := mkResolve ["mlx_lm.generate"] (Some "VG_MLX_BIN") None.
Definition tool (path : string) : ToolDefinition := createToolDefinition "mlx-lm" "MLX LM" path (Some "mlx") None None.
End Mlx.

(** ** The adapters, and their entry points *)

Record adapter := mkAdapter {
  ad_extract : extractor;
  ad_executable : ResolveExecutableOptions;
  ad_tool : string -> ToolDefinition
}.

Definition adapters : list adapter :=
  [mkAdapter Claude.extractContext Claude.executable Claude.tool;
   mkAdapter Codex.extractContext Codex.executable Codex.tool;
   mkAdapter Gemini.extractContext Gemini.executable Gemini.tool;
   mkAdapter Ollama.extractContext Ollama.executable Ollama.tool;
   mkAdapter Sgpt.extractContext Sgpt.executable Sgpt.tool;
   mkAdapter GhCopilot.extractContext GhCopilot.executable GhCopilot.tool;
   mkAdapter Llama.extractContext Llama.executable Llama.tool;
   mkAdapter Aider.extractContext Aider.executable Aider.tool;
   mkAdapter Mlx.extractContext Mlx.executable Mlx.tool].

Section entry_point.
Context `{Zod} {T : Type} `{EventLoop T} (tr : Transport T) (timeoutMs : Z) (uuid : nat -> string) (jitter : nat -> Z).
(** The machine: files, links, the launcher's path; the surroundings of the process; the rest of the world. *)
Context (disk : fs) (entry : option string) (e : surroundings) (w : world).
Context (userContext : UserContext) (repoContext : option RepoContext).

(** The tool definition, its executable resolved when the module is loaded. *)
Definition tool_of (a : adapter) : ToolDefinition :=
  ad_tool a (default "" (resolveRealExecutable disk (w_env w) entry (ad_executable a))).

(** The world as the connector sees it: the extractor is the adapter's. *)
Definition world_of (a : adapter) : world :=
  mkWorld (w_env w) (w_isTTY w) (w_now w) (fun args => Ok (x_result (ad_extract a e args))) (w_spawn w) (w_confirm w) (w_pty w).

(** [main] *)
Definition adapter_main (a : adapter) (args : list string) : async (cli T) unit :=
  CliConnector.run tr timeoutMs uuid jitter (world_of a) (tool_of a) userContext repoContext args.
End entry_point.

(** ** Specification: the words of a command line *)

(** The arguments that are not the value of a flag that takes one. *)
Fixpoint tokens (takes_value : string -> bool) (args : list string) : list string :=
  match args with
  | [] => []
  | arg :: rest => arg :: tokens takes_value (if takes_value arg then skip_arg rest else rest)
  end.

(** The tokens that are words, not flags; codex also counts a lone dash. *)
Definition words (takes_value : string -> bool) (args : list string) : list string :=
  filter (fun arg => is_flag arg = false) (tokens takes_value args).
Definition dashed_words (takes_value : string -> bool) (args : list string) : list string :=
  filter (fun arg => is_flag arg = false \/ arg = "-") (tokens takes_value args).

Definition takes (flags : list string) (arg : string) : bool := bool_decide (arg ∈ flags).

(** The first non-empty string of a list (or the empty one), and the list after it. *)
Fixpoint first_word (l : list string) : string * list string :=
  match l with
  | [] => ("", [])
  | x :: l' => if is_empty x then first_word l' else (x, l')
  end.

(** The values a command line gives to the flags [keys], as the next argument or after [eq]. *)
Fixpoint given (takes_value : string -> bool) (keys : list string) (eq : string) (args : list string) : list string :=
  match args with
  | [] => []
  | arg :: rest =>
      (if takes keys arg then (if has_next rest then [next_arg rest] else [])
       else if starts_with eq arg then [flag_value eq arg] else [])
      ++ given takes_value keys eq (if takes_value arg then skip_arg rest else rest)
  end.

Definition gemini_takes : string -> bool := takes (["-p"; "--prompt"] ++ Gemini.VALUE_FLAGS).
Definition sgpt_takes : string -> bool := takes ("--chat" :: Sgpt.VALUE_FLAGS).
Definition is_interactive (arg : string) : bool := String.eqb arg "-i" || String.eqb arg "--interactive".
Definition is_repl (arg : string) : bool := String.eqb arg "--repl" || starts_with "--repl=" arg.

(** ** Lemmas *)

Lemma args_ind (P : list string -> Prop) :
  P [] -> (forall a rest, P rest -> P (skip_arg rest) -> P (a :: rest)) -> forall args, P args.
Proof.
  intros H0 H1. apply (induction_ltof1 _ (@List.length string)). unfold ltof. intros [|a rest] IH; [done|].
  apply H1; apply IH; [simpl; lia|]. destruct rest; simpl; lia.
Qed.

Lemma takes_flag flags arg : forallb is_flag flags = true -> takes flags arg = true -> is_flag arg = true.
Proof.
  intros Hf Ht. apply bool_decide_eq_true in Ht. rewrite forallb_forall in Hf. by apply Hf, list_elem_of_In.
Qed.

Lemma words_cons flags arg rest :
  forallb is_flag flags = true ->
  words (takes flags) (arg :: rest) =
  if takes flags arg then words (takes flags) (skip_arg rest)
  else if is_flag arg then words (takes flags) rest else arg :: words (takes flags) rest.
Proof.
  intros Hf. unfold words at 1. cbn [tokens]. rewrite filter_cons.
  destruct (takes flags arg) eqn:Et.
  - rewrite (takes_flag flags arg Hf Et). by rewrite decide_False.
  - by destruct (is_flag arg) eqn:Ea; [rewrite decide_False|rewrite decide_True].
Qed.

(** Ollama *)
Lemma ollama_find args :
  match Ollama.find_subcommand args with
  | Some (sub, rest) => words (takes Ollama.VALUE_FLAGS) args = sub :: words (takes Ollama.VALUE_FLAGS) rest
  | None => words (takes Ollama.VALUE_FLAGS) args = []
  end.
Proof.
  induction args as [|a rest IH IHs] using args_ind; [done|]. rewrite words_cons by done. cbn [Ollama.find_subcommand].
  change (bool_decide (a ∈ Ollama.VALUE_FLAGS)) with (takes Ollama.VALUE_FLAGS a).
  destruct (takes _ _); [exact IHs|]. by destruct (is_flag a).
Qed.

Lemma ollama_words model pw args :
  Ollama.scan_args model pw args =
  pw ++ (if is_empty model then (first_word (words (takes Ollama.VALUE_FLAGS) args)).2
         else words (takes Ollama.VALUE_FLAGS) args).
Proof.
  revert model pw. induction args as [|a rest IH IHs] using args_ind; intros model pw.
  { cbn. destruct (is_empty model); by rewrite app_nil_r. }
  rewrite words_cons by done. cbn [Ollama.scan_args].
  change (bool_decide (a ∈ Ollama.VALUE_FLAGS)) with (takes Ollama.VALUE_FLAGS a).
  destruct (takes _ _); [apply IHs|]. destruct (is_flag a); [apply IH|]. cbn [first_word].
  destruct (is_empty model) eqn:E; rewrite IH; [by destruct (is_empty a)|]. rewrite E. by rewrite <- app_assoc.
Qed.

(** Shell-GPT *)
Lemma existsb_tokens (f : string -> bool) takes_value a rest :
  existsb f (tokens takes_value (a :: rest)) = f a || existsb f (tokens takes_value (if takes_value a then skip_arg rest else rest)).
Proof. done. Qed.

Lemma takes_cons k ks arg : takes (k :: ks) arg = String.eqb arg k || takes ks arg.
Proof.
  unfold takes. destruct (String.eqb_spec arg k) as [->|Hn]; cbn [orb].
  - apply bool_decide_eq_true. by left.
  - apply bool_decide_ext. rewrite elem_of_cons. naive_solver.
Qed.

Lemma sgpt_words p args :
  Sgpt.scan_args p args =
  if existsb is_repl (tokens sgpt_takes args) then None
  else Some (if is_empty p then (first_word (words sgpt_takes args)).1 else p).
Proof.
  unfold sgpt_takes. revert p. induction args as [|a rest IH IHs] using args_ind; intros p; [by destruct p|].
  rewrite existsb_tokens, words_cons by done. cbn [Sgpt.scan_args]. fold (is_repl a) (takes Sgpt.VALUE_FLAGS a).
  destruct (is_repl a) eqn:Er; [done|]. cbn [orb]. rewrite takes_cons.
  destruct (String.eqb_spec a "--chat") as [->|Hn]; cbn [orb andb].
  { destruct rest as [|n rest]; [by destruct p|apply IHs]. }
  destruct (takes Sgpt.VALUE_FLAGS a); [apply IHs|]. destruct (is_flag a); [apply IH|]. cbn [first_word].
  destruct (is_empty p) eqn:Ep; rewrite IH; [by destruct (is_empty a)|by rewrite Ep].
Qed.

(** GitHub Copilot *)
Lemma gh_prompt sub p args :
  is_empty sub = false ->
  GhCopilot.scan_args sub p args = (sub, if is_empty p then (first_word (words (takes GhCopilot.VALUE_FLAGS) args)).1 else p).
Proof.
  intros Hs. revert p. induction args as [|a rest IH IHs] using args_ind; intros p; [by destruct p|].
  rewrite words_cons by done. cbn [GhCopilot.scan_args]. fold (takes GhCopilot.VALUE_FLAGS a).
  destruct (takes _ a); [apply IHs|]. destruct (is_flag a); [apply IH|]. rewrite Hs. cbn [first_word].
  destruct (is_empty p) eqn:Ep; rewrite IH; [by destruct (is_empty a)|by rewrite Ep].
Qed.

Lemma gh_words args :
  GhCopilot.scan_args "" "" args =
  let '(sub, after) := first_word (words (takes GhCopilot.VALUE_FLAGS) args) in (sub, (first_word after).1).
Proof.
  induction args as [|a rest IH IHs] using args_ind; [done|].
  rewrite words_cons by done. cbn [GhCopilot.scan_args is_empty]. fold (takes GhCopilot.VALUE_FLAGS a).
  destruct (takes _ a); [apply IHs|]. destruct (is_flag a); [apply IH|]. cbn [first_word].
  destruct (is_empty a) eqn:Ea; [apply is_empty_spec in Ea as ->; exact IH|]. by rewrite gh_prompt.
Qed.

(** Gemini *)
Lemma last_default (x d : string) l : default d (last (x :: l)) = default x (last l).
Proof. rewrite last_cons. by destruct (last l). Qed.

Lemma gemini_words fp pos args :
  Gemini.scan_args fp pos args =
  if existsb is_interactive (tokens gemini_takes args) then None
  else Some (default fp (last (given gemini_takes ["-p"; "--prompt"] "--prompt=" args)), pos ++ words gemini_takes args).
Proof.
  unfold gemini_takes. revert fp pos. induction args as [|a rest IH IHs] using args_ind; intros fp pos.
  { cbn. by rewrite app_nil_r. }
  rewrite existsb_tokens, words_cons by done. cbn [Gemini.scan_args given]. fold (is_interactive a) (takes Gemini.VALUE_FLAGS a).
  destruct (is_interactive a) eqn:Ei; [done|]. cbn [orb].
  change (["-p"; "--prompt"] ++ Gemini.VALUE_FLAGS) with ("-p" :: "--prompt" :: Gemini.VALUE_FLAGS) in *.
  rewrite !takes_cons. change (takes [] a) with false. rewrite orb_false_r, orb_assoc.
  destruct (String.eqb a "-p" || String.eqb a "--prompt") eqn:Ep; cbn [orb andb].
  - assert (starts_with "--prompt=" a = false /\ is_flag a = true /\ takes Gemini.VALUE_FLAGS a = false) as (E1 & E2 & E3).
    { apply orb_true_iff in Ep as [->%String.eqb_eq| ->%String.eqb_eq]; done. }
    destruct rest as [|n rest]; cbn [has_next next_arg skip_arg].
    + rewrite E1, E3, E2. cbn. by rewrite app_nil_r.
    + rewrite IHs. cbn [Datatypes.app skip_arg]. destruct (existsb is_interactive (tokens (takes ("-p" :: "--prompt" :: Gemini.VALUE_FLAGS)) rest)); [done|]. by rewrite last_default.
  - destruct (starts_with "--prompt=" a) eqn:Eq.
    + assert (takes Gemini.VALUE_FLAGS a = false /\ is_flag a = true) as [-> ->].
      { split; [|by apply prefix_split in Eq as [b ->]]. apply bool_decide_eq_false. unfold Gemini.VALUE_FLAGS.
        rewrite !elem_of_cons. intros Hin. repeat destruct Hin as [->|Hin]; try done. by apply not_elem_of_nil in Hin. }
      rewrite IH. cbn [Datatypes.app]. destruct (existsb is_interactive (tokens (takes ("-p" :: "--prompt" :: Gemini.VALUE_FLAGS)) rest)); [done|]. by rewrite last_default.
    + cbn [Datatypes.app]. destruct (takes _ a); [apply IHs|]. destruct (is_flag a); cbn [negb]; [apply IH|].
      rewrite IH. destruct (existsb is_interactive (tokens (takes ("-p" :: "--prompt" :: Gemini.VALUE_FLAGS)) rest)); [done|]. by rewrite <- app_assoc.
Qed.

(** Codex *)
Lemma dashed_words_cons flags arg rest :
  forallb (fun f => is_flag f && negb (String.eqb f "-")) flags = true ->
  dashed_words (takes flags) (arg :: rest) =
  if takes flags arg then dashed_words (takes flags) (skip_arg rest)
  else if is_flag arg && negb (String.eqb arg "-") then dashed_words (takes flags) rest
  else arg :: dashed_words (takes flags) rest.
Proof.
  intros Hf. unfold dashed_words at 1. cbn [tokens]. rewrite filter_cons.
  destruct (takes flags arg) eqn:Et.
  - apply bool_decide_eq_true in Et. rewrite forallb_forall in Hf. apply list_elem_of_In, Hf in Et. bool_simpl.
    rewrite decide_False; [done|]. intros [?| ->]; [congruence|done].
  - destruct (String.eqb_spec arg "-") as [->|Hn]; cbn [negb]; [rewrite andb_false_r, decide_True by auto; done|].
    rewrite andb_true_r. destruct (is_flag arg); [rewrite decide_False by naive_solver|rewrite decide_True by auto]; done.
Qed.

Definition no_dash (l : list string) : list string := filter (fun a => a <> "-") l.

Lemma codex_rest pos exec args :
  Codex.scan_args pos true exec args = Some (pos ++ no_dash (dashed_words (takes Codex.VALUE_FLAGS) args), exec).
Proof.
  revert pos. induction args as [|a rest IH IHs] using args_ind; intros pos; [cbn; by rewrite app_nil_r|].
  rewrite dashed_words_cons by done. cbn [Codex.scan_args negb]. fold (takes Codex.VALUE_FLAGS a).
  destruct (takes _ a); [apply IHs|]. destruct (is_flag a && _); [apply IH|]. rewrite IH.
  unfold no_dash at 2. rewrite filter_cons. destruct (String.eqb_spec a "-") as [->|Hn].
  - by rewrite decide_False by naive_solver.
  - rewrite decide_True by done. by rewrite <- app_assoc.
Qed.

Lemma codex_words args :
  Codex.scan_args [] false false args =
  match dashed_words (takes Codex.VALUE_FLAGS) args with
  | [] => Some ([], false)
  | first :: after =>
      if String.eqb first "exec" then Some (no_dash after, true)
      else if bool_decide (first ∈ Codex.NON_PROMPT_SUBCOMMANDS) then None
      else Some (no_dash (first :: after), false)
  end.
Proof.
  induction args as [|a rest IH IHs] using args_ind; [done|].
  rewrite dashed_words_cons by done. cbn [Codex.scan_args negb]. fold (takes Codex.VALUE_FLAGS a).
  destruct (takes _ a); [apply IHs|]. destruct (is_flag a && _); [apply IH|].
  destruct (String.eqb a "exec"); [by rewrite codex_rest|]. destruct (bool_decide _); [done|]. rewrite codex_rest.
  unfold no_dash at 2. rewrite filter_cons. destruct (String.eqb_spec a "-") as [->|Hn].
  - by rewrite decide_False by naive_solver.
  - by rewrite decide_True.
Qed.

(** ** What every extractor returns *)

(** Standard input is left alone and nothing is said about it, or it was read, and what was read is
    handed on for the scan and the tool, unless there was nothing to hand on. *)
Definition stdin_conserved (e : surroundings) (x : extraction) : Prop :=
  (x_stdin x = a_stdin e /\ forall c, ex_context (x_result x) = Some c -> stdinData c = None) \/
  (a_isTTY e = false /\ x_stdin x = (readStdin (a_stdin e)).2 /\
   match ex_context (x_result x) with
   | Some c => stdinData c = Some (readStdin (a_stdin e)).1
   | None => (readStdin (a_stdin e)).1 = ""
   end).

Record extraction_ok (e : surroundings) (x : extraction) : Prop := {
  ok_stdin : stdin_conserved e x;
  ok_found : found (x_result x) = match ex_context (x_result x) with Some _ => true | None => false end;
  ok_error : ex_error (x_result x) = None \/ truthy (ex_error (x_result x)) = true /\ found (x_result x) = false
}.

Lemma untouched_ok e r out :
  found r = match ex_context r with Some _ => true | None => false end ->
  (forall c, ex_context r = Some c -> stdinData c = None) ->
  ex_error r = None \/ truthy (ex_error r) = true /\ found r = false ->
  extraction_ok e (untouched e r out).
Proof. intros Hf Hc He. split; [left|..]; done. Qed.

Lemma not_found_ok e out : extraction_ok e (untouched e not_found out).
Proof. apply untouched_ok; [done..|by left]. Qed.

Lemma found_ok e p files out : extraction_ok e (untouched e (found_context (createExtractionContext p files None)) out).
Proof. apply untouched_ok; [done|by intros c [= <-]|by left]. Qed.
#[export] Hint Resolve not_found_ok found_ok : vg.

Lemma is_empty_true s : is_empty s = true -> s = "".
Proof. by destruct s. Qed.

Lemma with_stdin_ok e p notice : extraction_ok e (with_stdin e p notice).
Proof.
  unfold with_stdin, isStdinPiped. destruct (a_isTTY e) eqn:Et; cbn [negb].
  - destruct (is_empty p); auto with vg.
  - destruct (readStdin (a_stdin e)) as [d rest] eqn:Er.
    destruct (is_empty (if is_empty p then d else p) && is_empty d) eqn:Ee; (split; [right|done|by left]);
      rewrite Er; (split_and!; [done..|]); [|done].
    bool_simpl. by apply is_empty_true.
Qed.

Lemma with_prompt_file_ok e inline file prefix notice : prefix <> "" -> extraction_ok e (with_prompt_file e inline file prefix notice).
Proof.
  intros Hp. unfold with_prompt_file. destruct (_ && _); [auto with vg|]. destruct (is_empty file); [auto with vg|].
  destruct (readFileContent _ _ _ _); [auto with vg|]. apply untouched_ok; [done..|]. right. split; [|done]. by destruct prefix.
Qed.

Lemma adapter_ok a e args : a ∈ adapters -> extraction_ok e (ad_extract a e args).
Proof.
  unfold adapters. rewrite !elem_of_cons.
  intros [->|[->|[->|[->|[->|[->|[->|[->|[->|Hn]]]]]]]]]; [..|by apply not_elem_of_nil in Hn]; cbn [ad_extract].
  - unfold Claude.extractContext. destruct (Claude.scan_args _ _ _). destruct (_ && _); auto with vg.
  - unfold Codex.extractContext. destruct (Codex.scan_args _ _ _ _) as [[? ?]|]; [apply with_stdin_ok|auto with vg].
  - unfold Gemini.extractContext. destruct (Gemini.scan_args _ _ _) as [[? ?]|]; [apply with_stdin_ok|auto with vg].
  - unfold Ollama.extractContext. destruct (default _ _) as [? ?]. destruct (is_empty _); [auto with vg|].
    destruct (negb _); [auto with vg|apply with_stdin_ok].
  - unfold Sgpt.extractContext. destruct (Sgpt.scan_args _ _); [apply with_stdin_ok|auto with vg].
  - unfold GhCopilot.extractContext. destruct args as [|a0 rest]; [auto with vg|]. destruct (negb _); [auto with vg|].
    destruct (GhCopilot.scan_args _ _ _). destruct (_ && _); [auto with vg|]. destruct (is_empty _); auto with vg.
  - unfold Llama.extractContext. destruct (Llama.scan_args _ _ _). by apply with_prompt_file_ok.
  - unfold Aider.extractContext. destruct (Aider.scan_args _ _ _). by apply with_prompt_file_ok.
  - unfold Mlx.extractContext. destruct (Mlx.scan_args _ _) as [p|]; [|auto with vg]. destruct (String.eqb p "-").
    + unfold isStdinPiped. destruct (a_isTTY e) eqn:Et; cbn [negb]; [auto with vg|].
      destruct (readStdin (a_stdin e)) as [d rest] eqn:Er.
      destruct (is_empty d) eqn:Ed; (split; [right|done|by left]); rewrite Er; (split_and!; [done..|]); [by apply is_empty_true|done].
    + destruct (is_empty p); auto with vg.
Qed.

(** ** Properties *)

Section properties.
Context `{Zod} {T : Type} `{EventLoop T} (tr : Transport T) (timeoutMs : Z) (uuid : nat -> string) (jitter : nat -> Z).
Context (disk : fs) (entry : option string) (e : surroundings) (w : world).
Context (userContext : UserContext) (repoContext : option RepoContext).

(** The agent permitted the scan of the request. *)
Definition agent_permits (request : ScanRequest) : Prop :=
  exists u t v u' d, t_request tr Method.SubmitScan (encodeScanRequest request) u = (Settles t (Ok v), u') /\
    decodeDecision v = Some d /\ permitted d (w_confirm w d).

(** C6: every wrapped tool, end to end from the command line.  Unless the emergency bypass is on, a run of
    any of the nine adapters starts nothing; or found no prompt to scan, no error, and left standard
    input unread or read it and found it empty; or it starts the tool once, after the agent permitted
    a request whose text (as long as it fits the limit) contains the prompt, every captured file and
    the captured input, and then standard input is either untouched or given to the tool as captured. *)
Theorem adapter_run a rawArgs s :
  a ∈ adapters -> bypass (resolveBypass rawArgs (w_env w)) = false ->
  let args := strip INTERACTIVE_GUARD_FLAG (strip BYPASS_FLAG rawArgs) in
  let x := ad_extract a e args in
  let exe := executablePath (tool_of disk entry w a) in
  exists out,
    effects (adapter_main tr timeoutMs uuid jitter disk entry e w userContext repoContext a rawArgs s).2 = effects s ++ out /\
    (starts out = [] \/
     (found (x_result x) = false /\ ex_error (x_result x) = None /\
      (starts out = [Spawned exe args None] \/ starts out = [PtyOpened exe args]) /\
      (x_stdin x = a_stdin e \/ (readStdin (a_stdin e)).1 = "")) \/
     exists c, ex_context (x_result x) = Some c /\ starts out = [Spawned exe args (stdinData c)] /\
       agent_permits (buildScanRequest c (tool_of disk entry w a) userContext repoContext) /\
       (stdinData c = None /\ x_stdin x = a_stdin e \/ stdinData c = Some (readStdin (a_stdin e)).1) /\
       (strlen (composeScanText c) <= MAX_PROMPT_LENGTH ->
        forall t, t = prompt c \/ stdinData c = Some t \/ t ∈ map snd (files c) ->
          occurs t (text (buildScanRequest c (tool_of disk entry w a) userContext repoContext)))).
Proof.
  intros Ha Hb args x exe. destruct (adapter_ok a e args Ha) as [Hs Hf He]. fold x in Hs, Hf, He. unfold adapter_main.
  assert (CliConnector.extractContext (world_of e w a) args = x_result x) as Ex by done.
  destruct He as [He|[He Hnf]].
  2:{ destruct (run_extraction_error_fails_closed tr timeoutMs uuid jitter (world_of e w a) (tool_of disk entry w a)
        userContext repoContext rawArgs s Hb) as (out & E & Hst & _).
      { fold args. by rewrite Ex. } exists out. auto. }
  destruct (ex_context (x_result x)) as [c|] eqn:Ec.
  - destruct (run_permission tr timeoutMs uuid jitter (world_of e w a) (tool_of disk entry w a) userContext repoContext
      rawArgs s (x_result x) c Hb eq_refl ltac:(by rewrite He) Hf Ec) as (out & E & Ho).
    exists out. split; [done|].
    destruct (run _ _ _ _ _ _ _ _ rawArgs s).1; [|destruct Ho as [-> _]; by left].
    destruct Ho as [[Hst _]|(Hst & _ & Hp)]; [by left|]. right. right. exists c.
    split_and!; [done|done|exact Hp| |].
    + unfold stdin_conserved in Hs. rewrite Ec in Hs. destruct Hs as [[Hu Hn]|(_ & _ & Hd)]; [left|right]; auto.
    + intros Hl t Ht. rewrite buildScanRequest_text by done. by apply compose_covers.
  - rewrite run_not_bypassed by done. fold args.
    destruct (run_passes_through tr timeoutMs uuid jitter (world_of e w a) (tool_of disk entry w a) userContext repoContext
      (resolveInteractiveGuard (strip BYPASS_FLAG rawArgs) (w_env (world_of e w a))).1 args s) as (t & s' & out & E & E2 & code & _ & Hst).
    { rewrite Ex. by rewrite He. }
    { left. by rewrite Ex. }
    rewrite E. exists out. split; [done|]. right. left. split_and!; [done..|].
    unfold stdin_conserved in Hs. rewrite Ec in Hs. destruct Hs as [[Hu _]|(_ & _ & Hd)]; auto.
Qed.

(** C40: a prompt that cannot be read stops the tool: when the prompt file named on the command line of llama.cpp,
    or the message file of Aider, cannot be read, the run starts nothing, scans nothing and exits with 1,
    whatever inline prompt is given beside it. *)
Theorem prompt_file_fail_closed a rawArgs s :
  let args := strip INTERACTIVE_GUARD_FLAG (strip BYPASS_FLAG rawArgs) in
  bypass (resolveBypass rawArgs (w_env w)) = false ->
  (exists inline file,
     (a = mkAdapter Llama.extractContext Llama.executable Llama.tool /\ Llama.scan_args "" "" args = (inline, file) \/
      a = mkAdapter Aider.extractContext Aider.executable Aider.tool /\ Aider.scan_args "" "" args = (inline, file)) /\
     file <> "" /\ readFileContent (a_disk e) (a_cwd e) file MAX_FILE_SIZE = None) ->
  exists out,
    effects (adapter_main tr timeoutMs uuid jitter disk entry e w userContext repoContext a rawArgs s).2 = effects s ++ out /\
    starts out = [] /\ exits out = [Exited 1] /\
    policyClient (adapter_main tr timeoutMs uuid jitter disk entry e w userContext repoContext a rawArgs s).2 = policyClient s.
Proof.
  intros args Hb (inline & file & Ha & Hf & Hr).
  apply (run_extraction_error_fails_closed tr timeoutMs uuid jitter (world_of e w a) (tool_of disk entry w a)); [done|].
  fold args. destruct file as [|ch file]; [done|].
  destruct Ha as [[-> Hs]|[-> Hs]]; unfold CliConnector.extractContext, world_of; cbn [w_extract ad_extract];
    [unfold Llama.extractContext|unfold Aider.extractContext]; rewrite Hs; unfold with_prompt_file; cbn [is_empty];
    rewrite andb_false_r, Hr; done.
Qed.
End properties.

(** ** What is scanned *)

(** The words of the prompt, by the grammar of each tool. *)
Definition codex_prompt (args : list string) : list string :=
  match dashed_words (takes Codex.VALUE_FLAGS) args with
  | [] => []
  | first :: after => if String.eqb first "exec" then no_dash after else no_dash (first :: after)
  end.
Definition ollama_prompt (args : list string) : list string :=
  match words (takes Ollama.VALUE_FLAGS) args with
  | subcommand :: after => if String.eqb subcommand "run" then (first_word after).2 else []
  | [] => []
  end.
Definition gemini_prompt (args : list string) : list string :=
  let flagPrompt := default "" (last (given gemini_takes ["-p"; "--prompt"] "--prompt=" args)) in
  if is_empty flagPrompt then words gemini_takes args else [flagPrompt].

Lemma with_stdin_prompt e p notice c :
  ex_context (x_result (with_stdin e p notice)) = Some c -> occurs p (prompt c).
Proof.
  unfold with_stdin, isStdinPiped. destruct (a_isTTY e); cbn [negb].
  - destruct (is_empty p); [done|]. intros [= <-]. apply occurs_refl.
  - destruct (readStdin _) as [d rest]. destruct (_ && _); [done|]. intros [= <-]. cbn [prompt createExtractionContext].
    destruct (is_empty p) eqn:E; [|apply occurs_refl]. apply is_empty_true in E as ->. by exists "", d.
Qed.

Lemma with_stdin_covers e ws notice c x :
  ex_context (x_result (with_stdin e (js_join " " ws) notice)) = Some c -> x ∈ ws -> occurs x (composeScanText c).
Proof.
  intros Hc Hx. eapply occurs_trans; [by apply (join_occurs " ")|]. eapply occurs_trans; [by eapply with_stdin_prompt|].
  apply compose_covers. by left.
Qed.

(** Without a prompt nothing is in the words but empty strings. *)
Lemma with_stdin_none e ws notice x :
  ex_context (x_result (with_stdin e (js_join " " ws) notice)) = None -> x ∈ ws -> x = "".
Proof.
  intros Hn Hx. apply (join_occurs " ") in Hx. revert Hn. unfold with_stdin, isStdinPiped. destruct (a_isTTY e); cbn [negb].
  - destruct (is_empty (js_join " " ws)) eqn:E; [|done]. apply is_empty_true in E. rewrite E in Hx. intros _.
    destruct Hx as (a & b & Hab). by destruct a, x.
  - destruct (readStdin _) as [d rest]. destruct (is_empty (js_join " " ws)) eqn:E.
    + apply is_empty_true in E. rewrite E in Hx. intros _. destruct Hx as (a & b & Hab). by destruct a, x.
    + rewrite E. cbn [andb]. done.
Qed.

(** No word of a prompt escapes the scan.  For Codex, Gemini and Ollama, read the command line by its grammar:
    arguments that are flags, values of flags that take one, the subcommand and the model are not part
    of the prompt, every other word is.  When the extractor returns a context, each of these words is in
    the text composed for the scan; when it returns none, the call was a maintenance command or an
    interactive session, or all its words are empty. *)
Theorem prompt_words_scanned e args x :
  (x ∈ codex_prompt args ->
   match ex_context (x_result (Codex.extractContext e args)) with
   | Some c => occurs x (composeScanText c)
   | None => x = "" \/ exists first, head (dashed_words (takes Codex.VALUE_FLAGS) args) = Some first /\ first ∈ Codex.NON_PROMPT_SUBCOMMANDS
   end) /\
  (x ∈ gemini_prompt args ->
   match ex_context (x_result (Gemini.extractContext e args)) with
   | Some c => occurs x (composeScanText c)
   | None => x = "" \/ exists t, t ∈ tokens gemini_takes args /\ is_interactive t = true
   end) /\
  (x ∈ ollama_prompt args ->
   match ex_context (x_result (Ollama.extractContext e args)) with
   | Some c => occurs x (composeScanText c)
   | None => x = ""
   end).
Proof.
  split_and!.
  - unfold codex_prompt, Codex.extractContext. rewrite codex_words.
    destruct (dashed_words _ args) as [|first after]; [by intros ?%not_elem_of_nil|]. intros Hx.
    destruct (String.eqb first "exec"); [|destruct (bool_decide _) eqn:Eb].
    2:{ right. exists first. bool_simpl. done. }
    all: destruct (ex_context _) as [c|] eqn:Ec; [by eapply with_stdin_covers|left; by eapply with_stdin_none].
  - unfold gemini_prompt, Gemini.extractContext. rewrite gemini_words. intros Hx.
    destruct (existsb is_interactive _) eqn:Ei.
    { right. apply existsb_exists in Ei as (t & Hin & Ht). exists t. split; [by apply list_elem_of_In|done]. }
    cbn [Datatypes.app]. set (fp := default "" _) in *.
    assert ((if is_empty fp then js_join " " (words gemini_takes args) else fp) =
            js_join " " (if is_empty fp then words gemini_takes args else [fp])) as -> by (by destruct (is_empty fp)).
    destruct (ex_context _) as [c|] eqn:Ec; [by eapply with_stdin_covers|left; by eapply with_stdin_none].
  - unfold ollama_prompt, Ollama.extractContext. pose proof (ollama_find args) as Hf.
    destruct (Ollama.find_subcommand args) as [[sub rest]|]; rewrite Hf; [|by intros ?%not_elem_of_nil].
    cbn [from_option id]. destruct (String.eqb_spec sub "run") as [->|]; [|by intros ?%not_elem_of_nil]. intros Hx.
    cbn [is_empty negb]. rewrite ollama_words. cbn [is_empty Datatypes.app].
    destruct (ex_context _) as [c|] eqn:Ec; [by eapply with_stdin_covers|by eapply with_stdin_none].
Qed.

(** The Claude adapter has no list of flags that take a value, and never reads standard input: the value of
    such a flag is taken for the prompt and the real prompt is not scanned, whatever it is; and piped
    input is handed to the tool unread, although it is one of the patterns the adapter announces. *)
Theorem claude_unscanned e e' flag value p p' :
  is_flag flag = true -> flag <> "--prompt" -> starts_with "--prompt=" flag = false -> flag <> "--read" ->
  is_flag value = false -> value <> "" -> is_flag p = false -> is_flag p' = false ->
  Claude.extractContext e [flag; value; p] = Claude.extractContext e [flag; value; p'] /\
  (a_isTTY e = a_isTTY e' -> a_disk e = a_disk e' -> a_cwd e = a_cwd e' ->
   x_result (Claude.extractContext e [flag; value; p]) = x_result (Claude.extractContext e' [flag; value; p])).
Proof.
  intros Hf Hf1 Hf2 Hf3 Hv Hv0 Hp Hp'.
  assert (forall q, is_flag q = false -> Claude.scan_args "" [] [flag; value; q] = (value, [])) as Hq.
  { intros q Hq. assert (forall a, is_flag a = false -> String.eqb a "--prompt" = false /\ starts_with "--prompt=" a = false /\ String.eqb a "--read" = false) as Ha.
    { intros a Ha. split_and!; [apply String.eqb_neq; by intros ->| |apply String.eqb_neq; by intros ->].
      destruct (starts_with _ a) eqn:E; [|done]. by apply prefix_split in E as [b ->]. }
    destruct (Ha value Hv) as (A1 & A2 & A3). destruct (Ha q Hq) as (B1 & B2 & B3).
    cbn [Claude.scan_args has_next andb]. rewrite (proj2 (String.eqb_neq flag "--prompt") Hf1), Hf2, (proj2 (String.eqb_neq flag "--read") Hf3), Hf.
    cbn [negb andb]. rewrite A1, A2, A3, Hv, B1, B2, B3, Hq. cbn [negb andb is_empty]. by destruct value. }
  unfold Claude.extractContext. rewrite (Hq p Hp), (Hq p' Hp'). split; [done|]. intros E1 E2 E3.
  rewrite E1, E2, E3. by destruct (_ && _).
Qed.

(** ** Examples *)

Definition sample_surroundings : surroundings := mkSurroundings false [to_chars "piped"] (fun _ => None) ["w"].
Definition codex : adapter := mkAdapter Codex.extractContext Codex.executable Codex.tool.
Definition aider : adapter := mkAdapter Aider.extractContext Aider.executable Aider.tool.
Definition plain_world : world := sample_world (fun _ => Err "unused").
Definition codex_fs : fs := mkFs (fun p => String.eqb p "/usr/local/bin/codex") (fun p => Some p).

Definition run_adapter (a : adapter) (args : list string) : cli MockState :=
  (adapter_main MockTransport 2000 (fun _ => "u") (fun _ => 0) codex_fs None sample_surroundings plain_world
     (mkUser "u" RoleUser []) None a args (sample_cli mock_allow)).2.

(** The captured input is given to the tool; a missing message file stops Aider. *)
Lemma run_codex : effects (run_adapter codex ["exec"; "-m"; "o3"; "fix"; "it"])
  = [Spawned "/usr/local/bin/codex" ["exec"; "-m"; "o3"; "fix"; "it"] (Some "piped"); Exited 0].
Proof. vm_compute. reflexivity. Qed.

Lemma extraction_examples :
  prompt <$> ex_context (x_result (Codex.extractContext sample_surroundings ["exec"; "-m"; "o3"; "fix"; "it"])) = Some "fix it" /\
  prompt <$> ex_context (x_result (Ollama.extractContext sample_surroundings ["run"; "--format"; "json"; "llama3"; "hi"; "you"])) = Some "hi you" /\
  prompt <$> ex_context (x_result (Gemini.extractContext sample_surroundings ["--prompt='hi'"; "x"])) = Some "hi" /\
  found (x_result (Codex.extractContext sample_surroundings ["login"])) = false.
Proof. split_and!; vm_compute; reflexivity. Qed.

Lemma adapter_run_witness :
  exists out, effects (run_adapter codex ["fix"]) = [] ++ out /\
    (starts out = [] \/
     (found (x_result (Codex.extractContext sample_surroundings ["fix"])) = false /\
      ex_error (x_result (Codex.extractContext sample_surroundings ["fix"])) = None /\
      (starts out = [Spawned "/usr/local/bin/codex" ["fix"] None] \/ starts out = [PtyOpened "/usr/local/bin/codex" ["fix"]]) /\
      (x_stdin (Codex.extractContext sample_surroundings ["fix"]) = [to_chars "piped"] \/ (readStdin [to_chars "piped"]).1 = "")) \/
     exists c, ex_context (x_result (Codex.extractContext sample_surroundings ["fix"])) = Some c /\
       starts out = [Spawned "/usr/local/bin/codex" ["fix"] (stdinData c)] /\
       agent_permits MockTransport plain_world
         (buildScanRequest c (Codex.tool "/usr/local/bin/codex") (mkUser "u" RoleUser []) None) /\
       (stdinData c = None /\ x_stdin (Codex.extractContext sample_surroundings ["fix"]) = [to_chars "piped"] \/
        stdinData c = Some (readStdin [to_chars "piped"]).1) /\
       (strlen (composeScanText c) <= MAX_PROMPT_LENGTH ->
        forall t, t = prompt c \/ stdinData c = Some t \/ t ∈ map snd (files c) ->
          occurs t (text (buildScanRequest c (Codex.tool "/usr/local/bin/codex") (mkUser "u" RoleUser []) None)))).
Proof.
  apply (adapter_run MockTransport 2000 (fun _ => "u") (fun _ => 0) codex_fs None sample_surroundings plain_world
    (mkUser "u" RoleUser []) None codex ["fix"] (sample_cli mock_allow)).
  - right. left.
  - vm_compute. reflexivity.
Defined.

Lemma prompt_file_fail_closed_witness :
  exists out, effects (run_adapter aider ["--message-file"; "m.txt"; "-m"; "hi"]) = [] ++ out /\
    starts out = [] /\ exits out = [Exited 1] /\
    policyClient (run_adapter aider ["--message-file"; "m.txt"; "-m"; "hi"]) = fresh_client mock_allow.
Proof.
  apply (prompt_file_fail_closed MockTransport 2000 (fun _ => "u") (fun _ => 0) codex_fs None sample_surroundings plain_world
    (mkUser "u" RoleUser []) None aider ["--message-file"; "m.txt"; "-m"; "hi"] (sample_cli mock_allow)).
  - vm_compute. reflexivity.
  - exists "hi", "m.txt". split_and!; [right; split; [reflexivity|vm_compute; reflexivity]|discriminate|vm_compute; reflexivity].
Defined.

Lemma claude_unscanned_witness :
  Claude.extractContext sample_surroundings ["--model"; "opus"; "AKIA"]
  = Claude.extractContext sample_surroundings ["--model"; "opus"; "hi"] /\
  (a_isTTY sample_surroundings = a_isTTY sample_surroundings -> a_disk sample_surroundings = a_disk sample_surroundings ->
   a_cwd sample_surroundings = a_cwd sample_surroundings ->
   x_result (Claude.extractContext sample_surroundings ["--model"; "opus"; "AKIA"])
   = x_result (Claude.extractContext sample_surroundings ["--model"; "opus"; "AKIA"])).
Proof. apply (claude_unscanned sample_surroundings sample_surroundings "--model" "opus" "AKIA" "hi"); (reflexivity || discriminate). Defined.

(** What the agent is asked about [vg-claude --model opus AKIA]: the model's name. *)
Lemma claude_scans_model :
  composeScanText <$> ex_context (x_result (Claude.extractContext sample_surroundings ["--model"; "opus"; "AKIA"])) = Some "opus".
Proof. vm_compute. reflexivity. Qed.
