(* ===== verification/ClaudeHook.v ===== *)
(** * The Claude Code hook

    [cli-connectors/adapters/claude/src/hook.ts]: the binary Claude Code calls with an event on stdin for
    every prompt typed into a session and every command the model runs.  The state is the policy client
    and the acknowledgement store.  The agent is behind the client's transport, SHA-256 and the clock
    are parameters; the loading of the configuration and the reading of stdin are the arguments of
    [hook_main].

    [blocked] and [denied] are the side of Claude Code: what its hook contract, quoted in the header of
    [hook.ts], makes of an output. *)

From S2P Require Import Prelude Json JsonText Zod Enums Decision ScanRequest AuditEvent Resilience Framing Transport Client CliInput CliConnector AckStore.

Record HookOutput := mkOutput { out_stdout : string; out_exitCode : Z }.

Definition claudeHookTool : ToolDefinition := mkTool "claude-code" "Claude Code" "" (Some "anthropic") None None.

Definition ALLOW : HookOutput := mkOutput "" 0.

Definition stringify_output (v : json) : HookOutput := mkOutput (of_chars (print_json v)) 0.

Definition blockPrompt (reason : string) : HookOutput :=
  stringify_output (JObj [("decision", JStr "block"); ("reason", JStr reason)]).

Definition warnContext (reason : string) : HookOutput :=
  stringify_output (JObj [("hookSpecificOutput", JObj
    [("hookEventName", JStr "UserPromptSubmit"); ("additionalContext", JStr ("[VGuardrail] warning: " +:+ reason))])]).

Definition denyTool (reason : string) : HookOutput :=
  stringify_output (JObj [("hookSpecificOutput", JObj
    [("hookEventName", JStr "PreToolUse"); ("permissionDecision", JStr "deny"); ("permissionDecisionReason", JStr reason)])]).

(** ** Reading an untyped payload *)

Definition TypeError : error := OtherError "TypeError" "".

(** [v.k]: reading a property of [null] throws. *)
Definition prop {St} (k : string) (v : json) : async St (option json) :=
  match v with JNull => throw TypeError | _ => mret (json_get k v) end.

(** [v.trim().length === 0]: only a string has a [trim]. *)
Definition blank {St} (v : json) : async St (string * bool) :=
  match v with JStr s => mret (s, is_empty (js_trim s)) | _ => throw TypeError end.

(** [v === 'name'] *)
Definition is_str (name : string) (v : option json) : bool :=
  match v with Some (JStr s) => String.eqb s name | _ => false end.

(** ** The handlers *)

Record hook_state (T : Type) := mkHook { hook_client : client T; hook_acks : ack_file }.
Arguments mkHook {T} _ _.
Arguments hook_client {T} _.
Arguments hook_acks {T} _.

Section hook.
Context `{Zod} {T : Type} `{EventLoop T} (tr : Transport T) (timeoutMs : Z) (uuid : nat -> string) (jitter : nat -> Z).
Context {disk : AckDisk} (sha256 : string -> string) (now : Z) (user : UserContext).

Abbreviation hook := (async (hook_state T)).

Definition with_client {A} (m : async (client T) A) : hook A := fun s =>
  let '(r, c) := m (hook_client s) in (r, mkHook c (hook_acks s)).

(** A promise nobody awaits, its rejection caught. *)
Definition background {A} (m : async (client T) A) : hook unit := fun s =>
  (Settles 0 (Ok tt), mkHook (m (hook_client s)).2 (hook_acks s)).

Definition scanText (text : string) : hook Decision :=
  with_client (policy_scan tr timeoutMs uuid jitter
    (buildScanRequest (createExtractionContext text None None) claudeHookTool user None)).

Definition acknowledge (scope prompt : string) : hook bool := fun s =>
  let '(acknowledged, acks) := consumeOrRecordAck (ackKey sha256 scope prompt) now (hook_acks s) in
  (Settles 0 acknowledged, mkHook (hook_client s) acks).

Definition session_scope (input : json) : string :=
  "claude-hook:" +:+ to_text (nullish (json_get "session_id" input) (JStr "no-session")).

Definition handleUserPrompt (input : json) : hook HookOutput :=
  field ← prop "prompt" input;
  '(prompt, empty) ← blank (nullish field (JStr ""));
  if (empty : bool) then mret ALLOW
  else
    decision ← scanText prompt;
    match action decision with
    | Allow => mret ALLOW
    | Block => mret (blockPrompt (reason decision))
    | Warn =>
        match CliInput.warnTier (Some (riskLevel decision)) with
        | TierBlock => mret (blockPrompt (reason decision +:+ " | high risk — blocked, no override"))
        | TierNotice => mret (warnContext (reason decision))
        | TierPrompt =>
            acknowledged ← acknowledge (session_scope input) prompt;
            if (acknowledged : bool) then
              _ ← background (acknowledgeBypass tr timeoutMs jitter now "warn:claude-code");
              mret (warnContext ("acknowledged — " +:+ reason decision))
            else mret (blockPrompt ("medium risk: " +:+ reason decision
                   +:+ " — resubmit the same prompt within 60 seconds to acknowledge and proceed."))
        end
    end.

(** [input.tool_input?.command] *)
Definition tool_command (input : json) : option json :=
  match json_get "tool_input" input with None | Some JNull => None | Some v => json_get "command" v end.

Definition handlePreTool (input : json) : hook HookOutput :=
  tool_name ← prop "tool_name" input;
  if negb (is_str "Bash" tool_name) then mret ALLOW
  else
    '(command, empty) ← blank (nullish (tool_command input) (JStr ""));
    if (empty : bool) then mret ALLOW
    else
      decision ← scanText command;
      match action decision, CliInput.warnTier (Some (riskLevel decision)) with
      | Block, _ | Warn, TierBlock => mret (denyTool (reason decision))
      | _, _ => mret ALLOW
      end.

Definition runHook (rawInput : string) : hook HookOutput :=
  match parse_json (to_chars rawInput) with
  | None => mret (blockPrompt "security check unavailable (malformed hook input) — prompt blocked (fail-closed)")
  | Some input =>
      try_catch
        (event ← prop "hook_event_name" input;
         if is_str "UserPromptSubmit" event then handleUserPrompt input
         else if is_str "PreToolUse" event then handlePreTool input
         else mret ALLOW)
        (fun _ =>
           event ← prop "hook_event_name" input;
           if is_str "PreToolUse" event then mret (denyTool "security check unavailable — command blocked (fail-closed)")
           else mret (blockPrompt "security check unavailable — prompt blocked (fail-closed)"))
  end.

(** [main], given what stdin held: what is printed and the exit code, once it settles. *)
Definition hook_main (stdin : string) : hook HookOutput :=
  try_catch (runHook stdin)
    (fun _ => mret (blockPrompt "security check unavailable — prompt blocked (fail-closed)")).
End hook.

(** The process, once it has ended: [main] calls [process.exit] with its output when it settles.  When it
    does not, the process ends only by running out of things to wait for: nothing has been printed and the
    exit code is 0. *)
Definition hook_process {T} (x : reply HookOutput * hook_state T) : HookOutput :=
  match x.1 with
  | Settles _ (Ok o) => o
  | Settles _ (Err _) => mkOutput "" 1
  | Hangs => mkOutput "" 0
  end.

(** ** Claude Code's side *)

Definition output_json (o : HookOutput) : option json := parse_json (to_chars (out_stdout o)).

(** A prompt is erased, a tool call refused; any exit code other than 0 and 2 lets it through. *)
Definition blocked (o : HookOutput) : bool :=
  (out_exitCode o =? 2) ||
  ((out_exitCode o =? 0) && is_str "block" (output_json o ≫= json_get "decision")).
Definition denied (o : HookOutput) : bool :=
  (out_exitCode o =? 2) ||
  ((out_exitCode o =? 0) && is_str "deny" ((output_json o ≫= json_get "hookSpecificOutput") ≫= json_get "permissionDecision")).

(** ** Lemmas *)

Lemma jsonable_reason r : jsonable (JObj [("decision", JStr "block"); ("reason", JStr r)]).
Proof. split; [|done]. split; apply (bool_decide_unpack _); vm_compute; exact I. Qed.

Lemma blocked_blockPrompt r : blocked (blockPrompt r) = true.
Proof.
  unfold blocked, output_json, blockPrompt, stringify_output. cbn [out_stdout out_exitCode].
  rewrite to_of_chars, parse_print_json by apply jsonable_reason. done.
Qed.

Lemma denied_denyTool r : denied (denyTool r) = true.
Proof.
  unfold denied, output_json, denyTool, stringify_output. cbn [out_stdout out_exitCode]. rewrite to_of_chars, parse_print_json; [done|].
  split; [split; apply (bool_decide_unpack _); vm_compute; exact I|].
  split; [|done]. split; [split; apply (bool_decide_unpack _); vm_compute; exact I|done].
Qed.

Section hook_lemmas.
Context `{Zod} {T : Type} `{EventLoop T} (tr : Transport T) (timeoutMs : Z) (uuid : nat -> string) (jitter : nat -> Z).
Context {disk : AckDisk} (sha256 : string -> string) (now : Z) (user : UserContext).

Definition hook_request (text : string) : ScanRequest :=
  buildScanRequest (createExtractionContext text None None) claudeHookTool user None.

(** The agent answered the scan of [text] with [d]. *)
Definition agent_said (text : string) (d : Decision) : Prop :=
  exists u t v u', t_request tr Method.SubmitScan (encodeScanRequest (hook_request text)) u = (Settles t (Ok v), u') /\
    decodeDecision v = Some d.

(** The prompt may pass: it is blank, or the agent allows it, or warns of a low risk, or of a medium
    risk that the same prompt in the same session was refused for within the last minute. *)
Definition prompt_permitted (input : json) (acks : ack_file) : Prop :=
  exists p, nullish (json_get "prompt" input) (JStr "") = JStr p /\
    (js_trim p = "" \/
     exists d, agent_said p d /\
       (action d = Allow \/ action d = Warn /\ riskLevel d = Low \/
        action d = Warn /\ riskLevel d = Medium /\ is_Some (pending_ack now acks (ackKey sha256 (session_scope input) p)))).

(** The tool call may pass: it is no shell command, or a blank one, or the agent neither blocks it
    nor warns of a high risk. *)
Definition command_permitted (input : json) : Prop :=
  is_str "Bash" (json_get "tool_name" input) = false \/
  exists c, nullish (tool_command input) (JStr "") = JStr c /\
    (js_trim c = "" \/
     exists d, agent_said c d /\
       (action d = Allow \/ action d = Warn /\ (riskLevel d = Low \/ riskLevel d = Medium))).

Lemma scanText_yields txt s :
  yields (scanText tr timeoutMs uuid jitter user txt) s (fun r s' =>
    hook_acks s' = hook_acks s /\ match r with Ok d => action d = Block \/ agent_said txt d | Err _ => True end).
Proof.
  unfold yields, scanText, with_client. fold (hook_request txt).
  destruct (policy_scan tr timeoutMs uuid jitter (hook_request txt) (hook_client s)) as [[t r|] c'] eqn:E; [|done].
  split; [done|]. destruct r as [d|]; [|done]. apply policy_scan_ok in E as [Hb|(u & t' & v & u' & Hr & Hd)]; [by left|].
  right. by exists u, t', v, u'.
Qed.

Lemma acknowledge_yields scope p s :
  yields (acknowledge (T := T) sha256 now scope p) s (fun r _ =>
    r = Ok true -> is_Some (pending_ack now (hook_acks s) (ackKey sha256 scope p))).
Proof.
  unfold yields, acknowledge. pose proof (consume_yes (ackKey sha256 scope p) now (hook_acks s)) as Hc.
  destruct (consumeOrRecordAck _ _ _) as [b f']. exact Hc.
Qed.

Lemma is_empty_trim p : is_empty (js_trim p) = true -> js_trim p = "".
Proof. by destruct (js_trim p). Qed.

Lemma handleUserPrompt_yields input s :
  input <> JNull ->
  yields (handleUserPrompt tr timeoutMs uuid jitter sha256 now user input) s (fun r _ =>
    match r with
    | Ok o => out_exitCode o = 0 /\ (blocked o = true \/ prompt_permitted input (hook_acks s))
    | Err _ => True
    end).
Proof.
  intros Hn. unfold handleUserPrompt. apply yields_bind.
  assert (prop (St := hook_state T) "prompt" input = mret (json_get "prompt" input)) as -> by (by destruct input).
  unfold yields at 1, mret, async_ret. apply yields_bind.
  destruct (nullish (json_get "prompt" input) (JStr "")) as [| | |p| |] eqn:Ep; try done.
  unfold blank, yields at 1, mret, async_ret.
  destruct (is_empty (js_trim p)) eqn:Eb.
  { split; [done|]. right. exists p. split; [done|]. left. by apply is_empty_trim. }
  apply yields_bind. eapply yields_impl; [|apply scanText_yields]. intros [d|e] s' [Ha Hd]; [|done].
  assert (action d <> Block -> agent_said p d) as Hs by (destruct Hd; naive_solver). clear Hd.
  assert (forall Q, (Q d) -> action d <> Block -> exists d, agent_said p d /\ Q d) as Hex by eauto.
  destruct (action d) eqn:Ead.
  - split; [done|]. right. exists p. split; [done|]. right. exists d. split; [by apply Hs|by left].
  - destruct (riskLevel d) eqn:Er; cbn [CliInput.warnTier].
    + split; [done|]. right. exists p. split; [done|]. right. exists d. split; [by apply Hs|]. right. left. done.
    + apply yields_bind. eapply yields_impl; [|apply acknowledge_yields]. intros [[]|e] s2 Hb; [| |done].
      * apply yields_bind. unfold yields at 1, background. split; [done|]. right. exists p. split; [done|]. right.
        exists d. split; [by apply Hs|]. right. right. rewrite <- Ha. auto using eq_refl.
      * split; [done|]. left. apply blocked_blockPrompt.
    + split; [done|]. left. apply blocked_blockPrompt.
    + split; [done|]. left. apply blocked_blockPrompt.
  - split; [done|]. left. apply blocked_blockPrompt.
Qed.

Lemma handlePreTool_yields input s :
  input <> JNull ->
  yields (handlePreTool tr timeoutMs uuid jitter user input) s (fun r _ =>
    match r with
    | Ok o => out_exitCode o = 0 /\ (denied o = true \/ command_permitted input)
    | Err _ => True
    end).
Proof.
  intros Hn. unfold handlePreTool. apply yields_bind.
  assert (prop (St := hook_state T) "tool_name" input = mret (json_get "tool_name" input)) as -> by (by destruct input).
  unfold yields at 1, mret, async_ret.
  destruct (is_str "Bash" (json_get "tool_name" input)) eqn:Eb; cbn [negb]; [|split; [done|by right; left]].
  apply yields_bind. destruct (nullish (tool_command input) (JStr "")) as [| | |c| |] eqn:Ec; try done.
  unfold blank, yields at 1, mret, async_ret.
  destruct (is_empty (js_trim c)) eqn:Et.
  { split; [done|]. right. right. exists c. split; [done|]. left. by apply is_empty_trim. }
  apply yields_bind. eapply yields_impl; [|apply scanText_yields]. intros [d|e] s' [_ Hd]; [|done].
  assert (forall Q : Prop, (action d = Allow \/ action d = Warn /\ (riskLevel d = Low \/ riskLevel d = Medium)) ->
    Q \/ command_permitted input) as Hok.
  { intros Q Hq. right. right. exists c. split; [done|]. right. exists d. split; [|done].
    destruct Hd as [Hd|]; [|done]. destruct Hq as [?|[? _]]; congruence. }
  destruct (action d) eqn:Ead.
  - split; [done|]. apply Hok. by left.
  - destruct (riskLevel d) eqn:Er; cbn [CliInput.warnTier].
    1, 2: split; [done|]; apply Hok; auto.
    all: split; [done|left; apply denied_denyTool].
  - split; [done|left; apply denied_denyTool].
Qed.

Lemma runHook_yields raw s :
  yields (runHook tr timeoutMs uuid jitter sha256 now user raw) s (fun r _ =>
    match r with
    | Ok o =>
        out_exitCode o = 0 /\
        match parse_json (to_chars raw) with
        | None => blocked o = true
        | Some input =>
            input <> JNull /\
            (is_str "UserPromptSubmit" (json_get "hook_event_name" input) = true ->
             blocked o = true \/ prompt_permitted input (hook_acks s)) /\
            (is_str "PreToolUse" (json_get "hook_event_name" input) = true -> denied o = true \/ command_permitted input)
        end
    | Err _ => parse_json (to_chars raw) = Some JNull
    end).
Proof.
  unfold runHook. destruct (parse_json (to_chars raw)) as [input|]; [|split; [done|apply blocked_blockPrompt]].
  destruct (match input with JNull => true | _ => false end) eqn:En; [destruct input; try discriminate En; exact eq_refl|].
  assert (input <> JNull) as Hn by (by destruct input).
  assert (prop (St := hook_state T) "hook_event_name" input = mret (json_get "hook_event_name" input)) as ->
    by (by destruct input).
  assert (forall name name' v, name <> name' -> is_str name v = true -> is_str name' v = false) as Hne.
  { intros n n' [[| | |x| |]|] Hd; try done. cbn. intros ->%String.eqb_eq. by apply String.eqb_neq. }
  set (ev := json_get "hook_event_name" input) in *.
  apply yields_catch, yields_bind. unfold yields at 1, mret at 1, async_ret.
  destruct (is_str "UserPromptSubmit" ev) eqn:E1.
  - pose proof (Hne "UserPromptSubmit" "PreToolUse" ev ltac:(done) E1) as E2. rewrite E2.
    eapply yields_impl; [|by apply handleUserPrompt_yields]. intros [o|e] s'; [intros [? ?]; done|]. intros _.
    apply yields_bind. unfold yields at 1, mret, async_ret. rewrite E2. split_and!; [done|done|left; apply blocked_blockPrompt|done].
  - destruct (is_str "PreToolUse" ev) eqn:E2; [|done].
    eapply yields_impl; [|by apply handlePreTool_yields]. intros [o|e] s'; [intros [? ?]; done|]. intros _.
    apply yields_bind. unfold yields at 1, mret, async_ret. rewrite E2. split_and!; [done|done|done|left; apply denied_denyTool].
Qed.
End hook_lemmas.

(** ** Deadlines *)

Section deadlines.
Context {St : Type}.

Lemma prop_settles k v (s : St) : settles_within 0 (prop k v s).1.
Proof. destruct v; (apply settles_ret || apply settles_throw). Qed.

Lemma blank_settles v (s : St) : settles_within 0 (blank v s).1.
Proof. destruct v; (apply settles_ret || apply settles_throw). Qed.
End deadlines.

Lemma acknowledge_settles `{AckDisk} {T} sha256 now scope p (s : hook_state T) : settles_within 0 (acknowledge sha256 now scope p s).1.
Proof. unfold acknowledge. destruct (consumeOrRecordAck _ _ _) as [b f]. by exists 0, b. Qed.

Lemma scan_bound_nonneg w timeoutMs retry : 0 <= w -> 0 <= scan_bound w timeoutMs retry.
Proof. intros Hw. pose proof (invoke_bound_nonneg timeoutMs retry). unfold scan_bound. lia. Qed.

(** ** Properties *)

Section properties.
Context `{Zod} {T : Type} `{EventLoop T} (tr : Transport T) (timeoutMs : Z) (uuid : nat -> string) (jitter : nat -> Z).
Context {disk : AckDisk} (sha256 : string -> string) (now : Z) (user : UserContext).


Lemma policy_scan_settles w request c :
  stays_alive T -> 0 < timeoutMs -> 0 <= w -> (forall n, 0 <= jitter n < 2 ^ 53) ->
  (forall m p s t x s', t_request tr m p s = (Settles t x, s') -> 0 <= t) ->
  (forall s, settles_within w (t_connect tr s).1) ->
  settles_within (scan_bound w timeoutMs DEFAULT_RETRY) (policy_scan tr timeoutMs uuid jitter request c).1.
Proof.
  intros Ha Ht Hw Hj Hr Hc. unfold policy_scan. set (B := scan_bound _ _ _). replace B with (B + 0) by lia.
  apply settles_catch; [|intros e s; destruct e; apply settles_throw|lia]. replace B with (B + 0) by lia.
  apply settles_bind; [by apply safeSubmit_settles|intros; apply settles_ret|lia].
Qed.

Definition hook_transport_ok (w : Z) : Prop :=
  stays_alive T /\ 0 < timeoutMs /\ 0 <= w /\ (forall n, 0 <= jitter n < 2 ^ 53) /\
  (forall m p s t x s', t_request tr m p s = (Settles t x, s') -> 0 <= t) /\
  (forall s, settles_within w (t_connect tr s).1).

Lemma scanText_settles w txt s :
  hook_transport_ok w -> settles_within (scan_bound w timeoutMs DEFAULT_RETRY) (scanText tr timeoutMs uuid jitter user txt s).1.
Proof.
  intros (Ha & Ht & Hw & Hj & Hr & Hc). unfold scanText, with_client.
  pose proof (policy_scan_settles w (hook_request user txt) (hook_client s) Ha Ht Hw Hj Hr Hc) as Hp.
  unfold hook_request in Hp. by destruct (policy_scan tr timeoutMs uuid jitter _ (hook_client s)).
Qed.

(** A handler: steps that take no time, then at most one scan. *)
Lemma handleUserPrompt_settles w input s :
  hook_transport_ok w ->
  settles_within (scan_bound w timeoutMs DEFAULT_RETRY) (handleUserPrompt tr timeoutMs uuid jitter sha256 now user input s).1.
Proof.
  intros Hw. assert (0 <= scan_bound w timeoutMs DEFAULT_RETRY) as HB by (by apply scan_bound_nonneg, Hw).
  unfold handleUserPrompt. apply settles_now; [done|apply prop_settles|]. intros f s2.
  apply settles_now; [done|apply blank_settles|]. intros [p em] s3. destruct em; [by apply settles_mret|].
  apply settles_last; [by apply scanText_settles|]. intros d s4. destruct (action d); try apply settles_ret.
  destruct (CliInput.warnTier _); try apply settles_ret.
  apply settles_now; [done|apply acknowledge_settles|]. intros b s5. destruct b; [|apply settles_ret].
  apply settles_now; [done|apply settles_ret|]. intros; apply settles_ret.
Qed.

Lemma handlePreTool_settles w input s :
  hook_transport_ok w ->
  settles_within (scan_bound w timeoutMs DEFAULT_RETRY) (handlePreTool tr timeoutMs uuid jitter user input s).1.
Proof.
  intros Hw. assert (0 <= scan_bound w timeoutMs DEFAULT_RETRY) as HB by (by apply scan_bound_nonneg, Hw).
  unfold handlePreTool. apply settles_now; [done|apply prop_settles|]. intros f s2. destruct (negb _); [by apply settles_mret|].
  apply settles_now; [done|apply blank_settles|]. intros [c em] s3. destruct em; [by apply settles_mret|].
  apply settles_last; [by apply scanText_settles|]. intros d s4.
  destruct (action d), (CliInput.warnTier (Some (riskLevel d))); apply settles_ret.
Qed.

(** C36: the hook answers in a process that stays alive: if something other than the SDK's timers keeps it running (the
    helper, that is, until it has answered), the deadline is positive and the transport connects within
    [w] milliseconds, the hook settles within the bound of one scan, whatever it reads, whether the
    agent replies or not. *)
Theorem hook_answers w raw s :
  hook_transport_ok w ->
  settles_within (scan_bound w timeoutMs DEFAULT_RETRY) (hook_main tr timeoutMs uuid jitter sha256 now user raw s).1.
Proof.
  intros Hw. assert (0 <= scan_bound w timeoutMs DEFAULT_RETRY) as HB by (by apply scan_bound_nonneg, Hw).
  unfold hook_main. apply settles_try; [|intros; apply settles_ret].
  unfold runHook. destruct (parse_json _) as [input|]; [|by apply settles_mret]. apply settles_try.
  - apply settles_now; [done|apply prop_settles|]. intros ev s1.
    destruct (is_str _ _); [by apply handleUserPrompt_settles|].
    destruct (is_str _ _); [by apply handlePreTool_settles|by apply settles_mret].
  - intros e s1. apply settles_now; [done|apply prop_settles|]. intros ev s2. destruct (is_str _ _); apply settles_ret.
Qed.
End properties.

(** ** Examples *)

Definition hook_run (m : MockState) (acks : ack_file) (raw : string) : reply HookOutput * hook_state MockState :=
  hook_main MockTransport 2000 (fun _ => "u") (fun _ => 0) (fun s => s) 1000 (mkUser "u" RoleUser []) raw
    (mkHook (fresh_client m) acks).

Definition quoted (s : string) : string := of_chars (chr 34 :: to_chars s ++ [chr 34]).
Definition event (name key value : string) : string :=
  "{" +:+ quoted "hook_event_name" +:+ ":" +:+ quoted name +:+ "," +:+ quoted key +:+ ":" +:+ value +:+ "}".

Example hook_allowed : (hook_run mock_allow None (event "UserPromptSubmit" "prompt" (quoted "hi"))).1 = Settles 0 (Ok ALLOW).
Proof. vm_compute. reflexivity. Qed.

Example hook_wrong_type :
  match (hook_run mock_allow None (event "UserPromptSubmit" "prompt" "5")).1 with
  | Settles _ (Ok o) => blocked o = true | _ => False end.
Proof. vm_compute. reflexivity. Qed.

Definition bad_prompt : string := event "UserPromptSubmit" "prompt" "5".

(** A medium-risk warning refused, then resubmitted; and on a disk that is full, refused for ever. *)
Definition mock_medium : MockState :=
  respondWith Method.SubmitScan
    (encodeDecision (mkDecision "r" Warn Medium Public None None None [] [] "careful" (NInt 1) (NInt 40) false)) mock_new.
Definition hi_prompt : string := event "UserPromptSubmit" "prompt" (quoted "hi").

Example hook_resubmitted :
  let first := hook_run mock_medium None hi_prompt in
  blocked (hook_process first) = true /\ blocked (hook_process (hook_run mock_medium (hook_acks first.2) hi_prompt)) = false /\
  let full : AckDisk := fun _ f => Some (OtherError "Error" "ENOSPC", f) in
  blocked (hook_process (hook_main (disk := full) MockTransport 2000 (fun _ => "u") (fun _ => 0) (fun s => s) 1000 (mkUser "u" RoleUser [])
    hi_prompt (mkHook (fresh_client mock_medium) (hook_acks first.2)))) = true.
Proof. vm_compute. done. Qed.

(** The helper dies in the handshake and nothing else keeps the process running: the pause before the second
    attempt is the end of it.  No output, code 0: the prompt goes through, unscanned. *)
Example hook_drained :
  let x := hook_main dying_transport 2000 (fun _ => "u") (fun _ => 0) (fun s => s) 1000 (mkUser "u" RoleUser []) hi_prompt
             (mkHook (mkClient None false 0 0) None) in
  x.1 = Hangs /\ hook_process x = ALLOW /\ blocked (hook_process x) = false.
Proof. vm_compute. done. Qed.


Lemma hook_answers_witness :
  settles_within (scan_bound 3 DEFAULT_TIMEOUT_MS DEFAULT_RETRY)
    (hook_main slow_transport DEFAULT_TIMEOUT_MS (fun _ => "uuid") (fun _ => 0) (fun s => s) 0 (mkUser "u" RoleUser [])
       (event "UserPromptSubmit" "prompt" (quoted "hi")) (mkHook (mkClient None tt 0 0) None)).1.
Proof.
  apply (hook_answers slow_transport DEFAULT_TIMEOUT_MS (fun _ => "uuid") (fun _ => 0) (fun s => s) 0 (mkUser "u" RoleUser []) 3).
  unfold hook_transport_ok. split_and!; [intros ? ?; reflexivity|reflexivity|discriminate|intros; lia| |].
  - simpl. intros m p s t x s' E. assert (7 = t) as <- by congruence. lia.
  - intros s. exists 3, (Ok tt). split; [reflexivity|lia].
Defined.
