(* ===== verification/CliShared.v ===== *)
(** * The older command-line wrapper, and the execution adapters

    [cli-connectors/shared/src/index.ts]: [CliWrapper], the wrapper that preceded the framework; and
    [cli-connectors/framework/src/core/*Adapter.ts], thin callers of the package [execa], whose outcome
    is a parameter.

    [CliWrapper] hands the client an object that is not a scan request and reads the reply as if it were
    a decision.  Both are modelled as JavaScript runs them: encoding a request without [context] throws
    a [TypeError] once the client is connected, and [action] of a response is [undefined]. *)

From S2P Require Import Prelude Json Zod Enums Decision ScanRequest AuditEvent Resilience Framing Transport Client CliInput CliConnector.

(** ** [CliWrapper] *)

Record ScanInput := mkScanInput { si_prompt : string; si_files : list (string * string) }.

Record CliWrapperConfig := mkWrapperConfig {
  toolName : string;
  realExecutablePath : string;
  (** [Err]: the message of what it throws; [None]: [null] *)
  wc_extract : list string -> result string (option ScanInput)
}.

Section wrapper.
Context `{Zod} {T : Type} `{EventLoop T} (tr : Transport T) (uuid : nat -> string) (jitter : nat -> Z).
Context (config : CliWrapperConfig) (spawn : string -> list string -> spawn_outcome) (confirm : bool).

(** [this.client.safeScan(context, { fallback: 'block' })]: the option is not one the client knows. *)
Definition wrapper_safeScan (context : ScanInput) : async (client T) ScanResponse :=
  try_catch
    (_ ← ensureConnected tr DEFAULT_TIMEOUT_MS (resolveRetry None) jitter;
     _ ← randomUUID uuid;
     throw (OtherError "TypeError" "Cannot read properties of undefined (reading 'source')"))
    (fun e =>
       if negb (isAvailabilityError e) then throw e
       else
         requestId ← randomUUID uuid;
         mret (makeScanResponse
                 (syntheticDecision requestId Block (unavailableReason e Block) None None) requestId 0 (Some true))).

(** [decision.action] of a value that is a [ScanResponse]: it has no such property. *)
Definition response_action (r : ScanResponse) : option Action := None.

Definition wrapper_spawnReal (args : list string) : async (cli T) unit :=
  _ ← emit [Spawned (realExecutablePath config) args None];
  match spawn (realExecutablePath config) args with
  | ChildExits c _ => emit [Exited (default 1 c)]
  | ChildErrors m => emit [Stderr ("[VGuardrail] Error spawning real executable:" +:+ m); Exited 1]
  | SpawnThrows m => throw (OtherError "Error" m)
  end.

Definition wrapper_enforce (r : ScanResponse) (args : list string) : async (cli T) unit :=
  match response_action r with
  | Some Block => emit [Stderr ("[VGuardrail] BLOCKED: " +:+ reason (decision r)); Exited 1]
  | Some Warn =>
      _ ← emit [Stderr ("[VGuardrail] WARNING: " +:+ reason (decision r))];
      if confirm then wrapper_spawnReal args else emit [Exited 1]
  | _ => wrapper_spawnReal args
  end.

Definition wrapper_run (args : list string) : async (cli T) unit :=
  match wc_extract config args with
  | Err m => _ ← emit [Stderr ("[VGuardrail] Error extracting context:" +:+ m)]; wrapper_spawnReal args
  | Ok None => wrapper_spawnReal args
  | Ok (Some context) =>
      try_catch
        (r ← on_client (wrapper_safeScan context); wrapper_enforce r args)
        (fun e => emit [Stderr ("[VGuardrail] Fatal transport error:" +:+ error_message e); Exited 1])
  end.
End wrapper.

(** ** The execution adapters *)

(** What the promise of [execa] comes to. *)
Inductive execa_outcome :=
| ExecaResolves (stdout : string)
| ExecaRejects (message : option string) (timedOut : bool) (text : string).

Inductive AdapterStatus := StatusSuccess | StatusError.
Record AdapterResponse := mkAdapterResponse {
  ar_content : option string;
  ar_metadata : list (string * string);
  ar_status : AdapterStatus;
  ar_error : option string
}.

Section execution_adapters.
(** [execa(command, args, { timeout })] *)
Context (execa : string -> list string -> option Z -> execa_outcome).

Definition failed (error : string) : AdapterResponse := mkAdapterResponse None [] StatusError (Some error).

Definition AiderAdapter_execute (prompt : string) (timeout : option Z) : AdapterResponse :=
  match execa "aider" ["--message"; prompt; "--no-git"] timeout with
  | ExecaResolves out => mkAdapterResponse (Some out) [] StatusSuccess None
  | ExecaRejects message _ text => failed (default text message)
  end.

Definition CodexAdapter_execute (prompt : string) (timeout : option Z) : AdapterResponse :=
  match execa "openai" ["api"; "completions.create"; "-m"; "code-davinci-002"; "-p"; prompt] (Some (default 30000 timeout)) with
  | ExecaResolves out => mkAdapterResponse (Some out) [("model", "code-davinci-002")] StatusSuccess None
  | ExecaRejects message timedOut text => if timedOut then failed "TIMEOUT" else failed (default text message)
  end.

Definition GeminiAdapter_execute (prompt : string) (timeout : option Z) : AdapterResponse :=
  match execa "gcloud" ["ai"; "models"; "predict"; "--prompt"; prompt] (Some (policy_timeout timeout)) with
  | ExecaResolves out => mkAdapterResponse (Some out) [("provider", "google-gemini")] StatusSuccess None
  | ExecaRejects message _ text =>
      if match message with Some m => js_includes m "not found" | None => false end then failed "SDK_UNAVAILABLE"
      else failed (default text message)
  end.

Definition OpenCodeAdapter_execute (prompt : string) (timeout : option Z) : AdapterResponse :=
  match execa "ollama" ["run"; "codellama"; prompt] timeout with
  | ExecaResolves out => mkAdapterResponse (Some out) [] StatusSuccess None
  | ExecaRejects message _ _ => mkAdapterResponse None [] StatusError message
  end.
End execution_adapters.

(** ** Properties *)

Section properties.
Context `{Zod} {T : Type} `{EventLoop T} (tr : Transport T) (uuid : nat -> string) (jitter : nat -> Z).
Context (config : CliWrapperConfig) (spawn : string -> list string -> spawn_outcome) (confirm : bool).
Hypothesis spawn_ok : forall p args, exists c sg, spawn p args = ChildExits c sg.

Lemma wrapper_spawnReal_starts args (s : cli T) :
  exists out t, wrapper_spawnReal config spawn args s
    = (Settles t (Ok tt), mkCli (policyClient s) (effects s ++ out)) /\
    starts out = [Spawned (realExecutablePath config) args None].
Proof using Type spawn_ok.
  unfold wrapper_spawnReal. destruct (spawn_ok (realExecutablePath config) args) as (c & sg & ->).
  eexists _, _. split; [unfold mbind, async_bind, emit, modify; cbn; by rewrite <- app_assoc|done].
Qed.

(** The wrapper's gate is inverted.  When it finds a prompt, the tool is started exactly if the agent
    cannot be reached: a client that is connected, or connects, makes the wrapper exit with 1 without
    having submitted the prompt; a handshake that fails for lack of an agent makes it start the tool. *)
Theorem wrapper_inverted args context s t r c' :
  wc_extract config args = Ok (Some context) ->
  ensureConnected tr DEFAULT_TIMEOUT_MS (resolveRetry None) jitter (policyClient s) = (Settles t r, c') ->
  exists out t' x c'', wrapper_run tr uuid jitter config spawn confirm args s
    = (Settles t' (Ok x), mkCli c'' (effects s ++ out)) /\
    match r with
    | Ok _ => starts out = [] /\ exits out = [Exited 1]
    | Err e =>
        if isAvailabilityError e then starts out = [Spawned (realExecutablePath config) args None]
        else starts out = [] /\ exits out = [Exited 1]
    end.
Proof using Type spawn_ok.
  intros Hx Hc. unfold wrapper_run. rewrite Hx. unfold try_catch at 1, mbind at 1, async_bind at 1, on_client.
  unfold wrapper_safeScan, try_catch, mbind at 1, async_bind at 1. rewrite Hc.
  destruct r as [u|e].
  - cbn. eexists _, _, tt, _. split; [reflexivity|]. split; reflexivity.
  - destruct (isAvailabilityError e) eqn:Ea; cbn [negb].
    + cbn -[wrapper_enforce]. destruct (wrapper_spawnReal_starts args
        (mkCli (mkClient (negotiated c') (tstate c') (S (uuids c')) (draws c')) (effects s))) as (out & t2 & E & Hst).
      unfold wrapper_enforce, response_action, mbind, async_bind, randomUUID, mret, async_ret.
      cbn -[wrapper_spawnReal]. rewrite E. cbn -[starts]. eexists out, _, tt, _. split; [reflexivity|done].
    + cbn. eexists _, _, tt, _. split; [reflexivity|]. split; reflexivity.
Qed.
End properties.

(** The adapters settle: an error of the command line becomes a value, and success is the outcome
    of [execa], which with [reject: false] resolves for a command that failed as well. *)
Lemma execution_adapters_settle execa prompt timeout :
  ar_status (AiderAdapter_execute execa prompt timeout) = StatusSuccess <->
  exists out, execa "aider" ["--message"; prompt; "--no-git"] timeout = ExecaResolves out.
Proof. unfold AiderAdapter_execute. destruct (execa _ _ _) as [out|m to tx]; split; [by exists out|done|done|by intros [? ?]]. Qed.

(** ** Examples *)

Definition old_wrapper : CliWrapperConfig :=
  mkWrapperConfig "claude" "/usr/bin/claude" (fun args => Ok (Some (mkScanInput (js_join " " args) []))).

Definition old_spawn : string -> list string -> spawn_outcome := fun _ _ => ChildExits (Some 0) None.

(** A transport that is never there. *)
Definition no_agent : Transport unit :=
  {| t_connect := fun s => (Settles 1 (Err (TransportError "bridge not found" None)), s);
     t_request := fun _ _ s => (Settles 0 (Err (NotConnectedError "")), s);
     t_abort := fun s => s; t_close := fun s => (Settles 0 (Ok tt), s) |}.

Lemma wrapper_inverted_witness :
  exists out t' x c'', wrapper_run no_agent (fun _ => "u") (fun _ => 0) old_wrapper old_spawn false ["secret"] (mkCli (mkClient None tt 0 0) [])
    = (Settles t' (Ok x), mkCli c'' ([] ++ out)) /\ starts out = [Spawned "/usr/bin/claude" ["secret"] None].
Proof.
  apply (wrapper_inverted no_agent (fun _ => "u") (fun _ => 0) old_wrapper old_spawn false
    ltac:(intros; by exists (Some 0), None) ["secret"] (mkScanInput "secret" []) (mkCli (mkClient None tt 0 0) [])
    1 (Err (TransportError "bridge not found" None)) (mkClient None tt 0 0)); reflexivity.
Defined.
