(* ===== verification/CliConfig.v ===== *)
(** * Command-line framework: configuration and repository context

    [cli-connectors/framework/src/core]: [config.ts] and [repo-context.ts], and the part of the connector's
    constructor that uses them.  The configuration file is modelled by what [JSON.parse] makes of its
    text; the environment, the home directory and the output of [git remote get-url origin] are
    parameters.  A configuration read from a file is untyped, so its fields hold JSON values; the
    spread of such a value gives its own enumerable properties. *)

From S2P Require Import Prelude Json JsonText CliInput CliUtil CliFiles.

(** ** [config.ts] *)

Record FrameworkConfig := mkConfig {
  cfg_user : list (string * json);
  cfg_tools : list (string * json);
  cfg_repos : list (string * json);
  cfg_verbose : json;
  cfg_timeoutMs : json
}.

Module DEFAULT_CONFIG.
Definition verbose : json := JBool false.
Definition timeoutMs : json := JNum (NInt 30000).
End DEFAULT_CONFIG.

Definition getDefaultConfigPath (env : env_t) (homedir : string) : string :=
  if truthy (env !! "XDG_CONFIG_HOME")
  then path_join (path_join (default "" (env !! "XDG_CONFIG_HOME")) "vguardrail") "cli-config.json"
  else path_join (path_join (path_join homedir ".config") "vguardrail") "cli-config.json".

Definition defaultConfig (env : env_t) : FrameworkConfig :=
  mkConfig
    [("id", JStr (or_else (env !! "USER") (or_else (env !! "USERNAME") "unknown"))); ("role", JStr "user"); ("groups", JArr [])]
    [] [] DEFAULT_CONFIG.verbose DEFAULT_CONFIG.timeoutMs.

(** The own properties [...v] copies: those of an object, the elements of an array or a string
    under their indices, nothing for anything else. *)
Definition spread_value (v : option json) : list (string * json) :=
  match v with
  | Some (JObj o) => o
  | Some (JArr l) => imap (fun i x => (show_Z (Z.of_nat i), x)) l
  | Some (JStr s) => imap (fun i c => (show_Z (Z.of_nat i), JStr (of_chars [c]))) (to_chars s)
  | _ => []
  end.

(** [a ?? b] *)
Definition coalesce (a : option json) (b : json) : json := match a with None | Some JNull => b | Some v => v end.

(** [None]: reading a property of [null] throws. *)
Definition mergeConfig (base : FrameworkConfig) (file : json) : option FrameworkConfig :=
  match file with
  | JNull => None
  | _ =>
      Some (mkConfig
        (spread_into (cfg_user base) (spread_value (json_get "user" file)))
        (spread_into (cfg_tools base) (spread_value (json_get "tools" file)))
        (spread_into (cfg_repos base) (spread_value (json_get "repos" file)))
        (coalesce (json_get "verbose" file) (cfg_verbose base))
        (coalesce (json_get "timeoutMs" file) (cfg_timeoutMs base)))
  end.

(** The file: not there, there but not readable as JSON, or the value of its text. *)
Inductive config_file := NoFile | Unreadable (message : string) | FileText (v : json).

Definition load_warning (path message : string) : string :=
  "[VGuardrail] Warning: Failed to load config from " +:+ path +:+ ": " +:+ message +:+ newline.

(** [loadConfig]: the configuration and what is written to stderr. *)
Definition loadConfig (env : env_t) (path : string) (f : config_file) : FrameworkConfig * list string :=
  let baseConfig := defaultConfig env in
  match f with
  | NoFile => (baseConfig, [])
  | Unreadable m => (baseConfig, [load_warning path m])
  | FileText v =>
      match mergeConfig baseConfig v with
      | Some c => (c, [])
      | None => (baseConfig, [load_warning path "Cannot read properties of null (reading 'user')"])
      end
  end.

(** The value [JSON.stringify] writes, keys in the order of the literal. *)
Definition config_json (c : FrameworkConfig) : json :=
  JObj [("verbose", cfg_verbose c); ("timeoutMs", cfg_timeoutMs c); ("user", JObj (cfg_user c));
        ("tools", JObj (cfg_tools c)); ("repos", JObj (cfg_repos c))].

(** [saveConfig]: the file afterwards and what is written to stderr; [write_error] is the message when the
    directory or the file cannot be written. *)
Definition saveConfig (env : env_t) (path : string) (write_error : option string) (config : json) (f : config_file)
    : config_file * list string :=
  let '(existingConfig, out) := loadConfig env path f in
  match mergeConfig existingConfig config, write_error with
  | Some mergedConfig, None => (FileText (config_json mergedConfig), out)
  | Some _, Some m => (f, out ++ ["[VGuardrail] Warning: Failed to save config: " +:+ m +:+ newline])
  | None, _ =>
      (f, out ++ ["[VGuardrail] Warning: Failed to save config: Cannot read properties of null (reading 'user')" +:+ newline])
  end.

Definition getToolConfig (toolName : string) (c : FrameworkConfig) : json :=
  match obj_get toolName (cfg_tools c) with Some v => if js_truthy v then v else JObj [] | None => JObj [] end.

Definition getCurrentRepoConfig (env : env_t) (c : FrameworkConfig) : option json :=
  if truthy (env !! "VG_REPO_NAME") then
    match obj_get (default "" (env !! "VG_REPO_NAME")) (cfg_repos c) with
    | Some v => if js_truthy v then Some v else None
    | None => None
    end
  else None.

(** ** [repo-context.ts] *)

(** A prefix, letter case ignored, and what follows it. *)
Fixpoint strip_ci (p s : chars) : option chars :=
  match p, s with
  | [], _ => Some s
  | a :: p', b :: s' => if Ascii.eqb (lower_char a) (lower_char b) then strip_ci p' s' else None
  | _ :: _, [] => None
  end.

Fixpoint span_not (stop : ascii) (s : chars) : chars * chars :=
  match s with
  | [] => ([], [])
  | c :: s' => if Ascii.eqb c stop then ([], s) else let '(a, b) := span_not stop s' in (c :: a, b)
  end.

(** [([^/]+?)(?:\.git)?$]: all that is left, without a final [.git] unless nothing else remains. *)
Definition match_repo (s : chars) : option chars :=
  match s with
  | [] => None
  | _ =>
      if existsb (Ascii.eqb "/"%char) s then None
      else
        let n := (List.length s - 4)%nat in
        if (4 <? List.length s)%nat && bool_decide (strip_ci (to_chars ".git") (drop n s) = Some []) then Some (take n s) else Some s
  end.

(** [([^/]+)\/([^/]+?)(?:\.git)?$] *)
Definition match_owner_repo (s : chars) : option string :=
  match span_not "/"%char s with
  | ((_ :: _) as owner, _ :: rest) => (fun repo => of_chars owner +:+ "/" +:+ of_chars repo) <$> match_repo rest
  | _ => None
  end.

(** [/github\.com[/:].../i]: the leftmost match. *)
Fixpoint match_github (s : chars) : option string :=
  let here :=
    match strip_ci (to_chars "github.com") s with
    | Some (sep :: rest) => if Ascii.eqb sep "/"%char || Ascii.eqb sep ":"%char then match_owner_repo rest else None
    | _ => None
    end in
  match here with
  | Some r => Some r
  | None => match s with [] => None | _ :: s' => match_github s' end
  end.

(** [/^git@[^:]+:.../i] *)
Definition match_ssh (s : chars) : option string :=
  match strip_ci (to_chars "git@") s with
  | Some rest =>
      match span_not ":"%char rest with
      | (_ :: _, _ :: rest') => match_owner_repo rest'
      | _ => None
      end
  | None => None
  end.

(** [remote]: what the git command printed, [None] when it failed. *)
Definition getRepoName (remote : option string) : option string :=
  match remote with
  | None => None
  | Some out =>
      let remoteUrl := to_chars (js_trim out) in
      match match_github remoteUrl with
      | Some r => Some r
      | None => match_ssh remoteUrl
      end
  end.

Record RepoContextType := mkRepoContext { rc_name : string; rc_classification : option json }.

(** [repoConfig?.classification] *)
Definition classification_of (repoConfig : option json) : option json :=
  match repoConfig with None | Some JNull => None | Some v => json_get "classification" v end.

Definition detectRepoContext (isGitRepo : bool) (remote : option string) (repoConfig : option json) : option RepoContextType :=
  if negb isGitRepo then None
  else
    let repoName := getRepoName remote in
    if negb (truthy repoName) then Some (mkRepoContext "unknown" (classification_of repoConfig))
    else Some (mkRepoContext (default "" repoName) (classification_of repoConfig)).

Definition isGitRepo (exists_ : string -> bool) (cwd : string) : bool := exists_ (path_join cwd ".git").

Definition getRepoClassification (env : env_t) (repoConfig : option json) : option json :=
  if truthy (env !! "VG_REPO_CLASSIFICATION") then JStr <$> env !! "VG_REPO_CLASSIFICATION" else classification_of repoConfig.

Definition validateRepoContext (c : RepoContextType) : bool := 0 <? strlen (rc_name c).

(** ** The connector's constructor *)

(** The timeout the policy client is given and the repository context. *)
Definition connector_timeout (c : FrameworkConfig) (override : option json) : json := default (cfg_timeoutMs c) override.

Definition connector_repo (c : FrameworkConfig) (toolName : string) (isGitRepo : bool) (remote : option string)
    : option RepoContextType :=
  detectRepoContext isGitRepo remote (obj_get (toolName +:+ "-repo") (cfg_repos c)).

(** ** Lemmas *)

Lemma spread_NoDup {A} (o x : list (string * A)) : NoDup (obj_keys o) -> NoDup (obj_keys (spread_into o x)).
Proof. unfold spread_into. revert o. induction x as [|[k v] x IH]; intros o Ho; [done|]. by apply IH, obj_set_NoDup. Qed.

(** What a spread writes wins; the rest stays. *)
Lemma obj_get_spread {A} (o x : list (string * A)) k :
  NoDup (obj_keys o) -> NoDup (obj_keys x) ->
  obj_get k (spread_into o x) = match obj_get k x with Some v => Some v | None => obj_get k o end.
Proof.
  unfold spread_into. revert o. induction x as [|[k' v] x IH]; intros o Ho Hx; [done|]. inv Hx. cbn [fold_left fst snd].
  rewrite IH by (auto using obj_set_NoDup). rewrite obj_get_set by done. cbn [obj_get].
  destruct (String.eqb_spec k k') as [->|]; [|done].
  assert (obj_get k' x = None) as -> by (by apply obj_get_None). done.
Qed.

Record config_wf (c : FrameworkConfig) : Prop := {
  wf_user : NoDup (obj_keys (cfg_user c));
  wf_tools : NoDup (obj_keys (cfg_tools c));
  wf_repos : NoDup (obj_keys (cfg_repos c));
  wf_verbose : cfg_verbose c <> JNull;
  wf_timeout : cfg_timeoutMs c <> JNull;
  wf_keys : forall k, k ∈ ["id"; "role"; "groups"] -> is_Some (obj_get k (cfg_user c))
}.

Lemma coalesce_not_null a b : b <> JNull -> coalesce a b <> JNull.
Proof. by destruct a as [[]|]. Qed.

Lemma default_wf env : config_wf (defaultConfig env).
Proof.
  split; try done; try (apply (bool_decide_unpack _); vm_compute; exact I).
  intros k Hk. rewrite !elem_of_cons in Hk. destruct Hk as [->|[->|[->|Hk]]]; [by eexists..|by apply not_elem_of_nil in Hk].
Qed.

Lemma obj_get_spread_some {A} (o x : list (string * A)) k :
  NoDup (obj_keys o) -> is_Some (obj_get k o) -> is_Some (obj_get k (spread_into o x)).
Proof.
  unfold spread_into. revert o. induction x as [|[k' v] x IH]; intros o Ho Hs; [done|].
  apply IH; [by apply obj_set_NoDup|]. cbn [fst snd]. rewrite obj_get_set by done. destruct (String.eqb k k'); [by eexists|done].
Qed.

Lemma merge_wf base file c : config_wf base -> mergeConfig base file = Some c -> config_wf c.
Proof.
  intros [H1 H2 H3 H4 H5 H6] E. unfold mergeConfig in E.
  destruct file; try done; simplify_eq; split; cbn [cfg_user cfg_tools cfg_repos cfg_verbose cfg_timeoutMs];
    auto using spread_NoDup, coalesce_not_null; intros k Hk; apply obj_get_spread_some; auto.
Qed.

Lemma load_wf env path f : config_wf (loadConfig env path f).1.
Proof.
  pose proof (default_wf env) as Hd. unfold loadConfig. destruct f as [|m|v]; [done..|].
  destruct (mergeConfig _ v) as [c|] eqn:E; [|done]. by eapply merge_wf.
Qed.

Lemma default_keys env k : is_Some (obj_get k (cfg_user (defaultConfig env))) -> k ∈ ["id"; "role"; "groups"].
Proof.
  cbn [cfg_user defaultConfig obj_get].
  destruct (String.eqb_spec k "id") as [->|]; [by left|]. destruct (String.eqb_spec k "role") as [->|]; [by right; left|].
  destruct (String.eqb_spec k "groups") as [->|]; [by right; right; left|]. by intros [? ?].
Qed.

(** ** Properties *)

(** What becomes of a part of the configuration under a key: the saved value where the saved part has the key, and
    otherwise what was there before. *)
Definition saved_or_kept (config : json) (part : string) (before : list (string * json)) (k : string) : option json :=
  match obj_get k (spread_value (json_get part config)) with Some v => Some v | None => obj_get k before end.

(** C38: a saved configuration is read back, with all that was there before.  After a save that succeeds, loading the file in
    any environment gives, without a warning, at every key of the user, of the tools and of the repositories the
    saved value where what was saved has that key, and otherwise the value that was loaded before the save; the two
    settings likewise, where what was saved holds neither nothing nor [null].  So a save that does not mention the
    user keeps the identity the configuration had, and when there was no file it writes the identity of
    whoever saved into it, for everyone who loads it. *)
Theorem config_roundtrip env env' path config f f' out :
  saveConfig env path None config f = (f', out) -> config <> JNull ->
  (forall part, NoDup (obj_keys (spread_value (json_get part config)))) ->
  let before := (loadConfig env path f).1 in
  let c := (loadConfig env' path f').1 in
  (loadConfig env' path f').2 = [] /\
  (forall k, obj_get k (cfg_user c) = saved_or_kept config "user" (cfg_user before) k) /\
  (forall k, obj_get k (cfg_tools c) = saved_or_kept config "tools" (cfg_tools before) k) /\
  (forall k, obj_get k (cfg_repos c) = saved_or_kept config "repos" (cfg_repos before) k) /\
  cfg_verbose c = match json_get "verbose" config with None | Some JNull => cfg_verbose before | Some v => v end /\
  cfg_timeoutMs c = match json_get "timeoutMs" config with None | Some JNull => cfg_timeoutMs before | Some v => v end /\
  (f = NoFile -> json_get "user" config = None ->
   obj_get "id" (cfg_user c) = Some (JStr (or_else (env !! "USER") (or_else (env !! "USERNAME") "unknown")))).
Proof.
  intros E Hn Hd before c. unfold saveConfig in E. destruct (loadConfig env path f) as [c0 out0] eqn:El. cbn [fst] in before.
  pose proof (load_wf env path f) as Hw. rewrite El in Hw. cbn [fst] in Hw.
  destruct (mergeConfig c0 config) as [m|] eqn:Em; [|by destruct config]. simplify_eq.
  destruct (merge_wf c0 config m Hw Em) as [H1 H2 H3 H4 H5 H6].
  assert (m = mkConfig (spread_into (cfg_user c0) (spread_value (json_get "user" config)))
    (spread_into (cfg_tools c0) (spread_value (json_get "tools" config))) (spread_into (cfg_repos c0) (spread_value (json_get "repos" config)))
    (coalesce (json_get "verbose" config) (cfg_verbose c0)) (coalesce (json_get "timeoutMs" config) (cfg_timeoutMs c0))) as Hm
    by (unfold mergeConfig in Em; destruct config; try done; by injection Em as <-).
  assert (forall k, obj_get k (cfg_user c) = saved_or_kept config "user" (cfg_user c0) k) as Hu.
  { intros k. unfold c, saved_or_kept. rewrite <- (obj_get_spread (cfg_user c0)) by (apply Hw || done).
    cbn [loadConfig mergeConfig config_json fst cfg_user]. change (spread_value (json_get "user" (config_json m))) with (cfg_user m).
    rewrite obj_get_spread by (done || apply (wf_user _ (default_wf env'))).
    assert (cfg_user m = spread_into (cfg_user c0) (spread_value (json_get "user" config))) as Hum by (by rewrite Hm). rewrite <- Hum.
    destruct (obj_get k (cfg_user m)) eqn:Ek; [done|]. destruct (obj_get k (cfg_user (defaultConfig env'))) eqn:Edk; [|done].
    assert (is_Some (obj_get k (cfg_user m))) as [? ?] by (apply H6, (default_keys env'); eauto). congruence. }
  split_and!; [done|exact Hu|..].
  - intros k. unfold c, saved_or_kept. rewrite <- (obj_get_spread (cfg_tools c0)) by (apply Hw || done).
    cbn [loadConfig mergeConfig config_json fst cfg_tools]. change (spread_value (json_get "tools" (config_json m))) with (cfg_tools m).
    rewrite obj_get_spread by (done || constructor). rewrite Hm. cbn [cfg_tools]. by destruct (obj_get k _).
  - intros k. unfold c, saved_or_kept. rewrite <- (obj_get_spread (cfg_repos c0)) by (apply Hw || done).
    cbn [loadConfig mergeConfig config_json fst cfg_repos]. change (spread_value (json_get "repos" (config_json m))) with (cfg_repos m).
    rewrite obj_get_spread by (done || constructor). rewrite Hm. cbn [cfg_repos]. by destruct (obj_get k _).
  - assert (cfg_verbose c = cfg_verbose m) as -> by (cbn; by destruct (cfg_verbose m)). rewrite Hm. cbn [cfg_verbose].
    by destruct (json_get "verbose" config) as [[]|].
  - assert (cfg_timeoutMs c = cfg_timeoutMs m) as -> by (cbn; by destruct (cfg_timeoutMs m)). rewrite Hm. cbn [cfg_timeoutMs].
    by destruct (json_get "timeoutMs" config) as [[]|].
  - intros -> Hnu. rewrite Hu. unfold saved_or_kept. rewrite Hnu. cbn in El. by injection El as <- <-.
Qed.

Lemma config_roundtrip_witness :
  let f' := (saveConfig {["USER" := "ana"]} "c.json" None (JObj [("verbose", JBool true)]) NoFile).1 in
  let c := (loadConfig {["USER" := "bob"]} "c.json" f').1 in
  obj_get "id" (cfg_user c) = Some (JStr "ana") /\ cfg_verbose c = JBool true /\ cfg_timeoutMs c = JNum (NInt 30000).
Proof.
  destruct (config_roundtrip {["USER" := "ana"]} {["USER" := "bob"]} "c.json" (JObj [("verbose", JBool true)]) NoFile
    (saveConfig {["USER" := "ana"]} "c.json" None (JObj [("verbose", JBool true)]) NoFile).1 []) as (_ & _ & _ & _ & Hv & Ht & Hi).
  - vm_compute. reflexivity.
  - discriminate.
  - intros part. cbn [json_get obj_get]. destruct (String.eqb part "verbose"); constructor.
  - split_and!; [apply Hi; reflexivity|exact Hv|exact Ht].
Defined.

(** ** Remote URLs *)

Definition plain (s : chars) : Prop := s <> [] /\ Forall (fun c => is_space c = false /\ c <> "/"%char) s.

Definition url_of (host owner repo suffix : string) : string := host +:+ owner +:+ "/" +:+ repo +:+ suffix.

Lemma drop_spaces_id l : Forall (fun c => is_space c = false) l -> drop_spaces l = l.
Proof. destruct 1 as [|c l Hc _]; [done|]. cbn. by rewrite Hc. Qed.

Lemma trim_line l : Forall (fun c => is_space c = false) l -> trim_chars (l ++ [chr 10]) = l.
Proof.
  intros Hl. unfold trim_chars. destruct l as [|c l]; [done|]. inv Hl.
  assert (drop_spaces ((c :: l) ++ [chr 10]) = (c :: l) ++ [chr 10]) as -> by (cbn; by rewrite H1).
  rewrite rev_app_distr. change (rev [chr 10] ++ rev (c :: l)) with (chr 10 :: rev (c :: l)).
  assert (drop_spaces (chr 10 :: rev (c :: l)) = drop_spaces (rev (c :: l))) as -> by done.
  rewrite drop_spaces_id; [by rewrite rev_involutive|]. apply Forall_rev. by constructor.
Qed.

Lemma span_not_stop stop a b : Forall (fun c => c <> stop) a -> span_not stop (a ++ stop :: b) = (a, stop :: b).
Proof.
  induction 1 as [|c a Hc _ IH]; cbn [span_not Datatypes.app].
  - by rewrite (proj2 (Ascii.eqb_eq _ _) eq_refl).
  - rewrite (proj2 (Ascii.eqb_neq _ _) Hc). by rewrite IH.
Qed.

Lemma no_slash l : Forall (fun c => c <> "/"%char) l -> existsb (Ascii.eqb "/"%char) l = false.
Proof.
  induction 1 as [|c l Hc _ IH]; [done|]. cbn [existsb]. rewrite IH, orb_false_r. apply Ascii.eqb_neq. congruence.
Qed.

Lemma match_repo_git l :
  plain l -> match_repo (l ++ to_chars ".git") = Some l.
Proof.
  intros [Hn Hl]. unfold match_repo. destruct (l ++ to_chars ".git") as [|c0 l0] eqn:E; [by destruct l|]. rewrite <- E.
  rewrite no_slash by (apply Forall_app; split; [eapply Forall_impl; [exact Hl|naive_solver]|repeat constructor; done]).
  rewrite length_app. change (List.length (to_chars ".git")) with 4%nat. replace (List.length l + 4 - 4)%nat with (List.length l) by lia.
  rewrite drop_app_length, take_app_length. destruct l as [|c l]; [done|]. cbn [List.length].
  assert ((4 <? S (List.length l) + 4)%nat = true) as -> by (apply Nat.ltb_lt; lia). done.
Qed.

Lemma match_repo_plain l :
  plain l -> strip_ci (to_chars ".git") (drop (List.length l - 4) l) <> Some [] -> match_repo l = Some l.
Proof.
  intros [Hn Hl] Hg. unfold match_repo. destruct l as [|c0 l0] eqn:E; [done|]. rewrite <- E in *.
  rewrite no_slash by (eapply Forall_impl; [exact Hl|naive_solver]).
  rewrite bool_decide_eq_false_2 by done. by rewrite andb_false_r.
Qed.

Lemma match_owner_repo_plain owner rest :
  plain owner -> match_owner_repo (owner ++ "/"%char :: rest) = (fun repo => of_chars owner +:+ "/" +:+ of_chars repo) <$> match_repo rest.
Proof.
  intros [Hn Hl]. unfold match_owner_repo.
  rewrite span_not_stop by (eapply Forall_impl; [exact Hl|naive_solver]). by destruct owner.
Qed.

Lemma of_chars_app a b : of_chars (a ++ b) = of_chars a +:+ of_chars b.
Proof. rewrite <- (of_to_chars (of_chars a +:+ of_chars b)), to_chars_app, !to_of_chars. done. Qed.

(** The scan of a line git printed. *)
Lemma getRepoName_line l :
  Forall (fun c => is_space c = false) l ->
  getRepoName (Some (of_chars l +:+ newline)) = match match_github l with Some r => Some r | None => match_ssh l end.
Proof.
  intros Hl. unfold getRepoName, js_trim. rewrite to_of_chars, to_chars_app, to_of_chars.
  change (to_chars newline) with [chr 10]. by rewrite trim_line.
Qed.

Lemma strip_ci_app p rest : strip_ci p (p ++ rest) = Some rest.
Proof. induction p as [|c p IH]; [done|]. cbn. by rewrite (proj2 (Ascii.eqb_eq _ _) eq_refl). Qed.

Lemma match_github_next c s : strip_ci (to_chars "github.com") (c :: s) = None -> match_github (c :: s) = match_github s.
Proof. intros E. cbn [match_github]. by rewrite E. Qed.

Lemma match_github_here sep rest r :
  sep = "/"%char \/ sep = ":"%char -> match_owner_repo rest = Some r ->
  match_github (to_chars "github.com" ++ sep :: rest) = Some r.
Proof.
  intros Hs E.
  assert (match_github (to_chars "github.com" ++ sep :: rest) =
    match (match strip_ci (to_chars "github.com") (to_chars "github.com" ++ sep :: rest) with
           | Some (sep :: rest) => if Ascii.eqb sep "/"%char || Ascii.eqb sep ":"%char then match_owner_repo rest else None
           | _ => None end) with
    | Some r => Some r
    | None => match_github (tail (to_chars "github.com" ++ sep :: rest)) end) as -> by reflexivity.
  rewrite strip_ci_app, E. by destruct Hs as [-> | ->].
Qed.

Lemma match_github_https rest r :
  match_owner_repo rest = Some r -> match_github (to_chars "https://github.com/" ++ rest) = Some r.
Proof.
  intros E. change (to_chars "https://github.com/" ++ rest) with (to_chars "https://" ++ to_chars "github.com" ++ "/"%char :: rest).
  change (to_chars "https://" ++ ?x) with ("h" :: "t" :: "t" :: "p" :: "s" :: ":" :: "/" :: "/" :: x)%char.
  do 8 rewrite match_github_next by reflexivity. apply match_github_here; auto.
Qed.

Lemma match_github_ssh rest r :
  match_owner_repo rest = Some r -> match_github (to_chars "git@github.com:" ++ rest) = Some r.
Proof.
  intros E. change (to_chars "git@github.com:" ++ rest) with (to_chars "git@" ++ to_chars "github.com" ++ ":"%char :: rest).
  change (to_chars "git@" ++ ?x) with ("g" :: "i" :: "t" :: "@" :: x)%char.
  do 4 rewrite match_github_next by reflexivity. apply match_github_here; auto.
Qed.

(** A repository is recognised under every form of its remote URL on GitHub: over HTTPS with or without the
    final [.git], and over SSH, git's line gives [owner/repo] back. *)
Theorem repo_name_parsed owner repo :
  plain (to_chars owner) -> plain (to_chars repo) ->
  strip_ci (to_chars ".git") (drop (String.length repo - 4) (to_chars repo)) <> Some [] ->
  getRepoName (Some (url_of "https://github.com/" owner repo ".git" +:+ newline)) = Some (owner +:+ "/" +:+ repo) /\
  getRepoName (Some (url_of "https://github.com/" owner repo "" +:+ newline)) = Some (owner +:+ "/" +:+ repo) /\
  getRepoName (Some (url_of "git@github.com:" owner repo ".git" +:+ newline)) = Some (owner +:+ "/" +:+ repo).
Proof.
  intros Ho Hr Hg.
  assert (forall host suffix, Forall (fun c => is_space c = false) (to_chars host) -> Forall (fun c => is_space c = false) (to_chars suffix) ->
    getRepoName (Some (url_of host owner repo suffix +:+ newline)) =
    let l := to_chars host ++ to_chars owner ++ "/"%char :: to_chars repo ++ to_chars suffix in
    match match_github l with Some r => Some r | None => match_ssh l end) as Hline.
  { intros host suffix Hh Hs. cbv zeta. rewrite <- getRepoName_line.
    - f_equal. f_equal. f_equal. unfold url_of. rewrite <- (of_to_chars (host +:+ _)), !to_chars_app. done.
    - repeat (apply Forall_app; split); [done| |]; [|constructor; [done|apply Forall_app; split; [|done]]];
        (eapply Forall_impl; [apply Ho || apply Hr|naive_solver]). }
  assert (List.length (to_chars repo) = String.length repo) as Hlen by (rewrite <- length_of_chars, of_to_chars; done).
  rewrite !Hline by (apply (bool_decide_unpack _); vm_compute; exact I). cbv zeta.
  set (o := to_chars owner) in *. set (r := to_chars repo) in *.
  assert (forall rest, match_repo rest = Some r ->
    match_owner_repo (o ++ "/"%char :: rest) = Some (owner +:+ "/" +:+ repo)) as Hm.
  { intros rest E. rewrite match_owner_repo_plain, E by done. cbn. unfold o, r. by rewrite !of_to_chars. }
  split_and!.
  - by rewrite (match_github_https _ _ (Hm _ (match_repo_git r Hr))).
  - change (to_chars "") with (@nil ascii). rewrite app_nil_r, (match_github_https _ _ (Hm r (match_repo_plain r Hr ltac:(by rewrite Hlen)))). done.
  - by rewrite (match_github_ssh _ _ (Hm _ (match_repo_git r Hr))).
Qed.

Lemma repo_name_parsed_witness :
  getRepoName (Some (url_of "https://github.com/" "acme" "api" ".git" +:+ newline)) = Some "acme/api" /\
  getRepoName (Some (url_of "https://github.com/" "acme" "api" "" +:+ newline)) = Some "acme/api" /\
  getRepoName (Some (url_of "git@github.com:" "acme" "api" ".git" +:+ newline)) = Some "acme/api".
Proof.
  apply (repo_name_parsed "acme" "api").
  - split; [discriminate|apply (bool_decide_unpack _); vm_compute; exact I].
  - split; [discriminate|apply (bool_decide_unpack _); vm_compute; exact I].
  - vm_compute. discriminate.
Defined.

(** A classification configured under the repository's name never reaches the scan context: the
    constructor looks under the tool's name, which is not what the configuration type documents. *)
Lemma repo_config_by_name_ignored :
  connector_repo (mkConfig [] [] [("acme/api", JObj [("classification", JStr "restricted")])] (JBool false) (JNum (NInt 30000)))
    "claude-code" true (Some "git@github.com:acme/api.git") = Some (mkRepoContext "acme/api" None).
Proof. vm_compute. reflexivity. Qed.
