(* ===== verification/IdeVscode.v ===== *)
(** * The editor connector

    [ide-connectors/vscode/src]: [app.ts], [categories.ts], [identity.ts], [scan-service.ts],
    [interceptor.ts], and the decisions of the commands of [extension.ts].  The editor is a parameter:
    what the user answers to a warning, and the selection and the document a command reads.  What the
    extension shows is a list of notifications, newest last. *)

From S2P Require Import Prelude Json JsonText Zod Enums Decision ScanRequest AuditEvent Resilience Framing Transport Client NativeHost CliFiles CliInput CliUtil.

(** ** [app.ts] *)

Inductive IdeApp := Vscode | Cursor | Windsurf | Trae | Antigravity.

Definition ide_app (a : IdeApp) : string :=
  match a with Vscode => "vscode" | Cursor => "cursor" | Windsurf => "windsurf" | Trae => "trae" | Antigravity => "antigravity" end.

Definition detectIdeApp (appName : string) : IdeApp :=
  let name := to_lower appName in
  if js_includes name "cursor" then Cursor
  else if js_includes name "windsurf" then Windsurf
  else if js_includes name "trae" then Trae
  else if js_includes name "antigravity" then Antigravity
  else Vscode.

(** ** [categories.ts] *)

Definition CATEGORY_LABELS : list (string * string) :=
  [("secret", "Secrets & credentials"); ("pii", "Personal data (PII)"); ("source_code", "Source code");
   ("company_confidential", "Company confidential"); ("financial", "Financial data");
   ("intellectual_property", "Intellectual property"); ("usage_policy", "Usage policy");
   ("prompt_injection", "Prompt injection"); ("sensitive_document", "Sensitive document");
   ("customer_data", "Customer data"); ("compliance", "Compliance"); ("keyword", "Watched keyword");
   ("file_policy", "File policy"); ("image_policy", "Image policy"); ("ai_classification", "AI classification");
   ("destructive_command", "Destructive command"); ("legal", "Legal content"); ("medical", "Medical / health data");
   ("hr", "HR content"); ("security", "Security material"); ("research_development", "Research & development");
   ("communication", "Internal communication"); ("procurement", "Procurement & vendor data");
   ("government", "Government / export-controlled"); ("classification", "Data classification")].

(** [category.replace(/_/g, ' ')] *)
Definition underscores_to_spaces (s : string) : string :=
  of_chars (map (fun c => if Ascii.eqb c "_"%char then " "%char else c) (to_chars s)).

Definition categoryLabel (category : string) : string :=
  default (underscores_to_spaces category) (obj_get category CATEGORY_LABELS).

Fixpoint findingCategories_go (seen : list string) (categories : list string) : list string :=
  match categories with
  | [] => []
  | c :: rest =>
      if bool_decide (c ∈ seen) then findingCategories_go seen rest
      else categoryLabel c :: findingCategories_go (c :: seen) rest
  end.
Definition findingCategories (fs : list Finding) : list string :=
  findingCategories_go [] (map (fun f => wire (f_category f)) fs).

(** ** [scan-service.ts] *)

Record EditorPromptContext := mkEditorContext {
  filePath : option string;
  ec_fileExtension : option string;
  languageId : option string;
  workspaceName : option string
}.

(** [buildRequest] *)
Definition ide_buildRequest (app : IdeApp) (identity : ConnectorIdentity) (txt : string) (ctx : EditorPromptContext) : ScanRequest :=
  let extension := match ec_fileExtension ctx with Some e => Some e | None => languageId ctx end in
  mkScanRequest txt
    {| source := Some SrcIde;
       provider := None;
       model := None;
       ScanRequest.app := Some (ide_app app);
       repo := if truthy (workspaceName ctx) then Some (mkRepo (default "" (workspaceName ctx)) None) else None;
       file := if truthy (filePath ctx)
               then Some (mkFile (default "" (filePath ctx)) (if truthy extension then extension else None)) else None;
       user := identity |}.

(** ** [interceptor.ts] *)

Definition PROCEED_ACTION : string := "Proceed".
Definition CANCEL_ACTION : string := "Cancel".
Definition ENGINE_UNAVAILABLE_MESSAGE : string := "VGuardrail: policy engine unavailable — prompt blocked".

Definition withCategories (prefix : string) (fs : list Finding) : string :=
  match findingCategories fs with
  | [] => prefix
  | categories => prefix +:+ " [" +:+ js_join ", " categories +:+ "]"
  end.

Definition warnMessage (d : Decision) : string := withCategories ("VGuardrail warning: " +:+ reason d) (findings d).
Definition blockMessage (d : Decision) : string := withCategories ("VGuardrail blocked: " +:+ reason d) (findings d).
Definition highRiskBlockMessage (d : Decision) : string :=
  withCategories ("VGuardrail blocked (high risk): " +:+ reason d) (findings d).

Inductive WarnTier := TierBlock | TierPrompt | TierNotice.

Definition warnTier (riskLevel : option RiskLevel) : WarnTier :=
  match riskLevel with
  | Some Critical | Some High => TierBlock
  | Some Low => TierNotice
  | _ => TierPrompt
  end.

Inductive notification :=
| ShownWarning (message : string) (actions : list string)
| ShownError (message : string)
| ShownInfo (message : string)
| StatusBar (label tooltip : string) (background : option string).

Record InterceptOutcome := mkOutcome { allowed : bool; response : ScanResponse }.

(** The client of the service, and what was shown. *)
Record ide (T : Type) := mkIde { ide_client : client T; shown : list notification }.
Arguments mkIde {T} _ _.
Arguments ide_client {T} _.
Arguments shown {T} _.

Section interceptor.
Context `{Zod} {T : Type} `{EventLoop T} (tr : Transport T) (uuid : nat -> string) (jitter : nat -> Z).
Context (app : IdeApp) (identity : ConnectorIdentity).
(** The promise of [showWarning] for a message with actions: the chosen action. *)
Context (choose : string -> reply (option string)).
(** The callback of the constructor. *)
Context (onDecision : InterceptOutcome -> list notification).

Abbreviation act := (async (ide T)).

Definition show (n : notification) : act unit := modify (fun s => mkIde (ide_client s) (shown s ++ [n])).

Definition on_service {A} (m : async (client T) A) : act A := fun s =>
  let '(r, c) := m (ide_client s) in (r, mkIde c (shown s)).

(** [ScanService.scan] and [ScanService.acknowledgeWarning] *)
Definition service_scan (txt : string) (ctx : EditorPromptContext) : act ScanResponse :=
  on_service (safeScan tr DEFAULT_TIMEOUT_MS (resolveRetry None) uuid jitter (ide_buildRequest app identity txt ctx) (Some Block)).

Definition service_acknowledgeWarning (eventId : string) (accepted : bool) : act bool :=
  on_service (acknowledgeWarning tr DEFAULT_TIMEOUT_MS (resolveRetry None) jitter eventId accepted).

Definition ide_acknowledge (requestId : string) (accepted : bool) : act unit :=
  try_catch (_ ← service_acknowledgeWarning requestId accepted; mret tt) (fun _ => mret tt).

Definition ask (message : string) : act (option string) := fun s => (choose message, s).

Definition resolveWarn (d : Decision) (r : ScanResponse) : act InterceptOutcome :=
  match warnTier (Some (riskLevel d)) with
  | TierBlock =>
      _ ← show (ShownError (highRiskBlockMessage d));
      _ ← ide_acknowledge (requestId d) false;
      mret (mkOutcome false r)
  | TierNotice =>
      _ ← show (ShownWarning (warnMessage d) []);
      _ ← ide_acknowledge (requestId d) true;
      mret (mkOutcome true r)
  | TierPrompt =>
      _ ← show (ShownWarning (warnMessage d) [PROCEED_ACTION; CANCEL_ACTION]);
      choice ← ask (warnMessage d);
      let accepted := bool_decide (choice = Some PROCEED_ACTION) in
      _ ← ide_acknowledge (requestId d) accepted;
      mret (mkOutcome accepted r)
  end.

Definition resolve (r : ScanResponse) : act InterceptOutcome :=
  let d := decision r in
  if fromFallback r then
    _ ← show (ShownError ENGINE_UNAVAILABLE_MESSAGE); mret (mkOutcome false r)
  else
    match action d with
    | Allow => mret (mkOutcome true r)
    | Warn => resolveWarn d r
    | Block => _ ← show (ShownError (blockMessage d)); mret (mkOutcome false r)
    end.

Definition intercept (txt : string) (ctx : EditorPromptContext) : act InterceptOutcome :=
  r ← try_catch (service_scan txt ctx)
        (fun _ =>
           requestId ← on_service (randomUUID uuid);
           let d := syntheticDecision requestId Block "connector error; fail-closed block" None None in
           mret (makeScanResponse d requestId 0 (Some true)));
  outcome ← resolve r;
  _ ← modify (fun s => mkIde (ide_client s) (shown s ++ onDecision outcome));
  mret outcome.
End interceptor.

(** ** [extension.ts] *)

Definition MAX_DOCUMENT_BYTES : Z := 256 * 1024.

(** [Buffer.byteLength(s, 'utf8')] *)
Definition byteLength (s : string) : Z := Z.of_nat (List.length (utf8_encode (to_chars s))).

Inductive StatusState := StReady | StDisabled | StAllow | StWarn | StBlock | StUnavailable.

Definition status_label (s : StatusState) : string :=
  match s with
  | StReady => "ready" | StDisabled => "disabled" | StAllow => "allowed" | StWarn => "warned"
  | StBlock => "blocked" | StUnavailable => "engine down"
  end.

Definition updateStatusBar (s : StatusState) (detail : option string) : notification :=
  StatusBar ("$(shield) VGuardrail: " +:+ status_label s) (default "VGuardrail — click for engine status" detail)
    (match s with
     | StWarn => Some "statusBarItem.warningBackground"
     | StBlock | StUnavailable => Some "statusBarItem.errorBackground"
     | _ => None
     end).

Definition statusFromOutcome (o : InterceptOutcome) : list notification :=
  let d := decision (response o) in
  if fromFallback (response o) then [updateStatusBar StUnavailable (Some (reason d))]
  else [updateStatusBar (match action d with Allow => StAllow | Warn => StWarn | Block => StBlock end) (Some (reason d))].

(** A document of the editor. *)
Record TextDocument := mkDocument {
  doc_scheme : string;
  doc_fsPath : string;
  doc_languageId : string;
  doc_text : string;
  doc_folder : option string        (* the name of its workspace folder *)
}.

Definition extensionOf (fsPath : string) : option string :=
  let ext := path_extname fsPath in if 1 <? strlen ext then Some (slice_from 1 ext) else None.

(** [workspace]: [vscode.workspace.name] *)
Definition workspaceNameFor (workspace : option string) (d : option TextDocument) : option string :=
  match d ≫= doc_folder with Some name => Some name | None => workspace end.

Definition contextFromDocument (workspace : option string) (d : TextDocument) : EditorPromptContext :=
  let is_file := String.eqb (doc_scheme d) "file" in
  mkEditorContext
    (if is_file then Some (doc_fsPath d) else None)
    (if is_file then extensionOf (doc_fsPath d) else None)
    (Some (doc_languageId d))
    (workspaceNameFor workspace (Some d)).

Definition contextFromActiveEditor (workspace : option string) (d : option TextDocument) : EditorPromptContext :=
  match d with
  | None => mkEditorContext None None None (workspaceNameFor workspace None)
  | Some d => contextFromDocument workspace d
  end.

(** What a command decides before it scans. *)
Inductive scan_choice := Say (message : string) | Quiet | ScanThis (txt : string) (ctx : EditorPromptContext).

Definition disabled_message : string :=
  "VGuardrail is disabled — run " +:+ of_chars [chr 34] +:+ "VGuardrail: Toggle Enabled" +:+ of_chars [chr 34]
  +:+ " to re-enable scanning.".

(** [vguardrail.scanSelection], with the active document and its selected text *)
Definition scanSelection (enabled : bool) (workspace : option string) (editor : option (TextDocument * string)) : scan_choice :=
  if negb enabled then Say disabled_message
  else
    match editor with
    | None => Say "VGuardrail: no active editor to scan."
    | Some (d, selection) =>
        if is_empty selection && (MAX_DOCUMENT_BYTES <? byteLength (doc_text d)) then
          Say "VGuardrail: select a region to scan — this document exceeds the 256 KiB scan cap."
        else
          let txt := if is_empty selection then doc_text d else selection in
          if is_empty (js_trim txt) then Say "VGuardrail: nothing to scan."
          else ScanThis txt (contextFromDocument workspace d)
    end.

(** [vguardrail.scanPrompt], with what the input box returned *)
Definition scanPrompt (enabled : bool) (workspace : option string) (editor : option TextDocument) (input : option string) : scan_choice :=
  if negb enabled then Say disabled_message
  else
    match input with
    | None => Quiet
    | Some p => if is_empty (js_trim p) then Quiet else ScanThis p (contextFromActiveEditor workspace editor)
    end.

Section commands.
Context `{Zod} {T : Type} `{EventLoop T} (tr : Transport T) (uuid : nat -> string) (jitter : nat -> Z).
Context (app : IdeApp) (identity : ConnectorIdentity) (choose : string -> reply (option string)).

Definition safe_note (o : InterceptOutcome) : string :=
  match action (decision (response o)) with
  | Warn => "VGuardrail: warning acknowledged — safe to send."
  | _ => "VGuardrail: prompt allowed — safe to send."
  end.

Definition ide_scanText (txt : string) (ctx : EditorPromptContext) : async (ide T) unit :=
  o ← intercept tr uuid jitter app identity choose statusFromOutcome txt ctx;
  if allowed o then show (ShownInfo (safe_note o)) else mret tt.

Definition run_choice (c : scan_choice) : async (ide T) unit :=
  match c with
  | Say m => show (ShownInfo m)
  | Quiet => mret tt
  | ScanThis txt ctx => ide_scanText txt ctx
  end.

(** [vguardrail.status] *)
Definition status_command (enabled : bool) : async (ide T) unit :=
  try_catch
    (st ← on_service (status tr DEFAULT_TIMEOUT_MS (resolveRetry None) jitter);
     _ ← show (ShownInfo ("VGuardrail (" +:+ ide_app app +:+ "): " +:+ (if engineServing st then "engine serving" else "engine NOT serving")
       +:+ " · policy v" +:+ of_chars (print_num (activePolicyVersion st)) +:+ " · " +:+ of_chars (print_num (queuedEvents st))
       +:+ " queued events · agent " +:+ agentVersion st));
     show (updateStatusBar (if enabled then StReady else StDisabled) None))
    (fun _ =>
       _ ← show (ShownWarning "VGuardrail: policy engine unavailable — prompts will be blocked (fail-closed)." []);
       show (updateStatusBar StUnavailable None)).
End commands.

(** The transport [activate] chooses, and the environment it prepares for the bridge: [transport] and
    [devBackendUrl] are the settings, with their defaults when unset. *)
Inductive ide_transport := XpcBridge (env : env_t) | HttpDev (baseUrl : string).

(** [xpc-env.ts] is the framework's, word for word. *)
Definition ide_prepareXpcEnvironment : string -> (string -> bool) -> env_t -> env_t := prepareXpcEnvironment.

Definition select_transport (transport devBackendUrl : option string) (home : string) (exists_ : string -> bool) (env : env_t) : ide_transport :=
  if String.eqb (default "xpc" transport) "http-dev" then HttpDev (default "http://localhost:8080" devBackendUrl)
  else XpcBridge (ide_prepareXpcEnvironment home exists_ env).

(** [deactivate]: the service is closed once and forgotten. *)
Definition deactivate {T} (tr : Transport T) (service : option (client T)) : option (reply unit * client T) * option (client T) :=
  (close tr <$> service, None).

(** [identity.ts] is the host's, word for word. *)
Definition ide_loadIdentity `{JsonCodec} : option string -> option chars -> ConnectorIdentity := loadIdentity.

(** [vguardrail.toggleEnabled]: the new setting and what is shown *)
Definition toggleEnabled (enabled : bool) : bool * list notification :=
  let next := negb enabled in
  (next, [updateStatusBar (if next then StReady else StDisabled) None;
          ShownInfo (if next then "VGuardrail enabled." else "VGuardrail disabled — prompts are no longer scanned.")]).

(** ** Lemmas *)

Section lemmas.
Context `{Zod} {T : Type} `{EventLoop T} (tr : Transport T) (uuid : nat -> string) (jitter : nat -> Z).
Context (app : IdeApp) (identity : ConnectorIdentity) (choose : string -> reply (option string)).
Context (onDecision : InterceptOutcome -> list notification).

(** The agent answered the scan of this text in this context with [d]. *)
Definition ide_agent_said (txt : string) (ctx : EditorPromptContext) (d : Decision) : Prop :=
  exists u t v u',
    t_request tr Method.SubmitScan (encodeScanRequest (ide_buildRequest app identity txt ctx)) u = (Settles t (Ok v), u') /\
    decodeDecision v = Some d.

(** The decision lets the prompt pass, with the user's consent where that is needed. *)
Definition ide_permitted (d : Decision) : Prop :=
  action d = Allow \/ (action d = Warn /\ riskLevel d = Low) \/
  (action d = Warn /\ riskLevel d = Medium /\ exists t, choose (warnMessage d) = Settles t (Ok (Some PROCEED_ACTION))).

(** Notifications are only added. *)
Definition adds_shown (s s' : ide T) : Prop := exists out, shown s' = shown s ++ out.

Lemma adds_refl s : adds_shown s s.
Proof. exists []. by rewrite app_nil_r. Qed.

Lemma adds_trans s1 s2 s3 : adds_shown s1 s2 -> adds_shown s2 s3 -> adds_shown s1 s3.
Proof. intros [o E] [o' E']. exists (o ++ o'). by rewrite E', E, app_assoc. Qed.

Lemma acknowledge_keeps rid b s : yields (ide_acknowledge tr jitter rid b) s (fun r s' => r = Ok tt /\ shown s' = shown s).
Proof.
  unfold ide_acknowledge. apply yields_catch, yields_bind. unfold yields at 1, service_acknowledgeWarning, on_service.
  destruct (acknowledgeWarning _ _ _ _ _ _ _) as [[t [a|e]|] c]; [done|done|done].
Qed.

Lemma resolve_yields r s :
  yields (resolve tr jitter choose r) s (fun x s' =>
    match x with
    | Ok o => response o = r /\ adds_shown s s' /\
        (allowed o = true -> fromFallback r = false /\ ide_permitted (decision r)) /\
        (allowed o = false -> (exists m, ShownError m ∈ shown s') \/
           exists t c, choose (warnMessage (decision r)) = Settles t (Ok c) /\ c <> Some PROCEED_ACTION)
    | Err e => exists t, choose (warnMessage (decision r)) = Settles t (Err e)
    end).
Proof.
  assert (forall n, adds_shown s (mkIde (ide_client s) (shown s ++ [n]))) as Hadd by (intros n; by exists [n]).
  assert (forall n : notification, n ∈ shown s ++ [n]) as Hin by (intros n; apply elem_of_app; right; by left).
  unfold resolve. destruct (fromFallback r) eqn:Ef.
  { apply yields_bind. unfold yields at 1, show, modify. split_and!; [done|apply Hadd|done|]. intros _. left. eexists. apply Hin. }
  destruct (action (decision r)) eqn:Ea.
  - split_and!; [done|apply adds_refl| |done]. intros _. split; [done|]. by left.
  - unfold resolveWarn. destruct (riskLevel (decision r)) eqn:Er; cbn [warnTier].
    + apply yields_bind. unfold yields at 1, show, modify. apply yields_bind.
      eapply yields_impl; [|apply acknowledge_keeps]. intros x s' [-> Hs]. split_and!; [done| | |done].
      * exists [ShownWarning (warnMessage (decision r)) []]. by rewrite Hs.
      * intros _. split; [done|]. right. by left.
    + apply yields_bind. unfold yields at 1, show, modify. apply yields_bind. unfold yields at 1, ask.
      destruct (choose (warnMessage (decision r))) as [tc [c|e]|] eqn:Ec; [|by exists tc|done].
      apply yields_bind. eapply yields_impl; [|apply acknowledge_keeps]. intros x s' [-> Hs]. split_and!; [done| | |].
      * exists [ShownWarning (warnMessage (decision r)) [PROCEED_ACTION; CANCEL_ACTION]]. by rewrite Hs.
      * intros Hb. cbn [allowed] in Hb. bool_simpl. subst c. split; [done|]. right. right. split_and!; [done..|]. by exists tc.
      * intros Hb. cbn [allowed] in Hb. bool_simpl. right. by exists tc, c.
    + apply yields_bind. unfold yields at 1, show, modify. apply yields_bind.
      eapply yields_impl; [|apply acknowledge_keeps]. intros x s' [-> Hs]. split_and!; [done| |done|].
      * eexists. by rewrite Hs.
      * intros _. left. eexists. rewrite Hs. apply Hin.
    + apply yields_bind. unfold yields at 1, show, modify. apply yields_bind.
      eapply yields_impl; [|apply acknowledge_keeps]. intros x s' [-> Hs]. split_and!; [done| |done|].
      * eexists. by rewrite Hs.
      * intros _. left. eexists. rewrite Hs. apply Hin.
  - apply yields_bind. unfold yields at 1, show, modify. split_and!; [done|apply Hadd|done|]. intros _. left. eexists. apply Hin.
Qed.

Lemma service_scan_yields txt ctx s :
  yields (service_scan tr uuid jitter app identity txt ctx) s (fun x s' =>
    shown s' = shown s /\
    match x with
    | Ok r => fromFallback r = false -> ide_agent_said txt ctx (decision r)
    | Err _ => True
    end).
Proof.
  unfold yields, service_scan, on_service.
  pose proof (safeSubmit_outcome tr DEFAULT_TIMEOUT_MS (resolveRetry None) uuid jitter
    (encodeScanRequest (ide_buildRequest app identity txt ctx)) (Some Block) (ide_client s)) as Ho.
  unfold safeScan. destruct (safeSubmit tr _ _ uuid jitter _ (Some Block) (ide_client s)) as [[t [r|e]|] c]; [|done..].
  split; [done|]. intros Hf. destruct Ho as [(_ & _ & u & t' & v & u' & Hr & Hd)|[Hf' _]]; [|congruence].
  by exists u, t', v, u'.
Qed.

Lemma intercept_yields txt ctx s :
  yields (intercept tr uuid jitter app identity choose onDecision txt ctx) s (fun x s' =>
    match x with
    | Ok o =>
        (allowed o = true -> fromFallback (response o) = false /\
           ide_agent_said txt ctx (decision (response o)) /\ ide_permitted (decision (response o))) /\
        (allowed o = false -> (exists m, ShownError m ∈ shown s') \/
           exists t c, choose (warnMessage (decision (response o))) = Settles t (Ok c) /\ c <> Some PROCEED_ACTION)
    | Err e => exists m t, choose m = Settles t (Err e)
    end).
Proof.
  unfold intercept. apply yields_bind, yields_catch. eapply yields_impl; [|apply service_scan_yields].
  assert (forall r s1, (fromFallback r = false -> ide_agent_said txt ctx (decision r)) ->
    yields (outcome ← resolve tr jitter choose r;
            _ ← modify (fun s => mkIde (ide_client s) (shown s ++ onDecision outcome)); mret outcome) s1 (fun x s' =>
    match x with
    | Ok o =>
        (allowed o = true -> fromFallback (response o) = false /\
           ide_agent_said txt ctx (decision (response o)) /\ ide_permitted (decision (response o))) /\
        (allowed o = false -> (exists m, ShownError m ∈ shown s') \/
           exists t c, choose (warnMessage (decision (response o))) = Settles t (Ok c) /\ c <> Some PROCEED_ACTION)
    | Err e => exists m t, choose m = Settles t (Err e)
    end)) as Hres.
  { intros r s1 Hr. apply yields_bind. eapply yields_impl; [|apply resolve_yields]. intros [o|e] s2.
    - intros (Ho & _ & Ht & Hf). apply yields_bind. unfold yields at 1, modify. split; rewrite Ho.
      + intros Ha. destruct (Ht Ha) as [H1 H2]. auto.
      + intros Ha. destruct (Hf Ha) as [[m Hm]|Hc]; [left|by right]. exists m. cbn [shown]. apply elem_of_app. by left.
    - intros [t Ht]. by exists (warnMessage (decision r)), t. }
  intros [r|e] s1 [_ Hx]; [by apply Hres|].
  apply yields_bind. unfold yields at 1, on_service, randomUUID. apply Hres. done.
Qed.
End lemmas.

(** ** Properties *)


(** What [scanSelection] submits: the selection, or a document below the cap, and nothing blank. *)
Lemma scanSelection_spec enabled workspace d selection txt ctx :
  scanSelection enabled workspace (Some (d, selection)) = ScanThis txt ctx ->
  enabled = true /\ js_trim txt <> "" /\ ctx = contextFromDocument workspace d /\
  (selection <> "" /\ txt = selection \/ selection = "" /\ txt = doc_text d /\ byteLength txt <= MAX_DOCUMENT_BYTES).
Proof.
  unfold scanSelection. destruct enabled; [|done]. cbn [negb].
  destruct (is_empty selection) eqn:Es; cbn [andb].
  - destruct (_ <? _) eqn:El; [done|]. destruct (is_empty (js_trim (doc_text d))) eqn:Et; [done|]. intros [= <- <-]. bool_simpl.
    split_and!; [done|by destruct (js_trim _)|done|]. right. split_and!; [by destruct selection|done|lia].
  - destruct (is_empty (js_trim selection)) eqn:Et; [done|]. intros [= <- <-].
    split_and!; [done|by destruct (js_trim _)|done|]. left. by destruct selection.
Qed.

Lemma label_total c : exists l, obj_get (wire (A := Category) c) CATEGORY_LABELS = Some l.
Proof. destruct c; by eexists. Qed.

(** ** Examples *)

Definition sample_editor : EditorPromptContext := mkEditorContext (Some "/w/Dockerfile") None (Some "dockerfile") (Some "acme").

Definition run_intercept (m : MockState) (choose : string -> reply (option string)) : reply InterceptOutcome * ide MockState :=
  intercept MockTransport (fun _ => "u") (fun _ => 0) Cursor (mkUser "ana" RoleUser []) choose statusFromOutcome
    "hello" sample_editor (mkIde (fresh_client m) []).

Example intercept_allowed :
  match run_intercept mock_allow (fun _ => Hangs) with
  | (Settles _ (Ok o), s) => allowed o = true /\ shown s = [updateStatusBar StAllow (Some (reason (decision (response o))))]
  | _ => False
  end.
Proof. vm_compute. split; reflexivity. Qed.

Example intercept_no_agent :
  match run_intercept (hang Method.SubmitScan mock_allow) (fun _ => Hangs) with
  | (Settles _ (Ok o), s) => allowed o = false /\ head (shown s) = Some (ShownError ENGINE_UNAVAILABLE_MESSAGE)
  | _ => False
  end.
Proof. vm_compute. split; reflexivity. Qed.

