(* ===== verification/IdePassive.v ===== *)
(** * Passive paste scanning in the editor

    [ide-connectors/vscode/src/passive-scan.ts] as an event-driven state machine.  The events are a change
    of a document, the firing of a debounce timer, the settling of a scan, and disposal.  A timer fires
    only while it has not been cleared; a scan in flight settles with any response or an error.

    [p_accepted], [p_scans] and [p_log] record what happened, for the specification: the pastes taken, the
    texts handed to the scanner, and the notifications with the scans that succeeded. *)

From S2P Require Import Prelude Json Enums Decision ScanRequest CliInput IdeVscode.

Definition PASTE_THRESHOLD_CHARS : Z := 200.
Definition DEFAULT_DEBOUNCE_MS : Z := 750.
Definition PASSIVE_ENGINE_DOWN_MESSAGE : string :=
  "VGuardrail: policy engine unavailable — passive paste scanning is degraded".

Record PassiveDocument := mkPassiveDocument {
  pd_uri : string;
  pd_scheme : string;
  pd_byteLength : Z;
  pd_context : EditorPromptContext
}.

Definition SCANNABLE_SCHEMES : list string := ["file"; "untitled"].

Record PendingScan := mkPending { ps_ctx : EditorPromptContext; ps_text : string; ps_timer : nat }.

Definition passiveMessage (r : ScanResponse) : option string :=
  let d := decision r in
  match action d with
  | Warn => Some ("Pasted content — " +:+ warnMessage d)
  | Block => Some ("Pasted content — " +:+ blockMessage d)
  | Allow => None
  end.

Inductive passive_note := NotedDown | NotedMessage (m : string) | Succeeded.

Record passive := mkPassive {
  p_pending : gmap string PendingScan;
  p_timers : gmap nat string;                (* the timers that can still fire, and the document each flushes *)
  p_nextTimer : nat;
  p_flight : gmap nat (string * string);     (* the scans in flight *)
  p_nextScan : nat;
  p_engineDownNotified : bool;
  p_disposed : bool;
  p_accepted : list (string * string);
  p_scans : list (string * string);
  p_log : list passive_note
}.

Definition passive_init : passive := mkPassive ∅ ∅ 0 ∅ 0 false false [] [] [].

Definition accepts (enabled : bool) (d : PassiveDocument) (p : passive) : bool :=
  negb (p_disposed p) && enabled && bool_decide (pd_scheme d ∈ SCANNABLE_SCHEMES) && (pd_byteLength d <=? MAX_DOCUMENT_BYTES).

Definition pasted_texts (insertedTexts : list string) : list string :=
  filter (fun t => PASTE_THRESHOLD_CHARS < strlen t) insertedTexts.

(** [handleChange]; [enabled] is the value of [isEnabled()]. *)
Definition handleChange (enabled : bool) (d : PassiveDocument) (insertedTexts : list string) (p : passive) : passive :=
  if negb (accepts enabled d p) then p
  else
    match pasted_texts insertedTexts with
    | [] => p
    | pasted =>
        let existing := p_pending p !! pd_uri d in
        let cleared := match existing with Some e => delete (ps_timer e) (p_timers p) | None => p_timers p end in
        let txt := js_join newline (match existing with Some e => ps_text e :: pasted | None => pasted end) in
        let timer := p_nextTimer p in
        mkPassive (<[pd_uri d := mkPending (pd_context d) txt timer]> (p_pending p))
          (<[timer := pd_uri d]> cleared) (S timer) (p_flight p) (p_nextScan p) (p_engineDownNotified p) (p_disposed p)
          (p_accepted p ++ map (pair (pd_uri d)) pasted) (p_scans p) (p_log p)
    end.

(** [clearTimeout] of the timer of every pending entry *)
Definition clear_all (pending : gmap string PendingScan) (timers : gmap nat string) : gmap nat string :=
  map_fold (fun _ e ts => delete (ps_timer e) ts) timers pending.

Definition dispose (p : passive) : passive :=
  mkPassive ∅ (clear_all (p_pending p) (p_timers p)) (p_nextTimer p) (p_flight p) (p_nextScan p) (p_engineDownNotified p) true
    (p_accepted p) (p_scans p) (p_log p).

(** [flush] up to the [await] *)
Definition flush (uri : string) (p : passive) : passive :=
  let rest := delete uri (p_pending p) in
  match p_pending p !! uri, p_disposed p with
  | Some e, false =>
      mkPassive rest (p_timers p) (p_nextTimer p) (<[p_nextScan p := (uri, ps_text e)]> (p_flight p)) (S (p_nextScan p))
        (p_engineDownNotified p) (p_disposed p) (p_accepted p) (p_scans p ++ [(uri, ps_text e)]) (p_log p)
  | _, _ =>
      mkPassive rest (p_timers p) (p_nextTimer p) (p_flight p) (p_nextScan p) (p_engineDownNotified p) (p_disposed p)
        (p_accepted p) (p_scans p) (p_log p)
  end.

(** A timer fires: it is no longer there, and its document is flushed. *)
Definition fire (n : nat) (p : passive) : passive :=
  match p_timers p !! n with
  | Some uri =>
      flush uri (mkPassive (p_pending p) (delete n (p_timers p)) (p_nextTimer p) (p_flight p) (p_nextScan p)
        (p_engineDownNotified p) (p_disposed p) (p_accepted p) (p_scans p) (p_log p))
  | None => p
  end.

Definition noted (down : bool) (notes : list passive_note) (p : passive) : passive :=
  mkPassive (p_pending p) (p_timers p) (p_nextTimer p) (p_flight p) (p_nextScan p) down (p_disposed p)
    (p_accepted p) (p_scans p) (p_log p ++ notes).

Definition reportEngineDown (p : passive) : passive :=
  if p_engineDownNotified p then p else noted true [NotedDown] p.

(** [flush] after the [await]; [None]: the scan was rejected. *)
Definition scan_settled (k : nat) (r : option ScanResponse) (p : passive) : passive :=
  let p := mkPassive (p_pending p) (p_timers p) (p_nextTimer p) (delete k (p_flight p)) (p_nextScan p)
             (p_engineDownNotified p) (p_disposed p) (p_accepted p) (p_scans p) (p_log p) in
  match r with
  | None => reportEngineDown p
  | Some r =>
      if fromFallback r then reportEngineDown p
      else noted false (Succeeded :: match passiveMessage r with Some m => [NotedMessage m] | None => [] end) p
  end.

(** [isPassiveScanEnabled], from the two settings *)
Definition isPassiveScanEnabled (enabled passiveScan : bool) : bool := enabled && passiveScan.

(** The listener of [extension.ts] on document changes, with the texts inserted *)
Definition onDidChangeTextDocument (enabled passiveScan : bool) (workspace : option string) (uri : string) (d : TextDocument)
    (contentChanges : list string) (p : passive) : passive :=
  match contentChanges with
  | [] => p
  | _ =>
      handleChange (isPassiveScanEnabled enabled passiveScan)
        (mkPassiveDocument uri (doc_scheme d) (byteLength (doc_text d)) (contextFromDocument workspace d)) contentChanges p
  end.

(** ** Events *)

Inductive passive_event :=
| PChange (enabled : bool) (d : PassiveDocument) (insertedTexts : list string)
| PTimer (n : nat)
| PScan (k : nat) (r : option ScanResponse)
| PDispose.

Definition passive_handle (ev : passive_event) (p : passive) : passive :=
  match ev with
  | PChange enabled d ts => handleChange enabled d ts p
  | PTimer n => fire n p
  | PScan k r => scan_settled k r p
  | PDispose => dispose p
  end.

(** Only a live timer fires, only a scan in flight settles. *)
Definition passive_enabled (ev : passive_event) (p : passive) : Prop :=
  match ev with
  | PTimer n => is_Some (p_timers p !! n)
  | PScan k _ => is_Some (p_flight p !! k)
  | _ => True
  end.

Definition passive_step (p : passive) (ev : passive_event) (p' : passive) : Prop :=
  passive_enabled ev p /\ p' = passive_handle ev p.

(** ** Specification *)

Definition of_uri (uri : string) (l : list (string * string)) : list string :=
  map snd (filter (fun ut => ut.1 = uri) l).

(** [texts] are the pastes in [pastes] joined, batch by batch. *)
Definition batched (pastes texts : list string) : Prop :=
  exists batches, pastes = List.concat batches /\ texts = map (js_join newline) batches /\ Forall (fun b => b <> []) batches.

(** The engine's failure is announced once until a scan succeeds; [down]: it was announced. *)
Fixpoint announced (down : bool) (l : list passive_note) : Prop :=
  match l with
  | [] => True
  | NotedDown :: l' => down = false /\ announced true l'
  | Succeeded :: l' => announced false l'
  | NotedMessage _ :: l' => announced down l'
  end.
Fixpoint announced_after (down : bool) (l : list passive_note) : bool :=
  match l with
  | [] => down
  | NotedDown :: l' => announced_after true l'
  | Succeeded :: l' => announced_after false l'
  | NotedMessage _ :: l' => announced_after down l'
  end.

(** A timer is live exactly when a document waits for it. *)
Definition owned (timers : gmap nat string) (pending : gmap string PendingScan) : Prop :=
  forall n uri, timers !! n = Some uri <-> exists e, pending !! uri = Some e /\ ps_timer e = n.

Record passive_inv (p : passive) : Prop := {
  pi_timers : owned (p_timers p) (p_pending p);
  pi_fresh : forall uri e, p_pending p !! uri = Some e -> (ps_timer e < p_nextTimer p)%nat;
  (** every paste taken is in exactly one scan, or waits; after disposal some are dropped *)
  pi_batches : p_disposed p = false -> forall uri,
    batched (of_uri uri (p_accepted p))
      (of_uri uri (p_scans p) ++ match p_pending p !! uri with Some e => [ps_text e] | None => [] end);
  pi_disposed : p_disposed p = true -> p_pending p = ∅;
  pi_log : announced false (p_log p) /\ p_engineDownNotified p = announced_after false (p_log p);
  pi_long : forall uri t, (uri, t) ∈ p_accepted p -> PASTE_THRESHOLD_CHARS < strlen t
}.

(** ** Lemmas *)

Lemma clear_all_lookup pending timers n uri :
  clear_all pending timers !! n = Some uri <->
    timers !! n = Some uri /\ forall u e, pending !! u = Some e -> ps_timer e <> n.
Proof.
  unfold clear_all. revert n uri.
  apply (map_fold_weak_ind (fun ts m => forall n uri, ts !! n = Some uri <->
    timers !! n = Some uri /\ forall u e, m !! u = Some e -> ps_timer e <> n)).
  - intros n uri. setoid_rewrite lookup_empty. naive_solver.
  - intros u e m ts Hu IH n uri. rewrite lookup_delete_Some, IH. split.
    + intros (Hn & Ht & Hm). split; [done|]. intros u' e' [[<- <-]|[_ He]]%lookup_insert_Some; eauto.
    + intros (Ht & Hm). split_and!; [apply (Hm u); by rewrite lookup_insert_eq|done|].
      intros u' e' He. apply (Hm u'). rewrite lookup_insert_ne; [done|]. intros ->. congruence.
Qed.

Lemma of_uri_app uri l l' : of_uri uri (l ++ l') = of_uri uri l ++ of_uri uri l'.
Proof. unfold of_uri. by rewrite filter_app, map_app. Qed.

Lemma of_uri_same uri ts : of_uri uri (map (pair uri) ts) = ts.
Proof.
  unfold of_uri. induction ts as [|t ts IH]; [done|]. cbn [map]. rewrite filter_cons_True by done. cbn [map snd].
  by rewrite IH.
Qed.

Lemma of_uri_other uri uri' ts : uri <> uri' -> of_uri uri (map (pair uri') ts) = [].
Proof.
  intros Hne. unfold of_uri. induction ts as [|t ts IH]; [done|]. cbn [map]. rewrite filter_cons_False; [done|].
  cbn. congruence.
Qed.

Lemma batched_snoc pastes texts b :
  batched pastes texts -> b <> [] -> batched (pastes ++ b) (texts ++ [js_join newline b]).
Proof.
  intros (bs & -> & -> & Hne) Hb. exists (bs ++ [b]). rewrite List.concat_app, map_app. cbn. rewrite app_nil_r.
  split_and!; [done..|]. apply Forall_app. split; [done|]. by constructor.
Qed.

Lemma js_join_nest sep b ts : b <> [] -> ts <> [] -> js_join sep (js_join sep b :: ts) = js_join sep (b ++ ts).
Proof.
  intros Hb Hts. destruct ts as [|t ts]; [done|]. clear Hts. induction b as [|x [|y b] IH]; [done|done|].
  specialize (IH ltac:(done)). cbn in *. rewrite <- IH. by rewrite ?append_assoc.
Qed.

(** A waiting text that grows stays one batch. *)
Lemma batched_grow pastes texts t b :
  batched pastes (texts ++ [t]) -> b <> [] -> batched (pastes ++ b) (texts ++ [js_join newline (t :: b)]).
Proof.
  intros (bs & -> & Heq & Hne) Hb. destruct bs as [|z bs' _] using rev_ind; [by apply app_nil in Heq as []|].
  rewrite map_app in Heq. apply app_inj_tail in Heq as [-> ->].
  apply Forall_app in Hne as [Hne [Hz _]%Forall_cons].
  rewrite js_join_nest by done. exists (bs' ++ [z ++ b]).
  rewrite !List.concat_app, map_app. cbn. rewrite !app_nil_r, <- app_assoc. split_and!; [done..|].
  apply Forall_app. split; [done|]. constructor; [|done]. by destruct z.
Qed.

Lemma announced_app down l l' :
  announced down (l ++ l') <-> announced down l /\ announced (announced_after down l) l'.
Proof. revert down. induction l as [|[| |] l IH]; intros down; cbn; [naive_solver|..]; rewrite ?IH; tauto. Qed.

Lemma announced_after_app down l l' :
  announced_after down (l ++ l') = announced_after (announced_after down l) l'.
Proof. revert down. induction l as [|[| |] l IH]; intros down; cbn; auto. Qed.

Lemma owned_clear timers pending uri e :
  owned timers pending -> pending !! uri = Some e -> owned (delete (ps_timer e) timers) (delete uri pending).
Proof.
  intros Ho He n u. rewrite lookup_delete_Some, (Ho n u). setoid_rewrite lookup_delete_Some.
  assert (timers !! ps_timer e = Some uri) as He' by (apply Ho; eauto). split.
  - intros (Hn & e' & Hu & <-). exists e'. split_and!; [intros ->; congruence|done..].
  - intros (e' & [Hn Hu] & <-). split; [|eauto]. intros Heq.
    assert (timers !! ps_timer e' = Some u) as Hu' by (apply Ho; eauto). congruence.
Qed.

Lemma owned_start timers pending uri e :
  owned timers pending -> pending !! uri = None -> timers !! ps_timer e = None ->
  owned (<[ps_timer e := uri]> timers) (<[uri := e]> pending).
Proof.
  intros Ho Hu Hn n u. rewrite lookup_insert_Some, (Ho n u). setoid_rewrite lookup_insert_Some. split.
  - intros [[<- <-]|(Hne & e' & He' & <-)]; [eauto|]. exists e'. split; [|done]. right.
    split; [intros ->; congruence|done].
  - intros (e' & [[<- <-]|[Hne He']] & <-); [by left|]. right. split; [|eauto]. intros Heq.
    assert (timers !! ps_timer e' = Some u) by (apply Ho; eauto). congruence.
Qed.

Lemma owned_restart timers pending uri e (next : nat) :
  owned timers pending -> (forall u e, pending !! u = Some e -> (ps_timer e < next)%nat) -> ps_timer e = next ->
  owned (<[next := uri]> match pending !! uri with Some e => delete (ps_timer e) timers | None => timers end)
    (<[uri := e]> pending).
Proof.
  intros Ho Hf <-. assert (timers !! ps_timer e = None) as Hn.
  { apply eq_None_not_Some. intros [u Hu]. apply Ho in Hu as (e' & Hu & Heq). apply Hf in Hu. lia. }
  destruct (pending !! uri) as [e0|] eqn:He; [|by apply owned_start].
  rewrite <- (insert_delete_eq pending uri e). apply owned_start; [by apply owned_clear|apply lookup_delete_eq|].
  by apply lookup_delete_None; right.
Qed.

Ltac passive_simpl :=
  cbn [p_pending p_timers p_nextTimer p_flight p_nextScan p_engineDownNotified p_disposed p_accepted p_scans p_log].

Lemma passive_init_inv : passive_inv passive_init.
Proof.
  split; cbn; try done.
  - intros n uri. rewrite lookup_empty. setoid_rewrite lookup_empty. naive_solver.
  - intros _ uri. rewrite lookup_empty. by exists [].
  - intros uri t []%not_elem_of_nil.
Qed.

Lemma handleChange_inv enabled d ts p : passive_inv p -> passive_inv (handleChange enabled d ts p).
Proof.
  intros [Ht Hf Hb Hd Hl Hg]. unfold handleChange.
  destruct (accepts enabled d p) eqn:Ha; cbn [negb]; [|done].
  destruct (pasted_texts ts) as [|b0 bs] eqn:Hp; [done|]. set (b := b0 :: bs) in *.
  assert (p_disposed p = false) as Hlive by (unfold accepts in Ha; by destruct (p_disposed p)).
  assert (b <> []) as Hne by done. clearbody b. split; passive_simpl.
  - by apply owned_restart.
  - intros uri e [[<- <-]|[_ He%Hf]]%lookup_insert_Some; cbn; lia.
  - intros _ uri. specialize (Hb Hlive uri). rewrite of_uri_app.
    destruct (decide (uri = pd_uri d)) as [->|Hn].
    + rewrite of_uri_same, lookup_insert_eq. cbn [ps_text].
      destruct (p_pending p !! pd_uri d); [by apply batched_grow|]. rewrite app_nil_r in Hb. by apply batched_snoc.
    + by rewrite of_uri_other, app_nil_r, lookup_insert_ne.
  - congruence.
  - done.
  - intros uri t [?|(t' & [= -> ->] & Hin)%list_elem_of_fmap]%elem_of_app; [eauto|].
    rewrite <- Hp in Hin. by apply list_elem_of_filter in Hin as [].
Qed.

Lemma dispose_inv p : passive_inv p -> passive_inv (dispose p).
Proof.
  intros [Ht Hf Hb Hd Hl Hg]. unfold dispose. split; passive_simpl; try done.
  intros n uri. rewrite clear_all_lookup, (Ht n uri). setoid_rewrite lookup_empty. split; [|naive_solver].
  intros [(e & He & Hn) Hno]. by destruct (Hno uri e He).
Qed.

Lemma fire_inv n p : passive_inv p -> passive_inv (fire n p).
Proof.
  intros [Ht Hf Hb Hd Hl Hg]. unfold fire, flush. destruct (p_timers p !! n) as [uri|] eqn:Hn; [|done].
  apply Ht in Hn as (e & He & <-). passive_simpl. rewrite He.
  assert (p_disposed p = false) as Hlive.
  { destruct (p_disposed p); [|done]. rewrite Hd, lookup_empty in He by done. done. }
  rewrite Hlive. split; passive_simpl; try done.
  - by apply owned_clear.
  - intros u e' [_ ?%Hf]%lookup_delete_Some. done.
  - intros _ u. specialize (Hb Hlive u). rewrite of_uri_app. change [(uri, ps_text e)] with (map (pair uri) [ps_text e]).
    destruct (decide (u = uri)) as [->|Hne].
    + by rewrite of_uri_same, lookup_delete_eq, app_nil_r, He in *.
    + by rewrite of_uri_other, app_nil_r, lookup_delete_ne.
Qed.

Lemma scan_settled_inv k r p : passive_inv p -> passive_inv (scan_settled k r p).
Proof.
  intros [Ht Hf Hb Hd [Hl Ha] Hg]. unfold scan_settled, reportEngineDown. passive_simpl.
  assert (forall down notes, announced (p_engineDownNotified p) notes ->
    down = announced_after (p_engineDownNotified p) notes ->
    passive_inv (noted down notes (mkPassive (p_pending p) (p_timers p) (p_nextTimer p) (delete k (p_flight p)) (p_nextScan p)
      (p_engineDownNotified p) (p_disposed p) (p_accepted p) (p_scans p) (p_log p)))) as Hnote.
  { intros down notes Hn ->. rewrite Ha in Hn |- *. unfold noted. split; passive_simpl; try done.
    by rewrite announced_app, announced_after_app. }
  assert (forall p', p_engineDownNotified p' = p_engineDownNotified p -> noted (p_engineDownNotified p) [] p' = p') as Hsame.
  { intros [] <-. unfold noted. passive_simpl. by rewrite app_nil_r. }
  destruct r as [r|]; [destruct (fromFallback r)|]; [|destruct (passiveMessage r); by apply Hnote|];
    (destruct (p_engineDownNotified p); [rewrite <- Hsame by done|]; by apply Hnote).
Qed.

Lemma passive_reachable_inv p evs p' : passive_inv p -> rtc_trace passive_step p evs p' -> passive_inv p'.
Proof.
  apply rtc_trace_invariant. intros a [enabled d ts|n|k r|] b Ha [_ ->]; cbn [passive_handle];
    auto using handleChange_inv, fire_inv, scan_settled_inv, dispose_inv.
Qed.

Lemma no_timers_no_pending p : passive_inv p -> p_timers p = ∅ -> p_pending p = ∅.
Proof.
  intros [Ht _ _ _ _ _] He. apply map_empty. intros uri. apply eq_None_not_Some. intros [e Hu].
  assert (p_timers p !! ps_timer e = Some uri) as Hn by (apply Ht; eauto). by rewrite He, lookup_empty in Hn.
Qed.

(** Whatever changes, timers, scan results and disposal come in whatever order, the paste monitor hands
    every paste it took to the scanner exactly once: per document, the pastes over the threshold are, in
    order, split into the batches that were scanned, and the rest is the waiting text; a document waits
    exactly while one live timer will flush it, so when no timer is left (and the controller was not
    disposed) all were scanned.  A disposed controller has no timer left and will start no scan.  An outage of
    the engine is announced once until a scan succeeds. *)
Theorem pastes_scanned_once evs p :
  rtc_trace passive_step passive_init evs p ->
  (p_disposed p = false -> forall uri,
     batched (of_uri uri (p_accepted p))
       (of_uri uri (p_scans p) ++ match p_pending p !! uri with Some e => [ps_text e] | None => [] end) /\
     (p_timers p = ∅ -> batched (of_uri uri (p_accepted p)) (of_uri uri (p_scans p)))) /\
  owned (p_timers p) (p_pending p) /\
  (p_disposed p = true -> p_timers p = ∅ /\ forall n, fire n p = p) /\
  announced false (p_log p) /\
  (forall uri t, (uri, t) ∈ p_accepted p -> PASTE_THRESHOLD_CHARS < strlen t).
Proof.
  intros Hrun. pose proof (passive_reachable_inv _ _ _ passive_init_inv Hrun) as Hinv.
  pose proof (no_timers_no_pending _ Hinv) as Hempty. destruct Hinv as [Ht Hf Hb Hd [Hl _] Hg].
  split_and!; [|done| |done..].
  - intros Hlive uri. split; [by apply Hb|]. intros Hno. specialize (Hb Hlive uri).
    by rewrite Hempty, lookup_empty, app_nil_r in Hb.
  - intros Hdisp. assert (p_timers p = ∅) as He; [|split; [done|]; intros n; unfold fire; by rewrite He, lookup_empty].
    apply map_empty. intros n. apply eq_None_not_Some. intros [uri (e & He & _)%Ht].
    by rewrite Hd, lookup_empty in He.
Qed.

(** *** A run: two pastes in the quiet window, one scan, an outage, another scan *)

Definition passive_ctx : EditorPromptContext := mkEditorContext None None None None.
Definition passive_doc : PassiveDocument := mkPassiveDocument "file:///a.ts" "file" 1000 passive_ctx.
Definition long_paste (a : ascii) : string := string_of_list_ascii (repeat a 201).

Definition passive_run : list passive_event :=
  [PChange true passive_doc [long_paste "a"; "short"]; PChange true passive_doc [long_paste "b"]; PTimer 1;
   PChange true passive_doc [long_paste "c"]; PScan 0 None; PTimer 2; PScan 1 None].

Lemma pastes_scanned_once_witness :
  let p := fold_left (fun p ev => passive_handle ev p) passive_run passive_init in
  p_log p = [NotedDown] /\
  p_scans p = [("file:///a.ts", js_join newline [long_paste "a"; long_paste "b"]); ("file:///a.ts", long_paste "c")] /\
  batched (of_uri "file:///a.ts" (p_accepted p)) (of_uri "file:///a.ts" (p_scans p)).
Proof.
  split; [vm_compute; reflexivity|]. split; [vm_compute; reflexivity|].
  refine (proj2 (proj1 (pastes_scanned_once passive_run _ _) _ _) _); [|vm_compute; reflexivity..].
  apply (along_trace passive_enabled passive_handle); [by split|].
  apply (bool_decide_unpack _). vm_compute. exact I.
Defined.
