(* ===== verification/IdeBridge.v ===== *)
(** * The JetBrains bridge, and the Cursor connector

    [ide-connectors/jetbrains/bridge/src]: [handler.ts] and [index.ts], the process the plugin starts for
    one request: a line of JSON in, a line of JSON out.  Stdin is an argument: the chunks with the time
    each takes to come, and whether the stream then ends, fails or stays open; the agent is behind the client's transport.  [identity.ts] is the
    host's ([NativeHost.loadIdentity]), and its result is an argument.

    [ide-connectors/cursor/src]: [sdk-client.ts] and [interceptor.ts], which, like the older wrapper
    ([CliShared]), hand the client an object that is not a scan request. *)

From S2P Require Import Prelude Json JsonText Zod Enums Decision ScanRequest AuditEvent Resilience Framing Transport Client NativeHost CliFiles CliInput CliConnector CliShared.

(** ** [handler.ts] *)

Definition SOURCES : list string := ["browser"; "ide"; "cli"; "api"].

(** [JSON.stringify] of a [BridgeDecision]: the spread decision, then [fromFallback] *)
Definition bridge_json (d : Decision) (fromFallback : bool) : json :=
  JObj (match decision_json d with JObj o => o | _ => [] end ++ [("fromFallback", JBool fromFallback)]).

Definition to_line (v : json) : string := of_chars (print_json v).

(** [None]: [undefined] *)
Definition asRecord (v : option json) : option json :=
  match v with Some (JObj o) => Some (JObj o) | _ => None end.

Definition asNonEmptyString (v : option json) : option string :=
  match v with Some (JStr s) => if is_empty s then None else Some s | _ => None end.

Definition normalize_source (rawContext : json) : Source :=
  match asNonEmptyString (json_get "source" rawContext) with
  | Some s => if bool_decide (s ∈ SOURCES) then default SrcIde (of_wire s) else SrcIde
  | None => SrcIde
  end.

Definition normalize_file (rawContext : json) : option FileContext :=
  f ← asRecord (json_get "file" rawContext);
  filePath ← asNonEmptyString (json_get "path" f);
  let extension :=
    match asNonEmptyString (json_get "fileExtension" f) with
    | Some e => Some e
    | None => asNonEmptyString (json_get "extension" f)
    end in
  Some (mkFile filePath extension).

Definition normalizeScan (raw : json) (identity : ConnectorIdentity) : option ScanRequest :=
  match json_get "text" raw with
  | Some (JStr txt) =>
      if is_empty txt then None
      else
        let rawContext := default (JObj []) (asRecord (json_get "context" raw)) in
        let str k := asNonEmptyString (json_get k rawContext) in
        Some (mkScanRequest txt
          {| source := Some (normalize_source rawContext);
             provider := str "provider";
             model := str "model";
             app := Some (default "jetbrains" (str "app"));
             repo := (fun name => mkRepo name None) <$>
                       (asRecord (json_get "repo" rawContext) ≫= fun r => asNonEmptyString (json_get "name" r));
             file := normalize_file rawContext;
             user := identity |})
  | _ => None
  end.

Definition normalizeAck (raw : json) : option (string * bool) :=
  ack ← asRecord (json_get "acknowledge" raw);
  eventId ← asNonEmptyString (json_get "eventId" ack);
  match json_get "accepted" ack with Some (JBool accepted) => Some (eventId, accepted) | _ => None end.

Definition ack_reply (acknowledged : bool) : string := to_line (JObj [("acknowledged", JBool acknowledged)]).

Section handler.
Context `{Zod} {T : Type} `{EventLoop T} (tr : Transport T) (timeoutMs : Z) (retry : ResolvedRetry) (uuid : nat -> string) (jitter : nat -> Z).
Context (identity : ConnectorIdentity).

Abbreviation call := (async (client T)).

Definition failClosed (reason : string) : call string :=
  requestId ← randomUUID uuid;
  mret (to_line (bridge_json (syntheticDecision requestId Block reason None None) true)).

Definition handle_ack (raw : json) : call string :=
  match normalizeAck raw with
  | None => mret (ack_reply false)
  | Some (eventId, accepted) =>
      try_catch
        (acknowledged ← acknowledgeWarning tr timeoutMs retry jitter eventId accepted; mret (ack_reply acknowledged))
        (fun _ => mret (ack_reply false))
  end.

Definition handle_scan (request : ScanRequest) : call string :=
  try_catch
    (res ← safeScan tr timeoutMs retry uuid jitter request (Some Block);
     mret (to_line (bridge_json (decision res) (fromFallback res))))
    (fun _ => failClosed "connector error; fail-closed block").

Definition handleLine (line : string) : call string :=
  match parse_json (to_chars line) with
  | None => failClosed "malformed bridge request: not valid JSON; fail-closed block"
  | Some parsed =>
      match asRecord (Some parsed) with
      | None => failClosed "malformed bridge request: expected a JSON object; fail-closed block"
      | Some raw =>
          match json_get "acknowledge" raw with
          | Some _ => handle_ack raw
          | None =>
              match normalizeScan raw identity with
              | None => failClosed "malformed bridge request: missing prompt text; fail-closed block"
              | Some request => handle_scan request
              end
          end
      end
  end.
End handler.

(** [identity.ts] is the host's, word for word. *)
Definition bridge_loadIdentity `{JsonCodec} : option string -> option chars -> ConnectorIdentity := loadIdentity.

(** ** [index.ts] *)

(** [s.slice(0, s.indexOf('\n'))], when there is a newline *)
Fixpoint before_newline (s : chars) : option chars :=
  match s with
  | [] => None
  | c :: s' => if code c =? 10 then Some [] else cons c <$> before_newline s'
  end.

(** How stdin goes on after its last chunk: it ends or fails after some milliseconds, or stays open. *)
Inductive stdin_end :=
| StdinEnds (after : Z)
| StdinFails (after : Z) (e : error)
| StdinOpen.

(** The [for await] loop: the chunks to come, each with the milliseconds until it does. *)
Fixpoint readFirstLine_go (buffered : chars) (chunks : list (Z * chars)) (ending : stdin_end) : reply chars :=
  match chunks with
  | [] =>
      match ending with
      | StdinEnds after => Settles after (Ok buffered)
      | StdinFails after e => Settles after (Err e)
      | StdinOpen => Hangs
      end
  | (after, chunk) :: rest =>
      delayed after
        (match before_newline (buffered ++ chunk) with
         | Some line => Settles 0 (Ok line)
         | None => readFirstLine_go (buffered ++ chunk) rest ending
         end)
  end.
Definition readFirstLine : list (Z * chars) -> stdin_end -> reply chars := readFirstLine_go [].

Record bridge (T : Type) := mkBridge {
  br_client : client T;
  br_stdout : list string;
  br_exits : list Z
}.
Arguments mkBridge {T} _ _ _.
Arguments br_client {T} _.
Arguments br_stdout {T} _.
Arguments br_exits {T} _.

Section main.
Context `{Zod} {T : Type} `{EventLoop T} (tr : Transport T) (timeoutMs : Z) (retry : ResolvedRetry) (uuid : nat -> string) (jitter : nat -> Z).
Context (identity : ConnectorIdentity) (chunks : list (Z * chars)) (ending : stdin_end).

Definition on_bridge {A} (m : async (client T) A) : async (bridge T) A := fun s =>
  let '(r, c) := m (br_client s) in (r, mkBridge c (br_stdout s) (br_exits s)).

Definition write_line (line : string) : async (bridge T) unit :=
  modify (fun s => mkBridge (br_client s) (br_stdout s ++ [line +:+ newline]) (br_exits s)).

Definition process_exit (code : Z) : async (bridge T) unit :=
  modify (fun s => mkBridge (br_client s) (br_stdout s) (br_exits s ++ [code])).

(** Wait for a promise that does not depend on the state. *)
Definition await {St A} (r : reply A) : async St A := fun s => (r, s).

(** [try { m } finally { k }]: how [m] settled is kept until [k] is done. *)
Definition finally {St A} (m : async St A) (k : async St unit) : async St A :=
  r ← try_catch (a ← m; mret (Ok a)) (fun e => mret (Err e));
  _ ← k;
  lift r.

Definition bridge_body : async (bridge T) unit :=
  finally
    (line ← await (readFirstLine chunks ending);
     reply ← on_bridge (handleLine tr timeoutMs retry uuid jitter identity (of_chars line));
     write_line reply)
    (try_catch (on_bridge (close tr)) (fun _ => mret tt)).

(** [main().then(...)] *)
Definition bridge_main : async (bridge T) unit :=
  ok ← try_catch (_ ← bridge_body; mret true) (fun _ => mret false);
  if (ok : bool) then process_exit 0
  else
    reply ← on_bridge (failClosed uuid "bridge error; fail-closed block");
    _ ← write_line reply;
    process_exit 0.
End main.

(** ** Specification: the plugin's side *)

(** What the plugin reads of a line: the action of a decision. *)
Definition line_json (line : string) : option json := parse_json (to_chars line).

Definition first_line (s : chars) : chars := default s (before_newline s).

(** The reply to a line: an acknowledgement when one was asked for; otherwise a block of the bridge's own, or
    the decision the agent gave for the request the line asks for. *)
Definition bridge_reply {T} `{Zod} (tr : Transport T) (identity : ConnectorIdentity) (line reply : string) : Prop :=
  (exists d, action d = Block /\ reply = to_line (bridge_json d true)) \/
  exists raw, parse_json (to_chars line) = Some (JObj raw) /\
    ((exists v b, json_get "acknowledge" (JObj raw) = Some v /\ reply = ack_reply b) \/
     (exists request d u t v u',
        json_get "acknowledge" (JObj raw) = None /\ normalizeScan (JObj raw) identity = Some request /\
        t_request tr Method.SubmitScan (encodeScanRequest request) u = (Settles t (Ok v), u') /\
        decodeDecision v = Some d /\ reply = to_line (bridge_json d false))).

(** ** Lemmas *)

(** *** The reply is one line *)

Definition no_newline (s : chars) : Prop := Forall (fun c => code c <> 10) s.

Lemma no_newline_app s s' : no_newline (s ++ s') <-> no_newline s /\ no_newline s'.
Proof. apply Forall_app. Qed.

Lemma no_newline_check s : forallb (fun c => negb (code c =? 10)) s = true -> no_newline s.
Proof. intros Hs. apply Forall_forall. intros c Hc. apply list_elem_of_In in Hc. pose proof (proj1 (forallb_forall _ _) Hs c Hc). cbn in *. lia. Qed.

Lemma code_digit n : 0 <= n < 10 -> code (chr (48 + n)) <> 10.
Proof. intros Hn. rewrite code_chr by lia. lia. Qed.

Lemma print_nat_go_line fuel n acc : no_newline acc -> no_newline (print_nat_go fuel n acc).
Proof.
  revert n acc. induction fuel as [|fuel IH]; intros n acc Ha; [done|]. cbn [print_nat_go].
  assert (no_newline (chr (48 + n mod 10) :: acc)) by (constructor; [apply code_digit; apply Z.mod_pos_bound; lia|done]).
  destruct (_ =? 0); auto.
Qed.

Lemma print_pad_line k n acc : no_newline acc -> no_newline (print_pad k n acc).
Proof.
  revert n acc. induction k as [|k IH]; intros n acc Ha; [done|]. cbn [print_pad]. apply IH.
  constructor; [apply code_digit; apply Z.mod_pos_bound; lia|done].
Qed.

Lemma print_num_line n : no_newline (print_num n).
Proof.
  assert (forall z, no_newline (if z <? 0 then ["-"%char] else [])) as Hs
    by (intros z; destruct (z <? 0); by apply no_newline_check).
  destruct n; unfold print_num; rewrite !no_newline_app; split_and!;
    first [apply Hs|apply print_nat_go_line; constructor|apply print_pad_line; constructor|by apply no_newline_check].
Qed.

Lemma esc_char_line c : no_newline (esc_char c).
Proof. apply no_newline_check. by destruct c as [[] [] [] [] [] [] [] []]. Qed.

Lemma print_str_line s : no_newline (print_str s).
Proof.
  unfold print_str. constructor; [done|]. apply no_newline_app. split; [|by apply no_newline_check].
  induction (to_chars s) as [|c l IH]; [constructor|]. cbn. apply no_newline_app. split; [apply esc_char_line|done].
Qed.

Lemma print_seq_line close l : code close <> 10 -> Forall no_newline l -> no_newline (print_seq close l).
Proof.
  intros Hc. induction 1 as [|x l Hx Hl IH]; [constructor|]. cbn. destruct l as [|y l].
  - apply no_newline_app. split; [done|]. by constructor.
  - apply no_newline_app. split; [done|]. by constructor.
Qed.

Lemma print_json_line v : no_newline (print_json v).
Proof.
  induction v as [|[]|n|s|l IH|o IH] using json_ind'; try by apply no_newline_check.
  - apply print_num_line.
  - apply print_str_line.
  - destruct l as [|x l]; [by apply no_newline_check|]. constructor; [done|]. apply print_seq_line; [done|].
    apply Forall_fmap. eapply Forall_impl; [apply IH|done].
  - destruct o as [|x o]; [by apply no_newline_check|]. constructor; [done|]. apply print_seq_line; [done|].
    apply Forall_fmap. eapply Forall_impl; [apply IH|]. intros [k v] Hv.
    apply no_newline_app. split; [apply print_str_line|]. by constructor.
Qed.

Lemma to_line_one v : no_newline (to_chars (to_line v)).
Proof. unfold to_line. rewrite to_of_chars. apply print_json_line. Qed.

(** *** The first line of stdin, however it is chunked *)

Lemma before_newline_app s s' :
  before_newline (s ++ s') = match before_newline s with Some l => Some l | None => Datatypes.app s <$> before_newline s' end.
Proof.
  induction s as [|c s IH]; [cbn; by destruct (before_newline s')|]. cbn. destruct (code c =? 10); [done|].
  rewrite IH. by destruct (before_newline s), (before_newline s').
Qed.

(** No time runs backwards. *)
Definition stdin_ok (chunks : list (Z * chars)) (ending : stdin_end) : Prop :=
  Forall (fun c => 0 <= c.1) chunks /\
  match ending with StdinEnds after | StdinFails after _ => 0 <= after | StdinOpen => True end.

(** What stdin comes to: the first line, however it is chunked; the rest without a newline when it ends; the error it
    fails with; nothing at all when it stays open. *)
Definition stdin_says (buffered : chars) (ending : stdin_end) : option (result error chars) :=
  match before_newline buffered, ending with
  | Some line, _ => Some (Ok line)
  | None, StdinEnds _ => Some (Ok buffered)
  | None, StdinFails _ e => Some (Err e)
  | None, StdinOpen => None
  end.

Lemma readFirstLine_go_spec buffered chunks ending :
  before_newline buffered = None -> stdin_ok chunks ending ->
  match stdin_says (buffered ++ List.concat (map snd chunks)) ending with
  | Some x => exists t, readFirstLine_go buffered chunks ending = Settles t x /\ 0 <= t
  | None => readFirstLine_go buffered chunks ending = Hangs
  end.
Proof.
  intros Hb [Hc He]. revert buffered Hb. induction Hc as [|[t c] chunks Ht Hc IH]; intros b Hb; cbn [readFirstLine_go map List.concat snd].
  - unfold stdin_says. rewrite app_nil_r, Hb. destruct ending; eauto.
  - rewrite app_assoc. cbn in Ht. destruct (before_newline (b ++ c)) as [l|] eqn:E.
    + unfold stdin_says. rewrite (before_newline_app (b ++ c)), E. exists (t + 0). split; [done|lia].
    + specialize (IH (b ++ c) E). destruct (stdin_says _ ending) as [x|]; [|by rewrite IH].
      destruct IH as (t' & -> & Ht'). exists (t + t'). split; [done|lia].
Qed.

Lemma readFirstLine_spec chunks ending :
  stdin_ok chunks ending ->
  match stdin_says (List.concat (map snd chunks)) ending with
  | Some x => exists t, readFirstLine chunks ending = Settles t x /\ 0 <= t
  | None => readFirstLine chunks ending = Hangs
  end.
Proof. by apply (readFirstLine_go_spec []). Qed.

(** *** The handler *)

Section handler_lemmas.
Context `{Zod} {T : Type} `{EventLoop T} (tr : Transport T) (timeoutMs : Z) (retry : ResolvedRetry) (uuid : nat -> string) (jitter : nat -> Z).
Context (identity : ConnectorIdentity).

Lemma failClosed_yields r (Q : result error string -> client T -> Prop) c :
  (forall d c', action d = Block -> Q (Ok (to_line (bridge_json d true))) c') -> yields (failClosed uuid r) c Q.
Proof. intros Hq. unfold failClosed. apply yields_bind. unfold yields at 1, randomUUID. by apply Hq. Qed.

Lemma handle_ack_yields raw c :
  yields (handle_ack tr timeoutMs retry jitter raw) c (fun r _ => exists b, r = Ok (ack_reply b)).
Proof.
  unfold handle_ack. destruct (normalizeAck raw) as [[eventId accepted]|]; [|by exists false].
  apply yields_catch, yields_bind. unfold yields at 1.
  destruct (acknowledgeWarning _ _ _ _ _ _ _) as [[t [b|e]|] c']; [by exists b|by exists false|done].
Qed.

Lemma handle_scan_yields request c :
  yields (handle_scan tr timeoutMs retry uuid jitter request) c (fun r _ =>
    exists reply, r = Ok reply /\
    ((exists d, action d = Block /\ reply = to_line (bridge_json d true)) \/
     exists d u t v u', t_request tr Method.SubmitScan (encodeScanRequest request) u = (Settles t (Ok v), u') /\
       decodeDecision v = Some d /\ reply = to_line (bridge_json d false))).
Proof.
  unfold handle_scan. apply yields_catch, yields_bind. unfold yields at 1.
  pose proof (safeSubmit_outcome tr timeoutMs retry uuid jitter (encodeScanRequest request) (Some Block) c) as Ho.
  unfold safeScan. destruct (safeSubmit _ _ _ _ _ _ _ c) as [[t [res|e]|] c']; [| |done].
  - eexists. split; [reflexivity|].
    destruct Ho as [(-> & _ & u & t' & v & u' & Hr & Hd)|(-> & Ha & _)]; [right|left; by exists (decision res)].
    by exists (decision res), u, t', v, u'.
  - apply failClosed_yields. intros d c'' Hd. eexists. split; [reflexivity|]. left. by exists d.
Qed.

Lemma handleLine_yields line c :
  yields (handleLine tr timeoutMs retry uuid jitter identity line) c (fun r _ =>
    exists reply, r = Ok reply /\ bridge_reply tr identity line reply /\ no_newline (to_chars reply)).
Proof.
  assert (forall r, yields (failClosed uuid r) c (fun r _ =>
    exists reply, r = Ok reply /\ bridge_reply tr identity line reply /\ no_newline (to_chars reply))) as Hf.
  { intros r. apply failClosed_yields. intros d c' Hd. eexists. split_and!; [reflexivity|left; by exists d|apply to_line_one]. }
  unfold handleLine. destruct (parse_json (to_chars line)) as [v|] eqn:Ep; [|apply Hf].
  destruct v as [| | | | |raw]; cbn [asRecord]; try apply Hf.
  destruct (json_get "acknowledge" (JObj raw)) as [a|] eqn:Ea.
  - eapply yields_impl; [|apply handle_ack_yields]. intros r c' [b ->]. eexists.
    split_and!; [reflexivity| |apply to_line_one]. right. exists raw. split; [done|]. left. by exists a, b.
  - destruct (normalizeScan (JObj raw) identity) as [request|] eqn:En; [|apply Hf].
    eapply yields_impl; [|apply handle_scan_yields].
    intros r c' (reply & -> & [Hd|(d & u & t & v & u' & Hr & Hd & ->)]); eexists; (split; [reflexivity|]).
    + split; [by left|]. destruct Hd as (d & _ & ->). apply to_line_one.
    + split; [|apply to_line_one]. right. exists raw. split; [done|]. right. by exists request, d, u, t, v, u'.
Qed.

Lemma finally_yields {St A} (m : async St A) (k : async St unit) s (Q : result error A -> St -> Prop) :
  yields m s (fun r s' => yields k s' (fun x s'' => match x with Ok _ => Q r s'' | Err e => Q (Err e) s'' end)) ->
  yields (finally m k) s Q.
Proof.
  intros Hm. unfold finally. apply yields_bind, yields_catch, yields_bind. eapply yields_impl; [|exact Hm].
  intros [a|e] s' Hk.
  all: unfold yields at 1, mret, async_ret; apply yields_bind; eapply yields_impl; [|exact Hk]; by intros [?|?] ?.
Qed.
End handler_lemmas.

(** *** The process *)

Section main_lemmas.
Context `{Zod} {T : Type} `{EventLoop T} (tr : Transport T) (timeoutMs : Z) (retry : ResolvedRetry) (uuid : nat -> string) (jitter : nat -> Z).
Context (identity : ConnectorIdentity) (chunks : list (Z * chars)) (ending : stdin_end).

Lemma on_bridge_yields {A} (m : async (client T) A) s (Q : result error A -> bridge T -> Prop) :
  yields m (br_client s) (fun r c => Q r (mkBridge c (br_stdout s) (br_exits s))) -> yields (on_bridge m) s Q.
Proof. unfold yields, on_bridge. by destruct (m (br_client s)) as [[t r|] c]. Qed.

(** The reply for what stdin held: [Err] when it failed before a line was complete. *)
Definition reply_for (x : result error chars) (reply : string) : Prop :=
  no_newline (to_chars reply) /\
  match x with
  | Ok line => bridge_reply tr identity (of_chars line) reply
  | Err _ => exists d, action d = Block /\ reply = to_line (bridge_json d true)
  end.

Lemma bridge_body_yields s :
  yields (bridge_body tr timeoutMs retry uuid jitter identity chunks ending) s (fun r s' =>
    br_exits s' = br_exits s /\
    match r with
    | Ok _ => exists t line reply, readFirstLine chunks ending = Settles t (Ok line) /\
        br_stdout s' = br_stdout s ++ [reply +:+ newline] /\ reply_for (Ok line) reply
    | Err e => br_stdout s' = br_stdout s /\ exists t, readFirstLine chunks ending = Settles t (Err e)
    end).
Proof.
  assert (forall s1 (Q : result error unit -> bridge T -> Prop),
    (forall c, Q (Ok tt) (mkBridge c (br_stdout s1) (br_exits s1))) ->
    yields (try_catch (on_bridge (close tr)) (fun _ => mret tt)) s1 Q) as Hclose.
  { intros s1 Q Hq. apply yields_catch, on_bridge_yields. unfold yields.
    destruct (close tr (br_client s1)) as [[t [[]|e]|] c]; [apply Hq|apply Hq|done]. }
  unfold bridge_body. apply finally_yields, yields_bind. unfold yields at 1, await.
  destruct (readFirstLine chunks ending) as [t [line|e]|] eqn:El; [|apply Hclose; split; [done|by split; [|eexists]]|done].
  apply yields_bind, on_bridge_yields. eapply yields_impl; [|apply handleLine_yields].
  intros r c (reply & -> & Hreply & Hline). unfold yields at 1, write_line, modify. apply Hclose. intros c'.
  split; [done|]. exists t, line, reply. by split_and!.
Qed.

Lemma bridge_main_yields s :
  yields (bridge_main tr timeoutMs retry uuid jitter identity chunks ending) s (fun r s' =>
    r = Ok tt /\ br_exits s' = br_exits s ++ [0] /\
    exists t x reply, readFirstLine chunks ending = Settles t x /\
      br_stdout s' = br_stdout s ++ [reply +:+ newline] /\ reply_for x reply).
Proof.
  unfold bridge_main. apply yields_bind, yields_catch, yields_bind.
  eapply yields_impl; [|apply bridge_body_yields]. intros [[]|e] s1 [Hx Hb].
  - destruct Hb as (t & line & reply & El & Hout & Hr). unfold yields at 1, mret, async_ret.
    split_and!; [done|cbn; by rewrite Hx|]. by exists t, (Ok line), reply.
  - destruct Hb as [Hout [t He]]. unfold yields at 1, mret, async_ret.
    apply yields_bind, on_bridge_yields, failClosed_yields. intros d c Hd.
    apply yields_bind. unfold yields at 1, write_line, modify. split_and!; [done|cbn [br_exits]; by rewrite Hx|].
    exists t, (Err e), (to_line (bridge_json d true)).
    split; [done|]. split; [cbn [br_stdout]; by rewrite Hout|]. split; [apply to_line_one|by exists d].
Qed.

(** Waiting for a line that never comes *)
Lemma bridge_main_waits s :
  readFirstLine chunks ending = Hangs -> bridge_main tr timeoutMs retry uuid jitter identity chunks ending s = (Hangs, s).
Proof. intros E. unfold bridge_main, bridge_body, finally, try_catch, mbind, async_bind, await. by rewrite E. Qed.

(** *** Deadlines *)

Section bridge_deadlines.
Context (w : Z).
Hypothesis transport_ok : stays_alive T /\ 0 < timeoutMs /\ 0 <= r_baseDelayMs retry /\ 0 <= r_maxDelayMs retry /\ 0 <= w /\
  (forall n, 0 <= jitter n < 2 ^ 53) /\
  (forall m p s t x s', t_request tr m p s = (Settles t x, s') -> 0 <= t) /\
  (forall s, settles_within w (t_connect tr s).1) /\ (forall s, settles_within w (t_close tr s).1).

Lemma bound_nonneg : 0 <= scan_bound w timeoutMs retry.
Proof using Type transport_ok.
  destruct transport_ok as (_ & _ & _ & _ & Hw & _). pose proof (invoke_bound_nonneg timeoutMs retry). unfold scan_bound. lia.
Qed.

Lemma failClosed_settles r d (c : client T) : 0 <= d -> settles_within d (failClosed uuid r c).1.
Proof using Type. intros Hd. unfold failClosed. apply settles_now; [done|by eexists _, _|]. intros. by apply settles_mret. Qed.

Lemma handleLine_settles line c :
  settles_within (scan_bound w timeoutMs retry) (handleLine tr timeoutMs retry uuid jitter identity line c).1.
Proof using Type transport_ok.
  pose proof bound_nonneg as HB. destruct transport_ok as (Ha & Ht & Hb & Hm & Hw & Hj & Hr & Hc & _).
  unfold handleLine. destruct (parse_json _) as [v|]; [|by apply failClosed_settles].
  destruct (asRecord (Some v)) as [raw|]; [|by apply failClosed_settles].
  destruct (json_get "acknowledge" raw) as [a|].
  - unfold handle_ack. destruct (normalizeAck raw) as [[ev acc]|]; [|by apply settles_mret].
    apply settles_try; [|intros; by apply settles_mret]. apply settles_last; [|intros; by apply settles_mret].
    by apply acknowledgeWarning_settles.
  - destruct (normalizeScan raw identity) as [request|]; [|by apply failClosed_settles].
    unfold handle_scan. apply settles_try; [|intros; by apply failClosed_settles].
    apply settles_last; [|intros; by apply settles_mret]. by apply safeSubmit_settles.
Qed.

Lemma on_bridge_settles {A} (m : async (client T) A) d s :
  settles_within d (m (br_client s)).1 -> settles_within d (on_bridge m s).1.
Proof using Type. unfold on_bridge. by destruct (m (br_client s)). Qed.

Lemma close_settles (c : client T) : settles_within w (close tr c).1.
Proof using Type transport_ok.
  destruct transport_ok as (_ & _ & _ & _ & Hw & _ & _ & _ & Hc). unfold close.
  apply settles_now; [done|by eexists _, _|]. intros [] c'. unfold on_transport. specialize (Hc (tstate c')).
  by destruct (t_close tr (tstate c')).
Qed.

(** The line is read after [t0] milliseconds. *)
Lemma bridge_body_settles s t0 x :
  readFirstLine chunks ending = Settles t0 x -> 0 <= t0 ->
  settles_within (t0 + scan_bound w timeoutMs retry + w) (bridge_body tr timeoutMs retry uuid jitter identity chunks ending s).1.
Proof using Type transport_ok.
  intros El Ht0. pose proof bound_nonneg as HB. assert (0 <= w) as Hw by (by destruct transport_ok as (_ & _ & _ & _ & ? & _)).
  unfold bridge_body, finally. apply settles_bind; [| |done].
  - apply settles_try; [|intros; by apply settles_mret]. apply settles_last; [|intros; by apply settles_mret].
    apply settles_bind; [exists t0, x; split; [exact El|lia]| |done]. intros line s1.
    apply settles_last; [|intros; by eexists _, _]. apply on_bridge_settles, handleLine_settles.
  - intros r s1. apply settles_last; [|intros; apply settles_lift].
    apply settles_try; [|intros; by apply settles_mret]. apply on_bridge_settles, close_settles.
Qed.

Lemma bridge_main_settles s t0 x :
  readFirstLine chunks ending = Settles t0 x -> 0 <= t0 ->
  settles_within (t0 + scan_bound w timeoutMs retry + w) (bridge_main tr timeoutMs retry uuid jitter identity chunks ending s).1.
Proof using Type transport_ok.
  intros El Ht0. pose proof bound_nonneg as HB. assert (0 <= w) as Hw by (by destruct transport_ok as (_ & _ & _ & _ & ? & _)).
  unfold bridge_main. apply settles_last.
  - apply settles_try; [|intros; apply settles_mret; lia]. apply settles_last; [|intros; by apply settles_mret].
    by eapply bridge_body_settles.
  - intros [] s1; [by eexists _, _|]. apply settles_now; [done| |].
    + by apply on_bridge_settles, failClosed_settles.
    + intros reply s2. apply settles_now; [done|by eexists _, _|]. intros. by eexists _, _.
Qed.
End bridge_deadlines.
End main_lemmas.

(** ** Properties *)

(** C37: the bridge prints one line and exits with 0, and the line is fail-closed.  In a process that stays alive
    while the agent is asked (the deadlines of the SDK are timers that do not keep it running), over a
    transport whose [connect] and [close] settle within [w] milliseconds, the process ends within the client's
    bound for a request plus [w] after stdin has given a first line, ended or failed, however it is chunked and
    whenever the chunks come.  It has written exactly one line, with no
    newline inside, and exited with 0.  The line is a block marked as fallback, or an acknowledgement when one
    was asked for, or the decision the agent gave for the request of the first line; when stdin fails
    before a line is complete it is a block.  As long as stdin stays open without a newline nothing is
    written, and the process does not end. *)
Theorem bridge_one_reply `{Zod} {T} `{EventLoop T} (tr : Transport T) timeoutMs retry uuid jitter identity chunks ending w s :
  stays_alive T /\ 0 < timeoutMs /\ 0 <= r_baseDelayMs retry /\ 0 <= r_maxDelayMs retry /\ 0 <= w /\
  (forall n, 0 <= jitter n < 2 ^ 53) /\
  (forall m p s t x s', t_request tr m p s = (Settles t x, s') -> 0 <= t) /\
  (forall s, settles_within w (t_connect tr s).1) /\ (forall s, settles_within w (t_close tr s).1) ->
  stdin_ok chunks ending ->
  match before_newline (List.concat (map snd chunks)), ending with
  | None, StdinOpen => bridge_main tr timeoutMs retry uuid jitter identity chunks ending s = (Hangs, s)
  | line, _ =>
      exists t0 x t s' reply,
        readFirstLine chunks ending = Settles t0 x /\
        bridge_main tr timeoutMs retry uuid jitter identity chunks ending s = (Settles t (Ok tt), s') /\
        t <= t0 + scan_bound w timeoutMs retry + w /\
        br_stdout s' = br_stdout s ++ [reply +:+ newline] /\ br_exits s' = br_exits s ++ [0] /\
        no_newline (to_chars reply) /\
        match line, ending with
        | None, StdinFails _ _ => exists d, action d = Block /\ reply = to_line (bridge_json d true)
        | _, _ => bridge_reply tr identity (of_chars (first_line (List.concat (map snd chunks)))) reply
        end
  end.
Proof.
  intros Hok Hin. pose proof (readFirstLine_spec chunks ending Hin) as Hs. unfold stdin_says in Hs.
  assert (forall t0 x, readFirstLine chunks ending = Settles t0 x -> 0 <= t0 ->
    exists t s' reply, bridge_main tr timeoutMs retry uuid jitter identity chunks ending s = (Settles t (Ok tt), s') /\
      t <= t0 + scan_bound w timeoutMs retry + w /\
      br_stdout s' = br_stdout s ++ [reply +:+ newline] /\ br_exits s' = br_exits s ++ [0] /\ reply_for tr identity x reply) as Hmain.
  { intros t0 x El Ht0.
    pose proof (bridge_main_settles tr timeoutMs retry uuid jitter identity chunks ending w Hok s t0 x El Ht0) as (t & r & Hm & Ht).
    pose proof (bridge_main_yields tr timeoutMs retry uuid jitter identity chunks ending s) as Hy. unfold yields in Hy.
    destruct (bridge_main _ _ _ _ _ _ _ _ s) as [y s'] eqn:E. cbn in Hm. subst y.
    destruct Hy as (-> & Hx & t1 & x1 & reply & El1 & Hout & Hr). rewrite El in El1. simplify_eq. exists t, s', reply.
    split_and!; [done|lia|done..]. }
  unfold first_line. destruct (before_newline _) as [line|]; [|destruct ending; [| |by apply bridge_main_waits]];
    destruct Hs as (t0 & El & Ht0); destruct (Hmain t0 _ El Ht0) as (t & s' & reply & E & Ht & Ho & Hx & Hn & Hr);
    exists t0; eexists; exists t, s', reply; split_and!; done.
Qed.

(** ** The Cursor connector *)

(** [SDKClient.safeScanPrompt] is [wrapper_safeScan] of [CliShared]: the same call with the same shape of object. *)
Definition safeScanPrompt `{Zod} {T} `{EventLoop T} (tr : Transport T) (uuid : nat -> string) (jitter : nat -> Z)
    (prompt : string) (referencedFiles : list (string * string)) : async (client T) ScanResponse :=
  wrapper_safeScan tr uuid jitter (mkScanInput prompt referencedFiles).

Record cursor (T : Type) := mkCursor { cu_client : client T; cu_shown : list (bool * string) }.
Arguments mkCursor {T} _ _.
Arguments cu_client {T} _.
Arguments cu_shown {T} _.

Section cursor.
Context `{Zod} {T : Type} `{EventLoop T} (tr : Transport T) (uuid : nat -> string) (jitter : nat -> Z).
(** The promise of the warning dialog. *)
Context (choose : string -> reply (option string)).

(** [showErrorMessage] ([true]) and [showWarningMessage] *)
Definition cursor_show (is_error : bool) (m : string) : async (cursor T) unit :=
  modify (fun s => mkCursor (cu_client s) (cu_shown s ++ [(is_error, m)])).

Definition cursor_ask (m : string) : async (cursor T) (option string) := fun s => (choose m, s).

Definition cursor_scan (prompt : string) (referencedFiles : list (string * string)) : async (cursor T) ScanResponse := fun s =>
  let '(x, c) := safeScanPrompt tr uuid jitter prompt referencedFiles (cu_client s) in (x, mkCursor c (cu_shown s)).

(** [PromptInterceptor.intercept] *)
Definition cursor_intercept (prompt : string) (referencedFiles : list (string * string)) : async (cursor T) bool :=
  try_catch
    (r ← cursor_scan prompt referencedFiles;
     match response_action r with
     | Some Allow => mret true
     | Some Warn =>
         let m := "VGuardrail Warning: Policy violation detected." +:+ newline +:+ newline +:+ reason (decision r) in
         _ ← cursor_show false m;
         choice ← cursor_ask m;
         mret (bool_decide (choice = Some "Acknowledge & Proceed"))
     | Some Block =>
         _ ← cursor_show true ("VGuardrail Blocked: Prompt rejected by local policy." +:+ newline +:+ newline +:+ reason (decision r));
         mret false
     | None => _ ← cursor_show true "VGuardrail: Received unknown decision from policy engine."; mret false
     end)
    (fun e => _ ← cursor_show true ("VGuardrail Error: Failed to evaluate prompt. " +:+ error_message e); mret false).
End cursor.

(** The Cursor connector refuses every prompt: its request never reaches the agent, and it reads the action
    of the response, not of the decision.  An error is shown each time. *)
Lemma cursor_refuses_all `{Zod} {T} `{EventLoop T} (tr : Transport T) uuid jitter choose prompt files s :
  yields (cursor_intercept tr uuid jitter choose prompt files) s (fun r s' =>
    r = Ok false /\ exists m, cu_shown s' = cu_shown s ++ [(true, m)]).
Proof.
  unfold cursor_intercept. apply yields_catch, yields_bind. unfold yields at 1, cursor_scan.
  destruct (safeScanPrompt tr uuid jitter prompt files (cu_client s)) as [[t [r|e]|] c]; [| |done].
  all: cbn [response_action]; apply yields_bind; unfold yields at 1, cursor_show, modify; (split; [done|by eexists]).
Qed.

(** ** Examples *)

Definition bridge_identity : ConnectorIdentity := mkUser "ada" RoleUser [].

Definition bridge_line (key value : string) : chars := to_chars ("{" +:+ of_chars (print_str key) +:+ ":" +:+ value +:+ "}").

Definition bridge_run (m : MockState) (chunks : list (Z * chars)) (ending : stdin_end) :=
  bridge_main MockTransport DEFAULT_TIMEOUT_MS (resolveRetry None) (fun _ => "u") (fun _ => 0) bridge_identity
    chunks ending (mkBridge (fresh_client m) [] []).

(** A request in two chunks, a malformed one, a stream that fails, and one that stays open. *)
Definition reply_action (line : string) : option string := line_json line ≫= get_str "action".
Definition bridge_action (x : reply unit * bridge MockState) : list (option string) := map reply_action (br_stdout x.2).
Definition hi_line : chars := bridge_line "text" (of_chars (print_str "hi")).

Example bridge_runs :
  bridge_action (bridge_run mock_allow [(10, take 7 hi_line); (20, drop 7 hi_line ++ to_chars newline)] StdinOpen) = [Some "allow"] /\
  (bridge_run mock_allow [(10, take 7 hi_line); (20, drop 7 hi_line ++ to_chars newline)] StdinOpen).1 = Settles 30 (Ok tt) /\
  bridge_action (bridge_run mock_allow [(0, bridge_line "text" "5")] (StdinEnds 5)) = [Some "block"] /\
  bridge_action (bridge_run mock_allow [(0, to_chars "{")] (StdinFails 1 (OtherError "Error" "EIO"))) = [Some "block"] /\
  (bridge_run mock_allow [(0, hi_line)] StdinOpen).1 = Hangs.
Proof. vm_compute. done. Qed.

(** A helper that dies in the handshake, in a process with nothing else to wait for: no line is printed. *)
Example bridge_drained :
  let x := bridge_main dying_transport DEFAULT_TIMEOUT_MS (resolveRetry None) (fun _ => "u") (fun _ => 0) bridge_identity
             [(0, hi_line)] (StdinEnds 0) (mkBridge (mkClient None false 0 0) [] []) in
  x.1 = Hangs /\ br_stdout x.2 = [] /\ br_exits x.2 = [].
Proof. vm_compute. done. Qed.

Lemma bridge_one_reply_witness :
  exists t s' reply,
    bridge_main slow_transport DEFAULT_TIMEOUT_MS (resolveRetry None) (fun _ => "u") (fun _ => 0) bridge_identity
      [(4, bridge_line "text" "5")] (StdinEnds 1) (mkBridge (mkClient None tt 0 0) [] []) = (Settles t (Ok tt), s') /\
    br_stdout s' = [reply +:+ newline] /\ br_exits s' = [0] /\
    bridge_reply slow_transport bridge_identity (of_chars (bridge_line "text" "5")) reply.
Proof.
  pose proof (bridge_one_reply slow_transport DEFAULT_TIMEOUT_MS (resolveRetry None) (fun _ => "u") (fun _ => 0) bridge_identity
    [(4, bridge_line "text" "5")] (StdinEnds 1) 3 (mkBridge (mkClient None tt 0 0) [] [])) as Hb.
  destruct Hb as (t0 & x & t & s' & reply & _ & E & _ & Ho & Hx & _ & Hr).
  - split_and!; [intros ? ?; reflexivity|reflexivity|vm_compute; discriminate|vm_compute; discriminate|lia|intros; lia| | |].
    + simpl. intros m p s t x s' E. assert (7 = t) as <- by congruence. lia.
    + intros s. exists 3, (Ok tt). split; [reflexivity|lia].
    + intros s. exists 0, (Ok tt). split; [reflexivity|lia].
  - split; [repeat constructor; discriminate|discriminate].
  - exists t, s', reply. split_and!; [exact E|exact Ho|exact Hx|exact Hr].
Defined.
