(* ===== verification/IdeHttpDev.v ===== *)
(** * The development transport of the editor connector

    [ide-connectors/vscode/src/http-dev-transport.ts]: [HttpDevTransport] as an instance of the SDK's
    transport interface, so that the client's theorems apply to it.  [fetch] is a parameter over a state of
    the world; its promise is rejected when the deadline passes.  [null] and [undefined] are told apart: a
    property read is an [option json]. *)

From S2P Require Import Prelude Json JsonText Zod Enums Decision ScanRequest AuditEvent Resilience Framing Transport Client NativeHost CliInput ClaudeHook.

(** ** Requests *)

Record dev_request := mkDevReq {
  dr_method : string;
  dr_url : string;
  dr_headers : list (string * string);
  dr_body : option json
}.

(** [dp_json] is [None] when [response.json()] rejects. *)
Record dev_response := mkDevResp { dp_status : Z; dp_json : option json }.
Definition dp_ok (r : dev_response) : bool := (200 <=? dp_status r) && (dp_status r <=? 299).

Definition DEFAULT_BASE_URL : string := "http://localhost:8080".
Definition DEFAULT_ORG : string := "local-org".
Definition DEV_TIMEOUT_MS : Z := 8000.

(** [v.k], which throws on [undefined] and [null] *)
Definition member (v : option json) (k : string) : result error (option json) :=
  match v with None | Some JNull => Err TypeError | Some w => Ok (json_get k w) end.

(** ** Backend to wire *)

Definition classificationFor (riskLevel : option json) : string :=
  if is_str "critical" riskLevel then "restricted"
  else if is_str "high" riskLevel then "confidential"
  else if is_str "medium" riskLevel then "confidential"
  else "internal".

Definition wire_finding (f : json) : option json :=
  match f with
  | JNull => None
  | _ =>
      let g k := (k, json_get k f) in
      Some (JObj (compact
        [g "detector_id"; g "category"; g "kind"; ("span_start", Some (JNum (NInt 0))); ("span_end", Some (JNum (NInt 0)));
         ("confidence", Some (JNum (NFrac 9 1))); g "severity"; g "redacted_preview"; ("meta", Some (JObj []))]))
  end.

(** [d.findings.map(...)]: only an array has a [map] that takes this callback. *)
Definition wire_findings (v : option json) : result error json :=
  match v with
  | Some (JArr l) => match traverse wire_finding l with Some l' => Ok (JArr l') | None => Err TypeError end
  | _ => Err TypeError
  end.

Definition toWireDecision (d : json) : result error json :=
  match d with
  | JNull => Err TypeError
  | _ =>
      match wire_findings (json_get "findings" d) with
      | Err e => Err e
      | Ok findings =>
          Ok (JObj (compact
            [("request_id", json_get "request_id" d);
             ("action", json_get "action" d);
             ("risk_level", json_get "risk_level" d);
             ("classification", Some (JStr (classificationFor (json_get "risk_level" d))));
             ("matched_rule_id", Some (nullish (json_get "matched_rule_id" d) JNull));
             ("severity", Some (nullish (json_get "severity" d) JNull));
             ("findings", Some findings);
             ("suppressions", Some (JArr []));
             ("reason", json_get "reason" d);
             ("policy_version", Some (JNum (NInt 0)));
             ("elapsed_micros", Some (JNum (NInt 0)));
             ("incomplete", Some (JBool false))]))
      end
  end.

(** ** The transport *)

Section transport.
Context {W : Type} (fetch : dev_request -> async W dev_response).
Context (opt_baseUrl opt_orgId : option string) (opt_timeoutMs : option Z).

Definition dev_baseUrl : string := strip_trailing_slashes (default DEFAULT_BASE_URL opt_baseUrl).
Definition dev_orgId : string := default DEFAULT_ORG opt_orgId.
Definition dev_timeoutMs : Z := default DEV_TIMEOUT_MS opt_timeoutMs.

(** [fetch] under [AbortSignal.timeout]: rejected once the time is up *)
Definition fetch_deadline (r : dev_request) : async W dev_response := fun w =>
  match fetch r w with
  | (Settles t x, w') => if t <=? dev_timeoutMs then (Settles t x, w')
                         else (Settles dev_timeoutMs (Err (OtherError "TimeoutError" "")), w')
  | (Hangs, w') => (Settles dev_timeoutMs (Err (OtherError "TimeoutError" "")), w')
  end.

Definition send (method path : string) (headers : list (string * string)) (body : option json) : async W json :=
  response ← try_catch (fetch_deadline (mkDevReq method (dev_baseUrl +:+ path) (headers ++ [("x-vg-org-id", dev_orgId)]) body))
    (fun cause => throw (TransportError ("dev backend unreachable at " +:+ dev_baseUrl +:+ path) (Some cause)));
  if negb (dp_ok response) then throw (TransportError ("dev backend " +:+ path +:+ " returned HTTP " +:+ show_Z (dp_status response)) None)
  else
    match dp_json response with
    | Some v => mret v
    | None => throw (TransportError ("dev backend " +:+ path +:+ " returned invalid JSON") (Some (OtherError "SyntaxError" "")))
    end.

Definition dev_get (path : string) : async W json := send "GET" path [] None.
Definition dev_post (path : string) (body : json) (headers : list (string * string)) : async W json :=
  send "POST" path (("Content-Type", "application/json") :: headers) (Some body).

Definition dev_scan_body (params : json) : json :=
  let context := json_get "context" params in
  let app := nullish (chain context "app") (JStr "ide") in
  JObj (compact
    [("text", json_get "text" params);
     ("context", Some (JObj (compact
        [("provider", Some (nullish (chain context "provider") app));
         ("model", chain context "model");
         ("app", Some app);
         ("url", chain (chain context "file") "path")])))]).

Definition scan_device (params : json) : string :=
  let context := json_get "context" params in
  "ide-" +:+ to_text (nullish (chain context "app") (JStr "ide")) +:+ "-"
  +:+ to_text (nullish (chain (chain context "user") "user_id") (JStr "unknown")).

Definition dev_submitScan (params : json) : async W (option json) :=
  reply ← dev_post "/scan" (dev_scan_body params) [("x-device-id", scan_device params)];
  d ← lift (member (Some reply) "decision");
  match d with
  | None => throw (TransportError "dev backend /scan reply carried no decision" None)
  | Some d => w ← lift (toWireDecision d); mret (Some w)
  end.

Definition dev_getStatus : async W (option json) :=
  health ← dev_get "/health";
  version ← lift (member (Some health) "version");
  mret (Some (JObj
    [("engineServing", JBool true); ("activePolicyVersion", JNum (NInt 0)); ("queuedEvents", JNum (NInt 0));
     ("engineConnected", JBool true);
     ("agentVersion", JStr ("http-dev backend " +:+ to_text (nullish version (JStr "?"))))])).

Definition dev_request_method (method : string) (params : json) : async W (option json) :=
  if String.eqb method Method.Hello then
    mret (Some (JObj [("proto", JNum (NInt PROTOCOL_VERSION)); ("schema", JStr SCHEMA_VERSION); ("agent", JStr "http-dev")]))
  else if String.eqb method Method.SubmitScan then dev_submitScan params
  else if String.eqb method Method.GetStatus then dev_getStatus
  else if String.eqb method Method.AcknowledgeWarning then mret (Some (JBool true))
  else if String.eqb method Method.RecentDecisions then mret (Some (JArr []))
  else throw (TransportError ("http-dev transport does not support method " +:+ quoted method) None).

Definition HttpDevTransport : Transport W :=
  {| t_connect := mret tt; t_request := dev_request_method; t_abort := fun w => w; t_close := mret tt |}.
End transport.

(** ** Lemmas *)

(** The decision repeats what the backend said. *)
Definition repeats (b : json) (d : Decision) : Prop :=
  json_get "request_id" b = Some (JStr (requestId d)) /\
  json_get "action" b = Some (enc_enum (action d)) /\
  json_get "risk_level" b = Some (enc_enum (riskLevel d)) /\
  json_get "reason" b = (if decide (reason d = "") then json_get "reason" b else Some (JStr (reason d))).

(** Decoding keeps these fields of the wire object. *)
Lemma decoded_fields `{Zod} o d :
  decodeDecision (Some (JObj o)) = Some d ->
  obj_get "request_id" o = Some (JStr (requestId d)) /\
  obj_get "action" o = Some (enc_enum (action d)) /\
  obj_get "risk_level" o = Some (enc_enum (riskLevel d)) /\
  (obj_get "reason" o = Some (JStr (reason d)) \/ reason d = "").
Proof.
  unfold decodeDecision. destruct (zparse DecisionWireSchema _) as [[w|]|] eqn:Ez; try done.
  apply zparse_object_inv in Ez as (o' & ps & [= <-] & [= ->] & Hp). inv_parsed. intros Hd.
  unfold decodeDecisionFields in Hd.
  repeat match type of Hd with (_ ≫= _) = Some _ => apply bind_Some in Hd as (? & ? & Hd) end.
  injection Hd as <-.
  repeat match goal with
  | E : get_str _ _ = Some _ |- _ => unfold get_str in E; rewrite json_get_compact in E by (vm_compute; reflexivity); cbn in E
  | E : get_enum _ _ = Some _ |- _ => unfold get_enum in E; rewrite json_get_compact in E by (vm_compute; reflexivity); cbn in E
  end.
  repeat match goal with
  | E : zparse (enum_schema _) _ = Some ?r, E' : enum_of ?r = Some _ |- _ =>
      apply zparse_enum_schema in E as (? & E & ->); unfold enum_of in E'; rewrite of_wire_wire in E'; injection E' as <-
  end.
  match goal with E : zparse ZString _ = Some _ |- _ => apply zparse_string_inv in E as (? & Er & ->) end.
  match goal with E : zparse (ZDefault ZString _) _ = Some _ |- _ => rewrite zparse_law in E; cbn in E; rename E into Hreason end.
  simplify_eq/=. split_and!; [done..|].
  destruct (obj_get "reason" o) as [v|]; apply zparse_string_inv in Hreason as (? & ? & ->); [left|right]; by simplify_eq/=.
Qed.

Lemma toWire_decoded `{Zod} b v d :
  toWireDecision b = Ok v -> decodeDecision (Some v) = Some d -> repeats b d.
Proof.
  intros Hw Hd. unfold toWireDecision in Hw.
  assert (exists o, v = JObj (compact o) /\ literal_keys (obj_keys o) = true /\
    mjoin (obj_get "request_id" o) = json_get "request_id" b /\ mjoin (obj_get "action" o) = json_get "action" b /\
    mjoin (obj_get "risk_level" o) = json_get "risk_level" b /\ mjoin (obj_get "reason" o) = json_get "reason" b)
    as (o & -> & Hk & H1 & H2 & H3 & H4).
  { destruct b; try discriminate Hw; destruct (wire_findings _); try discriminate Hw; injection Hw as <-; eexists; split_and!; reflexivity. }
  apply decoded_fields in Hd. pose proof (fun k => json_get_compact k o Hk) as Hc. cbn [json_get] in Hc.
  rewrite !Hc, H1, H2, H3, H4 in Hd. destruct Hd as (Hi & Ha & Hl & Hr). split_and!; [done..|].
  destruct (decide (reason d = "")); [done|]. by destruct Hr.
Qed.

Section transport_lemmas.
Context {W : Type} (fetch : dev_request -> async W dev_response).
Context (opt_baseUrl opt_orgId : option string) (opt_timeoutMs : option Z).

(** The backend answered the request [r] with the body [v]. *)
Definition backend_said (r : dev_request) (v : json) : Prop :=
  exists w t w' resp, fetch r w = (Settles t (Ok resp), w') /\ dp_ok resp = true /\ dp_json resp = Some v.

Definition scan_post (params : json) : dev_request :=
  mkDevReq "POST" (dev_baseUrl opt_baseUrl +:+ "/scan")
    [("Content-Type", "application/json"); ("x-device-id", scan_device params); ("x-vg-org-id", dev_orgId opt_orgId)]
    (Some (dev_scan_body params)).

(** What [send] settles with: a body the backend sent with a status of success, or a transport error *)
Lemma send_yields method path headers body w :
  yields (send fetch opt_baseUrl opt_orgId opt_timeoutMs method path headers body) w (fun r _ =>
    match r with
    | Ok v => backend_said (mkDevReq method (dev_baseUrl opt_baseUrl +:+ path) (headers ++ [("x-vg-org-id", dev_orgId opt_orgId)]) body) v
    | Err e => isAvailabilityError e = true
    end).
Proof.
  unfold send. set (req := mkDevReq _ _ _ _). apply yields_bind, yields_catch. unfold yields at 1, fetch_deadline.
  destruct (fetch req w) as [[t x|] w'] eqn:E; [|done]. destruct (t <=? _); [|done]. destruct x as [resp|e]; [|done].
  destruct (dp_ok resp) eqn:Eo; cbn [negb]; [|done]. destruct (dp_json resp) as [v|] eqn:Ej; [|done].
  by exists w, t, w', resp.
Qed.

Lemma submitScan_yields params w :
  yields (dev_submitScan fetch opt_baseUrl opt_orgId opt_timeoutMs params) w (fun r _ =>
    match r with
    | Ok v => exists reply b v', backend_said (scan_post params) reply /\ json_get "decision" reply = Some b /\
        toWireDecision b = Ok v' /\ v = Some v'
    | Err _ => True
    end).
Proof.
  unfold dev_submitScan, dev_post. apply yields_bind. eapply yields_impl; [|apply send_yields].
  intros [reply|e] w' Hs; [|done]. apply yields_bind. unfold yields at 1, lift, member.
  destruct (match reply with JNull => true | _ => false end) eqn:En; [by destruct reply|].
  assert (match reply with JNull => Err TypeError | _ => Ok (json_get "decision" reply) end = Ok (json_get "decision" reply)) as ->
    by (by destruct reply).
  destruct (json_get "decision" reply) as [b|] eqn:Eb; [|done]. apply yields_bind. unfold yields at 1, lift.
  destruct (toWireDecision b) as [v'|e] eqn:Ew; [|done]. by exists reply, b, v'.
Qed.

Lemma request_nonneg :
  0 <= dev_timeoutMs opt_timeoutMs -> (forall r w t x w', fetch r w = (Settles t x, w') -> 0 <= t) ->
  forall m p w, settles_within (dev_timeoutMs opt_timeoutMs) (t_request (HttpDevTransport fetch opt_baseUrl opt_orgId opt_timeoutMs) m p w).1.
Proof.
  intros Hd Hf m p w.
  assert (forall method path headers body w, settles_within (dev_timeoutMs opt_timeoutMs)
    (send fetch opt_baseUrl opt_orgId opt_timeoutMs method path headers body w).1) as Hs.
  { intros. unfold send. apply settles_last.
    - apply settles_try; [|intros; apply settles_throw]. unfold fetch_deadline.
      destruct (fetch _ _) as [[t x|] w'] eqn:E; [destruct (t <=? _) eqn:El|]; eexists _, _; (split; [reflexivity|]); [|lia..].
      apply Hf in E. lia.
    - intros resp w'. destruct (negb _); [apply settles_throw|]. destruct (dp_json resp); [apply settles_ret|apply settles_throw]. }
  cbn [HttpDevTransport t_request]. unfold dev_request_method.
  repeat (case_match; [try by apply settles_mret|]); [| |eapply settles_within_weaken; [apply settles_throw|done]].
  - unfold dev_submitScan. apply settles_last; [apply Hs|]. intros reply w'. apply settles_now; [done|apply settles_lift|].
    intros [b|] w2; [|apply settles_throw]. apply settles_now; [done|apply settles_lift|intros; apply settles_ret].
  - unfold dev_getStatus. apply settles_last; [apply Hs|]. intros reply w'. apply settles_now; [done|apply settles_lift|].
    intros. apply settles_ret.
Qed.
End transport_lemmas.

(** ** Properties *)

(** Over the development transport the client's decision is the backend's.  When [safeScan] answers without
    a fallback, the backend answered a POST of this text to [/scan], with a status of success, and the
    decision repeats the request id, action, risk level and reason of that answer; otherwise it is a block
    marked as fallback, or [safeScan] throws an error that is not an availability error. *)
Theorem dev_decision_from_backend `{Zod} {W} `{EventLoop W} (fetch : dev_request -> async W dev_response) baseUrl orgId ms
    timeoutMs retry uuid jitter request c :
  let params := encodeScanRequest request in
  json_get "text" (dev_scan_body params) = Some (JStr (text request)) /\
  match (safeScan (HttpDevTransport fetch baseUrl orgId ms) timeoutMs retry uuid jitter request (Some Block) c).1 with
  | Settles _ (Ok resp) =>
      (fromFallback resp = false /\
       exists reply b, backend_said fetch (scan_post baseUrl orgId params) reply /\
         json_get "decision" reply = Some b /\ repeats b (decision resp)) \/
      (fromFallback resp = true /\ action (decision resp) = Block)
  | Settles _ (Err e) => isAvailabilityError e = false
  | Hangs => True
  end.
Proof.
  cbn zeta. split; [unfold dev_scan_body; by rewrite json_get_compact by done|].
  pose proof (safeSubmit_outcome (HttpDevTransport fetch baseUrl orgId ms) timeoutMs retry uuid jitter
    (encodeScanRequest request) (Some Block) c) as Ho.
  unfold safeScan. destruct (safeSubmit _ _ _ _ _ _ _ c) as [[t [resp|e]|] c']; [|done..]. cbn [fst] in *.
  destruct Ho as [(Hf & _ & w & t' & v & w' & Hr & Hd)|(Hf & Ha & _)]; [left|by right]. split; [done|].
  pose proof (submitScan_yields fetch baseUrl orgId ms (encodeScanRequest request) w) as Hy. unfold yields in Hy.
  change (t_request _ _ _ w) with (dev_submitScan fetch baseUrl orgId ms (encodeScanRequest request) w) in Hr.
  rewrite Hr in Hy. destruct Hy as (reply & b & v' & Hs & Hb & Hw & ->). exists reply, b. split_and!; [done..|].
  by eapply toWire_decoded.
Qed.

(** ** Examples *)

Definition dev_backend (body : json) : dev_request -> async unit dev_response := fun _ w =>
  (Settles 5 (Ok (mkDevResp 200 (Some body))), w).

Definition dev_run (body : json) : reply ScanResponse :=
  (default_scan (HttpDevTransport (dev_backend body) (Some "http://x//") None None) (fun _ => "u") (fun _ => 0)
     sample_request (Some Block) (mkClient None tt 0 0)).1.

Definition backend_warn : json :=
  JObj [("decision", JObj [("request_id", JStr "r1"); ("action", JStr "warn"); ("risk_level", JStr "high");
    ("reason", JStr "secret"); ("findings", JArr [])])].

Example dev_run_warn :
  match dev_run backend_warn with
  | Settles _ (Ok r) => action (decision r) = Warn /\ classification (decision r) = Confidential /\ fromFallback r = false
  | _ => False
  end.
Proof. vm_compute. done. Qed.

(** A decision of the wrong shape makes the transport throw a [TypeError], which [safeScan] does not turn
    into a block. *)
Lemma dev_type_error :
  dev_run (JObj [("decision", JObj [("action", JStr "allow")])]) = Settles 5 (Err TypeError) /\
  strip_trailing_slashes "http://x//" = "http://x".
Proof. vm_compute. done. Qed.
