(* ===== verification/DashFetch.v ===== *)
(** * The dashboard's HTTP clients

    [dashboard/lib/api]: [client.ts] ([backendFetch]) and [backend-client.ts] ([backendHttpFetch]), the
    loops that call the Rust backend; [backend/_map.ts], the page envelope; the call [bff] of
    [bff-repositories.ts].  [fetch] is a parameter over a state of the world: its reply stands for the
    response with its body read, and its promise is rejected when the [AbortController] fires.

    A body is JSON of any shape, as the code checks none of it: a page keeps the values it was given. *)

From S2P Require Import Prelude Json JsonText Resilience CliFiles CliInput Dashboard.

(** ** Requests and errors *)

Record fetch_init := mkInit {
  fi_method : option string;
  fi_headers : list (string * string);
  fi_body : option string;
  fi_token : option string
}.
Definition get_init (token : option string) : fetch_init := mkInit None [] None token.

Record fetch_call := mkFetchCall {
  fc_url : string;
  fc_method : string;
  fc_headers : list (string * string);
  fc_body : option string
}.

(** [fr_text] is [None] when [response.text()] rejects. *)
Record fetch_resp := mkFetched { fr_status : Z; fr_statusText : string; fr_text : option chars }.
Definition fr_ok (r : fetch_resp) : bool := (200 <=? fr_status r) && (fr_status r <=? 299).

(** An [Error]: the client's own, or what [fetch], the abort or [JSON.parse] threw. *)
Inductive fetch_error :=
| BackendClientError (status : Z) (code message : json) (retryable : bool)
| OtherFailure (e : error).

Definition retryable_error (e : fetch_error) : bool :=
  match e with BackendClientError _ _ _ retryable => retryable | OtherFailure _ => true end.

Definition isLocalAuthDisabled (env : dash_env) : bool := e_authDisabled env.

(** [Headers.prototype.set]: names are case-insensitive. *)
Definition set_header (k v : string) (h : list (string * string)) : list (string * string) := obj_set (to_lower k) v h.

Definition backend_headers (env : dash_env) (init : fetch_init) : list (string * string) :=
  let h := set_header "Content-Type" "application/json" (fi_headers init) in
  let h := match fi_token init with
           | Some t => if negb (isLocalAuthDisabled env) && negb (is_empty t) then set_header "Authorization" ("Bearer " +:+ t) h else h
           | None => h
           end in
  if isLocalAuthDisabled env then
    set_header "x-vg-org-id" (s_orgId MOCK_USER_SESSION) (set_header "x-vg-role" (dash_role_name (s_role MOCK_USER_SESSION)) h)
  else h.

Definition call_of (env : dash_env) (base path : string) (init : fetch_init) : fetch_call :=
  mkFetchCall (base +:+ path) (default "GET" (fi_method init)) (backend_headers env init) (fi_body init).

(** [text ? JSON.parse(text) : null] *)
Definition parse_body (text : chars) : option json := if decide (text = []) then Some JNull else parse_json text.

(** [body?.error?.k ?? d] *)
Definition error_field (body : json) (k : string) (d : string) : json := nullish (chain (chain (Some body) "error") k) (JStr d).

(** What the response is read as; [Ok None] is [undefined].  [no_content]: the client returns at once on a 204. *)
Definition read_response (no_content : bool) (resp : fetch_resp) : result fetch_error (option json) :=
  if no_content && (fr_status resp =? 204) then Ok None
  else
    match fr_text resp with
    | None => Err (OtherFailure (OtherError "TypeError" "terminated"))
    | Some text =>
        match parse_body text with
        | None => Err (OtherFailure (OtherError "SyntaxError" ""))
        | Some body =>
            if negb (fr_ok resp) then
              Err (BackendClientError (fr_status resp) (error_field body "code" "backend_error")
                     (error_field body "message" (fr_statusText resp)) (500 <=? fr_status resp))
            else Ok (Some body)
        end
    end.

(** ** The loop *)

Section backend.
Context {W : Type} (fetch : fetch_call -> W -> reply fetch_resp * W) (env : dash_env) (timeoutMs : Z).

(** One pass of the [try] block, and when it is over. *)
Definition attempt_fetch (no_content : bool) (call : fetch_call) (w : W) : Z * result fetch_error (option json) * W :=
  let aborted := Err (OtherFailure (OtherError "AbortError" "")) in
  match fetch call w with
  | (Settles t x, w') =>
      if t <=? timeoutMs
      then (t, match x with Ok resp => read_response no_content resp | Err e => Err (OtherFailure e) end, w')
      else (timeoutMs, aborted, w')
  | (Hangs, w') => (timeoutMs, aborted, w')
  end.

(** The [for] loop, with the number of attempts that may follow this one. *)
Fixpoint fetch_loop (no_content : bool) (call : fetch_call) (left : nat) (attempt : Z) (w : W) : Z * result fetch_error (option json) * W :=
  let '(t, r, w') := attempt_fetch no_content call w in
  match r, left with
  | Err e, S left' =>
      if retryable_error e then
        let '(t', r', w'') := fetch_loop no_content call left' (attempt + 1) w' in (t + 100 * (attempt + 1) + t', r', w'')
      else (t, r, w')
  | _, _ => (t, r, w')
  end.

(** [client.ts] and [backend-client.ts] *)
Definition backendFetch (base path : string) (init : fetch_init) : W -> Z * result fetch_error (option json) * W :=
  fetch_loop false (call_of env base path init) 2 0.
Definition backendHttpFetch (base path : string) (init : fetch_init) : W -> Z * result fetch_error (option json) * W :=
  fetch_loop true (call_of env base path init) 2 0.

Definition BACKEND_BASE_URL (backendUrl apiUrl : option string) : string :=
  match backendUrl with Some u => u | None => default "" apiUrl end.
Definition isBackendConfigured (backendUrl apiUrl : option string) : bool := 0 <? strlen (BACKEND_BASE_URL backendUrl apiUrl).

(** [backendGetOrNull]: [null] for a 404 *)
Definition backendGetOrNull (base path : string) (token : option string) (w : W) : Z * result fetch_error json * W :=
  let '(t, r, w') := backendFetch base path (get_init token) w in
  (t, match r with
      | Ok (Some v) => Ok v
      | Ok None => Ok JNull
      | Err (BackendClientError 404 _ _ _) => Ok JNull
      | Err e => Err e
      end, w').
End backend.

(** ** Pages: [_map.ts] and [toPageResponse] of [pagination.ts] *)

Record Page := mkPage {
  pg_items : json;
  pg_page : json;
  pg_perPage : json;
  pg_total : json;
  pg_nextToken : json
}.

(** [v?.length] *)
Definition json_length (v : option json) : option json :=
  match v with
  | Some (JArr l) => Some (JNum (NInt (Z.of_nat (List.length l))))
  | Some (JStr s) => Some (JNum (NInt (strlen s)))
  | Some w => chain (Some w) "length"
  | None => None
  end.

(** [None]: the [TypeError] of reading a property of [null] *)
Definition mapPage (raw : json) : option Page :=
  match raw with
  | JNull => None
  | _ =>
      let get k := json_get k raw in
      let n := json_length (get "items") in
      Some (mkPage (nullish (get "items") (JArr []))
              (nullish (get "page") (JNum (NInt 1)))
              (nullish (get "per_page") (nullish n (JNum (NInt 0))))
              (nullish (get "total") (nullish n (JNum (NInt 0))))
              (nullish (get "next_token") JNull))
  end.

Definition toPageResponse (p : Page) : json :=
  JObj [("items", pg_items p); ("page", pg_page p); ("per_page", pg_perPage p); ("total", pg_total p);
        ("next_token", pg_nextToken p)].

(** ** [bff] of [bff-repositories.ts], given the response *)

Definition bff_result (path : string) (resp : fetch_resp) : result error (option json) :=
  if fr_status resp =? 204 then Ok None
  else
    match fr_text resp with
    | None => Err (OtherError "TypeError" "terminated")
    | Some text =>
        match parse_body text with
        | None => Err (OtherError "SyntaxError" "")
        | Some body =>
            if negb (fr_ok resp) then
              Err (OtherError "Error" ("BFF " +:+ path +:+ " → " +:+ show_Z (fr_status resp) +:+ " "
                +:+ to_text (error_field body "code" "request_failed") +:+ ": "
                +:+ to_text (error_field body "message" (fr_statusText resp))))
            else Ok (Some body)
        end
    end.

(** ** Specification: [n] attempts, one after the other *)

Section attempts.
Context {W : Type} (fetch : fetch_call -> W -> reply fetch_resp * W) (timeoutMs : Z).

Fixpoint attempts_run (no_content : bool) (call : fetch_call) (n : nat) (w : W) : list (Z * result fetch_error (option json)) * W :=
  match n with
  | O => ([], w)
  | S n' =>
      let '(t, r, w') := attempt_fetch fetch timeoutMs no_content call w in
      let '(rs, w'') := attempts_run no_content call n' w' in ((t, r) :: rs, w'')
  end.

Definition failed_retryably (a : Z * result fetch_error (option json)) : Prop :=
  match a.2 with Err e => retryable_error e = true | Ok _ => False end.

(** The loop makes [S k] attempts: all but the last failed and may be retried; it stops before the limit only
    when the last succeeded or must not be retried. *)
Lemma fetch_loop_spec no_content call left attempt w :
  exists k earlier last t, (k <= left)%nat /\
    attempts_run no_content call (S k) w = (earlier ++ [last], (fetch_loop fetch timeoutMs no_content call left attempt w).2) /\
    List.length earlier = k /\
    (fetch_loop fetch timeoutMs no_content call left attempt w).1 = (t, last.2) /\
    Forall failed_retryably earlier /\ (failed_retryably last -> k = left).
Proof.
  revert attempt w. induction left as [|left IH]; intros attempt w; cbn [fetch_loop].
  - exists 0%nat, []. cbn [attempts_run]. destruct (attempt_fetch fetch timeoutMs no_content call w) as [[t r] w'] eqn:E.
    exists (t, r), t. by destruct r.
  - destruct (attempt_fetch fetch timeoutMs no_content call w) as [[t r] w'] eqn:E.
    destruct r as [v|e]; [|destruct (retryable_error e) eqn:Er].
    1, 3: exists 0%nat, []; cbn [attempts_run]; rewrite E; eexists (t, _), t; split_and!; [lia|done..|]; cbn; unfold failed_retryably; cbn; congruence || done.
    destruct (IH (attempt + 1) w') as (k & earlier & last & t' & Hk & Hrun & Hlen & Hres & Hf & Hlast).
    exists (S k), ((t, Err e) :: earlier), last.
    destruct (fetch_loop fetch timeoutMs no_content call left (attempt + 1) w') as [[t2 r2] w2]. cbn [fst snd] in *.
    injection Hres as -> ->. eexists. split_and!; [lia| |cbn; by rewrite Hlen|done|by constructor|intros Hl; by rewrite Hlast].
    change (attempts_run no_content call (S (S k)) w) with
      (let '(t, r, w') := attempt_fetch fetch timeoutMs no_content call w in
       let '(rs, w'') := attempts_run no_content call (S k) w' in ((t, r) :: rs, w'')).
    by rewrite E, Hrun.
Qed.

Hypothesis fetch_time : forall call w t x w', fetch call w = (Settles t x, w') -> 0 <= t.

Lemma attempt_time no_content call w : 0 <= timeoutMs -> 0 <= (attempt_fetch fetch timeoutMs no_content call w).1.1 <= timeoutMs.
Proof using Type fetch_time.
  intros Ht. unfold attempt_fetch. destruct (fetch call w) as [[t x|] w'] eqn:E; [|cbn; lia].
  apply fetch_time in E. destruct (t <=? timeoutMs) eqn:El; cbn; lia.
Qed.

(** Each attempt within the deadline, and the pauses between them *)
Lemma fetch_loop_time no_content call left attempt w :
  0 <= timeoutMs -> 0 <= attempt ->
  0 <= (fetch_loop fetch timeoutMs no_content call left attempt w).1.1
    <= Z.of_nat (S left) * timeoutMs + 100 * Z.of_nat left * attempt + 50 * Z.of_nat left * Z.of_nat (S left).
Proof using Type fetch_time.
  intros Ht. revert attempt w. induction left as [|left IH]; intros attempt w Ha; cbn [fetch_loop];
    pose proof (attempt_time no_content call w Ht) as Hone;
    destruct (attempt_fetch fetch timeoutMs no_content call w) as [[t r] w'] eqn:E; cbn [fst] in Hone.
  - destruct r; cbn; lia.
  - destruct r as [v|e]; [cbn [fst]; nia|]. destruct (retryable_error e); [|cbn [fst]; nia].
    pose proof (IH (attempt + 1) w' ltac:(lia)) as Hrest.
    destruct (fetch_loop fetch timeoutMs no_content call left (attempt + 1) w') as [[t' r'] w'']. cbn [fst] in *. nia.
Qed.
End attempts.

(** A body comes from a response of success. *)
Lemma attempt_ok {W} (fetch : fetch_call -> W -> reply fetch_resp * W) timeoutMs no_content call w t v w' :
  attempt_fetch fetch timeoutMs no_content call w = (t, Ok v, w') ->
  exists t' resp, fetch call w = (Settles t' (Ok resp), w') /\ fr_ok resp = true /\
    match v with
    | Some body => exists text, fr_text resp = Some text /\ parse_body text = Some body
    | None => no_content = true /\ fr_status resp = 204
    end.
Proof.
  unfold attempt_fetch. destruct (fetch call w) as [[t0 x|] w0]; [|done]. destruct (t0 <=? timeoutMs); [|done].
  destruct x as [resp|e]; [|done]. intros [= <- Hr <-]. exists t0, resp. split; [done|].
  unfold read_response in Hr. destruct (no_content && (fr_status resp =? 204)) eqn:En.
  { injection Hr as <-. apply andb_true_iff in En as [-> Hs]. bool_simpl. unfold fr_ok. by rewrite Hs. }
  destruct (fr_text resp) as [text|]; [|done]. destruct (parse_body text) as [body|] eqn:Eb; [|done].
  destruct (fr_ok resp); cbn [negb] in Hr; [|done]. injection Hr as <-. split; [done|]. by exists text.
Qed.

Lemma attempts_last {W} (fetch : fetch_call -> W -> reply fetch_resp * W) timeoutMs no_content call n w earlier last w' :
  attempts_run fetch timeoutMs no_content call n w = (earlier ++ [last], w') ->
  exists w1, attempt_fetch fetch timeoutMs no_content call w1 = (last.1, last.2, w').
Proof.
  revert w earlier. induction n as [|n IH]; intros w earlier; cbn [attempts_run]; [intros [= ? _]; by destruct earlier|].
  destruct (attempt_fetch fetch timeoutMs no_content call w) as [[t r] w0] eqn:E.
  destruct (attempts_run fetch timeoutMs no_content call n w0) as [rs w2] eqn:Er.
  destruct earlier as [|a earlier]; intros [= <- Hrs <-].
  - exists w. rewrite E. destruct n; cbn in Er; [by injection Er as _ <-|]. subst rs.
    destruct (attempt_fetch _ _ _ _ w0) as [[? ?] ?]. destruct (attempts_run _ _ _ _ n _). done.
  - apply (IH w0 earlier). rewrite Er. by f_equal.
Qed.

(** ** Properties *)


(** The page envelope survives the way from the server to the browser: what a route sends for a page, the
    browser's registry reads back as the same page, unless a part other than the token is [null]; and a
    page of the backend always gets items, a page number and counts. *)
Theorem page_envelope_roundtrip :
  (forall p, pg_items p <> JNull -> pg_page p <> JNull -> pg_perPage p <> JNull -> pg_total p <> JNull ->
     mapPage (toPageResponse p) = Some p) /\
  (forall raw p, mapPage raw = Some p ->
     pg_items p <> JNull /\ pg_page p <> JNull /\ pg_perPage p <> JNull /\ pg_total p <> JNull).
Proof.
  assert (forall v, v <> JNull -> forall d, nullish (Some v) d = v) as Hn by (intros [] Hv d; done).
  assert (forall o d, d <> JNull -> nullish o d <> JNull) as Hd by (intros [[]|] d Hv; done).
  split.
  - intros [items page perPage total token] H1 H2 H3 H4. cbn in H1, H2, H3, H4.
    unfold mapPage, toPageResponse. cbn [pg_items pg_page pg_perPage pg_total pg_nextToken json_get obj_get String.eqb Ascii.eqb Bool.eqb].
    rewrite !Hn by done. by destruct token.
  - intros raw p Hp. unfold mapPage in Hp. destruct raw; try discriminate Hp; injection Hp as <-; cbn [pg_items pg_page pg_perPage pg_total];
      repeat split; repeat apply Hd; done.
Qed.

(** ** Examples *)

(** A backend that fails [n] times with a 503, then answers. *)
Definition flaky (call : fetch_call) (n : nat) : reply fetch_resp * nat :=
  match n with
  | O => (Settles 5 (Ok (mkFetched 200 "OK" (Some (to_chars "[1]")))), O)
  | S n' => (Settles 5 (Ok (mkFetched 503 "Service Unavailable" (Some []))), n')
  end.
Definition dev_env : dash_env := mkEnv true false "" "".

Example flaky_twice : backendFetch flaky dev_env 8000 "http://b" "/admin/users" (get_init None) 2%nat
  = (315, Ok (Some (JArr [JNum (NInt 1)])), 0%nat).
Proof. vm_compute. reflexivity. Qed.


Lemma page_envelope_roundtrip_witness :
  let p := mkPage (JArr [JStr "d"]) (JNum (NInt 2)) (JNum (NInt 25)) (JNum (NInt 26)) JNull in
  mapPage (toPageResponse p) = Some p.
Proof. apply page_envelope_roundtrip; discriminate. Defined.
