(* ===== verification/DashQuery.v ===== *)
(** * Queries of the dashboard: URL parameters and pagination

    [dashboard/lib/api/pagination.ts], [response.ts] and the query strings of [bff-repositories.ts] and
    [backend/*.ts], over a model of [URLSearchParams] (application/x-www-form-urlencoded).  Both ends of a
    list request are here: what the browser writes after the [?], and what the route reads from it. *)

From S2P Require Import Prelude Json JsonText Resilience CliFiles CliInput Dashboard DashFetch.

(** ** [URLSearchParams] *)

Definition hex_upper (n : Z) : ascii := if n <? 10 then chr (48 + n) else chr (55 + n).

Definition form_plain (c : ascii) : bool :=
  let n := code c in
  (48 <=? n) && (n <=? 57) || (65 <=? n) && (n <=? 90) || (97 <=? n) && (n <=? 122) || bool_decide (n ∈ [42; 45; 46; 95]).

(** One byte of the UTF-8 coding *)
Definition form_byte (c : ascii) : chars :=
  if code c =? 32 then ["+"%char]
  else if form_plain c then [c]
  else ["%"%char; hex_upper (code c / 16); hex_upper (code c mod 16)].

Definition form_encode (s : string) : chars := flat_map form_byte (utf8_encode (to_chars s)).

(** [sp.toString()] *)
Fixpoint form_serialize (l : list (string * string)) : chars :=
  match l with
  | [] => []
  | [(k, v)] => form_encode k ++ "="%char :: form_encode v
  | (k, v) :: l' => form_encode k ++ "="%char :: form_encode v ++ "&"%char :: form_serialize l'
  end.

Fixpoint percent_decode (s : chars) : chars :=
  match s with
  | [] => []
  | c :: s1 =>
      if code c =? 43 then chr 32 :: percent_decode s1
      else if code c =? 37 then
        match s1 with
        | a :: b :: s2 =>
            match hex_val a, hex_val b with
            | Some x, Some y => chr (x * 16 + y) :: percent_decode s2
            | _, _ => c :: percent_decode s1
            end
        | _ => c :: percent_decode s1
        end
      else c :: percent_decode s1
  end.

Definition form_decode (s : chars) : string := buffer_text (percent_decode s).

(** The name and the value of a pair: split at the first [=]. *)
Fixpoint cut (sep : ascii) (s : chars) : chars * option chars :=
  match s with
  | [] => ([], None)
  | c :: s' => if Ascii.eqb c sep then ([], Some s') else let '(a, b) := cut sep s' in (c :: a, b)
  end.

Definition form_pair (s : chars) : string * string :=
  let '(k, v) := cut "="%char s in (form_decode k, form_decode (default [] v)).

(** [new URLSearchParams(text)]: the pieces between [&], empty ones left out *)
Definition form_parse (s : chars) : list (string * string) :=
  map (fun p => form_pair (to_chars p)) (filter (fun p => is_empty p = false) (split_on "&"%char [] s)).

(** [params.get(name)] *)
Definition param (name : string) (params : list (string * string)) : option string := obj_get name params.

(** [qs] of [bff-repositories.ts], and the conditional spreads of [backend/*.ts]: empty values are left out *)
Definition truthy_params (params : list (string * option string)) : list (string * string) :=
  omap (fun kv => match kv.2 with Some v => if is_empty v then None else Some (kv.1, v) | None => None end) params.

Definition qs (params : list (string * option string)) : string := of_chars (form_serialize (truthy_params params)).

(** ** [pagination.ts] *)

Definition DEFAULT_PAGE : Z := 1.
Definition DEFAULT_PER_PAGE : Z := 25.
Definition MAX_PER_PAGE : Z := 100.

Inductive SortDir := Asc | Desc.
#[export] Instance SortDir_eq_dec : EqDecision SortDir.
Proof. solve_decision. Defined.
Definition sort_dir (d : SortDir) : string := match d with Asc => "asc" | Desc => "desc" end.

Record PageQuery := mkQuery {
  q_page : Z;
  q_perPage : Z;
  q_search : option string;
  q_sortBy : option string;
  q_sortDir : option SortDir
}.

Definition badRequestError (message : string) : dash_error := ApiError 400 "bad_request" message.

Definition parseBoundedInt (raw : option string) (fallback min max : Z) (name : string) : result dash_error Z :=
  match raw with
  | None | Some "" => Ok fallback
  | Some s =>
      match digits_val 0 (to_chars s) with
      | None => Err (badRequestError (name +:+ " must be an integer"))
      | Some parsed =>
          if (parsed <? min) || (max <? parsed)
          then Err (badRequestError (name +:+ " must be between " +:+ show_Z min +:+ " and " +:+ show_Z max))
          else Ok parsed
      end
  end.

Definition clampSearch (raw : option string) : option string :=
  match raw with
  | None => None
  | Some s => let trimmed := js_trim s in if 0 <? strlen trimmed then Some (slice_to 200 trimmed) else None
  end.

Definition normalizeSort (raw : option string) (allowed : list string) : option string :=
  match raw with
  | None | Some "" => None
  | Some s => if bool_decide (s ∈ allowed) then Some s else None
  end.

Definition normalizeDir (raw : option string) : option SortDir :=
  match raw with
  | None => None
  | Some s =>
      let lower := to_lower s in
      if String.eqb lower "asc" then Some Asc else if String.eqb lower "desc" then Some Desc else None
  end.

Record PaginationOptions := mkOptions { allowedSortFields : list string; defaultPerPage : option Z }.

Definition parsePagination (params : list (string * string)) (options : PaginationOptions) : result dash_error PageQuery :=
  match parseBoundedInt (param "per_page" params) (default DEFAULT_PER_PAGE (defaultPerPage options)) 1 MAX_PER_PAGE "per_page" with
  | Err e => Err e
  | Ok perPage =>
      match parseBoundedInt (param "page" params) DEFAULT_PAGE 1 10000 "page" with
      | Err e => Err e
      | Ok page =>
          Ok (mkQuery page perPage (clampSearch (param "search" params))
                (normalizeSort (param "sort_by" params) (allowedSortFields options)) (normalizeDir (param "sort_dir" params)))
      end
  end.

(** The values [parsePagination] leaves out of its object are [None] already. *)
Definition toPageQuery (raw : PageQuery) : PageQuery :=
  mkQuery (q_page raw) (q_perPage raw)
    (if truthy (q_search raw) then q_search raw else None)
    (if truthy (q_sortBy raw) then q_sortBy raw else None)
    (q_sortDir raw).

(** [String(n)] *)
Definition num_text (n : Z) : string := of_chars (print_num (NInt n)).

(** The parameters every list request starts with *)
Definition page_params (q : PageQuery) : list (string * option string) :=
  [("page", Some (num_text (q_page q))); ("per_page", Some (num_text (q_perPage q))); ("search", q_search q)].
Definition sort_params (q : PageQuery) : list (string * option string) :=
  [("sort_by", q_sortBy q); ("sort_dir", sort_dir <$> q_sortDir q)].

(** ** [response.ts] *)

Record dash_response := mkDashResponse { dr_status : Z; dr_json : option json }.

Definition apiSuccess (data : json) : dash_response := mkDashResponse 200 (Some data).
Definition apiCreated (data : json) : dash_response := mkDashResponse 201 (Some data).
Definition apiNoContent : dash_response := mkDashResponse 204 None.
Definition apiError (code message : string) (status : Z) : dash_response :=
  mkDashResponse status (Some (JObj [("error", JObj [("code", JStr code); ("message", JStr message)])])).

Definition badRequest (message : string) : dash_response := apiError "bad_request" message 400.
Definition notFound : dash_response := apiError "not_found" "Not found" 404.
(** The helpers no route uses, with their default messages *)
Definition created (data : json) : dash_response := apiCreated data.
Definition noContent : dash_response := apiNoContent.
Definition unauthorized (message : option string) : dash_response := apiError "unauthorized" (default "Authentication required" message) 401.
Definition forbidden (message : option string) : dash_response := apiError "forbidden" (default "Insufficient role" message) 403.
Definition serverError (message : option string) : dash_response := apiError "internal_error" (default "Internal server error" message) 500.

(** [readJson]: [null] for an empty body and for one that does not parse *)
Definition readJson (text : chars) : json := default JNull (if decide (text = []) then None else parse_json text).

(** ** Lemmas *)

(** *** The coding of parameters *)

Lemma percent_byte c rest : percent_decode (form_byte c ++ rest) = c :: percent_decode rest.
Proof. destruct c as [[] [] [] [] [] [] [] []]; reflexivity. Qed.

Lemma utf8_text_char c rest : utf8_text (utf8_char c ++ rest) = c :: utf8_text rest.
Proof. destruct c as [[] [] [] [] [] [] [] []]; reflexivity. Qed.

Lemma utf8_text_encode s : utf8_text (utf8_encode s) = s.
Proof. induction s as [|c s IH]; [done|]. unfold utf8_encode in *. cbn [flat_map]. by rewrite utf8_text_char, IH. Qed.

Lemma percent_bytes l : percent_decode (flat_map form_byte l) = l.
Proof. induction l as [|c l IH]; [done|]. cbn [flat_map]. by rewrite percent_byte, IH. Qed.

Lemma form_decode_encode s : form_decode (form_encode s) = s.
Proof. unfold form_decode, form_encode, buffer_text. by rewrite percent_bytes, utf8_text_encode, of_to_chars. Qed.

Definition free (sep : ascii) (s : chars) : Prop := Forall (fun c => c <> sep) s.

Lemma form_byte_free c : free "&" (form_byte c) /\ free "=" (form_byte c).
Proof. destruct c as [[] [] [] [] [] [] [] []]; split; apply (bool_decide_unpack _); vm_compute; exact I. Qed.

Lemma form_encode_free s : free "&" (form_encode s) /\ free "=" (form_encode s).
Proof.
  unfold form_encode. induction (utf8_encode (to_chars s)) as [|c l [IH1 IH2]]; [split; constructor|].
  cbn [flat_map]. destruct (form_byte_free c). split; apply Forall_app; by split.
Qed.

Lemma split_on_end sep acc a : free sep a -> split_on sep acc a = [of_chars (rev acc ++ a)].
Proof.
  revert acc. induction a as [|c a IH]; intros acc Ha; cbn; [by rewrite app_nil_r|].
  apply Forall_cons in Ha as [Hc Ha]. destruct (Ascii.eqb_spec c sep); [done|].
  rewrite IH by done. cbn. by rewrite <- app_assoc.
Qed.

Lemma split_on_step sep acc a rest :
  free sep a -> split_on sep acc (a ++ sep :: rest) = of_chars (rev acc ++ a) :: split_on sep [] rest.
Proof.
  revert acc. induction a as [|c a IH]; intros acc Ha; cbn; [by rewrite Ascii.eqb_refl, app_nil_r|].
  apply Forall_cons in Ha as [Hc Ha]. destruct (Ascii.eqb_spec c sep); [done|].
  rewrite IH by done. cbn. by rewrite <- app_assoc.
Qed.

Lemma cut_free sep a rest : free sep a -> cut sep (a ++ sep :: rest) = (a, Some rest).
Proof.
  induction a as [|c a IH]; intros Ha; cbn; [by rewrite Ascii.eqb_refl|].
  apply Forall_cons in Ha as [Hc Ha]. destruct (Ascii.eqb_spec c sep); [done|]. by rewrite IH.
Qed.

Definition pair_text (kv : string * string) : chars := form_encode kv.1 ++ "="%char :: form_encode kv.2.

Lemma pair_text_free kv : free "&" (pair_text kv).
Proof.
  apply Forall_app. split; [apply form_encode_free|]. constructor; [done|apply form_encode_free].
Qed.

Lemma form_pair_text kv : form_pair (pair_text kv) = kv.
Proof.
  destruct kv as [k v]. unfold form_pair, pair_text. cbn [fst snd]. rewrite cut_free by apply form_encode_free.
  cbn [from_option id]. by rewrite !form_decode_encode.
Qed.

Lemma form_split_serialize l :
  l <> [] -> split_on "&" [] (form_serialize l) = map (fun kv => of_chars (pair_text kv)) l.
Proof.
  induction l as [|[k v] [|kv' l] IH]; intros Hl; [done| |].
  - cbn [form_serialize map]. change (form_encode k ++ "="%char :: form_encode v) with (pair_text (k, v)).
    by rewrite split_on_end by apply pair_text_free.
  - rewrite List.map_cons, <- (IH ltac:(done)).
    replace (form_serialize ((k, v) :: kv' :: l)) with (pair_text (k, v) ++ "&"%char :: form_serialize (kv' :: l))
      by (unfold pair_text; cbn [fst snd]; by rewrite <- app_assoc).
    by rewrite split_on_step by apply pair_text_free.
Qed.

(** What the browser writes, the route reads. *)
Lemma form_roundtrip l : form_parse (form_serialize l) = l.
Proof.
  destruct l as [|kv l]; [done|]. unfold form_parse. rewrite form_split_serialize by done.
  induction (kv :: l) as [|kv' l' IH]; [done|]. cbn [map]. rewrite filter_cons_True.
  - cbn [map]. rewrite IH, to_of_chars. by rewrite form_pair_text.
  - destruct kv' as [k v]. unfold pair_text. cbn [fst snd]. destruct (form_encode k); reflexivity.
Qed.

(** *** Reading a parameter *)

Lemma param_none k (l : list (string * string)) : k ∉ map fst l -> param k l = None.
Proof.
  unfold param. induction l as [|[k' v] l IH]; [done|]. cbn. intros Hk%not_elem_of_cons. destruct Hk as [Hne Hk].
  destruct (String.eqb_spec k k'); [done|auto].
Qed.

Lemma truthy_keys k l : k ∈ map fst (truthy_params l) -> k ∈ map fst l.
Proof.
  unfold truthy_params. intros ([k' v] & -> & Hin)%list_elem_of_fmap. apply list_elem_of_omap in Hin as ([k0 [v0|]] & Hin & He); [|done].
  cbn in He. destruct (is_empty v0); [done|]. injection He as -> ->. apply list_elem_of_fmap. by exists (k', Some v).
Qed.

Lemma param_truthy k l :
  NoDup (map fst l) ->
  param k (truthy_params l) = match obj_get k l with Some (Some v) => if is_empty v then None else Some v | _ => None end.
Proof.
  induction l as [|[k' v] l IH]; [done|]. cbn [map fst]. intros [Hn Hnd]%NoDup_cons.
  assert (param k' (truthy_params l) = None) as Hnone by (apply param_none; intros Hin; by apply Hn, truthy_keys).
  cbn [obj_get]. destruct (String.eqb_spec k k') as [->|Hne].
  - destruct v as [v|]; [|done]. unfold truthy_params. cbn. destruct (is_empty v) eqn:Ev; [done|].
    unfold param. cbn. by rewrite String.eqb_refl.
  - rewrite <- (IH Hnd). destruct v as [v|]; [|done]. unfold truthy_params. cbn. destruct (is_empty v); [done|].
    unfold param. cbn. by destruct (String.eqb_spec k k').
Qed.

(** *** Pagination *)

Lemma parseBoundedInt_ok raw fallback min max name n :
  parseBoundedInt raw fallback min max name = Ok n -> min <= fallback <= max -> min <= n <= max.
Proof.
  unfold parseBoundedInt. intros H Hf. destruct raw as [[|c s]|]; [by simplify_eq| |by simplify_eq].
  destruct (digits_val _ _) as [m|]; [|done]. destruct (_ || _) eqn:Eb; [done|]. simplify_eq.
  apply orb_false_iff in Eb as [? ?]. lia.
Qed.

Lemma num_text_parses n : 0 <= n -> num_text n <> "" /\ digits_val 0 (to_chars (num_text n)) = Some n.
Proof.
  intros Hn. unfold num_text, print_num. rewrite to_of_chars. assert (n <? 0 = false) as -> by lia. cbn [Datatypes.app].
  rewrite Z.abs_eq by done. destruct (print_nat_spec n) as (d & ds & -> & Hd & Hv); [done|]. split; [done|]. naive_solver.
Qed.

Lemma parseBoundedInt_text n fallback min max name :
  0 <= n -> min <= n <= max -> parseBoundedInt (Some (num_text n)) fallback min max name = Ok n.
Proof.
  intros Hn Hb. destruct (num_text_parses n Hn) as [Hne Hv]. unfold parseBoundedInt.
  destruct (num_text n) as [|c s] eqn:E; [done|]. rewrite Hv. assert ((n <? min) || (max <? n) = false) as -> by lia. done.
Qed.

(** The queries a page can ask for. *)
Definition query_ok (allowed : list string) (q : PageQuery) : Prop :=
  1 <= q_page q <= 10000 /\ 1 <= q_perPage q <= MAX_PER_PAGE /\
  (forall s, q_search q = Some s -> s <> "" /\ js_trim s = s /\ strlen s <= 200) /\
  (forall s, q_sortBy q = Some s -> s <> "" /\ s ∈ allowed).

Lemma is_empty_ne s : s <> "" -> is_empty s = false.
Proof. by destruct s. Qed.

Lemma slice_to_all n s : (String.length s <= n)%nat -> slice_to n s = s.
Proof.
  unfold slice_to. revert n. induction s as [|c s IH]; intros [|n] Hl; cbn [String.substring String.length] in *; [done|done|lia|].
  f_equal. apply IH. lia.
Qed.

Lemma clampSearch_ok s : s <> "" -> js_trim s = s -> strlen s <= 200 -> clampSearch (Some s) = Some s.
Proof.
  intros Hne Ht Hl. unfold clampSearch. rewrite Ht. unfold strlen in *.
  assert (0 <? Z.of_nat (String.length s) = true) as -> by (by destruct s).
  by rewrite slice_to_all by lia.
Qed.

Lemma clampSearch_bounds raw s : clampSearch raw = Some s -> s <> "" /\ strlen s <= 200.
Proof.
  unfold clampSearch. destruct raw as [r|]; [|done]. destruct (_ <? _) eqn:El; [|done]. intros [= <-].
  unfold strlen in *. pose proof (length_slice_to 200 (js_trim r)). split; [|lia].
  destruct (js_trim r) as [|c t]; [done|]. done.
Qed.

Lemma normalizeDir_text d : normalizeDir (Some (sort_dir d)) = Some d.
Proof. by destruct d. Qed.

Lemma sort_dir_nonempty d : is_empty (sort_dir d) = false.
Proof. by destruct d. Qed.

Definition PAGE_KEYS : list string := ["page"; "per_page"; "search"; "sort_by"; "sort_dir"].

Lemma parseBoundedInt_err raw fallback min max name e :
  parseBoundedInt raw fallback min max name = Err e -> exists m, e = ApiError 400 "bad_request" m.
Proof.
  unfold parseBoundedInt. destruct raw as [[|c s]|]; try done.
  destruct (digits_val _ _); [destruct (_ || _)|]; intros [= <-]; by eexists.
Qed.

Lemma normalizeSort_allowed raw allowed s : normalizeSort raw allowed = Some s -> s <> "" /\ s ∈ allowed.
Proof.
  unfold normalizeSort. destruct raw as [[|c t]|]; [done| |done].
  destruct (bool_decide _) eqn:Eb; [|done]. intros [= <-]. bool_simpl. done.
Qed.

(** The bounds of a query that was read *)
Definition page_bounded (allowed : list string) (q : PageQuery) : Prop :=
  1 <= q_page q <= 10000 /\ 1 <= q_perPage q <= MAX_PER_PAGE /\
  (forall s, q_search q = Some s -> s <> "" /\ strlen s <= 200) /\
  (forall s, q_sortBy q = Some s -> s <> "" /\ s ∈ allowed).

Lemma parsePagination_bounded params options :
  1 <= default DEFAULT_PER_PAGE (defaultPerPage options) <= MAX_PER_PAGE ->
  match parsePagination params options with
  | Ok q => page_bounded (allowedSortFields options) q
  | Err e => exists m, e = ApiError 400 "bad_request" m
  end.
Proof.
  intros Hd. unfold parsePagination.
  destruct (parseBoundedInt (param "per_page" params) _ _ _ _) as [perPage|e] eqn:Ep; [|by eapply parseBoundedInt_err].
  destruct (parseBoundedInt (param "page" params) _ _ _ _) as [page|e] eqn:Eg; [|by eapply parseBoundedInt_err].
  apply parseBoundedInt_ok in Ep; [|done]. apply parseBoundedInt_ok in Eg; [|unfold DEFAULT_PAGE; lia].
  split_and!; cbn [q_page q_perPage]; [lia..|intros s; apply clampSearch_bounds|intros s; apply normalizeSort_allowed].
Qed.

Lemma toPageQuery_id allowed q : page_bounded allowed q -> toPageQuery q = q.
Proof.
  intros (_ & _ & Hs & Hsort). destruct q as [page per [s|] [t|] dir]; unfold toPageQuery; cbn in *;
    rewrite ?is_empty_ne; first [done|by apply Hs|by apply Hsort].
Qed.

(** Both ends of a list request. *)
Lemma query_read q allowed defaultPer (filters : list (string * option string)) :
  query_ok allowed q -> NoDup (map fst filters) -> (forall k, k ∈ map fst filters -> k ∉ PAGE_KEYS) ->
  let params := form_parse (to_chars (qs (page_params q ++ sort_params q ++ filters))) in
  parsePagination params (mkOptions allowed defaultPer) = Ok q /\
  (forall k, k ∉ PAGE_KEYS ->
     param k params = match obj_get k filters with Some (Some v) => if is_empty v then None else Some v | _ => None end).
Proof.
  intros (Hpage & Hper & Hs & Hsort) Hnd Hdisj params.
  assert (params = truthy_params (page_params q ++ sort_params q ++ filters)) as ->
    by (unfold params, qs; by rewrite to_of_chars, form_roundtrip).
  assert (NoDup (map fst (page_params q ++ sort_params q ++ filters))) as Hnd'.
  { rewrite !map_app, app_assoc. apply NoDup_app. split; [apply (bool_decide_unpack _); vm_compute; exact I|].
    split; [|done]. intros k Hk Hf. apply (Hdisj k Hf). done. }
  assert (forall n, is_empty (num_text n) = true -> 0 <= n -> False) as Hnum
    by (intros n He Hn; destruct (num_text_parses n Hn) as [Hne _]; by destruct (num_text n)).
  split.
  - unfold parsePagination. rewrite !param_truthy by done. cbn [page_params sort_params Datatypes.app obj_get String.eqb Ascii.eqb Bool.eqb allowedSortFields defaultPerPage].
    destruct (is_empty (num_text (q_perPage q))) eqn:E1; [exfalso; apply (Hnum _ E1); lia|].
    destruct (is_empty (num_text (q_page q))) eqn:E2; [exfalso; apply (Hnum _ E2); lia|].
    rewrite !parseBoundedInt_text by (unfold MAX_PER_PAGE in *; lia).
    destruct q as [page per search sortBy dir]. cbn in *. f_equal. f_equal.
    + destruct search as [s|]; [|done]. destruct (Hs s eq_refl) as (Hne & Ht & Hl). rewrite is_empty_ne by done. by apply clampSearch_ok.
    + destruct sortBy as [s|]; [|done]. destruct (Hsort s eq_refl) as [Hne Hin]. rewrite is_empty_ne by done.
      unfold normalizeSort. destruct s; [done|]. by rewrite bool_decide_true.
    + destruct dir as [d|]; [|done]. cbn. rewrite sort_dir_nonempty. apply normalizeDir_text.
  - intros k Hk. rewrite param_truthy by done.
    assert (forall l l' : list (string * option string), k ∉ map fst l -> obj_get k (l ++ l') = obj_get k l') as Hget.
    { intros l l'. induction l as [|[k' v] l IH]; [done|]. cbn. intros [Hne Hn]%not_elem_of_cons.
      destruct (String.eqb_spec k k'); [done|auto]. }
    rewrite app_assoc, Hget; [done|]. done.
Qed.

(** ** Properties *)

(** What a list route reads of its query is within bounds, whatever the URL holds: the page is between 1 and
    10000 and the page size between 1 and 100, or the request is refused with a 400; a search is not empty and
    at most 200 characters long; only an allowed field can be sorted by.  Missing parameters take the defaults. *)
Theorem pagination_bounds params options :
  1 <= default DEFAULT_PER_PAGE (defaultPerPage options) <= MAX_PER_PAGE ->
  match parsePagination params options with
  | Ok q =>
      1 <= q_page q <= 10000 /\ 1 <= q_perPage q <= MAX_PER_PAGE /\
      (forall s, q_search q = Some s -> s <> "" /\ strlen s <= 200) /\
      (forall s, q_sortBy q = Some s -> s <> "" /\ s ∈ allowedSortFields options) /\
      toPageQuery q = q
  | Err e => exists m, e = ApiError 400 "bad_request" m
  end /\
  parsePagination [] options
    = Ok (mkQuery 1 (default DEFAULT_PER_PAGE (defaultPerPage options)) None None None).
Proof.
  intros Hd. split; [|done]. pose proof (parsePagination_bounded params options Hd) as Hb.
  destruct (parsePagination params options) as [q|e]; [|done]. pose proof (toPageQuery_id _ _ Hb).
  unfold page_bounded in Hb. tauto.
Qed.

(** A list request means the same at both ends.  For a query within the bounds, the parameters the browser
    puts in the URL, percent-encoded, are read by the route as exactly that query, and every filter it adds
    under another name is read with its value (an empty one as absent). *)
Theorem query_roundtrip q allowed defaultPer (filters : list (string * option string)) :
  query_ok allowed q -> NoDup (map fst filters) -> (forall k, k ∈ map fst filters -> k ∉ PAGE_KEYS) ->
  let params := form_parse (to_chars (qs (page_params q ++ sort_params q ++ filters))) in
  parsePagination params (mkOptions allowed defaultPer) = Ok q /\
  (forall k, k ∉ PAGE_KEYS ->
     param k params = match obj_get k filters with Some (Some v) => if is_empty v then None else Some v | _ => None end).
Proof. apply query_read. Qed.

(** ** Examples *)

Definition sample_query : PageQuery := mkQuery 2 25 (Some "50% off & more") (Some "hostname") (Some Desc).

Example qs_text : qs (page_params sample_query ++ sort_params sample_query ++ [("status", Some "active"); ("chain_status", None)])
  = "page=2&per_page=25&search=50%25+off+%26+more&sort_by=hostname&sort_dir=desc&status=active".
Proof. vm_compute. reflexivity. Qed.

Lemma pagination_bounds_witness :
  parsePagination [("page", "0")] (mkOptions [] (Some 25)) = Err (badRequestError "page must be between 1 and 10000") /\
  parsePagination [] (mkOptions [] (Some 25)) = Ok (mkQuery 1 25 None None None).
Proof.
  split; [vm_compute; reflexivity|].
  apply (pagination_bounds [] (mkOptions [] (Some 25))). vm_compute. split; discriminate.
Defined.

Lemma query_roundtrip_witness :
  parsePagination (form_parse (to_chars (qs (page_params sample_query ++ sort_params sample_query ++ [("status", Some "active")]))))
    (mkOptions ["hostname"] (Some 25)) = Ok sample_query.
Proof.
  apply (query_roundtrip sample_query ["hostname"] (Some 25) [("status", Some "active")]).
  - split_and!; [vm_compute; discriminate..| |].
    + intros s [= <-]. split_and!; [done|vm_compute; reflexivity|vm_compute; discriminate].
    + intros s [= <-]. split; [done|]. by left.
  - apply (bool_decide_unpack _). vm_compute. exact I.
  - intros k Hk. apply list_elem_of_singleton in Hk as ->. apply (bool_decide_unpack _). vm_compute. exact I.
Defined.
