(* ===== verification/DashAuth.v ===== *)
(** * The dashboard's edge: middleware, sign-in routes, PKCE, Cognito client

    [dashboard/middleware.ts], [app/api/auth/*/route.ts], [lib/auth/pkce.ts], [lib/auth/app-url.ts],
    [lib/auth/cognito-client.ts], [lib/api/bff-context.ts] and the accessors of [lib/auth/session.ts].  Cookies are the
    map of [Dashboard]; the signature check, SHA-256, random bytes and the token endpoint are parameters.
    A redirect keeps its target and the base it is resolved against. *)

From S2P Require Import Prelude Base64 Json JsonText Resilience CliFiles CliInput Dashboard DashFetch DashQuery.

(** ** [middleware.ts] *)

Definition PUBLIC_PATHS : list string :=
  ["/login"; "/api/auth/login"; "/api/auth/refresh"; "/api/auth/logout"; "/_next"; "/favicon.ico"; "/public"].

Definition isPublicPath (path : string) : bool :=
  existsb (fun p => String.eqb path p || starts_with (p +:+ "/") path) PUBLIC_PATHS.

(** The [matcher] of [config]: the paths the middleware runs for ([.] in [favicon.ico] is any character) *)
Definition any_char_prefix (a b rest : string) : bool :=
  starts_with a rest && match slice_from (String.length a) rest with String _ r => starts_with b r | EmptyString => false end.
Definition matcher (path : string) : bool :=
  starts_with "/" path &&
  let rest := slice_from 1 path in
  negb (existsb (fun p => starts_with p rest) ["api/auth"; "_next/static"; "_next/image"; "public"]
        || any_char_prefix "favicon" "ico" rest).

(** [-] and [_] of base64url to the standard alphabet *)
Definition from_url_alphabet (s : chars) : chars :=
  map (fun c => if Ascii.eqb c "-" then "+"%char else if Ascii.eqb c "_" then "/"%char else c) s.

Definition parseJwtExp (token : string) : option num :=
  match js_split "."%char token with
  | [_; payload; _] =>
      match atob (from_url_alphabet (to_chars payload)) ≫= parse_json with
      | Some v => match json_get "exp" v with Some (JNum n) => Some n | _ => None end
      | None => None
      end
  | _ => None
  end.

(** What the middleware answers: let the request through, with the headers replaced or not; or redirect
    with the [redirect] parameter, the two token cookies deleted or not. *)
Inductive mw_result :=
| MwNext (headers : option (list (string * string)))
| MwRedirect (target redirect : string) (clear : bool).

(** [now]: [Date.now()] *)
Definition middleware (env : dash_env) (now : Z) (pathname : string) (headers : list (string * string)) (j : jar) : mw_result :=
  if e_authDisabled env then MwNext None
  else if isPublicPath pathname then MwNext None
  else
    match cookie "vg_access_token" j with
    | None | Some "" => MwRedirect "/login" pathname false
    | Some accessToken =>
        let requestHeaders :=
          if starts_with "/api/" pathname then set_header "authorization" ("Bearer " +:+ accessToken) headers else headers in
        match parseJwtExp accessToken with
        | Some exp =>
            if num_lt exp (now / 1000 + 60) then
              if truthy (cookie "vg_refresh_token" j) then MwRedirect "/api/auth/refresh" pathname false
              else MwRedirect "/login" pathname true
            else MwNext (Some requestHeaders)
        | None => MwNext (Some requestHeaders)
        end
    end.

(** ** [pkce.ts] *)

Definition PKCE_CHARS : chars := to_chars "ABCDEFGHIJKLMNOPQRSTUVWXYZabcdefghijklmnopqrstuvwxyz0123456789-._~".

Definition base64Url (bytes : chars) : string :=
  of_chars (filter (fun c => c <> "="%char)
    (map (fun c => if Ascii.eqb c "+" then "-"%char else if Ascii.eqb c "/" then "_"%char else c) (btoa bytes))).

Definition pkce_char (byte : ascii) : ascii := nth (Z.to_nat (code byte mod Z.of_nat (List.length PKCE_CHARS))) PKCE_CHARS "A"%char.

(** [random n]: the [n] bytes of [crypto.getRandomValues] *)
Definition generateCodeVerifier (random : nat -> chars) (length : Z) : result error string :=
  if (length <? 43) || (128 <? length) then Err (OtherError "Error" "PKCE verifier length must be between 43 and 128")
  else Ok (of_chars (map pkce_char (random (Z.to_nat length)))).

Definition generateCodeChallenge (sha256 : chars -> chars) (verifier : string) : string :=
  base64Url (sha256 (utf8_encode (to_chars verifier))).

Definition generatePKCE (random : nat -> chars) (sha256 : chars -> chars) : result error (string * string) :=
  match generateCodeVerifier random 64 with
  | Ok v => Ok (v, generateCodeChallenge sha256 v)
  | Err e => Err e
  end.

Definition generateOAuthState (random : nat -> chars) : string := base64Url (random 32%nat).

(** ** [app-url.ts] *)

Definition appBaseUrl (headers : list (string * string)) (configured : option string) (origin : string) : string :=
  let header k := obj_get k headers in
  let direct :=
    match header "host" with
    | Some host =>
        if negb (is_empty host) && negb (starts_with "0.0.0.0" host)
        then Some (default "http" (header "x-forwarded-proto") +:+ "://" +:+ host) else None
    | None => None
    end in
  match header "x-forwarded-host" with
  | Some fwd =>
      if is_empty fwd then
        match direct with
        | Some u => u
        | None => match js_trim <$> configured with Some c => if is_empty c then origin else strip_trailing_slashes c | None => origin end
        end
      else default "https" (header "x-forwarded-proto") +:+ "://" +:+ js_trim (default fwd (head (js_split ","%char fwd)))
  | None =>
      match direct with
      | Some u => u
      | None => match js_trim <$> configured with Some c => if is_empty c then origin else strip_trailing_slashes c | None => origin end
      end
  end.

(** ** [cognito-client.ts] *)

Record CognitoClientConfig := mkCognito {
  cc_domain : string;
  cc_clientId : string;
  cc_clientSecret : option string;
  cc_redirectUri : string;
  cc_appUrl : string
}.

Record cognito_env := mkCognitoEnv {
  ce_domain : option string;
  ce_clientId : option string;
  ce_appUrl : option string;
  ce_redirectUri : option string;
  ce_clientSecret : option string
}.

Inductive cognito_error := CognitoClientError (status : Z) (errcode message : json).

Definition mock_cognito : CognitoClientConfig :=
  mkCognito "localhost" "mock-client-id" None "http://localhost:3000/api/auth/callback/cognito" "http://localhost:3000".

Definition getCognitoConfig (env : dash_env) (ce : cognito_env) : result cognito_error CognitoClientConfig :=
  if e_authDisabled env then Ok mock_cognito
  else
    let domain := default "" (ce_domain ce) in
    let clientId := default "" (ce_clientId ce) in
    let appUrl := default "http://localhost:3000" (ce_appUrl ce) in
    let redirectUri := default (appUrl +:+ "/api/auth/callback/cognito") (ce_redirectUri ce) in
    if is_empty domain || is_empty clientId
    then Err (CognitoClientError 500 (JStr "auth_misconfigured") (JStr "Cognito is not configured"))
    else Ok (mkCognito domain clientId (ce_clientSecret ce) redirectUri appUrl).

Definition authHeaders (c : CognitoClientConfig) : list (string * string) :=
  ("Content-Type", "application/x-www-form-urlencoded") ::
  match cc_clientSecret c with
  | Some secret =>
      if is_empty secret then []
      else [("Authorization", "Basic " +:+ of_chars (btoa (utf8_encode (to_chars (cc_clientId c +:+ ":" +:+ secret)))))]
  | None => []
  end.

Definition token_request (c : CognitoClientConfig) (params : list (string * string)) : fetch_call :=
  mkFetchCall ("https://" +:+ cc_domain c +:+ "/oauth2/token") "POST" (authHeaders c) (Some (of_chars (form_serialize params))).

Definition code_params (c : CognitoClientConfig) (auth_code codeVerifier : string) : list (string * string) :=
  [("grant_type", "authorization_code"); ("client_id", cc_clientId c); ("code", auth_code);
   ("redirect_uri", cc_redirectUri c); ("code_verifier", codeVerifier)].
Definition refresh_params (c : CognitoClientConfig) (refresh : string) : list (string * string) :=
  [("grant_type", "refresh_token"); ("client_id", cc_clientId c); ("refresh_token", refresh)].

(** What the token endpoint's response is read as; [None]: the body of a response of success does not parse *)
Definition token_response (resp : fetch_resp) : result cognito_error (option json) :=
  let body := fr_text resp ≫= parse_json in
  if fr_ok resp then Ok body
  else
    let b := default (JObj []) body in
    Err (CognitoClientError (fr_status resp) (nullish (chain (Some b) "error") (JStr "cognito_error"))
           (nullish (chain (Some b) "error_description") (JStr "Cognito token request failed"))).

Definition getHostedLoginUrl (c : CognitoClientConfig) (codeChallenge state redirectPath : string) : string :=
  "https://" +:+ cc_domain c +:+ "/login?" +:+ of_chars (form_serialize
    [("response_type", "code"); ("client_id", cc_clientId c); ("redirect_uri", cc_redirectUri c);
     ("scope", "openid profile email"); ("code_challenge", codeChallenge); ("code_challenge_method", "S256");
     ("state", state); ("redirect_path", redirectPath)]).

Definition getHostedLogoutUrl (c : CognitoClientConfig) : string :=
  "https://" +:+ cc_domain c +:+ "/logout?" +:+ of_chars (form_serialize
    [("client_id", cc_clientId c); ("logout_uri", cc_appUrl c +:+ "/login")]).

(** ** [app/api/auth] *)

(** A redirect, its target resolved against a base, or a JSON reply *)
Inductive auth_reply := Goes (target base : string) | Says (status : Z) (body : json).

Definition OAUTH_MAX_AGE : Z := 60 * 10.

Section auth_routes.
Context (jwtVerify : string -> string -> string -> option json).
Context (refreshCognitoTokens : string -> option (string * option string * string)).
(** [exchangeAuthorizationCode code verifier]: the access, refresh and id tokens; [None]: it throws. *)
Context (exchange : string -> string -> option (string * option string * string)).
Context (env : dash_env).

(** [GET /api/auth/login] *)
Definition login_route (c : CognitoClientConfig) (random : nat -> nat -> chars) (sha256 : chars -> chars)
    (redirect : option string) (url : string) (j : jar) : result error (auth_reply * jar) :=
  let redirectPath := default "/dashboard" redirect in
  if e_authDisabled env then Ok (Goes redirectPath url, setStoredSession env mock_stored j)
  else
    match generatePKCE (random 0%nat) sha256 with
    | Err e => Err e
    | Ok (codeVerifier, codeChallenge) =>
        let state := generateOAuthState (random 1%nat) in
        Ok (Goes (getHostedLoginUrl c codeChallenge state redirectPath) "",
            <["vg_post_login_redirect" := (redirectPath, OAUTH_MAX_AGE)]>
              (<["vg_oauth_state" := (state, OAUTH_MAX_AGE)]> (<["vg_pkce_verifier" := (codeVerifier, OAUTH_MAX_AGE)]> j)))
    end.

Definition clear_oauth (j : jar) : jar :=
  delete "vg_post_login_redirect" (delete "vg_oauth_state" (delete "vg_pkce_verifier" j)).

Definition auth_failed (base : string) (j : jar) : auth_reply * jar := (Goes "/login?error=auth_failed" base, j).

(** [GET /api/auth/callback/cognito] *)
Definition callback_route (base : string) (code_ state : option string) (j : jar) : auth_reply * jar :=
  let redirectPath := default "/dashboard" (cookie "vg_post_login_redirect" j) in
  if e_authDisabled env then (Goes redirectPath base, clear_oauth (setStoredSession env mock_stored j))
  else
    match code_, state, cookie "vg_pkce_verifier" j with
    | Some c, Some st, Some verifier =>
        if is_empty c || is_empty st || is_empty verifier || negb (bool_decide (Some st = cookie "vg_oauth_state" j)) then auth_failed base j
        else
          match exchange c verifier with
          | None => auth_failed base j
          | Some (access, refresh, id) =>
              match (claims ← verifyCognitoJwt jwtVerify env id; claimsToSession claims) with
              | Err _ => auth_failed base j
              | Ok session => (Goes redirectPath base, clear_oauth (setStoredSession env (mkStored access refresh id session) j))
              end
          end
    | _, _, _ => auth_failed base j
    end.

(** [POST /api/auth/refresh] *)
Definition refresh_route (j : jar) : auth_reply * jar :=
  if e_authDisabled env then (Says 200 (JObj [("session", session_json MOCK_USER_SESSION)]), j)
  else
    match refreshStoredSession jwtVerify refreshCognitoTokens env j with
    | (None, j') => (Says 401 (JObj [("error", JObj [("code", JStr "unauthorized"); ("message", JStr "Session expired")])]), j')
    | (Some s, j') => (Says 200 (JObj [("session", session_json (session s))]), j')
    end.

(** [POST] and [GET /api/auth/logout] *)
Definition logout_post (j : jar) : auth_reply * jar := (Says 200 (JObj [("ok", JBool true)]), (logoutStoredSession env j).2).
Definition logout_get (c : CognitoClientConfig) (j : jar) : auth_reply * jar :=
  (if e_authDisabled env then Goes "/login" "http://localhost:3000" else Goes (getHostedLogoutUrl c) "", (logoutStoredSession env j).2).
End auth_routes.

(** ** [bff-context.ts] and [session.ts] *)

Definition MOCK_VIEWER : UserSession :=
  mkSession "u-001" "admin@corp.example.com" OrgAdmin "org-default" "Acme Corp" ["org_admin"; "auditor"].

(** A session cookie of any shape with a string role is taken as it is. *)
Definition getBffSession (raw : option string) : json :=
  match raw with
  | None | Some "" => session_json MOCK_VIEWER
  | Some text =>
      match parse_json (to_chars text) with
      | Some parsed => match parsed with
                       | JNull => session_json MOCK_VIEWER
                       | _ => match json_get "role" parsed with Some (JStr _) => parsed | _ => session_json MOCK_VIEWER end
                       end
      | None => session_json MOCK_VIEWER
      end
  end.

Definition requireAction (role : DashRole) (action : string) : result dash_error unit :=
  if canPerformAction role action then Ok tt
  else Err (ApiError 403 "forbidden" ("Role '" +:+ dash_role_name role +:+ "' cannot perform '" +:+ action +:+ "'")).

Definition READ_ONLY_ROLES : list DashRole := [Viewer; Auditor].
Definition isReadOnly (role : DashRole) : bool := bool_decide (role ∈ READ_ONLY_ROLES).

(** [setAuthCookies] stores the access token as the id token too. *)
Definition setAuthCookies (env : dash_env) (access refresh : string) (s : UserSession) (j : jar) : jar :=
  setStoredSession env (mkStored access (Some refresh) access s) j.
Definition getAccessToken (j : jar) : option string :=
  match cookie ACCESS_TOKEN_COOKIE j with Some t => if is_empty t then None else Some t | None => None end.
Definition getRefreshToken (j : jar) : option string :=
  match cookie REFRESH_TOKEN_COOKIE j with Some t => if is_empty t then None else Some t | None => None end.
Definition updateSession (s : UserSession) (j : jar) : jar :=
  <[SESSION_COOKIE := (session_cookie_text s, 60 * 60 * 24 * 30)]> j.

(** ** Lemmas *)

Lemma set_header_get k v h : NoDup (obj_keys h) -> obj_get (to_lower k) (set_header k v h) = Some v.
Proof. intros Hh. unfold set_header. by rewrite obj_get_set, String.eqb_refl. Qed.

(** *** Tokens *)

Definition url_char (c : ascii) : ascii := if Ascii.eqb c "+" then "-"%char else if Ascii.eqb c "/" then "_"%char else c.

Lemma base64Url_digits bytes : to_chars (base64Url bytes) = map (fun n => url_char (base64_digit n)) (sextets bytes).
Proof.
  unfold base64Url. rewrite to_of_chars, btoa_sextets, map_app, filter_app, map_map.
  assert (forall l, Forall (fun n => 0 <= n < 64) l -> filter (fun c => c <> "="%char) (map (fun n => url_char (base64_digit n)) l)
    = map (fun n => url_char (base64_digit n)) l) as Hkeep.
  { induction 1 as [|n l Hn _ IH]; [done|]. cbn [map]. rewrite filter_cons_True; [by rewrite IH|].
    destruct (base64_val_digit n Hn) as (_ & Hne & _). unfold url_char. destruct (Ascii.eqb _ "+"); [done|]. by destruct (Ascii.eqb _ "/"). }
  assert (forall f : ascii -> ascii, f "="%char = "="%char -> filter (fun c => c <> "="%char) (map f (base64_padding bytes)) = []) as Hpad.
  { intros f Hf. unfold base64_padding. destruct (Z.of_nat (List.length bytes) mod 3) as [|[[]|[]|]|]; cbn [map]; rewrite ?Hf; done. }
  rewrite Hpad, app_nil_r by done. apply Hkeep, sextets_bounds.
Qed.

Lemma url_alphabet_inv n : 0 <= n < 64 ->
  (if Ascii.eqb (url_char (base64_digit n)) "-" then "+"%char else if Ascii.eqb (url_char (base64_digit n)) "_" then "/"%char else url_char (base64_digit n)) = base64_digit n /\
  url_char (base64_digit n) <> "."%char.
Proof.
  intros Hn. rewrite <- (Z2Nat.id n) by lia. assert (Z.to_nat n < 64)%nat as Hk by lia. revert Hk. generalize (Z.to_nat n).
  intros k Hk. do 64 (destruct k as [|k]; [split; [reflexivity|discriminate]|]). lia.
Qed.

(** The bytes of a base64url segment, read back *)
Lemma atob_base64Url bytes : atob (from_url_alphabet (to_chars (base64Url bytes))) = Some bytes.
Proof.
  rewrite base64Url_digits. unfold from_url_alphabet. rewrite map_map.
  rewrite (map_ext_in _ base64_digit); [apply atob_unpadded|]. intros n Hn. apply url_alphabet_inv.
  pose proof (sextets_bounds bytes) as Hb. rewrite Forall_forall in Hb. apply Hb. by apply list_elem_of_In.
Qed.

Lemma base64Url_free bytes : free "." (to_chars (base64Url bytes)).
Proof.
  rewrite base64Url_digits. apply Forall_fmap. eapply Forall_impl; [apply sextets_bounds|]. intros n Hn. by apply url_alphabet_inv.
Qed.

(** The expiry of a token is read from its payload. *)
Lemma parseJwtExp_token header v signature :
  free "." (to_chars header) -> free "." (to_chars signature) -> jsonable v ->
  parseJwtExp (of_chars (to_chars header ++ "."%char :: to_chars (base64Url (print_json v)) ++ "."%char :: to_chars signature))
  = match json_get "exp" v with Some (JNum n) => Some n | _ => None end.
Proof.
  intros Hh Hs Hv. unfold parseJwtExp, js_split. rewrite to_of_chars.
  rewrite split_on_step by done. rewrite split_on_step by apply base64Url_free. rewrite split_on_end by done.
  cbn [rev Datatypes.app]. rewrite !of_to_chars, atob_base64Url. cbn [mbind option_bind]. by rewrite parse_print_json.
Qed.

(** *** Verifiers *)

Lemma pkce_char_in byte : pkce_char byte ∈ PKCE_CHARS.
Proof.
  unfold pkce_char. apply list_elem_of_In, nth_In.
  pose proof (Z.mod_pos_bound (code byte) (Z.of_nat (List.length PKCE_CHARS)) ltac:(done)). lia.
Qed.

(** The verifier is as RFC 7636 asks: 43 to 128 unreserved characters. *)
Lemma codeVerifier_wf random n v :
  (forall k, List.length (random k) = k) -> generateCodeVerifier random n = Ok v ->
  43 <= strlen v <= 128 /\ strlen v = n /\ Forall (fun c => c ∈ PKCE_CHARS) (to_chars v).
Proof.
  intros Hr Hv. unfold generateCodeVerifier in Hv. destruct (_ || _) eqn:Eb; [done|]. apply orb_false_iff in Eb as [? ?].
  injection Hv as <-. rewrite to_of_chars. unfold strlen. rewrite length_of_chars, length_map, Hr.
  split_and!; [lia..|]. apply Forall_fmap, Forall_forall. intros b _. apply pkce_char_in.
Qed.

(** *** The callback *)

Section callback.
Context (jwtVerify : string -> string -> string -> option json).
Context (exchange : string -> string -> option (string * option string * string)).
Context (env : dash_env).

(** The sign-in this browser started was completed with the identity provider. *)
Definition signed_in (code_ state : option string) (j : jar) (stored : StoredAuthSession) : Prop :=
  exists c st verifier claims payload,
    code_ = Some c /\ c <> "" /\ state = Some st /\ st <> "" /\ cookie "vg_oauth_state" j = Some st /\
    cookie "vg_pkce_verifier" j = Some verifier /\ verifier <> "" /\
    exchange c verifier = Some (accessToken stored, refreshToken stored, idToken stored) /\
    jwtVerify (idToken stored) (e_issuer env) (e_clientId env) = Some payload /\
    payload_claims payload = Ok claims /\ claimsToSession claims = Ok (session stored).

Lemma verify_inv token claims :
  e_authDisabled env = false -> verifyCognitoJwt jwtVerify env token = Ok claims ->
  exists payload, jwtVerify token (e_issuer env) (e_clientId env) = Some payload /\ payload_claims payload = Ok claims.
Proof.
  intros Hd. unfold verifyCognitoJwt. rewrite Hd. destruct (_ || _); [done|].
  destruct (jwtVerify token (e_issuer env) (e_clientId env)) as [payload|]; [|done]. intros Hc. by exists payload.
Qed.

Lemma callback_cases base code_ state j :
  e_authDisabled env = false ->
  callback_route jwtVerify exchange env base code_ state j = auth_failed base j \/
  exists stored, signed_in code_ state j stored /\
    callback_route jwtVerify exchange env base code_ state j
      = (Goes (default "/dashboard" (cookie "vg_post_login_redirect" j)) base, clear_oauth (setStoredSession env stored j)).
Proof.
  intros Hd. unfold callback_route. rewrite Hd.
  destruct code_ as [c|]; [|by left]. destruct state as [st|]; [|by left].
  destruct (cookie "vg_pkce_verifier" j) as [verifier|] eqn:Ev; [|by left].
  destruct (is_empty c || is_empty st || is_empty verifier || negb (bool_decide (Some st = cookie "vg_oauth_state" j))) eqn:Eg; [by left|].
  apply orb_false_iff in Eg as [Eg Hst]. apply orb_false_iff in Eg as [Eg Hv]. apply orb_false_iff in Eg as [Hc Hs].
  apply negb_false_iff, bool_decide_eq_true in Hst.
  destruct (exchange c verifier) as [[[access refresh] id]|] eqn:Ex; [|by left].
  destruct (verifyCognitoJwt jwtVerify env id) as [claims|e] eqn:Ejwt; [|by left].
  destruct (verify_inv id claims Hd Ejwt) as (payload & Hp & Hclaims).
  cbn [mbind]. unfold mbind, result_bind. destruct (claimsToSession claims) as [s|e] eqn:Es; [|by left]. right.
  exists (mkStored access refresh id s). split; [|done].
  exists c, st, verifier, claims, payload. split_and!; try done; by intros ->.
Qed.
End callback.

(** ** Properties *)

(** With authentication on, the middleware lets a request for a protected path through only with an access
    token cookie whose expiry, if it can be read, is at least a minute away; a request for the API goes on with
    exactly that token as its authorization, whatever the client sent.  Every other request is sent to the login
    page or, when a refresh token is there, to the refresh route: both public, so that the middleware
    never redirects to itself. *)
Theorem middleware_gate env now path headers j :
  e_authDisabled env = false -> isPublicPath path = false -> NoDup (obj_keys headers) ->
  match middleware env now path headers j with
  | MwNext h =>
      exists token h', cookie ACCESS_TOKEN_COOKIE j = Some token /\ token <> "" /\ h = Some h' /\
        (forall exp, parseJwtExp token = Some exp -> num_lt exp (now / 1000 + 60) = false) /\
        (starts_with "/api/" path = true -> obj_get "authorization" h' = Some ("Bearer " +:+ token))
  | MwRedirect target redirect clear =>
      redirect = path /\ isPublicPath target = true /\ isPublicPath path = false /\
      (target = "/login" \/ target = "/api/auth/refresh" /\ truthy (cookie REFRESH_TOKEN_COOKIE j) = true /\ clear = false)
  end.
Proof.
  intros Hd Hp Hh. unfold middleware. rewrite Hd, Hp. change "vg_access_token" with ACCESS_TOKEN_COOKIE.
  change "vg_refresh_token" with REFRESH_TOKEN_COOKIE.
  destruct (cookie ACCESS_TOKEN_COOKIE j) as [token|] eqn:Ec; [|by auto].
  destruct token as [|a token']; [by auto|]. set (token := String a token') in *.
  set (h' := if starts_with "/api/" path then _ else headers).
  assert (starts_with "/api/" path = true -> obj_get "authorization" h' = Some ("Bearer " +:+ token)) as Hauth.
  { intros Ha. unfold h'. rewrite Ha. by apply (set_header_get "authorization"). }
  destruct (parseJwtExp token) as [exp|] eqn:Ee; [destruct (num_lt exp _) eqn:El|].
  - destruct (truthy (cookie REFRESH_TOKEN_COOKIE j)) eqn:Er; split_and!; auto.
  - exists token, h'. split_and!; [done|done|done|intros e He; congruence|done].
  - exists token, h'. split_and!; [done|done|done|intros e He; congruence|done].
Qed.

(** C24: the sign-in callback stores a session only for the sign-in this browser started: the state of the request is
    the one in its cookie, the code was exchanged with the verifier in its cookie, and the session is the one
    in the claims of an id token whose signature, issuer and audience were checked.  In every other case no
    cookie changes and the browser goes back to the login page. *)
Theorem callback_sound jwtVerify exchange env base code_ state j :
  e_authDisabled env = false ->
  let '(reply, j') := callback_route jwtVerify exchange env base code_ state j in
  (j' = j /\ reply = Goes "/login?error=auth_failed" base) \/
  exists stored, signed_in jwtVerify exchange env code_ state j stored /\
    cookie SESSION_COOKIE j' = Some (session_cookie_text (session stored)) /\
    cookie ACCESS_TOKEN_COOKIE j' = Some (accessToken stored) /\ cookie ID_TOKEN_COOKIE j' = Some (idToken stored) /\
    cookie "vg_oauth_state" j' = None /\ cookie "vg_pkce_verifier" j' = None.
Proof.
  intros Hd. destruct (callback_cases jwtVerify exchange env base code_ state j Hd) as [->|(stored & Hs & ->)]; [by left|].
  right. exists stored. split; [done|]. unfold setStoredSession, clear_oauth, cookie. rewrite Hd.
  destruct (refreshToken stored) as [r|]; [destruct (is_empty r)|];
    repeat split; by simplify_map_eq.
Qed.

(** ** Examples *)

Definition soon_token : string := "h." +:+ base64Url (to_chars ("{" +:+ of_chars (print_str "exp") +:+ ":1000}")) +:+ ".s".

Example soon_exp : parseJwtExp soon_token = Some (NInt 1000) /\ parseJwtExp "opaque" = None.
Proof. vm_compute. done. Qed.

Definition edge_env : dash_env := mkEnv false false "https://issuer" "client".
Definition token_jar : jar := {[ACCESS_TOKEN_COOKIE := (soon_token, 900)]}.

Example middleware_examples :
  middleware edge_env 900000 "/api/devices" [("authorization", "Bearer forged")] token_jar
    = MwNext (Some [("authorization", "Bearer " +:+ soon_token)]) /\
  middleware edge_env 990000 "/devices" [] token_jar = MwRedirect "/login" "/devices" true /\
  middleware edge_env 0 "/devices" [] ∅ = MwRedirect "/login" "/devices" false.
Proof. vm_compute. done. Qed.

Lemma middleware_gate_witness :
  exists token h', cookie ACCESS_TOKEN_COOKIE token_jar = Some token /\
    middleware edge_env 900000 "/api/devices" [("authorization", "Bearer forged")] token_jar = MwNext (Some h') /\
    obj_get "authorization" h' = Some ("Bearer " +:+ token).
Proof.
  pose proof (middleware_gate edge_env 900000 "/api/devices" [("authorization", "Bearer forged")] token_jar
    eq_refl eq_refl (NoDup_singleton _)) as H.
  destruct (middleware edge_env 900000 "/api/devices" [("authorization", "Bearer forged")] token_jar) as [h|] eqn:E;
    [|vm_compute in E; discriminate].
  destruct H as (token & h' & Hc & _ & -> & _ & Ha). exists token, h'. split_and!; [exact Hc|reflexivity|]. apply Ha. reflexivity.
Defined.

Definition oauth_jar : jar := <["vg_oauth_state" := ("st", 600)]> {["vg_pkce_verifier" := ("v", 600)]}.

Lemma callback_sound_witness :
  callback_route (fun _ _ _ => None) (fun _ _ => None) edge_env "http://d" (Some "code") (Some "other") oauth_jar
    = (Goes "/login?error=auth_failed" "http://d", oauth_jar) /\
  exists j', (callback_route sample_verify (fun _ _ => Some ("a", None, "good")) sample_env "http://d" (Some "code") (Some "st") oauth_jar).2 = j' /\
    exists stored, signed_in sample_verify (fun _ _ => Some ("a", None, "good")) sample_env (Some "code") (Some "st") oauth_jar stored /\
      cookie SESSION_COOKIE j' = Some (session_cookie_text (session stored)).
Proof.
  split; [vm_compute; reflexivity|]. eexists. split; [reflexivity|].
  pose proof (callback_sound sample_verify (fun _ _ => Some ("a", None, "good")) sample_env "http://d" (Some "code") (Some "st") oauth_jar eq_refl) as H.
  destruct (callback_route _ _ _ _ _ _ _) as [r j'] eqn:E. destruct H as [[_ Hr]|(stored & Hs & Hc & _)].
  - vm_compute in E. rewrite Hr in E. discriminate E.
  - exists stored. split; [exact Hs|exact Hc].
Defined.
