(* ===== verification/IsoDate.v ===== *)
(** * Dates

    [new Date(ms).toISOString()] of the language: the proleptic Gregorian calendar in UTC, for the time values a
    [Date] can hold.  The days of an era of 400 years are checked one by one; the rest is periodicity. *)

From S2P Require Import Prelude Json JsonText.

(** A day of the calendar *)
Record civil := mkCivil { c_year : Z; c_month : Z; c_day : Z }.

(** Within an era, which starts on 1 March of a year divisible by 400 *)
Definition civil_of_doe (doe : Z) : civil :=
  let yoe := (doe - doe / 1460 + doe / 36524 - doe / 146096) / 365 in
  let doy := doe - (365 * yoe + yoe / 4 - yoe / 100) in
  let mp := (5 * doy + 2) / 153 in
  let d := doy - (153 * mp + 2) / 5 + 1 in
  let m := if mp <? 10 then mp + 3 else mp - 9 in
  mkCivil (if m <=? 2 then yoe + 1 else yoe) m d.

Definition civil_of_days (days : Z) : civil :=
  let z := days + 719468 in
  let c := civil_of_doe (z mod 146097) in
  mkCivil (c_year c + 400 * (z / 146097)) (c_month c) (c_day c).

(** The day number of a date: the other direction *)
Definition doe_of_civil (c : civil) : Z :=
  let yoe := if c_month c <=? 2 then c_year c - 1 else c_year c in
  let doy := (153 * (if 2 <? c_month c then c_month c - 3 else c_month c + 9) + 2) / 5 + c_day c - 1 in
  yoe * 365 + yoe / 4 - yoe / 100 + doy.

Definition days_of_civil (c : civil) : Z :=
  let y := if c_month c <=? 2 then c_year c - 1 else c_year c in
  let era := y / 400 in
  era * 146097 + doe_of_civil (mkCivil (c_year c - 400 * era) (c_month c) (c_day c)) - 719468.

(** A number in [k] digits *)
Definition pad (k : nat) (n : Z) : string := of_chars (print_pad k n []).

(** Years outside four digits have a sign and six. *)
Definition year_text (y : Z) : string :=
  if (0 <=? y) && (y <=? 9999) then pad 4 y else if y <? 0 then "-" +:+ pad 6 (- y) else "+" +:+ pad 6 y.

Definition MAX_TIME : Z := 8640000000000000.

(** [new Date(ms).toISOString()]; a time value out of range throws. *)
Definition toISOString (ms : Z) : option string :=
  if (- MAX_TIME <=? ms) && (ms <=? MAX_TIME) then
    let c := civil_of_days (ms / 86400000) in
    let t := ms mod 86400000 in
    Some (year_text (c_year c) +:+ "-" +:+ pad 2 (c_month c) +:+ "-" +:+ pad 2 (c_day c) +:+ "T" +:+ pad 2 (t / 3600000) +:+ ":"
          +:+ pad 2 (t / 60000 mod 60) +:+ ":" +:+ pad 2 (t / 1000 mod 60) +:+ "." +:+ pad 3 (t mod 1000) +:+ "Z")
  else None.

(** ** The calendar *)

Definition month_days (y m : Z) : Z :=
  if m =? 2 then if (y mod 4 =? 0) && (negb (y mod 100 =? 0) || (y mod 400 =? 0)) then 29 else 28
  else if bool_decide (m ∈ [4; 6; 9; 11]) then 30 else 31.

Definition doe_check (doe : Z) : bool :=
  let c := civil_of_doe doe in
  (doe_of_civil c =? doe) && (1 <=? c_month c) && (c_month c <=? 12) && (1 <=? c_day c) && (c_day c <=? month_days (c_year c) (c_month c))
  && (let y := if c_month c <=? 2 then c_year c - 1 else c_year c in (0 <=? y) && (y <? 400)).

(** Check the days from [n] on, [fuel] of them. *)
Fixpoint check_days (fuel : nat) (n : Z) : bool :=
  match fuel with O => true | S f => if doe_check n then check_days f (n + 1) else false end.

Lemma check_days_spec fuel n d : check_days fuel n = true -> n <= d < n + Z.of_nat fuel -> doe_check d = true.
Proof.
  revert n. induction fuel as [|f IH]; intros n H Hd; [lia|]. cbn [check_days] in H.
  destruct (doe_check n) eqn:E; [|done]. destruct (decide (d = n)) as [->|]; [done|]. apply (IH (n + 1)); [done|lia].
Qed.

Lemma era_checked : check_days (Z.to_nat 146097) 0 = true.
Proof. vm_compute. reflexivity. Qed.

Lemma doe_ok d : 0 <= d < 146097 -> doe_check d = true.
Proof. intros Hd. apply (check_days_spec (Z.to_nat 146097) 0); [apply era_checked|]. rewrite Z2Nat.id by lia. lia. Qed.

Lemma month_days_period y m k : month_days (y + 400 * k) m = month_days y m.
Proof.
  unfold month_days.
  replace ((y + 400 * k) mod 4) with (y mod 4) by (rewrite <- (Z.mod_add y (100 * k) 4) by lia; f_equal; lia).
  replace ((y + 400 * k) mod 100) with (y mod 100) by (rewrite <- (Z.mod_add y (4 * k) 100) by lia; f_equal; lia).
  replace ((y + 400 * k) mod 400) with (y mod 400) by (rewrite <- (Z.mod_add y k 400) by lia; f_equal; lia).
  done.
Qed.

(** Every day is a day of the calendar, and no two days have the same date. *)
Lemma civil_days z :
  let c := civil_of_days z in
  1 <= c_month c <= 12 /\ 1 <= c_day c <= month_days (c_year c) (c_month c) /\ days_of_civil c = z.
Proof.
  cbn zeta. unfold civil_of_days, days_of_civil. cbn [c_year c_month c_day].
  set (w := z + 719468). pose proof (Z.mod_pos_bound w 146097 ltac:(lia)) as Hm. pose proof (Z.div_mod w 146097 ltac:(lia)) as Hdiv.
  pose proof (doe_ok (w mod 146097) Hm) as Hc. unfold doe_check in Hc. set (c := civil_of_doe (w mod 146097)) in *.
  rewrite !andb_true_iff, !Z.leb_le, Z.eqb_eq, Z.ltb_lt in Hc. destruct Hc as [[[[[Hd Hm1] Hm2] Hd1] Hd2] [Hy1 Hy2]].
  rewrite month_days_period. split_and!; try lia.
  set (y := if c_month c <=? 2 then c_year c - 1 else c_year c) in *.
  assert ((if c_month c <=? 2 then c_year c + 400 * (w / 146097) - 1 else c_year c + 400 * (w / 146097)) / 400 = w / 146097) as ->.
  { replace (if c_month c <=? 2 then _ else _) with (y + (w / 146097) * 400) by (unfold y; destruct (_ <=? 2); lia).
    rewrite Z.div_add by lia. rewrite Z.div_small by lia. lia. }
  replace (mkCivil _ (c_month c) (c_day c)) with c by (destruct c; cbn; f_equal; lia).
  rewrite Hd. unfold w in *. lia.
Qed.

Example iso_epoch : toISOString 0 = Some "1970-01-01T00:00:00.000Z".
Proof. reflexivity. Qed.
Example iso_leap : toISOString 1709210096789 = Some "2024-02-29T12:34:56.789Z".
Proof. reflexivity. Qed.
Example iso_last : toISOString MAX_TIME = Some "+275760-09-13T00:00:00.000Z".
Proof. reflexivity. Qed.
