(* ===== verification/DashRepo.v ===== *)
(** * The dashboard's repositories and routes

    [lib/api/backend/*.ts]: what each operation of the registry asks of the Rust backend;
    [lib/api/bff-repositories.ts]: what the same operation, called in the browser, asks of the dashboard's own
    API; [lib/api/scoped-repository.ts]; and [app/api/*/route.ts], the handlers in between.  An
    operation of the registry is a value of [repo_op], so that the three renderings can be compared.

    A registry runs operations over a state of the world; its replies are JSON the code does not check. *)

From S2P Require Import Prelude Json JsonText Resilience CliFiles CliInput Dashboard DashFetch DashQuery.

(** ** Operations *)

Inductive repo_op :=
| DevicesList (q : PageQuery) (f : filters)
| DeviceGet (id : string)
| DeviceDeactivate (id : string)
| DeviceInventory (id : string)
| DeviceEvents (id : string) (q : PageQuery)
| PoliciesList (q : PageQuery) (f : filters)
| PolicyGet (id : string)
| PolicyVersions (name : string)
| ViolationsList (q : PageQuery) (f : filters)
| ViolationGet (id : string)
| ExceptionsList (q : PageQuery) (f : filters)
| ExceptionGet (id : string)
| ExceptionCreate (ruleId reason : string)
| ExceptionApprove (id approver : string)
| ExceptionReject (id approver reason : string)
| AuditList (q : PageQuery) (f : filters)
| AuditGet (id : string)
| UsersList (q : PageQuery)
| UserInvite (email role : string)
| UserDisable (id : string)
| OrgGet
| OrgUpdate (patch : filters)
| GetStats.

Record http_req := mkHttp { hq_method : string; hq_path : string; hq_body : option json }.
Definition http_get (path : string) : http_req := mkHttp "GET" path None.

(** [encodeURIComponent]: letters, digits and [-_.!~*'()] stay. *)
Definition uri_plain (c : ascii) : bool :=
  let n := code c in
  (48 <=? n) && (n <=? 57) || (65 <=? n) && (n <=? 90) || (97 <=? n) && (n <=? 122)
  || bool_decide (n ∈ [45; 95; 46; 33; 126; 42; 39; 40; 41]).
Definition encodeURIComponent (s : string) : string :=
  of_chars (flat_map (fun c => if uri_plain c then [c] else ["%"%char; hex_upper (code c / 16); hex_upper (code c mod 16)])
    (utf8_encode (to_chars s))).

(** A filter of the caller: a string, when it is set *)
Definition filter_of (k : string) (f : filters) : option string := as_string (obj_get k f).

(** ** The backend: [backend/*.ts] *)

Definition STATUS_TO_BACKEND : list (string * string) :=
  [("active", "published"); ("superseded", "archived"); ("rollback", "rollback"); ("draft", "draft")].

(** [STATUS_TO_BACKEND[filters.status] ?? filters.status] *)
Definition backend_status (status : string) : string := default status (obj_get status STATUS_TO_BACKEND).

(** The requests of each file; [GetStats] composes several and is in [DashStats]. *)
Definition devices_backend (op : repo_op) : option http_req :=
  match op with
  | DevicesList q f =>
      Some (http_get ("/admin/devices?" +:+ qs (page_params q ++ sort_params q ++
        [("status", filter_of "status" f); ("chain_status", filter_of "chainStatus" f)])))
  | DeviceGet id => Some (http_get ("/admin/devices/" +:+ id))
  | DeviceDeactivate id => Some (mkHttp "DELETE" ("/admin/devices/" +:+ id) None)
  | DeviceInventory id => Some (http_get ("/admin/devices/" +:+ encodeURIComponent id +:+ "/inventory"))
  | DeviceEvents id q => Some (http_get ("/admin/devices/" +:+ encodeURIComponent id +:+ "/events?" +:+ qs (page_params q)))
  | _ => None
  end.

Definition policies_backend (op : repo_op) : option http_req :=
  match op with
  | PoliciesList q f =>
      Some (http_get ("/admin/policies?" +:+ qs (page_params q ++ sort_params q ++ [("status", backend_status <$> filter_of "status" f)])))
  | PolicyGet id => Some (http_get ("/admin/policies/" +:+ encodeURIComponent id))
  | PolicyVersions name => Some (http_get ("/admin/policies/" +:+ encodeURIComponent name +:+ "/versions"))
  | _ => None
  end.

Definition violations_backend (op : repo_op) : option http_req :=
  match op with
  | ViolationsList q f =>
      Some (http_get ("/admin/violations?" +:+ qs (page_params q ++
        [("severity", filter_of "severity" f); ("decision", filter_of "decision" f); ("source", filter_of "source" f);
         ("category", filter_of "category" f); ("from", filter_of "from" f); ("to", filter_of "to" f)])))
  | ViolationGet id => Some (http_get ("/admin/audit/" +:+ id))
  | _ => None
  end.

Definition exceptions_backend (op : repo_op) : option http_req :=
  match op with
  | ExceptionsList q f =>
      Some (http_get ("/admin/exceptions?" +:+ qs (page_params q ++
        [("status", filter_of "status" f); ("requested_by", filter_of "requestedBy" f)])))
  | ExceptionGet id => Some (http_get ("/admin/exceptions/" +:+ id))
  | ExceptionCreate ruleId reason =>
      Some (mkHttp "POST" "/admin/exceptions" (Some (JObj [("rule_id", JStr ruleId); ("reason", JStr reason)])))
  | ExceptionApprove id approver =>
      Some (mkHttp "POST" ("/admin/exceptions/" +:+ id +:+ "/approve") (Some (JObj [("approver", JStr approver)])))
  | ExceptionReject id approver reason =>
      Some (mkHttp "POST" ("/admin/exceptions/" +:+ id +:+ "/reject")
        (Some (JObj [("approver", JStr approver); ("reason", JStr reason)])))
  | _ => None
  end.

Definition audit_backend (op : repo_op) : option http_req :=
  match op with
  | AuditList q f =>
      Some (http_get ("/admin/audit?" +:+ qs (page_params q ++
        [("type", filter_of "type" f); ("from", filter_of "from" f); ("to", filter_of "to" f)])))
  | AuditGet id => Some (http_get ("/admin/audit/" +:+ id))
  | _ => None
  end.

Definition users_backend (op : repo_op) : option http_req :=
  match op with
  | UsersList q => Some (http_get ("/admin/users?" +:+ qs (page_params q)))
  | UserInvite email role => Some (mkHttp "POST" "/admin/users" (Some (JObj [("email", JStr email); ("role", JStr role)])))
  | UserDisable id => Some (mkHttp "DELETE" ("/admin/users/" +:+ id) None)
  | _ => None
  end.

Definition settings_backend (op : repo_op) : option http_req :=
  match op with
  | OrgGet => Some (http_get "/admin/settings")
  | OrgUpdate patch => Some (mkHttp "PUT" "/admin/settings" (Some (JObj patch)))
  | _ => None
  end.

(** The first that knows the operation *)
Definition backend_request (op : repo_op) : option http_req :=
  head (omap (fun repository => repository op)
    [devices_backend; policies_backend; violations_backend; exceptions_backend; audit_backend; users_backend; settings_backend]).

(** [inventory]: what the page gets of the reply; reading a property of [null] throws. *)
Definition inventory_got (deviceId : string) (inv : json) : option json :=
  match inv with
  | JNull => None
  | _ =>
      Some (JObj [("device_id", nullish (json_get "device_id" inv) (JStr deviceId));
                  ("collected_at_ms", nullish (json_get "collected_at_ms" inv) (JNum (NInt 0)));
                  ("processes", nullish (json_get "processes" inv) (JArr []));
                  ("extensions", nullish (json_get "extensions" inv) (JArr []))])
  end.

(** ** The browser: [bff-repositories.ts] *)

Definition bff_request (op : repo_op) : http_req :=
  match op with
  | GetStats => http_get "/api/dashboard/stats"
  | DevicesList q f =>
      http_get ("/api/devices?" +:+ qs (page_params q ++ sort_params q ++
        [("status", filter_of "status" f); ("chain_status", filter_of "chainStatus" f)]))
  | DeviceGet id => http_get ("/api/devices/" +:+ id)
  | DeviceDeactivate id => mkHttp "DELETE" ("/api/devices/" +:+ id) None
  | DeviceInventory id => http_get ("/api/devices/" +:+ encodeURIComponent id +:+ "/inventory")
  | DeviceEvents id q => http_get ("/api/devices/" +:+ encodeURIComponent id +:+ "/events?" +:+ qs (page_params q))
  | PoliciesList q f =>
      http_get ("/api/policies?" +:+ qs (page_params q ++ sort_params q ++ [("status", filter_of "status" f)]))
  | PolicyGet id => http_get ("/api/policies/" +:+ id)
  | PolicyVersions name => http_get ("/api/policies/" +:+ encodeURIComponent name +:+ "/versions")
  | ViolationsList q f =>
      http_get ("/api/violations?" +:+ qs (page_params q ++
        [("severity", filter_of "severity" f); ("decision", filter_of "decision" f); ("source", filter_of "source" f);
         ("category", filter_of "category" f); ("from", filter_of "from" f); ("to", filter_of "to" f)]))
  | ViolationGet id => http_get ("/api/violations/" +:+ id)
  | ExceptionsList q f =>
      http_get ("/api/exceptions?" +:+ qs (page_params q ++
        [("status", filter_of "status" f); ("requested_by", filter_of "requestedBy" f)]))
  | ExceptionGet id => http_get ("/api/exceptions/" +:+ id)
  | ExceptionCreate ruleId reason =>
      mkHttp "POST" "/api/exceptions" (Some (JObj [("rule_id", JStr ruleId); ("reason", JStr reason)]))
  | ExceptionApprove id approver =>
      mkHttp "POST" ("/api/exceptions/" +:+ id) (Some (JObj [("action", JStr "approve"); ("approver", JStr approver)]))
  | ExceptionReject id approver reason =>
      mkHttp "POST" ("/api/exceptions/" +:+ id)
        (Some (JObj [("action", JStr "reject"); ("approver", JStr approver); ("reason", JStr reason)]))
  | AuditList q f =>
      http_get ("/api/audit?" +:+ qs (page_params q ++
        [("type", filter_of "type" f); ("from", filter_of "from" f); ("to", filter_of "to" f)]))
  | AuditGet id => http_get ("/api/audit/" +:+ id)
  | UsersList q => http_get ("/api/users?" +:+ qs (page_params q))
  | UserInvite email role => mkHttp "POST" "/api/users" (Some (JObj [("email", JStr email); ("role", JStr role)]))
  | UserDisable id => mkHttp "DELETE" ("/api/users/" +:+ id) None
  | OrgGet => http_get "/api/settings"
  | OrgUpdate patch => mkHttp "PATCH" "/api/settings" (Some (JObj patch))
  end.

(** ** [scoped-repository.ts] *)

Definition scoped_op (s : UserSession) (op : repo_op) : repo_op :=
  match op with
  | DevicesList q f => DevicesList q (withOrgFilter (stripOrgId (Some f)) (s_orgId s))
  | PoliciesList q f => PoliciesList q (withOrgFilter (stripOrgId (Some f)) (s_orgId s))
  | ViolationsList q f => ViolationsList q (withOrgFilter (stripOrgId (Some f)) (s_orgId s))
  | ExceptionsList q f => ExceptionsList q (withOrgFilter (stripOrgId (Some f)) (s_orgId s))
  | AuditList q f => AuditList q (withOrgFilter (stripOrgId (Some f)) (s_orgId s))
  | OrgUpdate patch => OrgUpdate (obj_set "org_id" (JStr (s_orgId s)) patch)
  | _ => op
  end.

(** ** Programs over a registry

    What a handler does: operations of the scoped registry, each with what follows its result, then a
    response or an exception. *)

Inductive repo_result := RPage (p : Page) | RJson (v : json).

Inductive prog :=
| Done (r : dash_response)
| Throws (e : dash_error)
| Perform (op : repo_op) (k : repo_result -> prog).

Definition TypeErr : dash_error := PlainError "TypeError".

Definition perform_page (op : repo_op) (k : Page -> prog) : prog :=
  Perform op (fun r => match r with RPage p => k p | RJson _ => Throws TypeErr end).
Definition perform_json (op : repo_op) (k : json -> prog) : prog :=
  Perform op (fun r => match r with RJson v => k v | RPage _ => Throws TypeErr end).
Definition perform (op : repo_op) (k : prog) : prog := Perform op (fun _ => k).

Definition when_ok {A} (r : result dash_error A) (k : A -> prog) : prog :=
  match r with Ok a => k a | Err e => Throws e end.

(** ** [app/api] *)

Definition ok (v : json) : dash_response := apiSuccess v.

(** [if (!v) return notFound()] *)
Definition or_not_found (v : json) (k : json -> prog) : prog := if js_truthy v then k v else Done notFound.

(** [${v.k}]: a property in a template literal *)
Definition text_of (v : option json) : string := match v with Some w => to_text w | None => "undefined" end.

(** [if (v && !allowed.includes(v)) return badRequest(message)] *)
Definition check_enum (params : list (string * string)) (key : string) (allowed : list string) (message : string) (k : prog) : prog :=
  match param key params with
  | Some v => if is_empty v || bool_decide (v ∈ allowed) then k else Done (badRequest message)
  | None => k
  end.

(** [if (v) filters.name = v], for each name and parameter *)
Definition filters_from (params : list (string * string)) (names : list (string * string)) : filters :=
  omap (fun np => match param np.2 params with Some v => if is_empty v then None else Some (np.1, JStr v) | None => None end) names.

Definition send_page (p : Page) : prog := Done (ok (toPageResponse p)).

Definition DEVICE_SORT : list string := ["hostname"; "device_id"; "platform"; "status"; "last_seen_ms"; "event_count_24h"; "violation_count_24h"].

Definition devices_route (params : list (string * string)) : prog :=
  when_ok (parsePagination params (mkOptions DEVICE_SORT (Some 25))) (fun raw =>
  check_enum params "status" ["active"; "inactive"; "deactivated"] "invalid status"
  (check_enum params "chain_status" ["verified"; "broken"; "incomplete"; "unknown"] "invalid chain_status"
  (perform_page (DevicesList (toPageQuery raw) (filters_from params [("status", "status"); ("chainStatus", "chain_status")])) send_page))).

Definition device_route (id : string) : prog := perform_json (DeviceGet id) (fun d => or_not_found d (fun d => Done (ok d))).

Definition device_delete (id : string) : prog :=
  perform_json (DeviceGet id) (fun d => or_not_found d (fun d =>
  perform (DeviceDeactivate (text_of (json_get "device_id" d)))
  (Done (ok (JObj (compact [("deactivated", Some (JBool true)); ("device_id", json_get "device_id" d)])))))).

Definition device_events_route (id : string) (params : list (string * string)) : prog :=
  when_ok (parsePagination params (mkOptions [] (Some 25))) (fun raw => perform_page (DeviceEvents id (toPageQuery raw)) send_page).

Definition device_inventory_route (id : string) : prog := perform_json (DeviceInventory id) (fun v => Done (ok v)).

Definition POLICY_SORT : list string := ["name"; "version"; "status"; "rule_count"; "created_at"; "published_at"].

Definition policies_route (params : list (string * string)) : prog :=
  when_ok (parsePagination params (mkOptions POLICY_SORT (Some 25))) (fun raw =>
  check_enum params "status" ["draft"; "active"; "superseded"; "rollback"] "invalid status"
  (perform_page (PoliciesList (toPageQuery raw) (filters_from params [("status", "status")])) send_page)).

Definition policy_route (id : string) : prog := perform_json (PolicyGet id) (fun p => or_not_found p (fun p => Done (ok p))).

(** The values of [CATEGORIES] in [types/index.ts] *)
Definition CATEGORIES : list string :=
  ["secret"; "pii"; "source_code"; "classification"; "company_confidential"; "financial"; "intellectual_property";
   "usage_policy"; "prompt_injection"; "sensitive_document"; "customer_data"; "compliance"; "keyword"; "file_policy";
   "image_policy"; "ai_classification"; "destructive_command"; "legal"; "medical"; "hr"; "security";
   "research_development"; "communication"; "procurement"; "government"].

(** [{ ...v, k: null }] of an object; a value that is none has no properties of its own to copy *)
Definition with_null (k : string) (v : json) : json := JObj (obj_set k JNull (match v with JObj o => o | _ => [] end)).

Definition VIOLATION_SORT : list string := ["event_id"; "timestamp_ms"; "decision"; "risk_level"; "policy_version"; "classification"].

(** The filters of violations and the parameters they come from *)
Definition VIOLATION_FILTERS : list (string * string) :=
  [("severity", "severity"); ("decision", "decision"); ("source", "source"); ("category", "category"); ("from", "from"); ("to", "to")].

Definition violations_route (role : DashRole) (params : list (string * string)) : prog :=
  when_ok (parsePagination params (mkOptions VIOLATION_SORT (Some 25))) (fun raw =>
  check_enum params "severity" ["low"; "medium"; "high"; "critical"] "invalid severity"
  (check_enum params "decision" ["allow"; "warn"; "block"] "invalid decision"
  (check_enum params "source" ["browser"; "ide"; "cli"; "api"] "invalid source"
  (check_enum params "category" CATEGORIES "invalid category"
  (perform_page (ViolationsList (toPageQuery raw) (filters_from params VIOLATION_FILTERS))
   (fun page =>
      if bool_decide (role = Viewer) then
        match pg_items page with
        | JArr items =>
            send_page (mkPage (JArr (map (with_null "matched_rule_id") items)) (pg_page page) (pg_perPage page) (pg_total page) (pg_nextToken page))
        | _ => Throws TypeErr
        end
      else send_page page)))))).

Definition violation_route (role : DashRole) (id : string) : prog :=
  perform_json (ViolationGet id) (fun v => or_not_found v (fun v =>
  if bool_decide (role = Viewer) then Done (ok (with_null "matched_rule" (with_null "matched_rule_id" v))) else Done (ok v))).

Section audit.
(** [new Date(s).getTime()]; [None] is [NaN]. *)
Context (date : string -> option Z).

Definition date_of (params : list (string * string)) (k : string) : option (option Z) :=
  match param k params with Some s => if is_empty s then None else Some (date s) | None => None end.

Definition AUDIT_SORT : list string := ["event_id"; "timestamp_ms"; "type"; "decision"; "risk_level"].

Definition audit_route (params : list (string * string)) : prog :=
  when_ok (parsePagination params (mkOptions AUDIT_SORT (Some 25))) (fun raw =>
  let list := perform_page (AuditList (toPageQuery raw) (filters_from params [("type", "type"); ("from", "from"); ("to", "to")])) send_page in
  match date_of params "from", date_of params "to" with
  | Some None, _ => Done (badRequest "invalid from date")
  | _, Some None => Done (badRequest "invalid to date")
  | Some (Some fromMs), Some (Some toMs) =>
      if toMs <? fromMs then Done (badRequest "to must be after from")
      else if 90 * 24 * 60 * 60 * 1000 <? toMs - fromMs then Done (badRequest "audit date range cannot exceed 90 days")
      else list
  | _, _ => list
  end).
End audit.

Definition audit_event_route (id : string) : prog := perform_json (AuditGet id) (fun e => or_not_found e (fun e => Done (ok e))).

Definition EXCEPTION_SORT : list string := ["exception_id"; "status"; "requested_by"; "expires_at_ms"].

Definition exceptions_route (params : list (string * string)) : prog :=
  when_ok (parsePagination params (mkOptions EXCEPTION_SORT (Some 25))) (fun raw =>
  check_enum params "status" ["pending"; "approved"; "rejected"; "expired"; "revoked"] "invalid status"
  (perform_page (ExceptionsList (toPageQuery raw) (filters_from params [("status", "status"); ("requestedBy", "requested_by")])) send_page)).

(** [(await readJson(req)) ?? {}] *)
Definition body_of (text : chars) : json := nullish (Some (readJson text)) (JObj []).

(** [body.k?.trim()]: a value that is no string has no [trim]. *)
Definition trimmed (body : json) (k : string) : result dash_error (option string) :=
  match json_get k body with
  | None | Some JNull => Ok None
  | Some (JStr s) => Ok (Some (js_trim s))
  | Some _ => Err TypeErr
  end.

(** [if (!v) return badRequest(message)] *)
Definition required (v : option string) (message : string) (k : string -> prog) : prog :=
  match v with Some s => if is_empty s then Done (badRequest message) else k s | None => Done (badRequest message) end.

Definition exceptions_post (text : chars) : prog :=
  let body := body_of text in
  when_ok (trimmed body "rule_id") (fun ruleId =>
  when_ok (trimmed body "reason") (fun reason =>
  required ruleId "rule_id is required" (fun ruleId =>
  required reason "reason is required" (fun reason =>
  perform_json (ExceptionCreate ruleId reason) (fun e => Done (apiCreated e)))))).

Definition exception_route (id : string) : prog := perform_json (ExceptionGet id) (fun e => or_not_found e (fun e => Done (ok e))).

Definition exception_post (email id : string) (text : chars) : prog :=
  perform_json (ExceptionGet id) (fun e => or_not_found e (fun e =>
  let body := body_of text in
  let exception_id := text_of (json_get "exception_id" e) in
  if bool_decide (as_string (Some (nullish (json_get "action" body) (JStr "approve"))) = Some "reject") then
    if opt_truthy (json_get "reason" body) then
      when_ok (trimmed body "reason") (fun reason =>
      required reason "reason is required for rejection" (fun _ =>
      perform_json (ExceptionReject exception_id email (text_of (json_get "reason" body))) (fun u => Done (ok u))))
    else Done (badRequest "reason is required for rejection")
  else perform_json (ExceptionApprove exception_id email) (fun u => Done (ok u)))).

Definition users_route (params : list (string * string)) : prog :=
  when_ok (parsePagination params (mkOptions [] (Some 25))) (fun raw => perform_page (UsersList (toPageQuery raw)) send_page).

Definition users_post (role : DashRole) (text : chars) : prog :=
  let body := body_of text in
  when_ok (trimmed body "email") (fun email =>
  when_ok (trimmed body "role") (fun target =>
  required email "email is required" (fun email =>
  match target ≫= role_of_name with
  | None => Done (badRequest "role is required")
  | Some r =>
      when_ok (assertCanCreateRole role r) (fun _ =>
      perform_json (UserInvite email (dash_role_name r)) (fun u => Done (apiCreated u)))
  end))).

Definition user_delete (id : string) : prog :=
  perform_page (UsersList (mkQuery 1 1 None None None)) (fun _ => perform (UserDisable id) (Done apiNoContent)).

Definition PATCH_KEYS : list string :=
  ["org_name"; "default_policy_id"; "enrollment_mode"; "data_retention_days"; "email_alerts"; "slack_webhook_url"].

(** [if (key in body) patch[key] = body[key]], for each key *)
Definition settings_patch (body : json) : result dash_error filters :=
  match body with
  | JObj _ | JArr _ => Ok (omap (fun k => match json_get k body with Some v => Some (k, v) | None => None end) PATCH_KEYS)
  | _ => Err TypeErr
  end.

Definition settings_route : prog := perform_json OrgGet (fun v => Done (ok v)).
Definition settings_patch_route (text : chars) : prog :=
  when_ok (settings_patch (body_of text)) (fun patch => perform_json (OrgUpdate patch) (fun v => Done (ok v))).

Definition dashboard_route : prog := perform_json GetStats (fun v => Done (ok v)).
