(* ===== verification/DashRoutes.v ===== *)
(** * The dashboard's API: routing and what a request can reach

    The table of [app/api/*/route.ts] (the directories are the paths), the pipeline of [with-rbac.ts] around
    each handler, and the two ends of a request: what a handler may do with the registry, and that the page in
    the browser gets the operation it asked for. *)

From S2P Require Import Prelude Json JsonText Resilience CliFiles CliInput Dashboard DashFetch DashQuery DashRepo.

(** ** The table *)

Section routes.
(** [new Date(s).getTime()] *)
Context (date : string -> option Z).

(** A route: its method, its path, and the handler at the path's third segment, [params.id] *)
Definition app_routes (ctx : RequestContext) (params : list (string * string)) (text : chars)
    : list (string * list seg * (string -> prog)) :=
  [("GET", api ["dashboard"], fun _ => dashboard_route);
   ("GET", api ["dashboard"; "stats"], fun _ => dashboard_route);
   ("GET", api ["devices"], fun _ => devices_route params);
   ("GET", api ["devices"] ++ [AnySeg], device_route);
   ("DELETE", api ["devices"] ++ [AnySeg], device_delete);
   ("GET", api ["devices"] ++ [AnySeg; Lit "events"], fun id => device_events_route id params);
   ("GET", api ["devices"] ++ [AnySeg; Lit "inventory"], device_inventory_route);
   ("GET", api ["policies"], fun _ => policies_route params);
   ("GET", api ["policies"] ++ [AnySeg], policy_route);
   ("GET", api ["violations"], fun _ => violations_route (ctx_role ctx) params);
   ("GET", api ["violations"] ++ [AnySeg], violation_route (ctx_role ctx));
   ("GET", api ["audit"], fun _ => audit_route date params);
   ("GET", api ["audit"] ++ [AnySeg], audit_event_route);
   ("GET", api ["exceptions"], fun _ => exceptions_route params);
   ("POST", api ["exceptions"], fun _ => exceptions_post text);
   ("GET", api ["exceptions"] ++ [AnySeg], exception_route);
   ("POST", api ["exceptions"] ++ [AnySeg], fun id => exception_post (s_email (ctx_session ctx)) id text);
   ("GET", api ["users"], fun _ => users_route params);
   ("POST", api ["users"], fun _ => users_post (ctx_role ctx) text);
   ("DELETE", api ["users"] ++ [AnySeg], user_delete);
   ("GET", api ["settings"], fun _ => settings_route);
   ("PATCH", api ["settings"], fun _ => settings_patch_route text);
   ("GET", api ["org"], fun _ => settings_route);
   ("PATCH", api ["org"], fun _ => settings_patch_route text)].

Definition route_matches (method path : string) (r : string * list seg * (string -> prog)) : bool :=
  String.eqb r.1.1 method && segs_test r.1.2 (segments path).

Definition route_request (ctx : RequestContext) (method path : string) (params : list (string * string)) (text : chars) : option prog :=
  match find (route_matches method path) (app_routes ctx params text) with
  | Some r => Some (r.2 (nth 3 (segments path) ""))
  | None => None
  end.

(** ** A request

    The pipeline, then the handler over the scoped registry; [log] is the operations it performed, as the
    registry sees them.  A request no file answers is the framework's. *)
Section serve.
Context (jwtVerify : string -> string -> string -> option json).
Context (refreshCognitoTokens : string -> option (string * option string * string)).
Context (env : dash_env) (parse : string -> option json).
Context {W : Type} (registry : option string -> repo_op -> W -> result dash_error repo_result * W).

(** Run a handler, with the operations it performed. *)
Fixpoint run_logged (run : repo_op -> W -> result dash_error repo_result * W) (p : prog) (w : W)
    : result dash_error dash_response * list repo_op * W :=
  match p with
  | Done r => (Ok r, [], w)
  | Throws e => (Err e, [], w)
  | Perform op k =>
      match run op w with
      | (Ok r, w') => let '(out, log, w'') := run_logged run (k r) w' in (out, op :: log, w'')
      | (Err e, w') => (Err e, [op], w')
      end
  end.

Definition error_response (e : Z * string * string) : dash_response := apiError e.1.2 e.2 e.1.1.

Definition serve (method path : string) (params : list (string * string)) (text : chars) (j : jar) (w : W)
    : option dash_response * list repo_op * jar * W :=
  match withBff jwtVerify refreshCognitoTokens env parse None (fun ctx token => Ok (ctx, token)) method path j with
  | (Err e, j') => (Some (error_response e), [], j', w)
  | (Ok (ctx, token), j') =>
      match route_request ctx method path params text with
      | None => (None, [], j', w)
      | Some p =>
          let '(out, log, w') := run_logged (fun op => registry token (scoped_op (ctx_session ctx) op)) p w in
          let reply := match out with Ok r => r | Err e => error_response (apiErrorFromUnknown e) end in
          (Some reply, map (scoped_op (ctx_session ctx)) log, j', w')
      end
  end.
End serve.
End routes.

(** ** Every operation of a handler *)

Fixpoint all_ops (P : repo_op -> Prop) (p : prog) : Prop :=
  match p with
  | Perform op k => P op /\ forall r, all_ops P (k r)
  | _ => True
  end.

Lemma all_ops_logged {W} P (run : repo_op -> W -> result dash_error repo_result * W) p w :
  all_ops P p -> Forall P (run_logged run p w).1.2.
Proof.
  revert w. induction p as [r|e|op k IH]; intros w; cbn; [constructor..|]. intros [Hop Hk].
  destruct (run op w) as [[r|e] w']; [|by repeat constructor].
  specialize (IH r w' (Hk r)). destruct (run_logged run (k r) w') as [[out log] w'']. by constructor.
Qed.

(** The hypotheses of the combinators *)
Lemma all_ops_when_ok {A} P (r : result dash_error A) k : (forall a, r = Ok a -> all_ops P (k a)) -> all_ops P (when_ok r k).
Proof. destruct r; cbn; auto. Qed.
Lemma all_ops_page P op k : P op -> (forall p, all_ops P (k p)) -> all_ops P (perform_page op k).
Proof. intros Hop Hk. split; [done|]. intros []; cbn; auto. Qed.
Lemma all_ops_json P op k : P op -> (forall v, all_ops P (k v)) -> all_ops P (perform_json op k).
Proof. intros Hop Hk. split; [done|]. intros []; cbn; auto. Qed.
Lemma all_ops_perform P op k : P op -> all_ops P k -> all_ops P (perform op k).
Proof. intros Hop Hk. split; auto. Qed.
Lemma all_ops_or_not_found P v k : (forall v, all_ops P (k v)) -> all_ops P (or_not_found v k).
Proof. intros Hk. unfold or_not_found. destruct (js_truthy v); [apply Hk|done]. Qed.
Lemma all_ops_enum P params key allowed message k :
  ((forall v, param key params = Some v -> v = "" \/ v ∈ allowed) -> all_ops P k) -> all_ops P (check_enum params key allowed message k).
Proof.
  intros Hk. unfold check_enum. destruct (param key params) as [v|] eqn:E; [|by apply Hk].
  destruct (is_empty v) eqn:Ev; cbn [orb].
  - apply Hk. intros v' [= <-]. left. by destruct v.
  - destruct (bool_decide _) eqn:Eb; [|done]. apply Hk. intros v' [= <-]. right. by bool_simpl.
Qed.
Lemma all_ops_required P v message k : (forall s, v = Some s -> s <> "" -> all_ops P (k s)) -> all_ops P (required v message k).
Proof. intros Hk. destruct v as [s|]; cbn; [|done]. destruct s; cbn; [done|]. by apply Hk. Qed.

(** ** What a session may ask of the registry *)

Definition is_mutation (op : repo_op) : bool :=
  match op with
  | DeviceDeactivate _ | ExceptionCreate _ _ | ExceptionApprove _ _ | ExceptionReject _ _ _
  | UserInvite _ _ | UserDisable _ | OrgUpdate _ => true
  | _ => false
  end.

Definition some_page (q : PageQuery) : Prop := 1 <= q_page q <= 10000 /\ 1 <= q_perPage q <= MAX_PER_PAGE.

(** Of a handler: the arguments are checked, and those that speak for the caller are the session's. *)
Definition op_checked (s : UserSession) (op : repo_op) : Prop :=
  match op with
  | DevicesList q f | PoliciesList q f | ViolationsList q f | ExceptionsList q f | AuditList q f =>
      some_page q /\ NoDup (obj_keys f)
  | DeviceEvents _ q | UsersList q => some_page q
  | ExceptionCreate ruleId reason => ruleId <> "" /\ reason <> ""
  | ExceptionApprove _ approver => approver = s_email s
  | ExceptionReject _ approver reason => approver = s_email s /\ reason <> ""
  | UserInvite email role => email <> "" /\ exists r, role = dash_role_name r /\ canCreateUser (s_role s) r = true
  | OrgUpdate patch => NoDup (obj_keys patch) /\ obj_keys patch ⊆ PATCH_KEYS
  | _ => True
  end.

(** Of the registry: five of the lists (devices, policies, violations, exceptions, audit events) are filtered by the
    session's organisation, and the settings are changed for it.  The list of users and the events of a device are
    not, and neither is anything that is read or changed by its identifier: of these no more is asked than of the
    handler.  (The filter of the five lists stays in the process: no request that is sent carries it,
    [DashRepo.scope_not_sent].) *)
Definition op_granted (s : UserSession) (op : repo_op) : Prop :=
  match op with
  | DevicesList q f | PoliciesList q f | ViolationsList q f | ExceptionsList q f | AuditList q f =>
      some_page q /\ obj_get "org_id" f = Some (JStr (s_orgId s))
  | OrgUpdate patch => obj_get "org_id" patch = Some (JStr (s_orgId s)) /\ obj_keys patch ⊆ "org_id" :: PATCH_KEYS
  | _ => op_checked s op
  end.

Lemma org_filter_get (f : filters) orgId : NoDup (obj_keys f) -> obj_get "org_id" (withOrgFilter (stripOrgId (Some f)) orgId) = Some (JStr orgId).
Proof.
  intros Hnd. unfold withOrgFilter, stripOrgId. cbn. rewrite obj_get_set; [by rewrite String.eqb_refl|by apply obj_keys_del].
Qed.

Lemma scoped_granted s op : op_checked s op -> op_granted s (scoped_op s op).
Proof.
  destruct op; cbn; try done.
  1-5: intros [Hq Hf]; split; [done|by apply org_filter_get].
  intros [Hnd Hsub]. split; [by rewrite obj_get_set, String.eqb_refl|].
  intros k [->|Hk]%obj_keys_set_elem; [set_solver|]. apply elem_of_cons. right. by apply Hsub.
Qed.

(** The organisation a list is scoped to is not a parameter of any request to the backend, which goes by the token alone. *)
Lemma scope_not_sent s q f :
  NoDup (obj_keys f) ->
  Forall (fun op => backend_request (scoped_op s op) = backend_request op)
    [DevicesList q f; PoliciesList q f; ViolationsList q f; ExceptionsList q f; AuditList q f].
Proof.
  intros Hnd. assert (forall k, k <> "org_id" -> filter_of k (withOrgFilter (stripOrgId (Some f)) (s_orgId s)) = filter_of k f) as Hf.
  { intros k Hk%String.eqb_neq. unfold filter_of, withOrgFilter, stripOrgId. cbn.
    rewrite obj_get_set, Hk by by apply obj_keys_del. by rewrite obj_get_del, Hk. }
  repeat constructor; unfold backend_request; cbn; by rewrite !Hf by discriminate.
Qed.

(** *** The arguments of the handlers *)

Lemma filters_from_keys params names k : k ∈ obj_keys (filters_from params names) -> k ∈ map fst names.
Proof.
  unfold filters_from, obj_keys. intros ([k' v] & -> & Hin)%list_elem_of_fmap. apply list_elem_of_omap in Hin as ([n p] & Hin & He).
  cbn in He. destruct (param p params) as [x|]; [|done]. destruct (is_empty x); [done|]. simplify_eq.
  apply list_elem_of_fmap. by exists (k', p).
Qed.

Lemma filters_from_nodup params names : NoDup (map fst names) -> NoDup (obj_keys (filters_from params names)).
Proof.
  induction names as [|[n p] names IH]; [constructor|]. cbn [map fst]. intros [Hn Hnd]%NoDup_cons.
  unfold filters_from. cbn. destruct (param p params) as [x|]; [|by apply IH]. destruct (is_empty x); [by apply IH|].
  cbn. apply NoDup_cons. split; [|by apply IH]. intros Hk. apply Hn. by eapply filters_from_keys.
Qed.

Lemma read_some_page params allowed raw :
  parsePagination params (mkOptions allowed (Some 25)) = Ok raw -> some_page (toPageQuery raw).
Proof.
  intros E. pose proof (parsePagination_bounded params (mkOptions allowed (Some 25))) as Hb. rewrite E in Hb. cbn in Hb.
  destruct Hb as (? & ? & _); [unfold MAX_PER_PAGE; lia|done].
Qed.

Lemma settings_patch_keys body patch : settings_patch body = Ok patch -> NoDup (obj_keys patch) /\ obj_keys patch ⊆ PATCH_KEYS.
Proof.
  assert (forall l, NoDup l ->
    let o := omap (fun k => match json_get k body with Some v => Some (k, v) | None => None end) l in
    NoDup (obj_keys o) /\ obj_keys o ⊆ l) as H.
  { induction l as [|k l IH]; [split; [constructor|done]|]. intros [Hk Hnd]%NoDup_cons. specialize (IH Hnd) as [IH1 IH2].
    cbn. destruct (json_get k body) as [v|]; cbn; [|set_solver]. split; [|set_solver]. apply NoDup_cons. set_solver. }
  destruct body; cbn [settings_patch]; try done; intros [= <-]; apply (H PATCH_KEYS); apply (bool_decide_unpack _); vm_compute; exact I.
Qed.

Lemma trimmed_text body k s : trimmed body k = Ok (Some s) -> exists t, json_get k body = Some (JStr t) /\ js_trim t = s.
Proof. unfold trimmed. destruct (json_get k body) as [[]|]; naive_solver. Qed.

(** *** Every route *)

Definition route_ok (s : UserSession) (m : string) (pat : list seg) (op : repo_op) : Prop :=
  op_checked s op /\ (is_mutation op = true -> (m, pat) ∈ SERVED_MUTATIONS).

Ltac route_step :=
  first
  [ apply all_ops_when_ok; intros ? ?
  | apply all_ops_enum; intros _
  | apply all_ops_required; intros ? ? ?
  | apply all_ops_or_not_found; intros ?
  | apply all_ops_page; [|intros ?]
  | apply all_ops_json; [|intros ?]
  | apply all_ops_perform
  | exact I ].

Lemma read_route s m pat op : op_checked s op -> is_mutation op = false -> route_ok s m pat op.
Proof. intros Hc Hm. split; [done|]. by rewrite Hm. Qed.

Lemma write_route s m pat op : op_checked s op -> (m, pat) ∈ SERVED_MUTATIONS -> route_ok s m pat op.
Proof. by split. Qed.

Ltac served := apply list_elem_of_In; cbn; tauto.
Ltac reads :=
  apply read_route; [|reflexivity]; cbn [op_checked];
  first [ done | by eapply read_some_page
        | split; [by eapply read_some_page|apply filters_from_nodup, (bool_decide_unpack _); vm_compute; exact I]
        | split; cbn; unfold MAX_PER_PAGE; lia ].

Lemma violations_route_ok s m pat role params : all_ops (route_ok s m pat) (violations_route role params).
Proof.
  unfold violations_route, send_page. repeat route_step; [reads|]. case_bool_decide; [|done]. by destruct (pg_items _).
Qed.

Lemma audit_route_ok s m pat date params : all_ops (route_ok s m pat) (audit_route date params).
Proof.
  unfold audit_route. route_step.
  assert (all_ops (route_ok s m pat) (perform_page (AuditList (toPageQuery a)
    (filters_from params [("type", "type"); ("from", "from"); ("to", "to")])) send_page)) as Hl
    by (unfold send_page; repeat route_step; reads).
  destruct (date_of date params "from") as [[fromMs|]|], (date_of date params "to") as [[toMs|]|]; try done.
  destruct (toMs <? fromMs); [done|]. destruct (_ <? toMs - fromMs); done.
Qed.

Lemma exception_post_ok s pat id text :
  ("POST", pat) ∈ SERVED_MUTATIONS -> all_ops (route_ok s "POST" pat) (exception_post (s_email s) id text).
Proof.
  intros Hs. unfold exception_post. route_step; [reads|]. route_step. case_bool_decide.
  - destruct (opt_truthy _); [|done]. repeat route_step. apply write_route; [|done]. split; [done|].
    subst. destruct (trimmed_text _ _ _ H0) as (t & -> & <-). cbn. by intros ->.
  - repeat route_step. by apply write_route.
Qed.

Lemma users_post_ok s pat text :
  ("POST", pat) ∈ SERVED_MUTATIONS -> all_ops (route_ok s "POST" pat) (users_post (s_role s) text).
Proof.
  intros Hs. unfold users_post. do 3 route_step. destruct (_ ≫= role_of_name) as [r|]; [|done]. repeat route_step.
  apply write_route; [|done]. split; [done|]. exists r. split; [done|].
  match goal with H : assertCanCreateRole _ _ = Ok _ |- _ => revert H end. unfold assertCanCreateRole.
  by destruct (canCreateUser (s_role s) r).
Qed.

Lemma app_routes_ok date s params text id :
  Forall (fun r => all_ops (route_ok s r.1.1 r.1.2) (r.2 id)) (app_routes date (context_of s) params text).
Proof.
  unfold app_routes. repeat (apply Forall_cons; split); [..|constructor]; cbn [fst snd context_of ctx_role ctx_session].
  all: first [ apply violations_route_ok | apply audit_route_ok | apply exception_post_ok; served | apply users_post_ok; served | idtac ].
  all: unfold dashboard_route, devices_route, device_route, device_delete, device_events_route, device_inventory_route,
    policies_route, policy_route, violation_route, audit_event_route, exceptions_route, exceptions_post, exception_route,
    users_route, user_delete, settings_route, settings_patch_route, send_page.
  all: repeat route_step; try reads.
  all: try (apply write_route; [|served]; try done).
  all: try (by case_bool_decide).
  all: by eapply settings_patch_keys.
Qed.

(** ** The browser's end *)

Section browser.
Context (date : string -> option Z) (ctx : RequestContext).

(** The request of [bff-repositories.ts] at the server: the URL split at its [?], the body as it was printed *)
Definition ask_server (op : repo_op) : option prog :=
  let r := bff_request op in
  let '(path, query) := cut "?"%char (to_chars (hq_path r)) in
  route_request date ctx (hq_method r) (of_chars path) (form_parse (default [] query))
    (match hq_body r with Some b => print_json b | None => [] end).

(** The first operation of a handler *)
Definition performs (p : option prog) (op : repo_op) : Prop := exists k, p = Some (Perform op k).

(** The filters a list route knows, with what the caller set them to *)
Definition known_filters (names : list (string * string)) (f : filters) : filters :=
  omap (fun np => match filter_of np.1 f with Some v => if is_empty v then None else Some (np.1, JStr v) | None => None end) names.

Definition filter_params (names : list (string * string)) (f : filters) : list (string * option string) :=
  map (fun np => (np.2, filter_of np.1 f)) names.

Definition enum_ok (f : filters) (name : string) (allowed : list string) : Prop :=
  forall v, filter_of name f = Some v -> v <> "" -> v ∈ allowed.

Lemma cut_url path query : free "?" (to_chars path) -> cut "?" (to_chars (path +:+ "?" +:+ query)) = (to_chars path, Some (to_chars query)).
Proof. intros Hf. rewrite !to_chars_app. apply cut_free. done. Qed.

Lemma obj_get_params (names : list (string * string)) f n p :
  NoDup (map snd names) -> (n, p) ∈ names -> obj_get p (filter_params names f) = Some (filter_of n f).
Proof.
  induction names as [|[n' p'] names IH]; [set_solver|]. cbn. intros [Hp Hnd]%NoDup_cons [[= -> ->]|Hin]%elem_of_cons.
  - by rewrite String.eqb_refl.
  - destruct (String.eqb_spec p p') as [->|]; [|auto]. destruct Hp. apply list_elem_of_fmap. by exists (n, p').
Qed.

(** What the route reads of what the browser wrote *)
Lemma asked q allowed names f :
  query_ok allowed q -> NoDup (map snd names) -> (forall p, p ∈ map snd names -> p ∉ PAGE_KEYS) ->
  let params := form_parse (to_chars (qs (page_params q ++ sort_params q ++ filter_params names f))) in
  parsePagination params (mkOptions allowed (Some 25)) = Ok q /\
  (forall n p, (n, p) ∈ names -> param p params = match filter_of n f with Some v => if is_empty v then None else Some v | None => None end) /\
  filters_from params names = known_filters names f.
Proof.
  intros Hq Hnd Hdisj params.
  assert (map fst (filter_params names f) = map snd names) as Hkeys by (unfold filter_params; rewrite map_map; done).
  destruct (query_read q allowed (Some 25) (filter_params names f)) as [Hpage Hparam]; rewrite ?Hkeys; [done..|].
  assert (forall n p, (n, p) ∈ names -> param p params = match filter_of n f with Some v => if is_empty v then None else Some v | None => None end) as Hget.
  { intros n p Hin. unfold params. rewrite Hparam; [by rewrite (obj_get_params _ _ n)|]. apply Hdisj. apply list_elem_of_fmap. by exists (n, p). }
  split_and!; [done..|]. unfold filters_from, known_filters. clearbody params. clear -Hget. induction names as [|[n p] names IH]; [done|].
  cbn. rewrite (Hget n p) by apply list_elem_of_here. rewrite IH by (intros ? ? ?; apply Hget; by apply list_elem_of_further).
  destruct (filter_of n f) as [v|]; [|done]. destruct v; [done|]; done.
Qed.

Lemma check_enum_pass params key allowed message k : (forall v, param key params = Some v -> v ∈ allowed) -> check_enum params key allowed message k = k.
Proof.
  intros H. unfold check_enum. destruct (param key params) as [v|]; [|done]. rewrite (bool_decide_true _ (H v eq_refl)). by rewrite orb_true_r.
Qed.

Lemma enum_read f n v allowed : enum_ok f n allowed -> (match filter_of n f with Some v => if is_empty v then None else Some v | None => None end) = Some v -> v ∈ allowed.
Proof. intros He. destruct (filter_of n f) as [[|c s]|] eqn:E; cbn; [done| |done]. intros [= <-]. by apply He. Qed.

Ltac concrete := apply (bool_decide_unpack _); vm_compute; exact I.

Lemma ask_get op path query :
  bff_request op = http_get (path +:+ "?" +:+ query) -> free "?" (to_chars path) ->
  ask_server op = route_request date ctx "GET" path (form_parse (to_chars query)) [].
Proof. intros Hr Hf. unfold ask_server. rewrite Hr. cbn [http_get hq_path hq_method hq_body]. by rewrite cut_url, of_to_chars. Qed.

Lemma query_id allowed q : query_ok allowed q -> toPageQuery q = q.
Proof. intros (Hp & Hpp & Hs & Hsort). apply (toPageQuery_id allowed). split_and!; try done; try lia. intros s E. by destruct (Hs s E) as (? & _ & ?). Qed.

(** Without a sort, the two parameters are left out of the URL. *)
Lemma query_unsorted q extra :
  query_ok [] q -> q_sortDir q = None -> qs (page_params q ++ extra) = qs (page_params q ++ sort_params q ++ extra).
Proof.
  intros (_ & _ & _ & Hsort) Hdir. unfold qs. do 2 f_equal. unfold truthy_params. rewrite !omap_app. f_equal.
  unfold sort_params. rewrite Hdir. destruct (q_sortBy q) as [s|]; [|done]. by destruct (Hsort s eq_refl) as [_ ?%not_elem_of_nil].
Qed.

Lemma query_weaken allowed q : query_ok [] q -> query_ok allowed q.
Proof.
  intros (? & ? & ? & Hsort). do 3 (split; [done|]). intros s Hs. by destruct (Hsort s Hs) as [_ ?%not_elem_of_nil].
Qed.

Lemma enum_asked params key allowed message k (names : list (string * string)) n f :
  (forall n p, (n, p) ∈ names -> param p params = match filter_of n f with Some v => if is_empty v then None else Some v | None => None end) ->
  (n, key) ∈ names -> enum_ok f n allowed -> check_enum params key allowed message k = k.
Proof. intros Hget Hin He. apply check_enum_pass. intros v. rewrite (Hget n key Hin). by apply enum_read. Qed.

Ltac pass names n f Hget H := rewrite (enum_asked _ _ _ _ _ names n f Hget); [|apply list_elem_of_In; cbn; tauto|exact H].

Lemma devices_asked q f :
  query_ok DEVICE_SORT q -> enum_ok f "status" ["active"; "inactive"; "deactivated"] ->
  enum_ok f "chainStatus" ["verified"; "broken"; "incomplete"; "unknown"] ->
  performs (ask_server (DevicesList q f)) (DevicesList q (known_filters [("status", "status"); ("chainStatus", "chain_status")] f)).
Proof.
  intros Hq Hs Hc. set (names := [("status", "status"); ("chainStatus", "chain_status")]).
  destruct (asked q DEVICE_SORT names f) as (Hpage & Hget & Hfilters); [done|concrete|set_solver|].
  rewrite (ask_get _ "/api/devices" (qs (page_params q ++ sort_params q ++ filter_params names f))); [|done|concrete].
  change (route_request date ctx "GET" "/api/devices" ?p []) with (Some (devices_route p)).
  unfold devices_route. rewrite Hpage. cbn [when_ok].
  pass names "status" f Hget Hs. pass names "chainStatus" f Hget Hc.
  fold names. rewrite Hfilters, (query_id _ _ Hq). by eexists.
Qed.

Lemma policies_asked q f :
  query_ok POLICY_SORT q -> enum_ok f "status" ["draft"; "active"; "superseded"; "rollback"] ->
  performs (ask_server (PoliciesList q f)) (PoliciesList q (known_filters [("status", "status")] f)).
Proof.
  intros Hq Hs. set (names := [("status", "status")]).
  destruct (asked q POLICY_SORT names f) as (Hpage & Hget & Hfilters); [done|concrete|set_solver|].
  rewrite (ask_get _ "/api/policies" (qs (page_params q ++ sort_params q ++ filter_params names f))); [|done|concrete].
  change (route_request date ctx "GET" "/api/policies" ?p []) with (Some (policies_route p)).
  unfold policies_route. rewrite Hpage. cbn [when_ok].
  pass names "status" f Hget Hs.
  fold names. rewrite Hfilters, (query_id _ _ Hq). by eexists.
Qed.

Lemma violations_asked q f :
  query_ok [] q -> q_sortDir q = None -> enum_ok f "severity" ["low"; "medium"; "high"; "critical"] ->
  enum_ok f "decision" ["allow"; "warn"; "block"] -> enum_ok f "source" ["browser"; "ide"; "cli"; "api"] ->
  enum_ok f "category" CATEGORIES ->
  performs (ask_server (ViolationsList q f)) (ViolationsList q (known_filters VIOLATION_FILTERS f)).
Proof.
  intros Hq Hdir H1 H2 H3 H4.
  destruct (asked q VIOLATION_SORT VIOLATION_FILTERS f) as (Hpage & Hget & Hfilters); [by apply query_weaken|concrete|set_solver|].
  rewrite (ask_get _ "/api/violations" (qs (page_params q ++ sort_params q ++ filter_params VIOLATION_FILTERS f)));
    [|by rewrite <- query_unsorted|concrete].
  change (route_request date ctx "GET" "/api/violations" ?p []) with (Some (violations_route (ctx_role ctx) p)).
  unfold violations_route. rewrite Hpage. cbn [when_ok].
  pass VIOLATION_FILTERS "severity" f Hget H1. pass VIOLATION_FILTERS "decision" f Hget H2.
  pass VIOLATION_FILTERS "source" f Hget H3. pass VIOLATION_FILTERS "category" f Hget H4.
  rewrite Hfilters, (query_id _ _ Hq). by eexists.
Qed.

Lemma exceptions_asked q f :
  query_ok [] q -> q_sortDir q = None -> enum_ok f "status" ["pending"; "approved"; "rejected"; "expired"; "revoked"] ->
  performs (ask_server (ExceptionsList q f)) (ExceptionsList q (known_filters [("status", "status"); ("requestedBy", "requested_by")] f)).
Proof.
  intros Hq Hdir Hs. set (names := [("status", "status"); ("requestedBy", "requested_by")]).
  destruct (asked q EXCEPTION_SORT names f) as (Hpage & Hget & Hfilters); [by apply query_weaken|concrete|set_solver|].
  rewrite (ask_get _ "/api/exceptions" (qs (page_params q ++ sort_params q ++ filter_params names f)));
    [|by rewrite <- query_unsorted|concrete].
  change (route_request date ctx "GET" "/api/exceptions" ?p []) with (Some (exceptions_route p)).
  unfold exceptions_route. rewrite Hpage. cbn [when_ok].
  pass names "status" f Hget Hs.
  fold names. rewrite Hfilters, (query_id _ _ Hq). by eexists.
Qed.
End browser.

Lemma dispatch_ok date s method path params text p :
  route_request date (context_of s) method path params text = Some p ->
  exists pat, segs_test pat (segments path) = true /\ all_ops (route_ok s method pat) p.
Proof.
  unfold route_request. destruct (find _ _) as [[[m pat] h]|] eqn:Ef; [|done]. intros [= <-]. cbn [snd].
  apply find_some in Ef as [Hin Hm]. unfold route_matches in Hm. cbn [fst snd] in Hm. apply andb_true_iff in Hm as [->%String.eqb_eq Hm].
  exists pat. split; [done|].
  pose proof (app_routes_ok date s params text (nth 3 (segments path) "")) as Hall.
  rewrite Forall_forall in Hall. apply (Hall (method, pat, h)). by apply list_elem_of_In.
Qed.

(** ** Properties *)

(** C8: what a request can reach.  With authentication on, whatever a request to the dashboard's API carries, the
    operations it performs on the scoped registry are those of one session vouched for by a verified token, and each is
    one that session may perform: every list is of a bounded page; the lists of devices, policies, violations, exceptions
    and audit events are filtered by the session's organisation, but the list of users and the events of a device are
    not, nor is what is read, deactivated, disabled, approved or rejected by its identifier; settings are
    changed only in the known fields and for that organisation; exceptions are created with a rule and a reason, and
    approved or rejected in the name of the session's e-mail address; users are invited only with a role the caller may
    create; and any operation that changes something needs an administrator.  (The organisation of a list is a
    filter of the registry's interface, which the registry of the backend does not put into its request.) *)
Theorem api_guarded {W} date jwtVerify refreshCognitoTokens env parse
    (registry : option string -> repo_op -> W -> result dash_error repo_result * W) method path params text j w :
  e_authDisabled env = false -> e_mockAuth env = false ->
  let '(_, log, _, _) := serve date jwtVerify refreshCognitoTokens env parse registry method path params text j w in
  log = [] \/
  exists s i, vouched jwtVerify env i s /\
    Forall (fun op => op_granted s op /\ (is_mutation op = true -> s_role s = SuperAdmin \/ s_role s = OrgAdmin)) log.
Proof.
  intros Hd Hm. unfold serve.
  destruct (withBff _ _ _ _ _ _ _ _ _) as [[[ctx token]|e] j'] eqn:Eb; [|by left].
  destruct (bff_ok _ _ _ _ _ _ _ _ _ _ _ Hd Hm Eb) as (s & i & tok & Hv & [= <- <-] & Ha).
  destruct (route_request date (context_of s) method path params text) as [p|] eqn:Ep; [|by left]. apply dispatch_ok in Ep as (pat & Hp & Hops).
  cbn [context_of ctx_session].
  pose proof (all_ops_logged _ (fun op => registry tok (scoped_op s op)) p w Hops) as Hlog.
  destruct (run_logged _ p w) as [[out log] w']. right. exists s, i. split; [done|]. apply Forall_map.
  apply (Forall_impl _ _ _ Hlog). intros op [Hc Hmut]. split; [by apply scoped_granted|].
  intros Hop. eapply mutation_admin; [|done|done]. apply Hmut. by destruct op.
Qed.

(** A page gets the list it asked for.  Each list request the browser's repositories write, split at its [?] and
    routed by the server, reaches the handler whose first operation is that list, with the page, the search, the sort and every known
    filter the caller set: for queries within the bounds and filters with values the API knows.  Violations and exceptions are asked
    for without a sort. *)
Theorem browser_lists_agree date ctx q f :
  (query_ok DEVICE_SORT q -> enum_ok f "status" ["active"; "inactive"; "deactivated"] ->
   enum_ok f "chainStatus" ["verified"; "broken"; "incomplete"; "unknown"] ->
   performs (ask_server date ctx (DevicesList q f)) (DevicesList q (known_filters [("status", "status"); ("chainStatus", "chain_status")] f))) /\
  (query_ok POLICY_SORT q -> enum_ok f "status" ["draft"; "active"; "superseded"; "rollback"] ->
   performs (ask_server date ctx (PoliciesList q f)) (PoliciesList q (known_filters [("status", "status")] f))) /\
  (query_ok [] q -> q_sortDir q = None -> enum_ok f "severity" ["low"; "medium"; "high"; "critical"] ->
   enum_ok f "decision" ["allow"; "warn"; "block"] -> enum_ok f "source" ["browser"; "ide"; "cli"; "api"] ->
   enum_ok f "category" CATEGORIES ->
   performs (ask_server date ctx (ViolationsList q f)) (ViolationsList q (known_filters VIOLATION_FILTERS f))) /\
  (query_ok [] q -> q_sortDir q = None -> enum_ok f "status" ["pending"; "approved"; "rejected"; "expired"; "revoked"] ->
   performs (ask_server date ctx (ExceptionsList q f)) (ExceptionsList q (known_filters [("status", "status"); ("requestedBy", "requested_by")] f))).
Proof.
  split_and!.
  - apply devices_asked.
  - apply policies_asked.
  - apply violations_asked.
  - apply exceptions_asked.
Qed.

(** ** Examples *)

(** A registry that answers every operation and counts them. *)
Definition counting (token : option string) (op : repo_op) (n : nat) : result dash_error repo_result * nat :=
  (Ok (match op with
       | DevicesList _ _ | PoliciesList _ _ | ViolationsList _ _ | ExceptionsList _ _ | AuditList _ _ | DeviceEvents _ _ | UsersList _ =>
           RPage (mkPage (JArr []) (JNum (NInt 1)) (JNum (NInt 25)) (JNum (NInt 0)) JNull)
       | _ => RJson (JObj [("device_id", JStr "d1")])
       end), S n).

Definition sample_serve (method path : string) (params : list (string * string)) (body : string) :=
  serve (fun _ => None) sample_verify (fun _ => None) sample_env (fun _ => None) counting method path params (to_chars body) sample_jar 0%nat.

Example delete_device_served :
  sample_serve "DELETE" "/api/devices/d1" [] ""
  = (Some (apiSuccess (JObj [("deactivated", JBool true); ("device_id", JStr "d1")])),
     [DeviceGet "d1"; DeviceDeactivate "d1"], sample_jar, 2%nat).
Proof. vm_compute. reflexivity. Qed.

Example bad_page_refused :
  (sample_serve "GET" "/api/devices" [("page", "0")] "").1.1 = (Some (badRequest "page must be between 1 and 10000"), []).
Proof. vm_compute. reflexivity. Qed.

Lemma api_guarded_witness :
  let '(_, log, _, _) := sample_serve "DELETE" "/api/devices/d1" [] "" in
  log = [] \/
  exists s i, vouched sample_verify sample_env i s /\
    Forall (fun op => op_granted s op /\ (is_mutation op = true -> s_role s = SuperAdmin \/ s_role s = OrgAdmin)) log.
Proof.
  apply (api_guarded (fun _ => None) sample_verify (fun _ => None) sample_env (fun _ => None) counting "DELETE" "/api/devices/d1" []
           (to_chars "") sample_jar 0%nat); reflexivity.
Defined.

Definition second_page : PageQuery := mkQuery 2 50 (Some "mac book & co") (Some "hostname") (Some Desc).

Lemma browser_lists_agree_witness :
  query_ok DEVICE_SORT second_page /\
  performs (ask_server (fun _ => None) (context_of MOCK_SESSION) (DevicesList second_page [("status", JStr "active")]))
    (DevicesList second_page [("status", JStr "active")]).
Proof.
  assert (query_ok DEVICE_SORT second_page) as Hq.
  { split_and!; cbn; unfold MAX_PER_PAGE; try lia; intros s [= <-]; split_and!; try done; apply (bool_decide_unpack _); vm_compute; exact I. }
  split; [exact Hq|].
  apply (browser_lists_agree (fun _ => None) (context_of MOCK_SESSION) second_page [("status", JStr "active")]); [exact Hq|..].
  - intros v [= <-] _. apply list_elem_of_here.
  - intros v [=].
Defined.
