(* ===== verification/DashPolicies.v ===== *)
(** * The dashboard's policies: [lib/api/backend/policies.ts]

    The backend's lifecycle statuses in the dashboard's words and back, the summary of a policy, and the rules
    read out of a bundle.  The backend's objects are JSON the code reads without checking; a value of the result
    that is [undefined] is [None] and is not sent on. *)

From S2P Require Import Prelude Json JsonText Resilience CliFiles CliInput IsoDate Dashboard DashFetch DashQuery DashRepo.

(** ** Statuses and decisions *)

Definition STATUS_FROM_BACKEND : list (string * string) :=
  [("published", "active"); ("active", "active"); ("archived", "superseded"); ("superseded", "superseded");
   ("rollback", "rollback"); ("draft", "draft")].

Definition POLICY_STATUSES : list string := ["draft"; "active"; "superseded"; "rollback"].
Definition DECISIONS : list string := ["allow"; "warn"; "block"].

(** [STATUS_FROM_BACKEND[status] ?? "draft"] *)
Definition dashboard_status (status : string) : string := default "draft" (obj_get status STATUS_FROM_BACKEND).

Definition toDecision (value : option json) : string :=
  match value with Some (JStr s) => if bool_decide (s ∈ DECISIONS) then s else "warn" | _ => "warn" end.

(** [toIso]: a number above 0 as a date, whose fraction [Date] drops.  [Err] is the [RangeError] of a date out
    of range. *)
Definition num_floor (n : num) : Z := match n with NInt z => z | NFrac m k => m / 10 ^ Zpos k end.
Definition toIso (ms : option json) : result dash_error (option string) :=
  match ms with
  | Some (JNum n) =>
      if num_gt n 0
      then match toISOString (num_floor n) with Some s => Ok (Some s) | None => Err (PlainError "Invalid time value") end
      else Ok None
  | _ => Ok None
  end.

(** ** Summaries *)

Record PolicySummary := mkSummary {
  ps_policy_id : string;
  ps_version : option json;
  ps_name : json;
  ps_status : string;
  ps_default_action : string;
  ps_org_id : json;
  ps_created_at : string;
  ps_published_at : option string;       (* null when there is none *)
  ps_rule_count : json
}.

(** A property of an object; reading one of [null] throws. *)
Definition field_of (v : json) (k : string) : option json := json_get k v.

Definition EPOCH : string := "1970-01-01T00:00:00.000Z".

Definition created_at_of (raw : json) : result dash_error string :=
  created ← toIso (field_of raw "created_at_ms");
  match created with
  | Some s => Ok s
  | None => published ← toIso (field_of raw "published_at_ms"); Ok (default EPOCH published)
  end.

Definition published_at_of (raw : json) : result dash_error (option string) :=
  if bool_decide (as_string (field_of raw "status") = Some "draft") then Ok None else toIso (field_of raw "published_at_ms").

Definition is_null (v : json) : bool := match v with JNull => true | _ => false end.

Definition mapSummary (raw : json) : result dash_error PolicySummary :=
  if is_null raw then Err TypeErr
  else
    createdAt ← created_at_of raw;
    publishedAt ← published_at_of raw;
    Ok (mkSummary
      (text_of (field_of raw "version"))
      (field_of raw "version")
      (if opt_truthy (field_of raw "name") then default JNull (field_of raw "name")
       else JStr ("Policy v" +:+ text_of (field_of raw "version")))
      (dashboard_status (text_of (field_of raw "status")))
      (toDecision (field_of raw "default_action"))
      (nullish (field_of raw "org_id") (JStr ""))
      createdAt
      publishedAt
      (nullish (field_of raw "rule_count") (JNum (NInt 0)))).

Definition summary_json (s : PolicySummary) : list (string * json) :=
  compact [("policy_id", Some (JStr (ps_policy_id s))); ("version", ps_version s); ("name", Some (ps_name s));
           ("status", Some (JStr (ps_status s))); ("default_action", Some (JStr (ps_default_action s)));
           ("org_id", Some (ps_org_id s)); ("created_at", Some (JStr (ps_created_at s)));
           ("published_at", Some (match ps_published_at s with Some d => JStr d | None => JNull end));
           ("rule_count", Some (ps_rule_count s))].

(** ** Rules of a bundle *)

Record PolicyRule := mkRule {
  pr_rule_id : string;
  pr_description : string;
  pr_action : string;
  pr_conditions : string;
  pr_enabled : bool
}.

(** [(typeof v === "string" && v)], for the first of the names that has one *)
Fixpoint first_text (rule : json) (names : list string) (d : string) : string :=
  match names with
  | [] => d
  | n :: ns =>
      match as_string (field_of rule n) with
      | Some s => if is_empty s then first_text rule ns d else s
      | None => first_text rule ns d
      end
  end.

Definition rule_of (i : nat) (rule : json) : result dash_error PolicyRule :=
  if is_null rule then Err TypeErr
  else
      let ruleId := first_text rule ["rule_id"; "id"] ("rule-" +:+ num_text (Z.of_nat i + 1)) in
      Ok (mkRule ruleId
        (first_text rule ["description"; "name"] ruleId)
        (toDecision (field_of rule "action"))
        (match as_string (field_of rule "conditions") with
         | Some s => s
         | None => of_chars (print_json (nullish (field_of rule "when") (nullish (field_of rule "conditions") (nullish (field_of rule "match") (JObj [])))))
         end)
        (match field_of rule "enabled" with Some (JBool false) => false | _ => true end)).

Fixpoint rules_of (i : nat) (l : list json) : result dash_error (list PolicyRule) :=
  match l with
  | [] => Ok []
  | r :: l' => rule ← rule_of i r; rules ← rules_of (S i) l'; Ok (rule :: rules)
  end.

(** [bundleJson] as it was sent: a string, when it is one the code can parse *)
Definition rulesFromBundle (bundleJson : option json) : result dash_error (list PolicyRule) :=
  match bundleJson with
  | Some v =>
      if js_truthy v then
        match parse_json (to_chars (to_text v)) with
        | Some bundle => match chain (Some bundle) "rules" with Some (JArr rules) => rules_of 0 rules | _ => Ok [] end
        | None => Ok []
        end
      else Ok []
  | None => Ok []
  end.

(** ** Details *)

Record PolicyDetail := mkDetail {
  pd_summary : PolicySummary;
  pd_rules : list PolicyRule;
  pd_notes : string;
  pd_created_by : string;
  pd_supersedes_version : json
}.

(** [{}] for a bundle that is missing or does not parse *)
Definition bundle_of (bundleJson : option json) : json :=
  if opt_truthy bundleJson then default (JObj []) (parse_json (to_chars (to_text (default JNull bundleJson)))) else JObj [].

(** [{ ...raw, k: v }]: a value that is [undefined] leaves the key undefined. *)
Definition spread_set (k : string) (v : option json) (raw : json) : json :=
  let o := match raw with JObj o => o | _ => [] end in
  JObj (match v with Some w => obj_set k w o | None => obj_del k o end).

(** [raw.k ?? (typeof bundle.k === "string" ? bundle.k : undefined)]; a [null] bundle throws when it is read. *)
Definition own_or_bundle (raw bundle : json) (k : string) : result dash_error (option json) :=
  match field_of raw k with
  | None | Some JNull => if is_null bundle then Err TypeErr else Ok (JStr <$> as_string (field_of bundle k))
  | Some v => Ok (Some v)
  end.

Definition mapDetail (raw : json) : result dash_error PolicyDetail :=
  let bundle := bundle_of (field_of raw "bundle_json") in
  rules ← rulesFromBundle (field_of raw "bundle_json");
  name ← own_or_bundle raw bundle "name";
  action ← own_or_bundle raw bundle "default_action";
  let count := field_of raw "rule_count" in
  summary ← mapSummary (spread_set "rule_count" (if opt_truthy count then count else Some (JNum (NInt (Z.of_nat (List.length rules)))))
    (spread_set "default_action" action (spread_set "name" name raw)));
  if is_null bundle then Err TypeErr
  else
    Ok (mkDetail summary rules
      (default "" (as_string (field_of bundle "notes")))
      (default "system" (as_string (field_of bundle "created_by")))
      (if opt_truthy (field_of raw "previous_version") then default JNull (field_of raw "previous_version") else JNull)).

(** ** The repository: what [list], [get] and [listVersions] make of a reply *)

Fixpoint map_items (items : list json) : result dash_error (list PolicySummary) :=
  match items with
  | [] => Ok []
  | v :: l => s ← mapSummary v; rest ← map_items l; Ok (s :: rest)
  end.

Definition policies_listed (reply : json) : result dash_error Page :=
  match mapPage reply with
  | Some page =>
      match pg_items page with
      | JArr items =>
          summaries ← map_items items;
          Ok (mkPage (JArr (map (fun s => JObj (summary_json s)) summaries)) (pg_page page) (pg_perPage page) (pg_total page) (pg_nextToken page))
      | _ => Err TypeErr
      end
  | None => Err TypeErr
  end.

Definition policy_got (reply : json) : result dash_error (option PolicyDetail) :=
  if js_truthy reply then d ← mapDetail reply; Ok (Some d) else Ok None.

Definition versions_listed (reply : json) : result dash_error (list PolicySummary) :=
  match reply with
  | JArr items => map_items items
  | _ => match pg_items <$> mapPage reply with Some (JArr items) => map_items items | _ => Err TypeErr end
  end.

(** ** Lemmas *)

Lemma toDecision_in v : toDecision v ∈ DECISIONS.
Proof.
  unfold toDecision. destruct v as [[]|]; try (apply list_elem_of_In; cbn; tauto).
  case_bool_decide; [done|]. apply list_elem_of_In; cbn; tauto.
Qed.

Lemma dashboard_status_in b : dashboard_status b ∈ POLICY_STATUSES.
Proof.
  unfold dashboard_status, STATUS_FROM_BACKEND. cbn [obj_get].
  repeat (destruct (String.eqb _ _); [cbn; apply list_elem_of_In; cbn; tauto|]). apply list_elem_of_In; cbn; tauto.
Qed.

Lemma status_back s : s ∈ POLICY_STATUSES -> dashboard_status (backend_status s) = s.
Proof. intros H%list_elem_of_In. cbn in H. destruct H as [<-|[<-|[<-|[<-|[]]]]]; reflexivity. Qed.

Lemma mapSummary_fields raw s :
  mapSummary raw = Ok s ->
  ps_status s = dashboard_status (text_of (field_of raw "status")) /\ ps_default_action s = toDecision (field_of raw "default_action") /\
  ps_rule_count s = nullish (field_of raw "rule_count") (JNum (NInt 0)) /\
  (as_string (field_of raw "status") = Some "draft" -> ps_published_at s = None).
Proof.
  unfold mapSummary. destruct (is_null raw); [done|].
  intros (created & _ & (published & Hp & [= <-])%result_bind_ok)%result_bind_ok. split_and!; [done..|].
  intros Hd. unfold published_at_of in Hp. rewrite bool_decide_true in Hp by done. by injection Hp as <-.
Qed.

Lemma first_text_ne rule names d : d <> "" -> first_text rule names d <> "".
Proof.
  intros Hd. induction names as [|n ns IH]; [done|]. cbn. destruct (as_string (field_of rule n)) as [[|c s]|]; cbn; done.
Qed.

Definition rule_wf (r : PolicyRule) : Prop := pr_rule_id r <> "" /\ pr_description r <> "" /\ pr_action r ∈ DECISIONS.

Lemma Ok_inj {E A} (a b : A) : @Ok E A a = Ok b -> a = b.
Proof. congruence. Qed.

Lemma rule_of_wf i v r : rule_of i v = Ok r -> rule_wf r.
Proof.
  unfold rule_of. destruct (is_null v); [done|]. cbn zeta. intros Hr. apply Ok_inj in Hr as <-.
  assert (first_text v ["rule_id"; "id"] ("rule-" +:+ num_text (Z.of_nat i + 1)) <> "") as Hid by by apply first_text_ne.
  split_and!; cbn [pr_rule_id pr_description pr_action]; [exact Hid|by apply first_text_ne|apply toDecision_in].
Qed.

Lemma rules_of_wf i l rules : rules_of i l = Ok rules -> Forall rule_wf rules /\ List.length rules = List.length l.
Proof.
  revert i rules. induction l as [|v l IH]; intros i rules; cbn [rules_of]; [by intros [= <-]|].
  intros (r & Hr & (rest & Hrest & [= <-])%result_bind_ok)%result_bind_ok. apply IH in Hrest as [Hwf Hlen].
  split; [constructor; [by eapply rule_of_wf|done]|cbn; lia].
Qed.

Lemma rulesFromBundle_wf b rules : rulesFromBundle b = Ok rules -> Forall rule_wf rules.
Proof.
  unfold rulesFromBundle. destruct b as [v|]; [|by intros [= <-]]. destruct (js_truthy v); [|by intros [= <-]].
  destruct (parse_json _) as [bundle|]; [|by intros [= <-]].
  destruct (chain (Some bundle) "rules") as [[]|]; try (by intros [= <-]). intros H. by apply rules_of_wf in H as [? _].
Qed.

Lemma spread_get k k' v raw :
  NoDup (obj_keys (match raw with JObj o => o | _ => [] end)) ->
  field_of (spread_set k v raw) k' = if String.eqb k' k then v else field_of raw k'.
Proof.
  intros Hnd. unfold spread_set, field_of. cbn [json_get]. destruct v as [w|].
  - rewrite obj_get_set by done. destruct (String.eqb k' k); [done|]. by destruct raw.
  - rewrite obj_get_del by done. destruct (String.eqb k' k); [done|]. by destruct raw.
Qed.

Lemma spread_nodup k v (raw : json) :
  NoDup (obj_keys (match raw with JObj o => o | _ => [] end)) ->
  NoDup (obj_keys (match spread_set k v raw with JObj o => o | _ => [] end)).
Proof. intros Hnd. unfold spread_set. destruct v; [by apply obj_set_NoDup|by apply obj_keys_del]. Qed.

(** ** Properties *)

(** A policy's status survives the trip to the backend and back.  Each of the dashboard's statuses is asked for in the
    backend's words, and a policy the backend lists under those words is shown with the status asked for;
    whatever status the backend has stored, the page shows one of the four it knows. *)
Theorem policy_status_roundtrip status :
  (status ∈ POLICY_STATUSES ->
     dashboard_status (backend_status status) = status /\
     forall raw s, field_of raw "status" = Some (JStr (backend_status status)) -> mapSummary raw = Ok s ->
       ps_status s = status /\ (status = "draft" -> ps_published_at s = None)) /\
  (forall raw s, mapSummary raw = Ok s -> ps_status s ∈ POLICY_STATUSES /\ ps_default_action s ∈ DECISIONS).
Proof.
  split.
  - intros Hs. split; [by apply status_back|]. intros raw s Hraw Hm. apply mapSummary_fields in Hm as (-> & _ & _ & Hd).
    rewrite Hraw in *. cbn [text_of to_text as_string] in *. split; [by apply status_back|]. intros ->. by apply Hd.
  - intros raw s (-> & -> & _)%mapSummary_fields. split; [apply dashboard_status_in|apply toDecision_in].
Qed.

(** A policy's page is made of values it can show, whatever the bundle holds.  Every rule read out of a bundle has an id, a
    description and one of the three actions; the policy has a known status and action; and when the backend
    gives no count, the count shown is that of the rules read. *)
Theorem policy_detail_wf o d :
  NoDup (obj_keys o) -> mapDetail (JObj o) = Ok d ->
  Forall rule_wf (pd_rules d) /\ ps_status (pd_summary d) ∈ POLICY_STATUSES /\ ps_default_action (pd_summary d) ∈ DECISIONS /\
  (opt_truthy (obj_get "rule_count" o) = false -> ps_rule_count (pd_summary d) = JNum (NInt (Z.of_nat (List.length (pd_rules d))))).
Proof.
  intros Hnd. unfold mapDetail. cbn zeta.
  intros (rules & Hr & (name & _ & (action & _ & (summary & Hs & Hd)%result_bind_ok)%result_bind_ok)%result_bind_ok)%result_bind_ok.
  destruct (is_null _); [done|]. apply Ok_inj in Hd as <-. cbn [pd_rules pd_summary].
  apply mapSummary_fields in Hs as (-> & -> & -> & _).
  split_and!; [by eapply rulesFromBundle_wf|apply dashboard_status_in|apply toDecision_in|].
  intros Hc. unfold field_of at 2. cbn [json_get]. rewrite Hc.
  rewrite spread_get; [by rewrite String.eqb_refl|]. by apply spread_nodup, spread_nodup.
Qed.

(** ** Examples *)

Definition dq : string := of_chars [chr 34].
Definition sample_bundle : string :=
  "{" +:+ dq +:+ "name" +:+ dq +:+ ":" +:+ dq +:+ "Base" +:+ dq +:+ "," +:+ dq +:+ "rules" +:+ dq +:+ ":[{" +:+ dq +:+ "id" +:+ dq +:+ ":" +:+ dq +:+ "r1" +:+ dq
  +:+ "," +:+ dq +:+ "action" +:+ dq +:+ ":" +:+ dq +:+ "block" +:+ dq +:+ "},{}]}".
Definition sample_raw : list (string * json) :=
  [("version", JNum (NInt 7)); ("status", JStr "published"); ("published_at_ms", JNum (NInt 1709210096789)); ("bundle_json", JStr sample_bundle)].

Definition sample_detail : PolicyDetail :=
  mkDetail (mkSummary "7" (Some (JNum (NInt 7))) (JStr "Base") "active" "warn" (JStr "") "2024-02-29T12:34:56.789Z"
              (Some "2024-02-29T12:34:56.789Z") (JNum (NInt 2)))
    [mkRule "r1" "r1" "block" "{}" true; mkRule "rule-2" "rule-2" "warn" "{}" true] "" "system" JNull.

Example sample_detail_mapped : mapDetail (JObj sample_raw) = Ok sample_detail.
Proof. vm_compute. reflexivity. Qed.

Lemma policy_status_roundtrip_witness :
  dashboard_status (backend_status "superseded") = "superseded" /\
  forall raw s, field_of raw "status" = Some (JStr (backend_status "superseded")) -> mapSummary raw = Ok s ->
    ps_status s = "superseded" /\ ("superseded" = "draft" -> ps_published_at s = None).
Proof. apply (policy_status_roundtrip "superseded"). apply (bool_decide_unpack _). vm_compute. exact I. Defined.

Lemma policy_detail_wf_witness :
  mapDetail (JObj sample_raw) = Ok sample_detail /\ Forall rule_wf (pd_rules sample_detail) /\
  ps_status (pd_summary sample_detail) ∈ POLICY_STATUSES /\ ps_default_action (pd_summary sample_detail) ∈ DECISIONS /\
  (opt_truthy (obj_get "rule_count" sample_raw) = false ->
   ps_rule_count (pd_summary sample_detail) = JNum (NInt (Z.of_nat (List.length (pd_rules sample_detail))))).
Proof.
  split; [vm_compute; reflexivity|]. apply (policy_detail_wf sample_raw sample_detail).
  - apply (bool_decide_unpack _). vm_compute. exact I.
  - vm_compute. reflexivity.
Defined.
