(* ===== verification/DashStats.v ===== *)
(** * The dashboard's numbers: [getStats] of [lib/api/backend/settings.ts]

    The overview composed from the list endpoints: counts of the last day, the breakdown by category of the last
    week, and the newest devices and violations.  Items carry the fields the code reads, with the types
    of [types/index.ts]; a page that could not be fetched is [None]. *)

From S2P Require Import Prelude Json JsonText Resilience CliFiles CliInput Dashboard DashFetch DashQuery.

(** ** What the lists hold *)

(** A violation or an audit event *)
Record StatEvent := mkStatEvent {
  ev_event_id : string;
  ev_timestamp_ms : Z;
  ev_decision : string;
  ev_risk_level : string;
  ev_category : option string
}.

Record StatDevice := mkStatDevice {
  dv_device_id : string;
  dv_status : string;
  dv_last_seen_ms : option Z
}.

Record RawPage (A : Type) := mkRawPage { rp_items : option (list A); rp_total : option Z }.
Arguments mkRawPage {A} _ _.
Arguments rp_items {A} _.
Arguments rp_total {A} _.

Record CategoryCount := mkCategory { cc_category : string; cc_warn : Z; cc_block : Z }.

Record RawStats := mkRawStats {
  rs_policies_active : option Z;
  rs_pending_exceptions : option Z;
  rs_violations_by_category : option (list (option string * option Z * option Z))
}.

Definition ONE_DAY_MS : Z := 24 * 60 * 60 * 1000.
Definition SEVEN_DAYS_MS : Z := 7 * ONE_DAY_MS.
Definition RECENT_LIMIT : nat := 5.
Definition AGGREGATE_PAGE_SIZE : Z := 200.

Definition listPath (base : string) : string :=
  base +:+ "?" +:+ of_chars (form_serialize [("page", "1"); ("per_page", num_text AGGREGATE_PAGE_SIZE)]).

(** ** Sorting

    [Array.prototype.sort] with a comparator [key b - key a]: the largest first, equal ones in the order they had. *)

Section sort.
Context {A : Type} (key : A -> Z).

Fixpoint insert_desc (x : A) (l : list A) : list A :=
  match l with
  | [] => [x]
  | y :: l' => if key y <=? key x then x :: y :: l' else y :: insert_desc x l'
  end.

Definition sort_desc (l : list A) : list A := foldr insert_desc [] l.
End sort.

(** ** [aggregateByCategory] *)

(** The [Map]: categories in the order they were first seen, with the counts of warnings and blocks *)
Definition tally := list (string * (Z * Z)).

(** [Map.prototype.set]: a new key goes last. *)
Fixpoint map_set {A} (k : string) (v : A) (m : list (string * A)) : list (string * A) :=
  match m with
  | [] => [(k, v)]
  | (k', v') :: m' => if String.eqb k k' then (k, v) :: m' else (k', v') :: map_set k v m'
  end.

Definition add_event (cutoff : Z) (counts : tally) (e : StatEvent) : tally :=
  match ev_category e with
  | Some c =>
      if (ev_timestamp_ms e <? cutoff) || is_empty c then counts
      else if negb (String.eqb (ev_decision e) "warn") && negb (String.eqb (ev_decision e) "block") then counts
      else
        let '(warn, block) := default (0, 0) (obj_get c counts) in
        map_set c (if String.eqb (ev_decision e) "warn" then (warn + 1, block) else (warn, block + 1)) counts
  | None => counts
  end.

Definition count_of (kv : string * (Z * Z)) : CategoryCount := mkCategory kv.1 kv.2.1 kv.2.2.

Definition aggregateByCategory (now : Z) (events : list StatEvent) : list CategoryCount :=
  sort_desc (fun c => cc_warn c + cc_block c) (map count_of (fold_left (add_event (now - SEVEN_DAYS_MS)) events [])).

(** ** [getStats] *)

(** [if (k in counts) counts[k] += 1] *)
Definition bump (counts : list (string * Z)) (k : string) : list (string * Z) :=
  match obj_get k counts with Some n => obj_set k (n + 1) counts | None => counts end.

Record DashboardStats := mkStats {
  st_totalDevices : Z;
  st_activeDevices : Z;
  st_totalViolations24h : Z;
  st_violationsBySeverity : list (string * Z);
  st_violationsByCategory : list CategoryCount;
  st_events24h : Z;
  st_eventsByDecision : list (string * Z);
  st_policiesActive : Z;
  st_pendingExceptions : Z;
  st_recentViolations : list StatEvent;
  st_recentDevices : list StatDevice
}.

Definition count {A} (f : A -> bool) (l : list A) : Z := Z.of_nat (List.length (List.filter f l)).

(** [n || d] *)
Definition or_default (n d : Z) : Z := if n =? 0 then d else n.

Definition items_of {A} (page : option (RawPage A)) : list A := default [] (page ≫= rp_items).

Definition SEVERITY_COUNTS : list (string * Z) := [("low", 0); ("medium", 0); ("high", 0); ("critical", 0)].
Definition DECISION_COUNTS : list (string * Z) := [("allow", 0); ("warn", 0); ("block", 0)].

Definition scalar_categories (scalar : option RawStats) : list CategoryCount :=
  omap (fun c => match c with
                 | (Some category, warn, block) =>
                     if is_empty category then None else Some (mkCategory category (default 0 warn) (default 0 block))
                 | (None, _, _) => None
                 end) (default [] (scalar ≫= rs_violations_by_category)).

Definition getStats (now : Z) (scalar : option RawStats) (devicesPage : option (RawPage StatDevice))
    (violationsPage auditPage : option (RawPage StatEvent)) (policiesPage exceptionsPage : option (RawPage string)) : DashboardStats :=
  let cutoff := now - ONE_DAY_MS in
  let devices := items_of devicesPage in
  let violations := items_of violationsPage in
  let auditEvents := items_of auditPage in
  let violations24h := List.filter (fun v => cutoff <=? ev_timestamp_ms v) violations in
  let events24h := List.filter (fun e => cutoff <=? ev_timestamp_ms e) auditEvents in
  mkStats
    (default (Z.of_nat (List.length devices)) (devicesPage ≫= rp_total))
    (count (fun d => String.eqb (dv_status d) "active") devices)
    (Z.of_nat (List.length violations24h))
    (fold_left (fun c v => bump c (ev_risk_level v)) violations24h SEVERITY_COUNTS)
    (match scalar_categories scalar with
     | [] => aggregateByCategory now (match auditEvents with [] => violations | _ => auditEvents end)
     | cs => cs
     end)
    (Z.of_nat (List.length events24h))
    (fold_left (fun c e => bump c (ev_decision e)) events24h DECISION_COUNTS)
    (or_default (count (fun p => String.eqb p "published" || String.eqb p "active") (items_of policiesPage))
       (default 0 (scalar ≫= rs_policies_active)))
    (or_default (count (fun e => String.eqb e "pending") (items_of exceptionsPage)) (default 0 (scalar ≫= rs_pending_exceptions)))
    (firstn RECENT_LIMIT (sort_desc ev_timestamp_ms violations))
    (firstn RECENT_LIMIT (sort_desc (fun d => default 0 (dv_last_seen_ms d)) devices)).

(** ** Sorting *)

Section sort_lemmas.
Context {A : Type} (key : A -> Z).

Lemma insert_desc_perm x l : insert_desc key x l ≡ₚ x :: l.
Proof.
  induction l as [|y l IH]; cbn; [done|]. destruct (key y <=? key x); [done|]. rewrite IH. constructor.
Qed.

Lemma sort_desc_perm l : sort_desc key l ≡ₚ l.
Proof. induction l as [|x l IH]; cbn; [done|]. by rewrite insert_desc_perm, IH. Qed.

Definition desc (x y : A) : Prop := key y <= key x.

Lemma insert_desc_sorted x l : StronglySorted desc l -> StronglySorted desc (insert_desc key x l).
Proof.
  induction l as [|y l IH]; cbn; intros Hs; [by repeat constructor|]. apply StronglySorted_inv in Hs as [Hl Hy].
  destruct (Z.leb_spec (key y) (key x)) as [Hle|Hlt].
  - constructor; [by constructor|]. constructor; [done|]. apply (Forall_impl _ _ _ Hy). unfold desc. intros; lia.
  - constructor; [by apply IH|]. rewrite insert_desc_perm. constructor; [unfold desc; lia|done].
Qed.

Lemma sort_desc_sorted l : StronglySorted desc (sort_desc key l).
Proof. induction l as [|x l IH]; cbn; [constructor|by apply insert_desc_sorted]. Qed.

(** Equal keys keep their order: what the sort leaves of one key is what the list had of it. *)
Lemma insert_desc_stable k x l :
  StronglySorted desc l ->
  List.filter (fun y => key y =? k) (insert_desc key x l) = List.filter (fun y => key y =? k) (x :: l).
Proof.
  induction l as [|y l IH]; cbn; intros Hs; [done|]. apply StronglySorted_inv in Hs as [Hl Hy].
  destruct (Z.leb_spec (key y) (key x)) as [Hle|Hlt]; [done|]. cbn. rewrite IH by done. cbn.
  destruct (Z.eqb_spec (key y) k), (Z.eqb_spec (key x) k); try done. lia.
Qed.

Lemma sort_desc_stable k l : List.filter (fun y => key y =? k) (sort_desc key l) = List.filter (fun y => key y =? k) l.
Proof.
  induction l as [|x l IH]; cbn; [done|]. fold (sort_desc key l).
  rewrite insert_desc_stable by apply sort_desc_sorted. cbn. by rewrite IH.
Qed.
End sort_lemmas.

Lemma sorted_app {A} (R : A -> A -> Prop) l1 l2 :
  StronglySorted R (l1 ++ l2) -> StronglySorted R l1 /\ Forall (fun a => Forall (R a) l2) l1.
Proof.
  induction l1 as [|x l1 IH]; cbn; intros Hs; [split; constructor|]. apply StronglySorted_inv in Hs as [Hl Hx].
  apply IH in Hl as [? ?]. apply Forall_app in Hx as [? ?]. split; by constructor.
Qed.

(** ** Counting by category *)

(** The reference: the events of a category with a decision, in the window *)
Definition counts_as (cutoff : Z) (c d : string) (e : StatEvent) : bool :=
  (cutoff <=? ev_timestamp_ms e) && bool_decide (ev_category e = Some c) && String.eqb (ev_decision e) d.

Lemma count_cons {A} (f : A -> bool) x l : count f (x :: l) = (if f x then 1 else 0) + count f l.
Proof. unfold count. cbn. destruct (f x); cbn [List.length]; lia. Qed.

Lemma count_snoc {A} (f : A -> bool) l x : count f (l ++ [x]) = count f l + (if f x then 1 else 0).
Proof. unfold count. rewrite List.filter_app, length_app. cbn. destruct (f x); cbn [List.length]; lia. Qed.

Lemma count_nonneg {A} (f : A -> bool) l : 0 <= count f l.
Proof. unfold count. lia. Qed.

Definition tally_of (cutoff : Z) (events : list StatEvent) (c : string) : option (Z * Z) :=
  let w := count (counts_as cutoff c "warn") events in
  let b := count (counts_as cutoff c "block") events in
  if is_empty c || (w + b =? 0) then None else Some (w, b).

Lemma map_get_set {A} k k' (v : A) m : obj_get k' (map_set k v m) = if String.eqb k' k then Some v else obj_get k' m.
Proof.
  induction m as [|[k1 v1] m IH]; cbn; [done|]. destruct (String.eqb_spec k k1) as [->|Hne]; cbn.
  - by destruct (String.eqb k' k1).
  - rewrite IH. destruct (String.eqb_spec k' k1) as [->|]; [|done]. by destruct (String.eqb_spec k1 k); [congruence|].
Qed.

Lemma map_set_keys {A} k (v : A) m x : x ∈ obj_keys (map_set k v m) -> x = k \/ x ∈ obj_keys m.
Proof.
  induction m as [|[k1 v1] m IH]; cbn; [set_solver|]. destruct (String.eqb_spec k k1) as [->|]; cbn; set_solver.
Qed.

Lemma map_set_nodup {A} k (v : A) m : NoDup (obj_keys m) -> NoDup (obj_keys (map_set k v m)).
Proof.
  induction m as [|[k1 v1] m IH]; cbn; [repeat constructor; set_solver|]. intros [Hk Hnd]%NoDup_cons.
  destruct (String.eqb_spec k k1) as [->|Hne]; cbn; [by constructor|]. constructor; [|by apply IH].
  intros [->|?]%map_set_keys; done.
Qed.

(** An event adds one to the counts of its category, and nothing elsewhere. *)
Lemma add_event_get cutoff counts e c :
  obj_get c (add_event cutoff counts e) =
    let w := counts_as cutoff c "warn" e in
    let b := counts_as cutoff c "block" e in
    if negb (is_empty c) && (w || b)
    then let '(x, y) := default (0, 0) (obj_get c counts) in Some (x + if w then 1 else 0, y + if b then 1 else 0)
    else obj_get c counts.
Proof.
  unfold add_event, counts_as. destruct (ev_category e) as [c'|].
  2: { rewrite (bool_decide_false (None = Some c)) by done. rewrite ?andb_false_r. cbn [andb orb negb]. by rewrite ?andb_false_r. }
  cbn zeta. rewrite Z.leb_antisym. destruct (ev_timestamp_ms e <? cutoff); cbn [negb andb orb]; [by rewrite andb_false_r|].
  destruct (is_empty c') eqn:Ec'.
  - case_bool_decide as Hc; [|cbn [andb orb]; by rewrite andb_false_r]. injection Hc as ->. by rewrite Ec'.
  - destruct (String.eqb_spec (ev_decision e) "warn") as [Hw|Hw], (String.eqb_spec (ev_decision e) "block") as [Hb|Hb]; cbn [negb andb orb];
      [congruence|..|rewrite ?andb_false_r; cbn [andb orb negb]; by rewrite ?andb_false_r].
    all: destruct (default (0, 0) (obj_get c' counts)) as [x y] eqn:Ed; rewrite map_get_set.
    all: destruct (String.eqb_spec c c') as [->|Hne].
    all: first [rewrite (bool_decide_true (Some c' = Some c')) by done | rewrite (bool_decide_false (Some c' = Some c)) by congruence].
    all: rewrite ?Ec', ?andb_false_r, ?andb_true_r; cbn [negb andb orb]; try done.
    all: rewrite Ed; do 2 f_equal; lia.
Qed.

Lemma fold_tally cutoff events :
  let counts := fold_left (add_event cutoff) events [] in
  NoDup (obj_keys counts) /\ forall c, obj_get c counts = tally_of cutoff events c.
Proof.
  induction events as [|e events [Hnd Hget]] using rev_ind; cbn zeta.
  - split; [constructor|]. intros c. unfold tally_of. cbn. by rewrite orb_true_r.
  - rewrite fold_left_app. cbn [fold_left]. set (counts := fold_left (add_event cutoff) events []) in *. split.
    + unfold add_event. destruct (ev_category e) as [c|]; [|done]. destruct (_ || _); [done|]. destruct (_ && _); [done|].
      destruct (default (0, 0) (obj_get c counts)). by apply map_set_nodup.
    + intros c. rewrite add_event_get, Hget. unfold tally_of. rewrite !count_snoc. cbn zeta.
      pose proof (count_nonneg (counts_as cutoff c "warn") events). pose proof (count_nonneg (counts_as cutoff c "block") events).
      destruct (is_empty c); cbn [negb andb orb]; [done|].
      destruct (counts_as cutoff c "warn" e), (counts_as cutoff c "block" e); cbn [orb].
      all: repeat match goal with |- context [?a =? 0] => destruct (Z.eqb_spec a 0) end; cbn [from_option id]; try lia; try done.
      all: do 2 f_equal; lia.
Qed.


(** *** Breakdowns *)

Lemma bump_get counts k k' :
  NoDup (obj_keys counts) ->
  obj_get k' (bump counts k) = (fun n => n + if String.eqb k' k then 1 else 0) <$> obj_get k' counts.
Proof.
  intros Hnd. unfold bump. destruct (obj_get k counts) as [n|] eqn:E.
  - rewrite obj_get_set by done. destruct (String.eqb_spec k' k) as [->|]; [by rewrite E|].
    destruct (obj_get k' counts); cbn; [f_equal; lia|done].
  - destruct (String.eqb_spec k' k) as [->|]; [by rewrite E|]. destruct (obj_get k' counts); cbn; [f_equal; lia|done].
Qed.

Lemma bump_keys counts k : NoDup (obj_keys counts) -> NoDup (obj_keys (bump counts k)).
Proof. intros Hnd. unfold bump. destruct (obj_get k counts); [by apply obj_set_NoDup|done]. Qed.

(** A breakdown counts, for each of its keys, the items with that key. *)
Lemma breakdown_get {A} (f : A -> string) items counts k n :
  NoDup (obj_keys counts) -> obj_get k counts = Some n ->
  obj_get k (fold_left (fun c x => bump c (f x)) items counts) = Some (n + count (fun x => String.eqb k (f x)) items).
Proof.
  revert counts n. induction items as [|x items IH]; intros counts n Hnd Hk; cbn [fold_left].
  - rewrite Hk. unfold count. cbn. f_equal. lia.
  - rewrite (IH _ (n + if String.eqb k (f x) then 1 else 0)); [|by apply bump_keys|by rewrite bump_get, Hk by done].
    rewrite count_cons. f_equal. lia.
Qed.

(** ** Properties *)

(** C28: the breakdown by category is the count it says it is.  It lists exactly the categories with a warning or
    a block in the last seven days, each once, with the number of each that an independent count gives, busiest first. *)
Theorem category_breakdown now events :
  let cutoff := now - SEVEN_DAYS_MS in
  let out := aggregateByCategory now events in
  StronglySorted (fun a b => cc_warn b + cc_block b <= cc_warn a + cc_block a) out /\
  NoDup (map cc_category out) /\
  (forall c w b, mkCategory c w b ∈ out <->
     c <> "" /\ w = count (counts_as cutoff c "warn") events /\ b = count (counts_as cutoff c "block") events /\ 0 < w + b).
Proof.
  intros cutoff out. destruct (fold_tally cutoff events) as [Hnd Hget].
  set (counts := fold_left (add_event cutoff) events []) in *.
  assert (out ≡ₚ map count_of counts) as Hp by apply sort_desc_perm. split_and!.
  - apply (sort_desc_sorted (fun c => cc_warn c + cc_block c)).
  - rewrite Hp, map_map. done.
  - intros c w b. rewrite Hp.
    transitivity ((c, (w, b)) ∈ counts).
    { rewrite list_elem_of_fmap. split; [|by exists (c, (w, b))]. intros ([c' [w' b']] & [= -> -> ->] & Hin). done. }
    rewrite <- (obj_get_elem c (w, b) counts Hnd), Hget. unfold tally_of. cbn zeta.
    pose proof (count_nonneg (counts_as cutoff c "warn") events). pose proof (count_nonneg (counts_as cutoff c "block") events).
    destruct c as [|ch s]; cbn [is_empty orb]; [naive_solver|].
    destruct (Z.eqb_spec (count (counts_as cutoff (String ch s) "warn") events + count (counts_as cutoff (String ch s) "block") events) 0).
    + split; [done|]. intros (_ & -> & -> & ?). lia.
    + split; [intros [= <- <-]; split_and!; [done..|lia]|]. by intros (_ & -> & -> & ?).
Qed.

(** The overview's numbers are those of the lists it was given.  The counts by severity and by decision are the numbers of the day's
    violations and events with each value, so they never exceed the totals beside them; and the recent violations are the newest, at
    most five, in an order no other violation of the list beats. *)
Theorem stats_overview now scalar devicesPage violationsPage auditPage policiesPage exceptionsPage :
  let stats := getStats now scalar devicesPage violationsPage auditPage policiesPage exceptionsPage in
  let today := List.filter (fun e => now - ONE_DAY_MS <=? ev_timestamp_ms e) in
  (forall sev n, obj_get sev SEVERITY_COUNTS = Some n ->
     obj_get sev (st_violationsBySeverity stats) = Some (count (fun v => String.eqb sev (ev_risk_level v)) (today (items_of violationsPage)))) /\
  (forall d n, obj_get d DECISION_COUNTS = Some n ->
     obj_get d (st_eventsByDecision stats) = Some (count (fun e => String.eqb d (ev_decision e)) (today (items_of auditPage)))) /\
  exists rest, items_of violationsPage ≡ₚ st_recentViolations stats ++ rest /\ (List.length (st_recentViolations stats) <= RECENT_LIMIT)%nat /\
    StronglySorted (fun a b => ev_timestamp_ms b <= ev_timestamp_ms a) (st_recentViolations stats) /\
    Forall (fun a => Forall (fun b => ev_timestamp_ms b <= ev_timestamp_ms a) rest) (st_recentViolations stats) /\
    (rest = [] \/ List.length (st_recentViolations stats) = RECENT_LIMIT).
Proof.
  intros stats today. split_and!.
  - intros sev n Hn. cbn [stats getStats st_violationsBySeverity].
    rewrite (breakdown_get _ _ _ _ n); [|apply (bool_decide_unpack _); vm_compute; exact I|done].
    assert (n = 0) as -> by (revert Hn; cbn; repeat (destruct (String.eqb sev _); [congruence|]); done). done.
  - intros d n Hn. cbn [stats getStats st_eventsByDecision].
    rewrite (breakdown_get _ _ _ _ n); [|apply (bool_decide_unpack _); vm_compute; exact I|done].
    assert (n = 0) as -> by (revert Hn; cbn; repeat (destruct (String.eqb d _); [congruence|]); done). done.
  - cbn [stats getStats st_recentViolations]. set (sorted := sort_desc ev_timestamp_ms (items_of violationsPage)).
    exists (skipn RECENT_LIMIT sorted). pose proof (sort_desc_sorted ev_timestamp_ms (items_of violationsPage)) as Hs. fold sorted in Hs.
    rewrite <- (firstn_skipn RECENT_LIMIT sorted) in Hs. apply sorted_app in Hs as (Hs1 & Hs2). split_and!.
    + rewrite firstn_skipn. symmetry. apply sort_desc_perm.
    + apply firstn_le_length.
    + done.
    + done.
    + destruct (decide (List.length sorted <= RECENT_LIMIT)%nat); [left; by apply skipn_all2|right; rewrite firstn_length; lia].
Qed.

(** ** Examples *)

Definition week_ago : Z := 1000 * ONE_DAY_MS - SEVEN_DAYS_MS.
Definition sample_events : list StatEvent :=
  [mkStatEvent "e1" (week_ago - 1) "block" "high" (Some "pii"); mkStatEvent "e2" week_ago "warn" "low" (Some "pii");
   mkStatEvent "e3" (1000 * ONE_DAY_MS) "block" "high" (Some "secret"); mkStatEvent "e4" (1000 * ONE_DAY_MS) "warn" "high" (Some "secret");
   mkStatEvent "e5" (1000 * ONE_DAY_MS) "allow" "low" (Some "legal"); mkStatEvent "e6" (1000 * ONE_DAY_MS) "warn" "low" None].

Example sample_breakdown :
  aggregateByCategory (1000 * ONE_DAY_MS) sample_events = [mkCategory "secret" 1 1; mkCategory "pii" 1 0].
Proof. vm_compute. reflexivity. Qed.

Example sample_overview :
  let stats := getStats (1000 * ONE_DAY_MS) None None (Some (mkRawPage (Some sample_events) None)) None None None in
  (st_totalViolations24h stats, st_violationsBySeverity stats, map ev_event_id (st_recentViolations stats), st_violationsByCategory stats)
  = (4, [("low", 2); ("medium", 0); ("high", 2); ("critical", 0)], ["e3"; "e4"; "e5"; "e6"; "e2"], [mkCategory "secret" 1 1; mkCategory "pii" 1 0]).
Proof. vm_compute. reflexivity. Qed.
