(* ===== verification/DashExport.v ===== *)
(** * Exporting the audit log

    [lib/utils/csv.ts] and [handleExport] of [app/audit/page.tsx]: the pages of the list endpoint are walked
    to a cap, and the rows are written as RFC 4180 text.  [csv_read] is a reader of that format, the reference the text
    is checked against. *)

From S2P Require Import Prelude Json JsonText Resilience CliFiles CliInput IsoDate Dashboard DashFetch DashQuery.

(** ** [csv.ts] *)

Definition QUOTE : ascii := chr 34.
Definition CR : ascii := chr 13.
Definition LF : ascii := chr 10.
Definition COMMA : ascii := chr 44.

(** The characters that make a field be quoted: a quote, a comma, a line break *)
Definition special (c : ascii) : bool := bool_decide (c ∈ [QUOTE; COMMA; LF; CR]).

(** Every quote doubled *)
Definition double_quotes (s : chars) : chars := flat_map (fun c => if Ascii.eqb c QUOTE then [QUOTE; QUOTE] else [c]) s.

Definition field_text (value : option json) : string :=
  match value with None | Some JNull => "" | Some v => to_text v end.

Definition quote_field (s : chars) : chars :=
  if existsb special s then QUOTE :: double_quotes s ++ [QUOTE] else s.

Definition escapeField (value : option json) : chars := quote_field (to_chars (field_text value)).

(** [a.join(sep)] *)
Fixpoint join_chars (sep : chars) (l : list chars) : chars :=
  match l with
  | [] => []
  | [x] => x
  | x :: l' => x ++ sep ++ join_chars sep l'
  end.

Record csv_column := mkColumn { col_key : string; col_header : string }.
Abbreviation csv_row := (list (string * json)).

Definition toCsv (rows : list csv_row) (columns : list csv_column) : chars :=
  join_chars [CR; LF]
    (join_chars [COMMA] (map (fun c => escapeField (Some (JStr (col_header c)))) columns) ::
     map (fun row => join_chars [COMMA] (map (fun c => escapeField (obj_get (col_key c) row)) columns)) rows).

(** ** A reader of RFC 4180

    [field] and [record] are reversed; [quoted] says that the field is open. *)
Fixpoint csv_go (quoted : bool) (field : chars) (record : list string) (s : chars) : list (list string) :=
  match s with
  | [] => [rev (of_chars (rev field) :: record)]
  | c :: s1 =>
      if quoted then
        if Ascii.eqb c QUOTE then
          match s1 with
          | c2 :: s2 => if Ascii.eqb c2 QUOTE then csv_go true (QUOTE :: field) record s2 else csv_go false field record s1
          | [] => csv_go false field record s1
          end
        else csv_go true (c :: field) record s1
      else if Ascii.eqb c COMMA then csv_go false [] (of_chars (rev field) :: record) s1
      else if Ascii.eqb c CR then
        match s1 with
        | c2 :: s2 =>
            if Ascii.eqb c2 LF then rev (of_chars (rev field) :: record) :: csv_go false [] [] s2
            else csv_go false (c :: field) record s1
        | [] => csv_go false (c :: field) record s1
        end
      else if Ascii.eqb c QUOTE then if decide (field = []) then csv_go true [] record s1 else csv_go false (c :: field) record s1
      else csv_go false (c :: field) record s1
  end.

Definition csv_read (s : chars) : list (list string) := csv_go false [] [] s.

(** ** [handleExport] *)

Definition EXPORT_PAGE_SIZE : Z := 100.
Definition EXPORT_ROW_CAP : Z := 1000.

Definition EXPORT_COLUMNS : list csv_column :=
  map (fun k => mkColumn k k)
    ["event_id"; "type"; "timestamp"; "user_id"; "device_id"; "decision"; "risk_level"; "category"; "reason"; "event_hash"].

(** The fields of an [AuditEvent] the export reads *)
Record AuditRow := mkAuditRow {
  ar_event_id : string;
  ar_type : string;
  ar_timestamp_ms : Z;
  ar_user_id : string;
  ar_device_id : string;
  ar_decision : string;
  ar_risk_level : string;
  ar_category : option string;
  ar_reason : option string;
  ar_event_hash : string
}.

(** The row pushed for an event; a timestamp no [Date] can hold throws. *)
Definition export_row (e : AuditRow) : option csv_row :=
  timestamp ← toISOString (ar_timestamp_ms e);
  Some [("event_id", JStr (ar_event_id e)); ("type", JStr (ar_type e)); ("timestamp", JStr timestamp); ("user_id", JStr (ar_user_id e));
        ("device_id", JStr (ar_device_id e)); ("decision", JStr (ar_decision e)); ("risk_level", JStr (ar_risk_level e));
        ("category", JStr (default "" (ar_category e))); ("reason", JStr (default "" (ar_reason e))); ("event_hash", JStr (ar_event_hash e))].

(** A length, as JavaScript has it *)
Definition len {A} (l : list A) : Z := Z.of_nat (List.length l).

(** [for (const e of result.items)]: up to the cap *)
Fixpoint push_rows (rows : list csv_row) (items : list AuditRow) : option (list csv_row) :=
  match items with
  | [] => Some rows
  | e :: items' => if EXPORT_ROW_CAP <=? len rows then Some rows else row ← export_row e; push_rows (rows ++ [row]) items'
  end.

Inductive export_outcome :=
| OutOfFuel
| Failed                                          (* a page that could not be fetched, or a row that could not be built *)
| Exported (rows : list csv_row) (total : option Z).    (* [None]: still infinite *)

Section export.
Context {W : Type}.
(** [repos.audit.list] of a page, with the search and the filters of the page: its total and its items *)
Context (list_page : Z -> W -> option (Z * list AuditRow) * W).

(** The [while] loop; [total] is [None] while it is infinite. *)
Fixpoint export_loop (fuel : nat) (rows : list csv_row) (page : Z) (total : option Z) (w : W) : export_outcome * W :=
  let more := match total with Some t => len rows <? t | None => true end in
  if more && (len rows <? EXPORT_ROW_CAP) then
    match fuel with
    | O => (OutOfFuel, w)
    | S fuel' =>
        match list_page page w with
        | (None, w') => (Failed, w')
        | (Some (total', items), w') =>
            match push_rows rows items with
            | None => (Failed, w')
            | Some rows' =>
                match items with
                | [] => (Exported rows' (Some total'), w')
                | _ => export_loop fuel' rows' (page + 1) (Some total') w'
                end
            end
        end
    end
  else (Exported rows total, w).

Inductive export_effect :=
| Download (filename : string) (csv : chars)
| ToastSuccess (title text : string)
| ToastError (title text : string).

(** At most one page for every row of the cap, and one more *)
Definition EXPORT_FUEL : nat := Z.to_nat EXPORT_ROW_CAP + 1.

(** [now]: the time of the file name's stamp *)
Definition handleExport (now : Z) (w : W) : list export_effect * W :=
  let failed := [ToastError "Audit export failed" "Could not fetch audit events. Please try again."] in
  match export_loop EXPORT_FUEL [] 1 None w with
  | (Exported rows total, w') =>
      match toISOString now with
      | Some stamp =>
          let truncated := (EXPORT_ROW_CAP <=? len rows) && match total with Some t => len rows <? t | None => true end in
          ([Download ("vguardrail-audit-" +:+ of_chars (List.filter (fun c => negb (Ascii.eqb c "-")) (to_chars (slice_to 10 stamp))) +:+ ".csv")
              (toCsv rows EXPORT_COLUMNS);
            ToastSuccess "Audit export complete"
              (if truncated
               then "Exported " +:+ num_text (len rows) +:+ " rows (truncated at the " +:+ num_text EXPORT_ROW_CAP +:+ "-row cap)."
               else "Exported " +:+ num_text (len rows) +:+ " rows.")], w')
      | None => (failed, w')
      end
  | (_, w') => (failed, w')
  end.
End export.

(** ** The text read back *)

Lemma csv_plain s field record rest :
  existsb special s = false -> csv_go false field record (s ++ rest) = csv_go false (rev s ++ field) record rest.
Proof.
  revert field. induction s as [|c s IH]; intros field; [done|]. cbn [existsb]. intros [Hc Hs]%orb_false_iff.
  unfold special in Hc. apply bool_decide_eq_false in Hc.
  assert (c <> QUOTE /\ c <> COMMA /\ c <> LF /\ c <> CR) as (H1 & H2 & H3 & H4) by (split_and!; intros ->; apply Hc; apply list_elem_of_In; cbn; tauto).
  cbn [Datatypes.app csv_go]. destruct (Ascii.eqb_spec c COMMA), (Ascii.eqb_spec c CR), (Ascii.eqb_spec c QUOTE); try done.
  rewrite IH by done. cbn [rev]. by rewrite <- app_assoc.
Qed.

(** What may follow a field: a comma, a line break, or the end *)
Definition ends_field (rest : chars) : Prop := match rest with [] => True | c :: _ => c <> QUOTE end.

Lemma csv_quoted s field record rest :
  ends_field rest -> csv_go true field record (double_quotes s ++ QUOTE :: rest) = csv_go false (rev s ++ field) record rest.
Proof.
  intros He. revert field. induction s as [|c s IH]; intros field.
  - cbn [double_quotes flat_map Datatypes.app csv_go rev]. rewrite Ascii.eqb_refl. destruct rest as [|c rest]; [done|].
    cbn in He. by destruct (Ascii.eqb_spec c QUOTE).
  - unfold double_quotes in *. cbn [flat_map]. destruct (Ascii.eqb_spec c QUOTE) as [->|Hne].
    + cbn [Datatypes.app csv_go]. rewrite Ascii.eqb_refl. rewrite IH. cbn [rev]. by rewrite <- app_assoc.
    + cbn [Datatypes.app csv_go]. destruct (Ascii.eqb_spec c QUOTE); [done|]. rewrite IH. cbn [rev]. by rewrite <- app_assoc.
Qed.

Lemma csv_field s record rest :
  ends_field rest -> csv_go false [] record (quote_field s ++ rest) = csv_go false (rev s) record rest.
Proof.
  intros He. unfold quote_field. destruct (existsb special s) eqn:E.
  - cbn [Datatypes.app]. rewrite <- app_assoc. cbn [Datatypes.app csv_go]. rewrite decide_True by done.
    change (Ascii.eqb QUOTE COMMA) with false. change (Ascii.eqb QUOTE CR) with false. rewrite Ascii.eqb_refl.
    rewrite csv_quoted by done. by rewrite app_nil_r.
  - rewrite csv_plain by done. by rewrite app_nil_r.
Qed.

Lemma csv_line fields record rest :
  fields <> [] -> ends_field rest -> (rest = [] \/ exists r, rest = CR :: LF :: r) ->
  csv_go false [] record (join_chars [COMMA] (map (fun s => quote_field (to_chars s)) fields) ++ rest) =
  (rev record ++ fields) :: match rest with [] => [] | _ => csv_read (skipn 2 rest) end.
Proof.
  intros Hne He Hrest. revert record. induction fields as [|x [|y fields] IH]; intros record; [done|..].
  - cbn [map join_chars]. rewrite csv_field by done. destruct Hrest as [->|[r ->]].
    + cbn [csv_go]. rewrite rev_involutive, of_to_chars. done.
    + cbn [csv_go skipn]. change (Ascii.eqb CR COMMA) with false. rewrite !Ascii.eqb_refl, rev_involutive, of_to_chars. done.
  - cbn [map join_chars] in *. rewrite <- !app_assoc. rewrite csv_field by done. cbn [Datatypes.app csv_go]. rewrite Ascii.eqb_refl.
    rewrite rev_involutive, of_to_chars. rewrite IH by done. cbn [rev]. by rewrite <- app_assoc.
Qed.

Lemma csv_lines (lines : list (list string)) :
  lines <> [] -> Forall (fun fields => fields <> []) lines ->
  csv_read (join_chars [CR; LF] (map (fun fields => join_chars [COMMA] (map (fun s => quote_field (to_chars s)) fields)) lines)) = lines.
Proof.
  intros Hne Hall. unfold csv_read. induction lines as [|l [|l' lines] IH]; [done|..]; apply Forall_cons in Hall as [Hl Hall].
  - cbn [map join_chars]. rewrite <- (app_nil_r (join_chars _ _)). rewrite csv_line; [done|done|exact I|by left].
  - cbn [map join_chars] in *. rewrite csv_line; [|done|done|right; by eexists]. cbn [rev Datatypes.app skipn]. f_equal. by apply IH.
Qed.

(** ** The pages *)

Lemma push_rows_len rows items rows' :
  push_rows rows items = Some rows' -> len rows <= EXPORT_ROW_CAP ->
  len rows <= len rows' <= EXPORT_ROW_CAP /\ (items <> [] -> len rows < EXPORT_ROW_CAP -> len rows < len rows').
Proof.
  revert rows. induction items as [|e items IH]; intros rows; cbn [push_rows]; [intros [= <-]; split; [lia|done]|].
  destruct (Z.leb_spec EXPORT_ROW_CAP (len rows)) as [Hle|Hlt]; [intros [= <-]; split; [lia|lia]|].
  destruct (export_row e) as [row|]; [|done]. intros Hp Hcap.
  assert (len (rows ++ [row]) = len rows + 1) as Hlen by (unfold len; rewrite length_app; cbn; lia).
  destruct (IH _ Hp) as [Hb _]; [lia|]. split; [lia|intros; lia].
Qed.

(** The loop ends before its fuel does, whatever the pages are. *)
Lemma export_loop_ends {W} (list_page : Z -> W -> option (Z * list AuditRow) * W) fuel rows page total w :
  len rows <= EXPORT_ROW_CAP -> EXPORT_ROW_CAP - len rows < Z.of_nat fuel ->
  match (export_loop list_page fuel rows page total w).1 with
  | OutOfFuel => False
  | Failed => True
  | Exported rows' _ => len rows' <= EXPORT_ROW_CAP
  end.
Proof.
  revert rows page total w. induction fuel as [|fuel IH]; intros rows page total w Hcap Hfuel; [lia|]. cbn [export_loop].
  destruct (_ && _) eqn:E; [|done]. apply andb_true_iff in E as [_ Hlt%Z.ltb_lt].
  destruct (list_page page w) as [[[total' items]|] w']; [|done].
  destruct (push_rows rows items) as [rows'|] eqn:Ep; [|done].
  destruct (push_rows_len rows items rows' Ep) as [Hb Hgrow]; [lia|]. destruct items as [|e items]; [cbn; lia|].
  specialize (Hgrow ltac:(done) Hlt). apply IH; lia.
Qed.

(** A server whose pages are those of one list *)
Definition pages_of {W} (events : list AuditRow) (page : Z) (w : W) : option (Z * list AuditRow) * W :=
  (Some (len events, firstn (Z.to_nat EXPORT_PAGE_SIZE) (skipn (Z.to_nat (EXPORT_PAGE_SIZE * (page - 1))) events)), w).

Definition exportable (e : AuditRow) : Prop := is_Some (export_row e).
Definition row_of_event (e : AuditRow) : csv_row := default [] (export_row e).

Lemma push_rows_all rows items :
  Forall exportable items -> len rows + len items <= EXPORT_ROW_CAP -> push_rows rows items = Some (rows ++ map row_of_event items).
Proof.
  revert rows. induction items as [|e items IH]; intros rows Hall Hcap; cbn [push_rows map]; [by rewrite app_nil_r|].
  apply Forall_cons in Hall as [[row He] Hall]. unfold len in *. cbn [List.length] in Hcap.
  destruct (Z.leb_spec EXPORT_ROW_CAP (Z.of_nat (List.length rows))); [lia|]. rewrite He. cbn [mbind option_bind].
  rewrite IH; [|done|rewrite length_app; cbn; lia]. unfold row_of_event at 2. rewrite He. cbn. by rewrite <- app_assoc.
Qed.

Lemma export_loop_pages {W} events fuel k (w : W) :
  Forall exportable events -> (k <= 10)%nat -> (10 - k < fuel)%nat ->
  let rows := map row_of_event in
  let total := match k with O => None | _ => Some (len events) end in
  export_loop (pages_of events) fuel (rows (firstn (100 * k) events)) (Z.of_nat k + 1) total w
  = (Exported (rows (firstn 1000 events)) (Some (len events)), w).
Proof.
  intros Hall. revert k. induction fuel as [|fuel IH]; intros k Hk Hfuel rows total; [lia|].
  assert (len (rows (firstn (100 * k) events)) = Z.min (100 * Z.of_nat k) (len events)) as Hlen
    by (unfold rows, len; rewrite length_map, length_firstn; lia).
  cbn [export_loop]. rewrite Hlen. destruct (_ && _) eqn:E.
  - apply andb_true_iff in E as [Hmore Hcap%Z.ltb_lt]. unfold EXPORT_ROW_CAP in Hcap.
    unfold pages_of at 1. replace (Z.to_nat (EXPORT_PAGE_SIZE * (Z.of_nat k + 1 - 1))) with (100 * k)%nat by (unfold EXPORT_PAGE_SIZE; lia).
    change (Z.to_nat EXPORT_PAGE_SIZE) with 100%nat. set (items := firstn 100 (skipn (100 * k) events)).
    assert (firstn (100 * k) events ++ items = firstn (100 * S k) events) as Happ.
    { unfold items. rewrite firstn_skipn_comm. rewrite <- (firstn_skipn (100 * k) (firstn (100 * S k) events)). f_equal.
      - rewrite firstn_firstn. f_equal. lia.
      - f_equal. f_equal. lia. }
    rewrite push_rows_all.
    + replace (rows (firstn (100 * k) events) ++ map row_of_event items) with (rows (firstn (100 * S k) events)) by (unfold rows; by rewrite <- map_app, Happ).
      destruct items as [|e items'] eqn:Ei.
      * rewrite <- Happ, app_nil_r. assert (len events <= 100 * Z.of_nat k) as Hend.
        { assert (List.length items = 0%nat) as Hz by by rewrite Ei. unfold items in Hz. rewrite length_firstn, length_skipn in Hz. unfold len. lia. }
        unfold len in Hend. rewrite !firstn_all2 by lia. done.
      * assert (0 < List.length items)%nat as Hpos by (rewrite Ei; cbn; lia). unfold items, len in *. rewrite length_firstn, length_skipn in Hpos.
        replace (Z.of_nat k + 1 + 1) with (Z.of_nat (S k) + 1) by lia. apply (IH (S k)); lia.
    + apply Forall_take, Forall_drop. done.
    + rewrite Hlen. unfold items, len, EXPORT_ROW_CAP in *. rewrite length_firstn, length_skipn. lia.
  - assert (total = Some (len events)) as Ht by (unfold total; destruct k; [|done]; cbn in E; unfold EXPORT_ROW_CAP in E; destruct (len events); done).
    rewrite Ht in *. unfold EXPORT_ROW_CAP, rows, len in *. apply andb_false_iff in E as [E%Z.ltb_ge|E%Z.ltb_ge].
    + by rewrite !firstn_all2 by lia.
    + by assert (k = 10%nat) as -> by lia.
Qed.

Lemma toCsv_read rows columns :
  columns <> [] ->
  csv_read (toCsv rows columns) =
    map col_header columns :: map (fun row => map (fun c => field_text (obj_get (col_key c) row)) columns) rows.
Proof.
  intros Hne. set (lines := _ :: _).
  assert (toCsv rows columns =
    join_chars [CR; LF] (map (fun fields => join_chars [COMMA] (map (fun s => quote_field (to_chars s)) fields)) lines)) as ->.
  { unfold toCsv, lines, escapeField. cbn [map field_text to_text]. rewrite !map_map. f_equal. f_equal.
    apply map_ext. intros row. by rewrite map_map. }
  apply csv_lines; [done|]. unfold lines. constructor; [by destruct columns|]. apply Forall_map, Forall_true. intros row. by destruct columns.
Qed.

(** The fields of an event's line *)
Definition line_of (e : AuditRow) : list string :=
  [ar_event_id e; ar_type e; default "" (toISOString (ar_timestamp_ms e)); ar_user_id e; ar_device_id e; ar_decision e; ar_risk_level e;
   default "" (ar_category e); default "" (ar_reason e); ar_event_hash e].

Lemma line_of_row e : exportable e -> map (fun c => field_text (obj_get (col_key c) (row_of_event e))) EXPORT_COLUMNS = line_of e.
Proof.
  intros [row He]. unfold row_of_event, line_of. unfold export_row in *. destruct (toISOString (ar_timestamp_ms e)) as [t|]; [|done]. reflexivity.
Qed.

(** ** Properties *)

(** The CSV text is RFC 4180 and loses nothing.  For any rows and at least one column, a reader of that format gets back the
    headers and then, for every row, the text of each column's value (empty where the row has none), whatever quotes, commas
    and line breaks the values hold. *)
Theorem csv_roundtrip rows columns :
  columns <> [] ->
  csv_read (toCsv rows columns) =
    map col_header columns :: map (fun row => map (fun c => field_text (obj_get (col_key c) row)) columns) rows.
Proof. apply toCsv_read. Qed.

(** An export always ends, and within its cap.  Whatever the server answers, also with a total that keeps growing or with
    pages that repeat, the loop over the pages stops after at most 1001 requests, with at most 1000 rows or with a failure,
    and the user is told which. *)
Theorem audit_export_bounded {W} (list_page : Z -> W -> option (Z * list AuditRow) * W) now w :
  match (export_loop list_page EXPORT_FUEL [] 1 None w).1 with
  | OutOfFuel => False
  | Failed => (handleExport list_page now w).1 = [ToastError "Audit export failed" "Could not fetch audit events. Please try again."]
  | Exported rows _ =>
      len rows <= EXPORT_ROW_CAP /\
      (- MAX_TIME <= now <= MAX_TIME -> exists name text, (handleExport list_page now w).1 =
         [Download name (toCsv rows EXPORT_COLUMNS); ToastSuccess "Audit export complete" text])
  end.
Proof.
  pose proof (export_loop_ends list_page EXPORT_FUEL [] 1 None w ltac:(done) ltac:(vm_compute; reflexivity)) as H. unfold handleExport.
  destruct (export_loop list_page EXPORT_FUEL [] 1 None w) as [[| |rows total] w']; cbn [fst] in *.
  - done.
  - done.
  - split; [done|]. intros Hnow. unfold toISOString.
    assert ((- MAX_TIME <=? now) && (now <=? MAX_TIME) = true) as -> by lia. cbn [fst]. by eexists _, _.
Qed.

(** C27: an export is complete.  Of a server that serves the pages of one list of events, all with a timestamp that is a date, the
    file holds the header and then the first thousand events in order, one line each, and the user is told that it is
    truncated exactly when there are more. *)
Theorem audit_export_complete {W} events now (w : W) :
  Forall (fun e => - MAX_TIME <= ar_timestamp_ms e <= MAX_TIME) events -> - MAX_TIME <= now <= MAX_TIME ->
  exists name text, handleExport (pages_of events) now w =
    ([Download name text;
      ToastSuccess "Audit export complete"
        (if 1000 <? len events then "Exported 1000 rows (truncated at the 1000-row cap)."
         else "Exported " +:+ num_text (len events) +:+ " rows.")], w) /\
    csv_read text = map col_header EXPORT_COLUMNS :: map line_of (firstn 1000 events).
Proof.
  intros Hts Hnow.
  assert (Forall exportable events) as Hall.
  { apply (Forall_impl _ _ _ Hts). intros e He. unfold exportable, export_row, toISOString.
    assert ((- MAX_TIME <=? ar_timestamp_ms e) && (ar_timestamp_ms e <=? MAX_TIME) = true) as -> by lia. by eexists. }
  unfold handleExport. pose proof (export_loop_pages events EXPORT_FUEL 0 w Hall ltac:(lia) ltac:(unfold EXPORT_FUEL, EXPORT_ROW_CAP; lia)) as E.
  cbn zeta in E. change (map row_of_event (firstn (100 * 0) events)) with (@nil csv_row) in E. change (Z.of_nat 0 + 1) with 1 in E.
  rewrite E. unfold toISOString.
  assert ((- MAX_TIME <=? now) && (now <=? MAX_TIME) = true) as -> by lia.
  eexists _, _. split.
  - assert (len (map row_of_event (firstn 1000 events)) = Z.min 1000 (len events)) as -> by (unfold len; rewrite length_map, length_firstn; lia).
    unfold EXPORT_ROW_CAP. destruct (Z.ltb_spec 1000 (len events)).
    + rewrite Z.min_l by lia. assert ((1000 <=? 1000) && (1000 <? len events) = true) as -> by lia. reflexivity.
    + rewrite Z.min_r by lia. rewrite Z.ltb_irrefl, andb_false_r. reflexivity.
  - rewrite toCsv_read by done. f_equal. rewrite map_map. apply map_ext_in. intros e He.
    apply line_of_row. rewrite Forall_forall in Hall. apply Hall. apply list_elem_of_In in He. rewrite <- (firstn_skipn 1000 events). apply elem_of_app. by left.
Qed.

(** ** Examples *)

Definition tricky : csv_row := [("a", JStr ("say " +:+ of_chars [QUOTE] +:+ "hi" +:+ of_chars [QUOTE] +:+ ", twice")); ("b", JNum (NInt 7))].
Definition ab_columns : list csv_column := [mkColumn "a" "A"; mkColumn "b" "B"; mkColumn "c" "C"].

Example csv_text :
  of_chars (toCsv [tricky] ab_columns) =
  "A,B,C" +:+ of_chars [CR; LF] +:+ of_chars [QUOTE] +:+ "say " +:+ of_chars [QUOTE; QUOTE] +:+ "hi" +:+ of_chars [QUOTE; QUOTE] +:+ ", twice"
  +:+ of_chars [QUOTE] +:+ ",7,".
Proof. vm_compute. reflexivity. Qed.

Lemma csv_roundtrip_witness :
  csv_read (toCsv [tricky] ab_columns) = [["A"; "B"; "C"]; ["say " +:+ of_chars [QUOTE] +:+ "hi" +:+ of_chars [QUOTE] +:+ ", twice"; "7"; ""]].
Proof. rewrite (csv_roundtrip [tricky] ab_columns) by discriminate. reflexivity. Defined.

Definition sample_row : AuditRow := mkAuditRow "e1" "user.login" 0 "u" "d" "allow" "low" None (Some "a, b") "h".

Lemma audit_export_complete_witness :
  exists name text, handleExport (pages_of [sample_row]) 0 tt =
    ([Download name text; ToastSuccess "Audit export complete" "Exported 1 rows."], tt) /\
    csv_read text = [map col_header EXPORT_COLUMNS;
                     ["e1"; "user.login"; "1970-01-01T00:00:00.000Z"; "u"; "d"; "allow"; "low"; ""; "a, b"; "h"]].
Proof.
  apply (audit_export_complete [sample_row] 0 tt).
  - repeat constructor; discriminate.
  - split; discriminate.
Defined.
