(* ===== verification/DashUi.v ===== *)
(** * The logic of the dashboard's components

    [components/ui/Pagination.tsx], [components/ui/Dropdown.tsx], [components/layout/Breadcrumbs.tsx] and
    [lib/utils/format.ts]: what the components compute from their properties; the markup is left out. *)

From S2P Require Import Prelude Json JsonText Resilience CliFiles CliInput Dashboard DashQuery.

(** ** [Pagination.tsx] *)

Inductive page_item := PageNo (n : Z) | Ellipsis.

Definition range (start finish : Z) : list Z := map (fun i => start + Z.of_nat i) (seq 0 (Z.to_nat (finish - start + 1))).

Definition buildPageRange (current totalPages siblingCount : Z) : list page_item :=
  let totalNumbers := siblingCount * 2 + 5 in
  if totalPages <=? totalNumbers then map PageNo (range 1 totalPages)
  else
    let leftSibling := Z.max (current - siblingCount) 1 in
    let rightSibling := Z.min (current + siblingCount) totalPages in
    let showLeftEllipsis := 2 <? leftSibling in
    let showRightEllipsis := rightSibling <? totalPages - 1 in
    if negb showLeftEllipsis && showRightEllipsis then
      map PageNo (range 1 (3 + 2 * siblingCount)) ++ [Ellipsis; PageNo totalPages]
    else if showLeftEllipsis && negb showRightEllipsis then
      [PageNo 1; Ellipsis] ++ map PageNo (range (totalPages - (3 + 2 * siblingCount) + 1) totalPages)
    else [PageNo 1; Ellipsis] ++ map PageNo (range leftSibling rightSibling) ++ [Ellipsis; PageNo totalPages].

(** [Math.ceil(a / b)] *)
Definition ceil_div (a b : Z) : Z := - ((- a) / b).

Record pagination_view := mkView {
  pv_totalPages : Z;
  pv_safePage : Z;
  pv_items : list page_item;
  pv_firstItem : Z;
  pv_lastItem : Z
}.

Definition pagination (page perPage total siblingCount : Z) : pagination_view :=
  let totalPages := Z.max 1 (ceil_div total perPage) in
  let safePage := Z.min (Z.max page 1) totalPages in
  mkView totalPages safePage (buildPageRange safePage totalPages siblingCount)
    (if total =? 0 then 0 else (safePage - 1) * perPage + 1) (Z.min (safePage * perPage) total).

(** [goTo]: the page [onPageChange] is called with, if it is *)
Definition goTo (v : pagination_view) (next : Z) : option Z :=
  if (next <? 1) || (pv_totalPages v <? next) then None else if next =? pv_safePage v then None else Some next.

(** ** [Dropdown.tsx]: the keys of an open menu *)

Inductive menu_reply := Focus (index : Z) | Close | Ignore.

(** [current]: the index of the focused item, or -1; [n]: the number of enabled items *)
Definition menu_key (n current : Z) (key : string) : menu_reply :=
  if n =? 0 then Ignore
  else if String.eqb key "ArrowDown" then Focus (Z.rem (current + 1) n)
  else if String.eqb key "ArrowUp" then Focus (Z.rem (current - 1 + n) n)
  else if String.eqb key "Home" then Focus 0
  else if String.eqb key "End" then Focus (n - 1)
  else if String.eqb key "Escape" || String.eqb key "Tab" then Close
  else Ignore.

(** ** [Breadcrumbs.tsx] *)

Definition ROUTE_LABELS : list (string * string) :=
  [("dashboard", "Dashboard"); ("devices", "Devices"); ("policies", "Policies"); ("violations", "Violations");
   ("exceptions", "Exceptions"); ("audit", "Audit"); ("settings", "Settings")].

Definition formatSegment (segment : string) : string :=
  let clean := of_chars (List.filter (fun c => negb (Ascii.eqb c "[") && negb (Ascii.eqb c "]")) (to_chars segment)) in
  match obj_get clean ROUTE_LABELS with
  | Some label => label
  | None => match clean with "" => "" | String c s => to_upper (String c "") +:+ s end
  end.

Record crumb := mkCrumb { cr_label : string; cr_href : string; cr_isLast : bool }.

(** The crumbs of the segments from [index] on, [before] being the ones in front *)
Fixpoint crumbs_from (before rest : list string) : list crumb :=
  match rest with
  | [] => []
  | s :: rest' =>
      let shown := before ++ [s] in
      mkCrumb (formatSegment s) ("/" +:+ js_join "/" shown) (bool_decide (rest' = [])) :: crumbs_from shown rest'
  end.

Definition buildBreadcrumbItems (pathname : string) : list crumb :=
  match List.filter (fun s => negb (is_empty s)) (js_split "/"%char pathname) with
  | [] => []
  | s :: segs =>
      (if String.eqb s "dashboard" then [] else [mkCrumb "Dashboard" "/dashboard" false]) ++ crumbs_from [] (s :: segs)
  end.

(** ** [format.ts] *)

Record threshold := mkThreshold { th_limit : Z; th_divisor : Z; th_unit : string }.

Definition RELATIVE_THRESHOLDS : list threshold :=
  [mkThreshold 60 1 "second"; mkThreshold (60 * 60) 60 "minute"; mkThreshold (24 * 60 * 60) (60 * 60) "hour";
   mkThreshold (7 * 24 * 60 * 60) (24 * 60 * 60) "day"; mkThreshold (30 * 24 * 60 * 60) (7 * 24 * 60 * 60) "week";
   mkThreshold (365 * 24 * 60 * 60) (30 * 24 * 60 * 60) "month"].

(** [Math.round(a / b)]: halves go up. *)
Definition round_div (a b : Z) : Z := (2 * a + b) / (2 * b).

Definition ago (future : bool) (value : Z) (unit_ : string) : string :=
  let text := num_text value +:+ " " +:+ (if value =? 1 then unit_ else unit_ +:+ "s") in
  if future then "in " +:+ text else text +:+ " ago".

(** Of a time; the code shows a dash for a missing one. *)
Definition formatRelativeTime (ms now : Z) : string :=
  let diff := round_div (ms - now) 1000 in
  let abs := Z.abs diff in
  let future := 0 <? diff in
  match find (fun t => abs <? th_limit t) RELATIVE_THRESHOLDS with
  | Some t => ago future (Z.max 1 (round_div abs (th_divisor t))) (th_unit t)
  | None => ago future (round_div abs (365 * 24 * 60 * 60)) "year"
  end.

(** ** Ranges of pages *)

Lemma range_cons a b : a <= b -> range a b = a :: range (a + 1) b.
Proof.
  intros Hle. unfold range. replace (Z.to_nat (b - a + 1)) with (S (Z.to_nat (b - (a + 1) + 1))) by lia.
  cbn [seq map]. f_equal; [lia|]. rewrite <- seq_shift, map_map. apply map_ext. intros i. lia.
Qed.

Lemma range_nil a b : b < a -> range a b = [].
Proof. intros H. unfold range. by replace (Z.to_nat (b - a + 1)) with 0%nat by lia. Qed.

Lemma elem_of_range a b n : n ∈ range a b <-> a <= n <= b.
Proof.
  unfold range. rewrite list_elem_of_fmap. split.
  - intros (i & -> & Hi%elem_of_seq). lia.
  - intros Hn. exists (Z.to_nat (n - a)). split; [lia|]. apply elem_of_seq. lia.
Qed.

Lemma length_range a b : a <= b + 1 -> Z.of_nat (List.length (range a b)) = b - a + 1.
Proof. intros H. unfold range. rewrite length_map, length_seq. lia. Qed.

(** Neighbours are consecutive pages, and an ellipsis stands for at least one page left out between its own. *)
Fixpoint well_spaced (l : list page_item) : Prop :=
  match l with
  | [PageNo _] => True
  | PageNo a :: ((PageNo b :: _) as l') => b = a + 1 /\ well_spaced l'
  | PageNo a :: Ellipsis :: ((PageNo b :: _) as l') => a + 1 < b /\ well_spaced l'
  | _ => False
  end.

Lemma spaced_range a b rest :
  a <= b ->
  (rest = [] \/ exists m rest', rest = Ellipsis :: PageNo m :: rest' /\ b + 1 < m /\ well_spaced (PageNo m :: rest')) ->
  well_spaced (map PageNo (range a b) ++ rest).
Proof.
  intros Hle Hrest. remember (Z.to_nat (b - a)) as k eqn:Ek. revert a Hle Ek. induction k as [|k IH]; intros a Hle Ek.
  - assert (a = b) as -> by lia. rewrite range_cons, range_nil by lia. cbn. destruct Hrest as [->|(m & rest' & -> & Hm & Hs)]; done.
  - specialize (IH (a + 1) ltac:(lia) ltac:(lia)). rewrite range_cons by lia. rewrite (range_cons (a + 1) b) in * by lia.
    cbn [map Datatypes.app] in *. by split.
Qed.

Lemma spaced_after a b rest :
  2 < a -> a <= b -> well_spaced (map PageNo (range a b) ++ rest) -> well_spaced (PageNo 1 :: Ellipsis :: map PageNo (range a b) ++ rest).
Proof. intros Ha Hab Hs. rewrite range_cons in * by lia. split; [lia|done]. Qed.

Lemma last_range a b : a <= b -> last (map PageNo (range a b)) = Some (PageNo b).
Proof.
  intros Hle. assert (range a b = range a (b - 1) ++ [b]) as ->.
  { remember (Z.to_nat (b - a)) as k eqn:Ek. revert a Hle Ek. induction k as [|k IH]; intros a Hle Ek.
    - assert (a = b) as -> by lia. rewrite range_cons, !range_nil by lia. done.
    - rewrite range_cons, (range_cons a (b - 1)) by lia. cbn. f_equal. apply IH; lia. }
  rewrite map_app. apply last_snoc.
Qed.

Lemma page_elem n l : PageNo n ∈ map PageNo l <-> n ∈ l.
Proof. rewrite list_elem_of_fmap. naive_solver. Qed.

Lemma buildPageRange_spec cur T s :
  0 <= s -> 1 <= cur <= T ->
  let l := buildPageRange cur T s in
  well_spaced l /\ head l = Some (PageNo 1) /\ last l = Some (PageNo T) /\
  (forall n, Z.abs (n - cur) <= s -> 1 <= n <= T -> PageNo n ∈ l) /\
  Z.of_nat (List.length l) <= 2 * s + 5.
Proof.
  intros Hs Hc l. unfold l, buildPageRange. clear l. destruct (Z.leb_spec T (s * 2 + 5)) as [Hle|Hgt].
  - split_and!.
    + rewrite <- (app_nil_r (map PageNo _)). apply spaced_range; [lia|by left].
    + by rewrite range_cons by lia.
    + apply last_range. lia.
    + intros n _ Hn. by rewrite page_elem, elem_of_range.
    + rewrite length_map, length_range by lia. lia.
  - destruct (Z.ltb_spec 2 (Z.max (cur - s) 1)) as [Hl|Hl], (Z.ltb_spec (Z.min (cur + s) T) (T - 1)) as [Hr|Hr]; cbn [negb andb].
    + split_and!.
      * apply spaced_after; [lia..|]. apply spaced_range; [lia|]. right. eexists _, _. split; [done|]. split; [lia|exact I].
      * done.
      * by rewrite app_assoc, (last_app _ [_; _]).
      * intros n Hn Hb. apply elem_of_app. right. apply elem_of_app. left. rewrite page_elem, elem_of_range. lia.
      * cbn [Datatypes.app List.length]. rewrite length_app, length_map. cbn [List.length].
        pose proof (length_range (Z.max (cur - s) 1) (Z.min (cur + s) T) ltac:(lia)). lia.
    + split_and!.
      * rewrite <- (app_nil_r (map PageNo (range (T - _ + 1) T))). apply spaced_after; [lia..|]. apply spaced_range; [lia|by left].
      * done.
      * rewrite last_app, last_range by lia. done.
      * intros n Hn Hb. apply elem_of_app. right. rewrite page_elem, elem_of_range. lia.
      * cbn [Datatypes.app List.length]. rewrite length_map.
        pose proof (length_range (T - (3 + 2 * s) + 1) T ltac:(lia)). lia.
    + split_and!.
      * apply spaced_range; [lia|]. right. eexists _, _. split; [done|]. split; [lia|exact I].
      * by rewrite range_cons by lia.
      * by rewrite (last_app _ [_; _]).
      * intros n Hn Hb. apply elem_of_app. left. rewrite page_elem, elem_of_range. lia.
      * rewrite length_app, length_map. cbn [List.length]. pose proof (length_range 1 (3 + 2 * s) ltac:(lia)). lia.
    + exfalso. lia.
Qed.

Lemma page_numbers page perPage total :
  1 <= perPage -> 0 <= total ->
  let T := Z.max 1 (ceil_div total perPage) in
  let cur := Z.min (Z.max page 1) T in
  1 <= cur <= T /\ (0 < total -> (cur - 1) * perPage < total).
Proof.
  intros Hper Htotal T cur. assert (1 <= T) as HT by apply Z.le_max_l. split; [unfold cur; lia|]. intros Hpos.
  assert ((T - 1) * perPage < total) as HTrow.
  { unfold T, ceil_div. pose proof (Z.div_mod (- total) perPage ltac:(lia)). pose proof (Z.mod_pos_bound (- total) perPage ltac:(lia)).
    destruct (Z.max_spec 1 (- (- total / perPage))) as [[_ ->]|[_ ->]]; nia. }
  assert (cur <= T) by (unfold cur; lia). nia.
Qed.

(** ** Menus *)

(** The arrow keys stay in the menu, go round it, and undo each other. *)
Lemma menu_arrows n i :
  0 <= i < n ->
  exists j k, menu_key n i "ArrowDown" = Focus j /\ menu_key n i "ArrowUp" = Focus k /\ 0 <= j < n /\ 0 <= k < n /\
    menu_key n j "ArrowUp" = Focus i /\ menu_key n k "ArrowDown" = Focus i.
Proof.
  intros Hi. exists (if i =? n - 1 then 0 else i + 1), (if i =? 0 then n - 1 else i - 1).
  assert (forall a, 0 <= a < n -> Z.rem a n = a) as Hsmall by (intros; by apply Z.rem_small).
  assert (Z.rem n n = 0) as Hn by (apply Z.rem_same; lia).
  assert (forall a, 0 <= a -> Z.rem (a + n) n = Z.rem a n) as Hwrap
    by (intros a Ha; rewrite !Z.rem_mod_nonneg by lia; rewrite <- (Z.mul_1_l n) at 1; apply Z.mod_add; lia).
  unfold menu_key. destruct (Z.eqb_spec n 0); [lia|]. cbn [String.eqb Ascii.eqb Bool.eqb].
  destruct (Z.eqb_spec i (n - 1)), (Z.eqb_spec i 0); split_and!; try lia; f_equal;
    repeat first [ lia
                 | rewrite Hsmall by lia | rewrite Hwrap by lia
                 | match goal with |- context [Z.rem ?a n] => replace a with n by lia; rewrite Hn end ].
Qed.

(** ** Breadcrumbs *)

Lemma crumbs_last before rest : rest <> [] -> exists l c, crumbs_from before rest = l ++ [c] /\ cr_isLast c = true /\ Forall (fun c => cr_isLast c = false) l.
Proof.
  revert before. induction rest as [|s [|s' rest] IH]; intros before Hne; [done|..].
  - exists []. eexists. by split_and!.
  - destruct (IH (before ++ [s])) as (l & c & E & Hc & Hl); [done|].
    cbn [crumbs_from]. cbn [crumbs_from] in E. rewrite E.
    eexists (_ :: l), c. split_and!; [done|done|]. constructor; [done|done].
Qed.

Lemma crumbs_end before rest l c : crumbs_from before rest = l ++ [c] -> cr_href c = "/" +:+ js_join "/" (before ++ rest).
Proof.
  revert before l. induction rest as [|s [|s' rest] IH]; intros before l E.
  - by destruct l.
  - destruct l as [|? l]; cbn in E; [by injection E as <-|]. injection E as _ E. by destruct l.
  - destruct l as [|x l]; [done|]. injection E as _ E. rewrite (IH (before ++ [s]) l E). by rewrite <- app_assoc.
Qed.

Definition slash_free (s : string) : Prop := free "/" (to_chars s).

Lemma split_on_pieces sep acc s : free sep acc -> Forall (fun p => free sep (to_chars p)) (split_on sep acc s).
Proof.
  revert acc. induction s as [|c s IH]; intros acc Hacc; cbn.
  - constructor; [|constructor]. rewrite to_of_chars. by apply Forall_rev.
  - destruct (Ascii.eqb_spec c sep) as [->|Hne].
    + constructor; [rewrite to_of_chars; by apply Forall_rev|apply IH; constructor].
    + apply IH. by constructor.
Qed.

(** The path of some segments *)
Definition path_of (l : list string) : string := "/" +:+ js_join "/" l.

Lemma split_join l : l <> [] -> Forall slash_free l -> js_split "/" (js_join "/" l) = l.
Proof.
  unfold js_split, js_join. induction l as [|x [|y l] IH]; intros Hne Hall; [done|..]; apply Forall_cons in Hall as [Hx Hall].
  - cbn [String.concat]. rewrite split_on_end by done. cbn. by rewrite of_to_chars.
  - change (String.concat "/" (x :: y :: l)) with (x +:+ "/" +:+ String.concat "/" (y :: l)). rewrite !to_chars_app.
    change (to_chars "/") with ["/"%char]. cbn [Datatypes.app]. rewrite split_on_step by done. cbn [rev Datatypes.app].
    rewrite of_to_chars, IH by done. done.
Qed.

Lemma path_inj l l' : l <> [] -> l' <> [] -> Forall slash_free l -> Forall slash_free l' -> path_of l = path_of l' -> l = l'.
Proof.
  intros Hl Hl' H H' E. unfold path_of in E. rewrite !append_cons in E. injection E as E.
  change (js_join "/" l = js_join "/" l') in E. by rewrite <- (split_join l), <- (split_join l'), E.
Qed.

Lemma crumbs_hrefs before rest c :
  c ∈ crumbs_from before rest -> exists taken, taken <> [] /\ taken `prefix_of` rest /\ cr_href c = path_of (before ++ taken).
Proof.
  revert before. induction rest as [|s rest IH]; intros before; cbn; [set_solver|]. intros [->|Hin]%elem_of_cons.
  - exists [s]. split_and!; [done|by exists rest|done].
  - apply IH in Hin as (taken & _ & [tail ->] & E). exists (s :: taken). split_and!; [done|by exists tail|]. rewrite E. by rewrite <- app_assoc.
Qed.

Lemma crumbs_nodup before rest :
  Forall slash_free before -> Forall slash_free rest -> NoDup (map cr_href (crumbs_from before rest)).
Proof.
  revert before. induction rest as [|s rest IH]; intros before Hb Hr; cbn; [constructor|]. apply Forall_cons in Hr as [Hs Hr].
  assert (Forall slash_free (before ++ [s])) as Hbs by (apply Forall_app; split; [done|by constructor]).
  constructor; [|by apply IH]. intros (c & Ec & Hin)%list_elem_of_fmap.
  apply crumbs_hrefs in Hin as (taken & Hne & [tail ->] & E). rewrite E in Ec. apply Forall_app in Hr as [Ht _].
  apply path_inj in Ec; [|by destruct before..|done|by apply Forall_app].
  rewrite <- (app_nil_r (before ++ [s])) in Ec at 1. by apply app_inv_head in Ec.
Qed.

(** ** Properties *)

(** The breadcrumbs of a page lead where they say.  No two crumbs have the same address, which is also their key; only the last is the page itself,
    and its address is that of the page's segments. *)
Theorem breadcrumbs_distinct pathname :
  let segs := List.filter (fun s => negb (is_empty s)) (js_split "/"%char pathname) in
  let items := buildBreadcrumbItems pathname in
  NoDup (map cr_href items) /\
  (segs = [] -> items = []) /\
  (segs <> [] -> exists l c, items = l ++ [c] /\ cr_isLast c = true /\ Forall (fun c => cr_isLast c = false) l /\ cr_href c = path_of segs).
Proof.
  intros segs items. unfold items, buildBreadcrumbItems. fold segs.
  assert (Forall slash_free segs) as Hfree.
  { unfold segs. apply Forall_forall. intros x Hx%list_elem_of_In. apply List.filter_In in Hx as [Hx _].
    pose proof (split_on_pieces "/" [] (to_chars pathname)) as H. rewrite Forall_forall in H. apply H; [constructor|by apply list_elem_of_In]. }
  clearbody segs. destruct segs as [|s segs]; [split_and!; [constructor|done|done]|]. split_and!; [|done|].
  - apply Forall_cons in Hfree as Hs. destruct Hs as [Hs _].
    destruct (String.eqb_spec s "dashboard") as [->|Hne]; [by apply (crumbs_nodup []); [constructor|]|].
    cbn [Datatypes.app map]. constructor; [|by apply (crumbs_nodup []); [constructor|]].
    intros (c & Ec & Hin)%list_elem_of_fmap. apply crumbs_hrefs in Hin as (taken & Ht & [tail Etail] & E).
    rewrite E in Ec. change (cr_href (mkCrumb "Dashboard" "/dashboard" false)) with (path_of ["dashboard"]) in Ec.
    rewrite Etail in Hfree. apply Forall_app in Hfree as [Hft _].
    apply path_inj in Ec; [|done|done|repeat constructor; discriminate|done]. cbn in Ec. subst taken. by injection Etail as ->.
  - intros _. destruct (crumbs_last [] (s :: segs)) as (l & c & E & Hc & Hl); [done|]. rewrite E.
    eexists (_ ++ l), c. split_and!; [by rewrite app_assoc|done| |].
    + apply Forall_app. split; [|done]. destruct (String.eqb s "dashboard"); by repeat constructor.
    + by apply (crumbs_end [] (s :: segs) l).
Qed.

(** The page buttons are right for every page of every list.  They start at page 1 and end at the last, show the current
    page and all its siblings, put an ellipsis exactly where pages are left out, and are never more than [2 * siblingCount + 5];
    and the numbers beside them are those of the rows on the page. *)
Theorem page_buttons page perPage total siblingCount :
  1 <= perPage -> 0 <= total -> 0 <= siblingCount ->
  let v := pagination page perPage total siblingCount in
  1 <= pv_safePage v <= pv_totalPages v /\
  well_spaced (pv_items v) /\ head (pv_items v) = Some (PageNo 1) /\ last (pv_items v) = Some (PageNo (pv_totalPages v)) /\
  (forall n, Z.abs (n - pv_safePage v) <= siblingCount -> 1 <= n <= pv_totalPages v -> PageNo n ∈ pv_items v) /\
  Z.of_nat (List.length (pv_items v)) <= 2 * siblingCount + 5 /\
  (0 < total -> 1 <= pv_firstItem v <= pv_lastItem v /\ pv_lastItem v <= total /\ pv_lastItem v - pv_firstItem v < perPage) /\
  (forall next p, goTo v next = Some p -> 1 <= p <= pv_totalPages v /\ p <> pv_safePage v).
Proof.
  intros Hper Htotal Hsib v. destruct (page_numbers page perPage total Hper Htotal) as (Hcur & Hrow).
  unfold v, pagination in *. cbn [pv_safePage pv_totalPages pv_items pv_firstItem pv_lastItem] in *.
  set (T := Z.max 1 (ceil_div total perPage)) in *. set (cur := Z.min (Z.max page 1) T) in *. clearbody T cur.
  destruct (buildPageRange_spec cur T siblingCount Hsib Hcur) as (Hs & Hh & Hl & Hsibs & Hlen).
  split_and!; try done; try lia.
  - intros Hpos. destruct (Z.eqb_spec total 0); [lia|]. specialize (Hrow Hpos). nia.
  - intros next p. unfold goTo. cbn. destruct (_ || _) eqn:E; [done|]. destruct (Z.eqb_spec next cur); [done|]. intros [= <-]. lia.
Qed.

(** ** Relative times *)

(** A rounded quotient is within half of the true one. *)
Lemma round_div_close a b : 0 < b -> 2 * Z.abs (b * round_div a b - a) <= b.
Proof.
  intros Hb. unfold round_div. pose proof (Z.div_mod (2 * a + b) (2 * b) ltac:(lia)) as Hd.
  pose proof (Z.mod_pos_bound (2 * a + b) (2 * b) ltac:(lia)) as Hm. set (x := (2 * a + b) / (2 * b)) in *. nia.
Qed.

(** ** Examples *)

Example buttons_middle : pv_items (pagination 10 25 500 1) =
  [PageNo 1; Ellipsis; PageNo 9; PageNo 10; PageNo 11; Ellipsis; PageNo 20].
Proof. reflexivity. Qed.
Example buttons_past_end : (pv_safePage (pagination 99 25 60 1), pv_firstItem (pagination 99 25 60 1), pv_lastItem (pagination 99 25 60 1)) = (3, 51, 60).
Proof. reflexivity. Qed.
Example crumbs_device : map (fun c => (cr_label c, cr_href c)) (buildBreadcrumbItems "/devices/d-1") =
  [("Dashboard", "/dashboard"); ("Devices", "/devices"); ("D-1", "/devices/d-1")].
Proof. reflexivity. Qed.
Example an_hour : formatRelativeTime 0 3600000 = "1 hour ago".
Proof. reflexivity. Qed.
(** Just under an hour is shown as sixty minutes. *)
Example sixty_minutes : formatRelativeTime 0 3599000 = "60 minutes ago".
Proof. reflexivity. Qed.

Lemma page_buttons_witness :
  let v := pagination 10 25 500 1 in
  1 <= pv_safePage v <= pv_totalPages v /\
  well_spaced (pv_items v) /\ head (pv_items v) = Some (PageNo 1) /\ last (pv_items v) = Some (PageNo (pv_totalPages v)) /\
  (forall n, Z.abs (n - pv_safePage v) <= 1 -> 1 <= n <= pv_totalPages v -> PageNo n ∈ pv_items v) /\
  Z.of_nat (List.length (pv_items v)) <= 2 * 1 + 5 /\
  (0 < 500 -> 1 <= pv_firstItem v <= pv_lastItem v /\ pv_lastItem v <= 500 /\ pv_lastItem v - pv_firstItem v < 25) /\
  (forall next p, goTo v next = Some p -> 1 <= p <= pv_totalPages v /\ p <> pv_safePage v).
Proof. apply (page_buttons 10 25 500 1); discriminate. Defined.
