(* ===== verification/DashAsync.v ===== *)
(** * Loading in the dashboard: [hooks/useAsyncRepo.ts] and [components/layout/GlobalSearch.tsx]

    A page's data is fetched by an effect that is cancelled when its dependencies change, while its request is still on the way.
    [hook] is the state of the hook between renders; its steps are a change of the dependencies, a press of retry, and the
    arrival of any outstanding answer, in any order.  [search] is the same for the search box, which does not cancel. *)

From S2P Require Import Prelude Json JsonText Resilience CliFiles CliInput Dashboard DashQuery DashRepo.

(** ** [useAsyncRepo] *)

Section hook.
Context {D T : Type} `{EqDecision D}.

(** The dependencies of an effect: those given, and [retryRef.current] *)
Definition key : Type := D * nat.

Record hook := mkHook {
  h_data : option T;
  h_loading : bool;
  h_error : option string;
  h_deps : D;
  h_retryRef : nat;
  h_effect : option (nat * key);            (* the effect that is not cancelled, and what it ran for *)
  h_pending : list nat;                     (* tasks without an answer, cancelled ones too *)
  h_next : nat
}.

(** The effect: cleanup of the one before, then [setLoading(true)], [setError(null)] and the task *)
Definition run_effect (h : hook) : hook :=
  mkHook (h_data h) true None (h_deps h) (h_retryRef h) (Some (h_next h, (h_deps h, h_retryRef h))) (h_next h :: h_pending h) (S (h_next h)).

(** A render runs the effect when its dependencies have changed. *)
Definition render (h : hook) : hook :=
  if decide (snd <$> h_effect h = Some (h_deps h, h_retryRef h)) then h else run_effect h.

Definition mount (deps : D) : hook := render (mkHook None true None deps 0 None [] 0).

Definition set_deps (deps : D) (h : hook) : hook :=
  render (mkHook (h_data h) (h_loading h) (h_error h) deps (h_retryRef h) (h_effect h) (h_pending h) (h_next h)).

(** [retry]: setting a state to the value it has does not render. *)
Definition retry (h : hook) : hook :=
  let h' := mkHook (h_data h) true (h_error h) (h_deps h) (S (h_retryRef h)) (h_effect h) (h_pending h) (h_next h) in
  if h_loading h then h' else render h'.

(** The answer of a task; one that was cancelled changes nothing. *)
Definition settle_task (id : nat) (r : result string T) (h : hook) : hook :=
  let h' := mkHook (h_data h) (h_loading h) (h_error h) (h_deps h) (h_retryRef h) (h_effect h) (List.filter (fun j => negb (Nat.eqb j id)) (h_pending h)) (h_next h) in
  if decide (fst <$> h_effect h = Some id) then
    render (match r with
            | Ok v => mkHook (Some v) false (h_error h) (h_deps h) (h_retryRef h) (h_effect h) (h_pending h') (h_next h)
            | Err e => mkHook (h_data h) false (Some e) (h_deps h) (h_retryRef h) (h_effect h) (h_pending h') (h_next h)
            end)
  else h'.

Inductive hook_event := DepsChange (deps : D) | Retry | Settle (id : nat) (r : result string T).

(** [log]: the answers that have arrived *)
Inductive hook_step : hook * list (nat * result string T) -> hook * list (nat * result string T) -> Prop :=
| step_deps h log deps : hook_step (h, log) (set_deps deps h, log)
| step_retry h log : hook_step (h, log) (retry h, log)
| step_settle h log id r : id ∈ h_pending h -> hook_step (h, log) (settle_task id r h, (id, r) :: log).

Inductive hook_reachable (deps : D) : hook -> list (nat * result string T) -> Prop :=
| reach_mount : hook_reachable deps (mount deps) []
| reach_step h log h' log' : hook_reachable deps h log -> hook_step (h, log) (h', log') -> hook_reachable deps h' log'.

(** *** The invariant *)

(** What the hook shows once it is idle: the answer of the task it started for what it was last asked. *)
Definition shows_latest (h : hook) (log : list (nat * result string T)) : Prop :=
  exists id r, h_effect h = Some (id, (h_deps h, h_retryRef h)) /\ (id, r) ∈ log /\
    match r with Ok v => h_data h = Some v /\ h_error h = None | Err e => h_error h = Some e end.

Record hook_inv (h : hook) (log : list (nat * result string T)) : Prop := {
  hi_idle : h_loading h = false -> shows_latest h log;
  hi_done : h_loading h = false -> forall id k, h_effect h = Some (id, k) -> id ∉ h_pending h;
  hi_busy : h_loading h = true -> exists id k, h_effect h = Some (id, k) /\ id ∈ h_pending h /\ h_error h = None;
  hi_fresh : Forall (fun id => (id < h_next h)%nat) (h_pending h)
}.

Lemma run_effect_inv h log : Forall (fun id => (id < h_next h)%nat) (h_pending h) -> hook_inv (run_effect h) log.
Proof.
  intros Hf. constructor; cbn [run_effect h_loading h_effect h_pending h_next h_error]; [done|done|..].
  - intros _. eexists _, _. split_and!; [done|apply list_elem_of_here|done].
  - constructor; [lia|]. apply (Forall_impl _ _ _ Hf). intros; lia.
Qed.

Lemma render_inv h log :
  Forall (fun id => (id < h_next h)%nat) (h_pending h) ->
  (snd <$> h_effect h = Some (h_deps h, h_retryRef h) -> hook_inv h log) -> hook_inv (render h) log.
Proof. intros Hf Hi. unfold render. case_decide; [auto|by apply run_effect_inv]. Qed.

Lemma fresh_filter id next l :
  Forall (fun j => (j < next)%nat) l -> Forall (fun j => (j < next)%nat) (List.filter (fun j => negb (Nat.eqb j id)) l).
Proof.
  intros Hf. rewrite Forall_forall in *. intros j Hj%list_elem_of_In. apply List.filter_In in Hj as [Hj _]. by apply Hf, list_elem_of_In.
Qed.

Lemma shows_weaken h log x : shows_latest h log -> shows_latest h (x :: log).
Proof. intros (id & r & He & Hin & Hr). exists id, r. split_and!; [done|by apply list_elem_of_further|done]. Qed.

Lemma settle_inv h log id r : hook_inv h log -> id ∈ h_pending h -> hook_inv (settle_task id r h) ((id, r) :: log).
Proof.
  intros [Hidle Hdone Hbusy Hf] Hin. unfold settle_task. cbn [h_pending].
  assert (forall j, j ∈ List.filter (fun j => negb (Nat.eqb j id)) (h_pending h) <-> j ∈ h_pending h /\ j <> id) as Hfil.
  { intros j. rewrite !list_elem_of_In, List.filter_In, negb_true_iff, Nat.eqb_neq. done. }
  case_decide as He.
  - destruct (h_effect h) as [[id' k]|] eqn:Ee; [|done]. injection He as ->.
    assert (h_loading h = true) as El by (destruct (h_loading h) eqn:El; [done|]; by destruct (Hdone eq_refl id k eq_refl)).
    destruct (Hbusy El) as (_ & _ & _ & _ & Herr).
    destruct r as [v|e]; (apply render_inv; [by apply fresh_filter|]); cbn [h_effect h_deps h_retryRef fmap option_fmap option_map snd]; intros [= ->].
    all: constructor; cbn [h_loading h_effect h_pending h_data h_error h_next h_deps h_retryRef]; [..|done|by apply fresh_filter].
    all: try (intros _ j k' [= -> _]; rewrite Hfil; tauto).
    all: intros _; eexists _, _; split_and!; [done|apply list_elem_of_here|done].
  - constructor; cbn [h_loading h_effect h_pending h_data h_error h_next h_deps h_retryRef].
    + intros El. by apply shows_weaken, Hidle.
    + intros El j k Ej. rewrite Hfil. intros [Hj _]. by apply (Hdone El j k).
    + intros El. destruct (Hbusy El) as (j & k & Ej & Hj & Herr). exists j, k. split_and!; [done| |done]. rewrite Hfil. split; [done|].
      intros ->. apply He. by rewrite Ej.
    + by apply fresh_filter.
Qed.

Lemma step_inv h log h' log' : hook_inv h log -> hook_step (h, log) (h', log') -> hook_inv h' log'.
Proof.
  intros Hi Hs. inversion Hs; subst.
  - destruct Hi as [Hidle Hdone Hbusy Hf]. apply render_inv; [done|]. cbn [h_effect h_deps h_retryRef]. intros Hkey.
    constructor; cbn [h_loading h_effect h_pending h_data h_error h_next h_deps h_retryRef]; [|done..].
    intros El. destruct (Hidle El) as (id & r & He & Hin & Hr). exists id, r. cbn. split_and!; [|done|by destruct r].
    rewrite He in *. by injection Hkey as ->.
  - destruct Hi as [Hidle Hdone Hbusy Hf]. unfold retry. destruct (h_loading h) eqn:El.
    + constructor; cbn [h_loading h_effect h_pending h_data h_error h_next h_deps h_retryRef]; done.
    + apply render_inv; [done|]. cbn [h_effect h_deps h_retryRef]. intros Hkey. exfalso.
      destruct (Hidle eq_refl) as (id & r & He & _). rewrite He in Hkey. injection Hkey as Hk. lia.
  - by apply settle_inv.
Qed.

Lemma reachable_inv deps h log : hook_reachable deps h log -> hook_inv h log.
Proof.
  induction 1 as [|h log h' log' _ IH Hs]; [|by eapply step_inv].
  apply run_effect_inv. constructor.
Qed.
End hook.
Arguments hook : clear implicits.
Arguments hook_event : clear implicits.

(** ** [GlobalSearch] *)

(** Results are the query they answer, until they are cleared. *)
Record search := mkSearch {
  sr_query : string;
  sr_open : bool;
  sr_loading : bool;
  sr_results : option string;
  sr_timer : option string;                 (* the debounce timer and the query it will send *)
  sr_inflight : list string                 (* queries sent, without an answer *)
}.

Definition search_start : search := mkSearch "" false false None None [].

(** [onChange], with [runSearch] *)
Definition type_query (q : string) (s : search) : search :=
  let trimmed := js_trim q in
  if strlen trimmed <? 2 then mkSearch q true false None None (sr_inflight s)
  else mkSearch q true true (sr_results s) (Some trimmed) (sr_inflight s).

(** The timer: the three requests of the query *)
Definition fire_timer (s : search) : search :=
  match sr_timer s with
  | Some t => mkSearch (sr_query s) (sr_open s) (sr_loading s) (sr_results s) None (sr_inflight s ++ [t])
  | None => s
  end.

(** All three answers of the [n]th query in flight *)
Definition answer (n : nat) (s : search) : search :=
  match sr_inflight s !! n with
  | Some t => mkSearch (sr_query s) (sr_open s) false (Some t) (sr_timer s) (take n (sr_inflight s) ++ drop (S n) (sr_inflight s))
  | None => s
  end.

(** The addresses of the three requests *)
Definition search_paths (trimmed : string) : list string :=
  map (fun x => "/api/" +:+ x +:+ "?search=" +:+ encodeURIComponent trimmed +:+ "&per_page=5") ["devices"; "policies"; "violations"].

(** [navigate] *)
Definition navigate (s : search) : search := mkSearch "" false (sr_loading s) None (sr_timer s) (sr_inflight s).

Inductive search_event := Types (q : string) | Fires | Answers (n : nat) | Navigates.
Definition search_do (s : search) (e : search_event) : search :=
  match e with Types q => type_query q s | Fires => fire_timer s | Answers n => answer n s | Navigates => navigate s end.

(** A late answer replaces a newer one: the box says [secrets], is not loading, and lists what was found for [sec]. *)
Example search_race :
  fold_left search_do [Types "sec"; Fires; Types "secrets"; Fires; Answers 1; Answers 0] search_start
  = mkSearch "secrets" true false (Some "sec") None [].
Proof. reflexivity. Qed.

(** Answers in the order of their queries leave the newest. *)
Lemma search_in_order s t :
  sr_timer s = None -> sr_inflight s = [t] -> sr_results (answer 0 s) = Some t /\ sr_loading (answer 0 s) = false /\ sr_inflight (answer 0 s) = [].
Proof. intros _ Hi. unfold answer. by rewrite Hi. Qed.

(** ** Properties *)

(** A page never shows a stale answer.  Whatever the order in which requests are started, retried and answered, a hook that is not loading shows
    the answer (data, or error) of the request it started for its current dependencies and its last retry; and while it is
    loading, the request it waits for is on its way, so it is never stuck. *)
Theorem async_hook_latest {D T} `{EqDecision D} (deps : D) (h : hook D T) log :
  hook_reachable deps h log ->
  (h_loading h = false -> shows_latest h log) /\
  (h_loading h = true -> exists id k, h_effect h = Some (id, k) /\ id ∈ h_pending h /\ h_error h = None /\
     forall r, k = (h_deps h, h_retryRef h) -> h_loading (settle_task id r h) = false).
Proof.
  intros [Hidle _ Hbusy _]%reachable_inv. split; [done|]. intros El. destruct (Hbusy El) as (id & k & He & Hin & Herr).
  exists id, k. split_and!; [done..|]. intros r ->. unfold settle_task. rewrite decide_True by by rewrite He.
  destruct r; unfold render; rewrite decide_True; cbn; by rewrite ?He.
Qed.

(** ** Examples *)

(** The first answer arrives after the page has changed, and is dropped. *)
Definition paged : hook nat string := settle_task 1 (Ok "second") (settle_task 0 (Ok "first") (set_deps 2%nat (mount 1%nat))).

Lemma paged_reachable : hook_reachable 1%nat paged [(1%nat, Ok "second"); (0%nat, Ok "first")].
Proof.
  eapply reach_step; [|apply step_settle; vm_compute; left].
  eapply reach_step; [|apply step_settle; vm_compute; right; left].
  eapply reach_step; [|apply step_deps]. constructor.
Qed.

Lemma async_hook_latest_witness :
  h_loading paged = false /\ h_data paged = Some "second" /\ shows_latest paged [(1%nat, Ok "second"); (0%nat, Ok "first")].
Proof.
  split; [reflexivity|]. split; [reflexivity|]. apply (async_hook_latest 1%nat paged); [exact paged_reachable|reflexivity].
Defined.
