(* ===== verification/DashLists.v ===== *)
(** * The dashboard's list pages

    [app/devices], [app/violations], [app/policies], [app/audit], [app/exceptions], the users tab of [app/settings] and the
    events tab of [app/devices/[id]] hold a query in component state, fetch its page in an effect and show the answer.
    [list_query] is that state with the handlers of the controls; [listing] is the effect with its answers, which arrive in any
    order: five of the pages drop an answer when their query has changed since ([guarded]), two do not.  What a page
    asks for is an operation of the registry, so that its request can be followed to the server. *)

From S2P Require Import Prelude Json JsonText Resilience CliFiles CliInput Dashboard DashFetch DashQuery DashRepo DashRoutes DashStats DashUi.

(** ** The controls *)

(** The date range is an object, compared by identity in an effect's dependencies. *)
Record list_query := mkListQuery {
  lq_page : Z;
  lq_perPage : Z;
  lq_search : string;
  lq_selects : list (string * string);       (* the filter boxes, by the filter they set *)
  lq_range : nat * string * string           (* identity, from, to *)
}.

#[export] Instance list_query_eq_dec : EqDecision list_query.
Proof. solve_decision. Defined.

Definition range_from (q : list_query) : string := (lq_range q).1.2.
Definition range_to (q : list_query) : string := (lq_range q).2.

(** Each control but the page buttons goes back to the first page. *)
Definition on_search (v : string) (q : list_query) : list_query := mkListQuery 1 (lq_perPage q) v (lq_selects q) (lq_range q).
Definition on_select (name v : string) (q : list_query) : list_query :=
  mkListQuery 1 (lq_perPage q) (lq_search q) (map_set name v (lq_selects q)) (lq_range q).
Definition on_perPage (n : Z) (q : list_query) : list_query := mkListQuery 1 n (lq_search q) (lq_selects q) (lq_range q).
Definition on_page (n : Z) (q : list_query) : list_query := mkListQuery n (lq_perPage q) (lq_search q) (lq_selects q) (lq_range q).

(** [DateRangePicker]: the other end stays; every change is a new object. *)
Definition on_range (from to : string) (q : list_query) : list_query :=
  mkListQuery 1 (lq_perPage q) (lq_search q) (lq_selects q) (S (lq_range q).1.1, from, to).
Definition handleFromChange (next : string) (q : list_query) : list_query := on_range next (range_to q) q.
Definition handleToChange (next : string) (q : list_query) : list_query := on_range (range_from q) next q.

(** ** The pages *)

Definition page_query (q : list_query) : PageQuery := mkQuery (lq_page q) (lq_perPage q) (Some (lq_search q)) None None.

(** [...(filter ? { name: filter } : {})], for each box *)
Definition chosen (names : list string) (q : list_query) : filters :=
  omap (fun name => match obj_get name (lq_selects q) with
                    | Some v => if is_empty v then None else Some (name, JStr v)
                    | None => None
                    end) names.

Definition range_filters (q : list_query) : filters := [("from", JStr (range_from q)); ("to", JStr (range_to q))].

(** The state a page starts with, the values its boxes offer and what it asks the registry for *)
Record list_page := mkListPage {
  lp_start : list_query;
  lp_options : list (string * list string);
  lp_op : list_query -> repo_op
}.

(** The search box of some pages is seeded from [?search=] of the address. *)
Definition start_query (perPage : Z) (search : string) (names : list string) (from to : string) : list_query :=
  mkListQuery 1 perPage search (map (fun name => (name, "")) names) (O, from, to).

(** The boxes of a page with the values they offer *)
Definition device_options : list (string * list string) :=
  [("status", [""; "active"; "inactive"; "deactivated"]); ("chainStatus", [""; "verified"; "incomplete"; "broken"; "unknown"])].

Definition devices_page (search : string) : list_page :=
  mkListPage (start_query 10 search ["status"; "chainStatus"] "" "")
    device_options
    (fun q => DevicesList (page_query q) (chosen ["status"; "chainStatus"] q)).

Definition VIOLATION_BOXES : list string := ["severity"; "decision"; "source"; "category"].

Definition violation_options : list (string * list string) :=
  [("severity", [""; "low"; "medium"; "high"; "critical"]); ("decision", [""; "allow"; "warn"; "block"]);
   ("source", [""; "browser"; "ide"; "cli"; "api"]); ("category", "" :: CATEGORIES)].

Definition violations_page (search from to : string) : list_page :=
  mkListPage (start_query 15 search VIOLATION_BOXES from to)
    violation_options
    (fun q => ViolationsList (page_query q) (chosen VIOLATION_BOXES q ++ range_filters q)).

Definition policy_options : list (string * list string) := [("status", [""; "active"; "draft"; "superseded"; "rollback"])].

Definition policies_page (search : string) : list_page :=
  mkListPage (start_query 10 search ["status"] "" "")
    policy_options
    (fun q => PoliciesList (page_query q) (chosen ["status"] q)).

Definition AUDIT_TYPES : list string :=
  [""; "user.login"; "user.logout"; "device.enrolled"; "device.deactivated"; "policy.published"; "policy.drafted"; "exception.requested";
   "exception.approved"; "exception.rejected"; "settings.updated"; "user.invited"; "user.disabled"; "alert.triggered"].

Definition audit_page (search from to : string) : list_page :=
  mkListPage (start_query 15 search ["type"] from to)
    [("type", AUDIT_TYPES)]
    (fun q => AuditList (page_query q) (chosen ["type"] q ++ range_filters q)).

Definition exception_options : list (string * list string) :=
  [("status", [""; "pending"; "approved"; "rejected"; "expired"; "revoked"])].

Definition exceptions_page : list_page :=
  mkListPage (start_query 10 "" ["status"] "" "")
    exception_options
    (fun q => ExceptionsList (page_query q) (chosen ["status"] q)).

Definition users_page : list_page := mkListPage (start_query 10 "" [] "" "") [] (fun q => UsersList (page_query q)).

Definition events_page (deviceId : string) : list_page :=
  mkListPage (start_query 10 "" [] "" "") []
    (fun q => DeviceEvents deviceId (mkQuery (lq_page q) (lq_perPage q) None None None)).

(** [perPageOptions] of [Pagination] *)
Definition PER_PAGE_OPTIONS : list Z := [10; 25; 50; 100].

(** What a user can do to the controls: boxes offer their options; the page buttons go where [goTo] allows. *)
Inductive control (p : list_page) : list_query -> list_query -> Prop :=
| ctl_search q v : control p q (on_search v q)
| ctl_select q name values v : (name, values) ∈ lp_options p -> v ∈ values -> control p q (on_select name v q)
| ctl_range q from to : control p q (on_range from to q)
| ctl_perPage q n : n ∈ PER_PAGE_OPTIONS -> control p q (on_perPage n q)
| ctl_page q page perPage total siblings n k :
    goTo (pagination page perPage total siblings) n = Some k -> control p q (on_page k q).

Inductive controls (p : list_page) : list_query -> Prop :=
| ctls_start : controls p (lp_start p)
| ctls_step q q' : controls p q -> control p q q' -> controls p q'.

(** ** The effect *)

Section listing.
(** Whether the page looks at [cancelled] before it takes an answer *)
Context (guarded : bool).

Record listing := mkListing {
  ls_query : list_query;
  ls_data : option Page;
  ls_loading : bool;
  ls_effect : option (nat * list_query);      (* the request of the effect that is not cancelled *)
  ls_pending : list (nat * list_query);
  ls_next : nat
}.

(** [setLoading(true)] and the request of a query *)
Definition request (q : list_query) (s : listing) : listing :=
  mkListing (ls_query s) (ls_data s) true (ls_effect s) ((ls_next s, q) :: ls_pending s) (S (ls_next s)).

Definition list_effect (s : listing) : listing :=
  request (ls_query s) (mkListing (ls_query s) (ls_data s) (ls_loading s) (Some (ls_next s, ls_query s)) (ls_pending s) (ls_next s)).

(** A render runs the effect when the query has changed. *)
Definition list_render (s : listing) : listing :=
  if decide (snd <$> ls_effect s = Some (ls_query s)) then s else list_effect s.

Definition list_mount (q : list_query) : listing := list_render (mkListing q None true None [] 0).

Definition set_query (q : list_query) (s : listing) : listing :=
  list_render (mkListing q (ls_data s) (ls_loading s) (ls_effect s) (ls_pending s) (ls_next s)).

(** [refresh], called from a handler made in a render with query [q] *)
Definition refresh (q : list_query) (s : listing) : listing := request q s.

(** An answer; a failure only ends the loading. *)
Definition list_settle (id : nat) (r : result string Page) (s : listing) : listing :=
  let pending := List.filter (fun x => negb (Nat.eqb x.1 id)) (ls_pending s) in
  if negb guarded || bool_decide (fst <$> ls_effect s = Some id) then
    mkListing (ls_query s) (match r with Ok v => Some v | Err _ => ls_data s end) false (ls_effect s) pending (ls_next s)
  else mkListing (ls_query s) (ls_data s) (ls_loading s) (ls_effect s) pending (ls_next s).

(** The items of a page *)
Definition arr_items (j : json) : list json := match j with JArr l => l | _ => [] end.

(** What is under the filters: a skeleton, the empty state or the rows; [stays]: the devices page keeps the page buttons of its last answer
    while it is loading. *)
Inductive list_view := ListLoading | ListEmpty | ListRows (rows : list json).
Definition list_shown (s : listing) : list_view :=
  match ls_loading s, ls_data s with
  | false, Some p => match arr_items (pg_items p) with [] => ListEmpty | rows => ListRows rows end
  | _, _ => ListLoading
  end.
Definition pagination_shown (stays : bool) (s : listing) : bool :=
  (stays || negb (ls_loading s)) && match ls_data s with Some p => 0 <? Z.of_nat (List.length (arr_items (pg_items p))) | None => false end.

(** [log]: the answers that have arrived, with their queries *)
Definition answers := list (nat * list_query * result string Page).

Inductive list_step : listing * answers -> listing * answers -> Prop :=
| ls_step_query s log q : list_step (s, log) (set_query q s, log)
| ls_step_refresh s log q : guarded = false -> list_step (s, log) (refresh q s, log)
| ls_step_settle s log id q r : (id, q) ∈ ls_pending s -> list_step (s, log) (list_settle id r s, (id, q, r) :: log).

Inductive list_reachable (q : list_query) : listing -> answers -> Prop :=
| lr_mount : list_reachable q (list_mount q) []
| lr_step s log s' log' : list_reachable q s log -> list_step (s, log) (s', log') -> list_reachable q s' log'.
End listing.

(** *** A guarded page *)

(** What an idle page shows: the answer to its present query; when that request failed, an earlier answer or nothing. *)
Definition shows_answer (s : listing) (log : answers) : Prop :=
  exists id r, (id, ls_query s, r) ∈ log /\
    match r with
    | Ok v => ls_data s = Some v
    | Err _ => ls_data s = None \/ exists id' q' v, (id', q', Ok v) ∈ log /\ ls_data s = Some v
    end.

Record list_inv (s : listing) (log : answers) : Prop := {
  li_effect : exists id, ls_effect s = Some (id, ls_query s) /\ (id < ls_next s)%nat /\
    (forall q, (id, q) ∈ ls_pending s -> q = ls_query s) /\
    (ls_loading s = true -> (id, ls_query s) ∈ ls_pending s) /\
    (ls_loading s = false -> id ∉ (ls_pending s).*1 /\ exists r, (id, ls_query s, r) ∈ log /\ match r with Ok v => ls_data s = Some v | Err _ => True end);
  li_data : forall v, ls_data s = Some v -> exists id q, (id, q, Ok v) ∈ log;
  li_fresh : Forall (fun x => (x.1 < ls_next s)%nat) (ls_pending s)
}.

Lemma list_effect_inv s log :
  (forall v, ls_data s = Some v -> exists id q, (id, q, Ok v) ∈ log) ->
  Forall (fun x => (x.1 < ls_next s)%nat) (ls_pending s) -> list_inv (list_effect s) log.
Proof.
  intros Hd Hf. constructor; cbn [list_effect request ls_effect ls_query ls_next ls_pending ls_loading ls_data]; [|done|].
  - exists (ls_next s). split_and!; [done|lia| |intros _; apply list_elem_of_here|done].
    intros q [[= ->]|Hin]%elem_of_cons; [done|]. rewrite Forall_forall in Hf. specialize (Hf _ Hin). cbn in Hf. lia.
  - constructor; [cbn; lia|]. apply (Forall_impl _ _ _ Hf). intros; lia.
Qed.

Lemma pending_filter (id j : nat) (q : list_query) l : (j, q) ∈ List.filter (fun x => negb (Nat.eqb x.1 id)) l <-> (j, q) ∈ l /\ j <> id.
Proof. rewrite !list_elem_of_In, List.filter_In, negb_true_iff. cbn. by rewrite Nat.eqb_neq. Qed.

Lemma list_settle_inv s log id q r : list_inv s log -> (id, q) ∈ ls_pending s -> list_inv (list_settle true id r s) ((id, q, r) :: log).
Proof.
  intros [(eid & He & Hlt & Huniq & Hbusy & Hidle) Hd Hf] Hin.
  assert (forall v, ls_data s = Some v -> exists i k, (i, k, Ok v) ∈ (id, q, r) :: log) as Hd'
    by (intros v Hv; destruct (Hd v Hv) as (i & k & ?); exists i, k; by apply list_elem_of_further).
  assert (Forall (fun x => (x.1 < ls_next s)%nat) (List.filter (fun x => negb (Nat.eqb x.1 id)) (ls_pending s))) as Hf'.
  { rewrite Forall_forall in *. intros [j k] [Hj _]%pending_filter. by apply Hf. }
  unfold list_settle. cbn [negb orb]. rewrite He. cbn [fmap option_fmap option_map fst]. case_bool_decide as Eid.
  - injection Eid as ->. rewrite (Huniq q Hin). constructor; cbn [ls_effect ls_query ls_next ls_pending ls_loading ls_data]; [|destruct r as [v|e]|done].
    + exists id. split_and!; [done|done| |done|].
      * intros k [? ?]%pending_filter. done.
      * intros _. split; [|exists r; split; [apply list_elem_of_here|by destruct r]].
        intros ([j k] & -> & [_ Hj]%pending_filter)%list_elem_of_fmap. done.
    + intros v' [= <-]. eexists _, _. apply list_elem_of_here.
    + intros v Hv. destruct (Hd v Hv) as (i & k & ?). exists i, k. by apply list_elem_of_further.
  - assert (eid <> id) as Hne by congruence. constructor; cbn [ls_effect ls_query ls_next ls_pending ls_loading ls_data]; [|done..].
    exists eid. split_and!; [done|done|..].
    + intros k [Hk _]%pending_filter. by apply Huniq.
    + intros El. apply pending_filter. auto.
    + intros El. destruct (Hidle El) as [Hn (r' & Hr & Hm)]. split.
      * intros ([j k] & -> & [Hj _]%pending_filter)%list_elem_of_fmap. apply Hn. apply list_elem_of_fmap. by exists (j, k).
      * exists r'. split; [by apply list_elem_of_further|done].
Qed.

Lemma list_reachable_inv q s log : list_reachable true q s log -> list_inv s log.
Proof.
  induction 1 as [|s log s' log' _ IH Hs]; [by apply list_effect_inv|].
  inversion Hs; subst; [|done|by apply list_settle_inv].
  destruct IH as [(eid & He & Hlt & Huniq & Hbusy & Hidle) Hd Hf]. unfold set_query, list_render.
  cbn [ls_effect ls_query]. case_decide as Eq; [|by apply list_effect_inv].
  rewrite He in Eq. injection Eq as Eq. constructor; cbn; [|done..]. rewrite <- Eq. by exists eid.
Qed.

(** *** A page that is not guarded *)

(** A late answer replaces a newer one: the box says rejected, nothing is loading, and the rows are those of pending. *)
Definition rows_of (k : string) : Page := mkPage (JArr [JStr k]) (JNum (NInt 1)) (JNum (NInt 10)) (JNum (NInt 1)) JNull.
Definition pending_then_rejected : listing :=
  set_query (on_select "status" "rejected" (on_select "status" "pending" (lp_start exceptions_page)))
    (set_query (on_select "status" "pending" (lp_start exceptions_page)) (list_settle false 0 (Ok (rows_of "all")) (list_mount (lp_start exceptions_page)))).

Example stale_exceptions :
  let s := list_settle false 1 (Ok (rows_of "pending")) (list_settle false 2 (Ok (rows_of "rejected")) pending_then_rejected) in
  (obj_get "status" (lq_selects (ls_query s)), ls_loading s, ls_pending s, ls_data s) = (Some "rejected", false, [], Some (rows_of "pending")).
Proof. reflexivity. Qed.

(** On a guarded page the same answers leave the rows of the query. *)
Example guarded_exceptions :
  ls_data (list_settle true 1 (Ok (rows_of "pending")) (list_settle true 2 (Ok (rows_of "rejected")) pending_then_rejected)) = Some (rows_of "rejected").
Proof. reflexivity. Qed.

(** ** From the page to the server *)

(** Empty values are left out of the address. *)
Definition sent (q : PageQuery) : PageQuery :=
  mkQuery (q_page q) (q_perPage q) (match q_search q with Some s => if is_empty s then None else Some s | None => None end) (q_sortBy q) (q_sortDir q).
Definition sent_filters (f : filters) : filters :=
  List.filter (fun kv => match kv.2 with JStr s => negb (is_empty s) | _ => true end) f.
Definition sent_op (op : repo_op) : repo_op :=
  match op with
  | DevicesList q f => DevicesList (sent q) (sent_filters f)
  | PoliciesList q f => PoliciesList (sent q) (sent_filters f)
  | ViolationsList q f => ViolationsList (sent q) (sent_filters f)
  | ExceptionsList q f => ExceptionsList (sent q) (sent_filters f)
  | AuditList q f => AuditList (sent q) (sent_filters f)
  | UsersList q => UsersList (sent q)
  | DeviceEvents id q => DeviceEvents id (sent q)
  | _ => op
  end.

Lemma sent_qs q extra : qs (page_params (sent q) ++ extra) = qs (page_params q ++ extra).
Proof. unfold qs. do 2 f_equal. unfold truthy_params. rewrite !omap_app. f_equal. cbn. by destruct (q_search q) as [[|]|]. Qed.

(** *** What the controls hold *)

Definition boxes_ok (p : list_page) (selects : list (string * string)) : Prop :=
  forall name values v, (name, values) ∈ lp_options p -> obj_get name selects = Some v -> v ∈ values.

Definition query_wf (p : list_page) (q : list_query) : Prop :=
  1 <= lq_page q /\ lq_perPage q ∈ 15 :: PER_PAGE_OPTIONS /\ boxes_ok p (lq_selects q).

Lemma goTo_positive v n k : goTo v n = Some k -> 1 <= k.
Proof. unfold goTo. destruct (_ || _) eqn:E; [done|]. destruct (n =? _); [done|]. intros [= <-]. lia. Qed.

(** Every box of a page has one list of options, the empty one among them. *)
Definition options_wf (p : list_page) : Prop := NoDup (map fst (lp_options p)) /\ Forall (fun kv => "" ∈ kv.2) (lp_options p).

Lemma one_list {A} (l : list (string * A)) name x y : NoDup (map fst l) -> (name, x) ∈ l -> (name, y) ∈ l -> x = y.
Proof.
  induction l as [|[k v] l IH]; cbn; [set_solver|]. intros [Hk Hnd]%NoDup_cons.
  intros [[= -> ->]|Hx]%elem_of_cons [[= Hn]|Hy]%elem_of_cons; try done; subst; auto; destruct Hk; apply list_elem_of_fmap; by eexists (_, _).
Qed.

Lemma start_boxes p perPage search names from to :
  options_wf p -> boxes_ok p (lq_selects (start_query perPage search names from to)).
Proof.
  intros [_ He] name values v Hin Hget. rewrite Forall_forall in He. specialize (He _ Hin). cbn in *.
  assert (v = "") as ->; [|done]. clear -Hget. induction names as [|n names IH]; [done|]. cbn in Hget. destruct (String.eqb name n); naive_solver.
Qed.

Lemma controls_wf p q : options_wf p -> query_wf p (lp_start p) -> controls p q -> query_wf p q.
Proof.
  intros [Hone _] Hs. induction 1 as [|q q' _ IH Hc]; [done|]. destruct IH as (Hp & Hpp & Hb).
  inversion Hc; subst; split_and!; cbn; try done; try lia.
  - intros name' values' v' Hin. rewrite map_get_set. destruct (String.eqb_spec name' name) as [->|]; [|by apply Hb].
    intros [= <-]. by rewrite (one_list _ _ _ _ Hone Hin H).
  - set_solver.
  - by eapply goTo_positive.
Qed.

(** What the server can be asked for: its pages end at 10000, and it trims and cuts a search. *)
Definition askable (q : list_query) : Prop := lq_page q <= 10000 /\ js_trim (lq_search q) = lq_search q /\ strlen (lq_search q) <= 200.

Lemma sent_query_ok allowed p q : query_wf p q -> askable q -> query_ok allowed (sent (page_query q)).
Proof.
  intros (Hp & Hpp & _) (Hmax & Htrim & Hlen). split_and!; cbn; try done; try lia.
  1, 2: unfold PER_PAGE_OPTIONS in Hpp; rewrite !elem_of_cons, elem_of_nil in Hpp; unfold MAX_PER_PAGE; naive_solver lia.
  intros s. destruct (lq_search q) as [|c s'] eqn:E; [done|]. intros [= <-]. split_and!; done.
Qed.

Definition all_pages (search from to deviceId : string) : list list_page :=
  [devices_page search; policies_page search; violations_page search from to; audit_page search from to; exceptions_page; users_page; events_page deviceId].

Lemma pages_start search from to deviceId :
  Forall (fun p => query_wf p (lp_start p) /\ options_wf p) (all_pages search from to deviceId).
Proof.
  assert (forall p, options_wf p -> (exists names, lp_start p = start_query 10 (lq_search (lp_start p)) names (range_from (lp_start p)) (range_to (lp_start p)) \/
    lp_start p = start_query 15 (lq_search (lp_start p)) names (range_from (lp_start p)) (range_to (lp_start p))) ->
    query_wf p (lp_start p) /\ options_wf p) as H.
  { intros p Ho (names & [E|E]); (split; [|done]); rewrite E; split_and!; try (cbn; lia); try by apply start_boxes.
    all: apply list_elem_of_In; cbn; tauto. }
  repeat (apply Forall_cons; split); [..|constructor]; apply H.
  all: try (split; cbn; [|repeat (apply Forall_cons; split); [..|constructor]]; apply (bool_decide_unpack _); vm_compute; exact I).
  all: eexists; first [left; reflexivity|right; reflexivity].
Qed.

Lemma enum_chosen f name values allowed q p :
  boxes_ok p (lq_selects q) -> (name, "" :: values) ∈ lp_options p -> values ⊆ allowed ->
  (forall v, filter_of name f = Some v -> obj_get name (lq_selects q) = Some v) -> enum_ok f name allowed.
Proof. intros Hb Hin Hsub Hf v Hv Hne. specialize (Hb _ _ _ Hin (Hf v Hv)). set_solver. Qed.

(** The filters a handler makes of a page's are those that are not empty. *)
Lemma chosen_get name names extra q v :
  name ∉ obj_keys extra -> filter_of name (chosen names q ++ extra) = Some v -> obj_get name (lq_selects q) = Some v.
Proof.
  intros Hx. induction names as [|n names IH]; cbn.
  - unfold filter_of. intros Hv. exfalso. apply Hx. unfold as_string in Hv. destruct (obj_get name extra) eqn:E; [|done].
    clear -E. induction extra as [|[k w] extra IH]; [done|]. cbn in *. destruct (String.eqb_spec name k) as [->|]; [apply list_elem_of_here|]. apply list_elem_of_further. auto.
  - unfold chosen. cbn. destruct (obj_get n (lq_selects q)) as [w|] eqn:E; [|exact IH]. destruct (is_empty w); [exact IH|]. cbn.
    unfold filter_of. cbn [obj_get]. destruct (String.eqb_spec name n) as [->|]; [|exact IH]. cbn. congruence.
Qed.

(** An object made of a field for each name that has a value *)
Definition fields (g : string -> option string) (names : list string) : filters := omap (fun n => (fun v => (n, JStr v)) <$> g n) names.

Lemma fields_get g names n : NoDup names -> n ∈ names -> filter_of n (fields g names) = g n.
Proof.
  unfold filter_of. induction names as [|m names IH]; [set_solver|]. intros [Hm Hnd]%NoDup_cons Hn. unfold fields. cbn.
  destruct (String.eqb_spec n m) as [->|Hne].
  - destruct (g m) as [v|] eqn:E; cbn; [by rewrite String.eqb_refl|].
    clear -Hm. induction names as [|k names IH]; [done|]. cbn. apply not_elem_of_cons in Hm as [Hk Hm]. destruct (g k); cbn; [|auto].
    destruct (String.eqb_spec m k); [done|auto].
  - apply elem_of_cons in Hn as [->|Hn]; [done|]. destruct (g m); cbn; [|by apply IH]. destruct (String.eqb_spec n m); [done|]. by apply IH.
Qed.

Lemma known_fields g (names : list (string * string)) :
  NoDup (map fst names) -> known_filters names (fields g (map fst names)) = sent_filters (fields g (map fst names)).
Proof.
  intros Hnd. assert (forall l, (forall n, n ∈ map fst l -> n ∈ map fst names) ->
    known_filters l (fields g (map fst names)) = sent_filters (fields g (map fst l))) as H; [|by apply H].
  induction l as [|[n p] l IH]; [done|]. intros Hsub. unfold known_filters. cbn. rewrite fields_get; [|done|apply Hsub; left].
  specialize (IH (fun n Hn => Hsub n (list_elem_of_further _ _ _ Hn))). unfold known_filters, fields in *. cbn.
  destruct (g n) as [[|c v]|]; cbn; rewrite IH; done.
Qed.

(** The value of a box that is set *)
Definition box_value (q : list_query) (name : string) : option string :=
  match obj_get name (lq_selects q) with Some v => if is_empty v then None else Some v | None => None end.
Definition field_value (q : list_query) (name : string) : option string :=
  if String.eqb name "from" then Some (range_from q) else if String.eqb name "to" then Some (range_to q) else box_value q name.

Lemma chosen_fields names q : chosen names q = fields (box_value q) names.
Proof.
  unfold chosen, fields. induction names as [|n names IH]; [done|]. cbn. unfold box_value at 1.
  destruct (obj_get n (lq_selects q)) as [v|]; cbn; [|done]. destruct (is_empty v); cbn; by rewrite IH.
Qed.

Lemma chosen_range_fields names q :
  "from" ∉ names -> "to" ∉ names -> chosen names q ++ range_filters q = fields (field_value q) (names ++ ["from"; "to"]).
Proof.
  intros Hf Ht. rewrite chosen_fields. unfold fields. rewrite omap_app. f_equal.
  induction names as [|n names IH]; [done|]. apply not_elem_of_cons in Hf as [Hn Hf], Ht as [Hn' Ht]. cbn.
  unfold field_value at 1. destruct (String.eqb_spec n "from"), (String.eqb_spec n "to"); try congruence. by rewrite IH.
Qed.

Section served.
Context (date : string -> option Z) (ctx : RequestContext).

(** The range of the audit page, as the route checks it *)
Definition range_date (s : string) : option (option Z) := if is_empty s then None else Some (date s).
Definition range_served (from to : string) : Prop :=
  match range_date from, range_date to with
  | Some None, _ | _, Some None => False
  | Some (Some a), Some (Some b) => a <= b /\ b - a <= 90 * 24 * 60 * 60 * 1000
  | _, _ => True
  end.

Lemma ask_sent op op' : bff_request op = bff_request op' -> ask_server date ctx op = ask_server date ctx op'.
Proof. unfold ask_server. by intros ->. Qed.

Ltac box values :=
  eapply (enum_chosen _ _ values); [eassumption|apply list_elem_of_In; cbn; tauto|set_solver|
    intros ?; apply chosen_get; apply (bool_decide_unpack _); vm_compute; exact I].
Ltac boxes := repeat match goal with |- context [obj_get ?k (lq_selects ?q)] => destruct (obj_get k (lq_selects q)) as [[|? ?]|] end; try reflexivity.

Lemma devices_served search q :
  query_wf (devices_page search) q -> askable q ->
  performs (ask_server date ctx (lp_op (devices_page search) q)) (sent_op (lp_op (devices_page search) q)).
Proof.
  intros Hw Ha. pose proof (sent_query_ok DEVICE_SORT _ q Hw Ha) as Hq. destruct Hw as (_ & _ & Hb). cbn [lp_op devices_page sent_op] in *.
  set (f := chosen ["status"; "chainStatus"] q).
  rewrite (ask_sent _ (DevicesList (sent (page_query q)) f)) by (unfold bff_request; by rewrite sent_qs).
  replace (sent_filters f) with (known_filters [("status", "status"); ("chainStatus", "chain_status")] f)
    by (unfold f; rewrite chosen_fields; apply (known_fields _ [("status", "status"); ("chainStatus", "chain_status")]); apply (bool_decide_unpack _); vm_compute; exact I).
  unfold f. rewrite <- (app_nil_r (chosen _ _)). apply devices_asked; [done|..].
  - box ["active"; "inactive"; "deactivated"].
  - box ["verified"; "incomplete"; "broken"; "unknown"].
Qed.
Lemma policies_served search q :
  query_wf (policies_page search) q -> askable q ->
  performs (ask_server date ctx (lp_op (policies_page search) q)) (sent_op (lp_op (policies_page search) q)).
Proof.
  intros Hw Ha. pose proof (sent_query_ok POLICY_SORT _ q Hw Ha) as Hq. destruct Hw as (_ & _ & Hb). cbn [lp_op policies_page sent_op] in *.
  set (f := chosen ["status"] q).
  rewrite (ask_sent _ (PoliciesList (sent (page_query q)) f)) by (unfold bff_request; by rewrite sent_qs).
  replace (sent_filters f) with (known_filters [("status", "status")] f)
    by (unfold f; rewrite chosen_fields; apply (known_fields _ [("status", "status")]); apply (bool_decide_unpack _); vm_compute; exact I).
  unfold f. rewrite <- (app_nil_r (chosen _ _)). apply policies_asked; [done|].
  box ["active"; "draft"; "superseded"; "rollback"].
Qed.

Lemma exceptions_served q :
  query_wf exceptions_page q -> askable q ->
  performs (ask_server date ctx (lp_op exceptions_page q)) (sent_op (lp_op exceptions_page q)).
Proof.
  intros Hw Ha. pose proof (sent_query_ok [] _ q Hw Ha) as Hq. destruct Hw as (_ & _ & Hb). cbn [lp_op exceptions_page sent_op] in *.
  set (f := chosen ["status"] q).
  rewrite (ask_sent _ (ExceptionsList (sent (page_query q)) f)) by (unfold bff_request; by rewrite sent_qs).
  replace (sent_filters f) with (known_filters [("status", "status"); ("requestedBy", "requested_by")] f) by (unfold f, chosen, known_filters; cbn; boxes).
  unfold f. rewrite <- (app_nil_r (chosen _ _)). apply exceptions_asked; [done|done|].
  box ["pending"; "approved"; "rejected"; "expired"; "revoked"].
Qed.

Lemma violations_served search from to q :
  query_wf (violations_page search from to) q -> askable q ->
  performs (ask_server date ctx (lp_op (violations_page search from to) q)) (sent_op (lp_op (violations_page search from to) q)).
Proof.
  intros Hw Ha. pose proof (sent_query_ok [] _ q Hw Ha) as Hq. destruct Hw as (_ & _ & Hb). cbn [lp_op violations_page sent_op] in *.
  set (f := chosen VIOLATION_BOXES q ++ range_filters q).
  rewrite (ask_sent _ (ViolationsList (sent (page_query q)) f)) by (unfold bff_request; by rewrite sent_qs).
  replace (sent_filters f) with (known_filters VIOLATION_FILTERS f)
    by (unfold f; rewrite chosen_range_fields by (apply (bool_decide_unpack _); vm_compute; exact I); apply (known_fields _ VIOLATION_FILTERS); apply (bool_decide_unpack _); vm_compute; exact I).
  unfold f. apply violations_asked; [done|done|..].
  - box ["low"; "medium"; "high"; "critical"].
  - box ["allow"; "warn"; "block"].
  - box ["browser"; "ide"; "cli"; "api"].
  - box CATEGORIES.
Qed.

Lemma audit_served search from to q :
  query_wf (audit_page search from to) q -> askable q -> range_served (range_from q) (range_to q) ->
  performs (ask_server date ctx (lp_op (audit_page search from to) q)) (sent_op (lp_op (audit_page search from to) q)).
Proof.
  intros Hw Ha Hr. pose proof (sent_query_ok [] _ q Hw Ha) as Hq. cbn [lp_op audit_page sent_op] in *.
  set (f := chosen ["type"] q ++ range_filters q). set (names := [("type", "type"); ("from", "from"); ("to", "to")]).
  rewrite (ask_sent _ (AuditList (sent (page_query q)) f)) by (unfold bff_request; by rewrite sent_qs).
  replace (sent_filters f) with (known_filters names f)
    by (unfold f; rewrite chosen_range_fields by (apply (bool_decide_unpack _); vm_compute; exact I); apply (known_fields _ names); apply (bool_decide_unpack _); vm_compute; exact I).
  assert (filter_of "from" f = Some (range_from q) /\ filter_of "to" f = Some (range_to q)) as [Hfrom Hto] by (unfold f, chosen, filter_of; cbn; boxes; done).
  clearbody f. destruct (asked (sent (page_query q)) AUDIT_SORT names f) as (Hpage & Hget & Hfilters);
    [by apply query_weaken|apply (bool_decide_unpack _); vm_compute; exact I|set_solver|].
  rewrite (ask_get _ _ _ "/api/audit" (qs (page_params (sent (page_query q)) ++ sort_params (sent (page_query q)) ++ filter_params names f)));
    [|by rewrite <- query_unsorted|apply (bool_decide_unpack _); vm_compute; exact I].
  change (route_request date ctx "GET" "/api/audit" ?p []) with (Some (audit_route date p)).
  unfold audit_route. rewrite Hpage. cbn [when_ok]. fold names. rewrite Hfilters, (query_id _ _ Hq).
  unfold date_of. rewrite (Hget "from" "from"), (Hget "to" "to"), Hfrom, Hto by (apply list_elem_of_In; cbn; tauto).
  unfold range_served, range_date in Hr. destruct (range_from q) as [|c1 s1], (range_to q) as [|c2 s2]; cbn [is_empty] in *; try by eexists.
  - destruct (date _); [by eexists|done].
  - destruct (date _); [by eexists|done].
  - destruct (date (String c1 s1)) as [a|], (date (String c2 s2)) as [b|]; try done.
    assert (b <? a = false) as -> by lia. assert (90 * 24 * 60 * 60 * 1000 <? b - a = false) as -> by lia. by eexists.
Qed.

Lemma users_served q :
  query_wf users_page q -> askable q -> performs (ask_server date ctx (lp_op users_page q)) (sent_op (lp_op users_page q)).
Proof.
  intros Hw Ha. pose proof (sent_query_ok [] _ q Hw Ha) as Hq. cbn [lp_op users_page sent_op] in *.
  rewrite (ask_sent _ (UsersList (sent (page_query q)))) by (unfold bff_request; pose proof (sent_qs (page_query q) []) as E; rewrite !app_nil_r in E; by rewrite E).
  destruct (asked (sent (page_query q)) [] [] []) as (Hpage & _); [done|constructor|set_solver|].
  rewrite (ask_get _ _ _ "/api/users" (qs (page_params (sent (page_query q)) ++ sort_params (sent (page_query q)) ++ [])));
    [|by rewrite <- query_unsorted, app_nil_r|apply (bool_decide_unpack _); vm_compute; exact I].
  change (route_request date ctx "GET" "/api/users" ?p []) with (Some (users_route p)).
  unfold users_route. cbn [filter_params map] in Hpage. rewrite Hpage. cbn [when_ok]. rewrite (query_id _ _ Hq). by eexists.
Qed.
End served.

(** The pages whose requests are followed; the events tab has its device in the path. *)
Definition followed (date : string -> option Z) (p : list_page) (q : list_query) : Prop :=
  (exists search, p = devices_page search \/ p = policies_page search) \/
  (exists search from to, p = violations_page search from to \/ p = audit_page search from to /\ range_served date (range_from q) (range_to q)) \/
  p = exceptions_page \/ p = users_page.

Lemma page_start p search from to deviceId : p ∈ all_pages search from to deviceId -> query_wf p (lp_start p) /\ options_wf p.
Proof. intros Hp. pose proof (pages_start search from to deviceId) as H. rewrite Forall_forall in H. by apply H. Qed.

(** What a page asks for is what the server looks up.  Whatever a user sets the controls of the devices, policies, violations,
    audit, exceptions and users lists to, the request the page makes is routed to its list handler, passes its checks, and the handler's
    first operation is the page's own: the same page, page size and search, and every filter that is set.  The pages are at most 10000,
    the search is trimmed and of at most 200 characters, and a range of the audit log is in order and of at most 90 days. *)
Lemma page_served date ctx p q :
  followed date p q -> controls p q -> askable q -> performs (ask_server date ctx (lp_op p q)) (sent_op (lp_op p q)).
Proof.
  intros Hf Hc Ha.
  assert (query_wf p q) as Hw.
  { assert (exists search from to deviceId, p ∈ all_pages search from to deviceId) as (a & b & c & d & Hp).
    { unfold all_pages. destruct Hf as [(a & Hp)|[(a & b & c & Hp)|Hp]].
      - exists a, "", "", "". set_solver.
      - exists a, b, c, "". set_solver.
      - exists "", "", "", "". set_solver. }
    destruct (page_start _ _ _ _ _ Hp). by eapply controls_wf. }
  destruct Hf as [(a & [->| ->])|[(a & b & c & [->|[-> Hr]])|[->| ->]]].
  - by apply devices_served.
  - by apply policies_served.
  - by apply violations_served.
  - by apply audit_served.
  - by apply exceptions_served.
  - by apply users_served.
Qed.

(** ** Properties *)

(** C19: a list page never shows the rows of another query as those of its own.  Whatever a user does to the search box, the filters, the
    date range and the page buttons, and in whatever order the answers arrive, a page that is not loading shows the answer to the query its
    controls hold, unless that very request failed; while it is loading that request is on its way, and its answer ends the loading.  It
    holds of the pages that drop cancelled answers: devices, policies, violations, audit and the events of a device. *)
Theorem list_page_latest q0 s log :
  list_reachable true q0 s log ->
  (ls_loading s = false -> shows_answer s log) /\
  (ls_loading s = true -> exists id, (id, ls_query s) ∈ ls_pending s /\
     forall r, let s' := list_settle true id r s in
       ls_loading s' = false /\ ls_query s' = ls_query s /\ forall v, r = Ok v -> ls_data s' = Some v).
Proof.
  intros [(id & He & _ & _ & Hbusy & Hidle) Hd _]%list_reachable_inv. split; intros El.
  - destruct (Hidle El) as [_ (r & Hr & Hm)]. exists id, r. split; [done|]. destruct r; [done|].
    destruct (ls_data s) as [v|]; [right|by left]. destruct (Hd v eq_refl) as (i & k & ?). by exists i, k, v.
  - exists id. split; [auto|]. intros r. unfold list_settle. rewrite He. cbn [negb orb fmap option_fmap option_map fst].
    rewrite bool_decide_true by done. cbn. split_and!; [done|done|]. by intros v ->.
Qed.

(** ** Examples *)

Definition blocked_cli : list_query := on_select "source" "cli" (on_select "decision" "block" (lp_start (violations_page "" "2026-01-01" "2026-01-31"))).

Example blocked_cli_served :
  performs (ask_server (fun _ => None) (context_of MOCK_SESSION) (lp_op (violations_page "" "2026-01-01" "2026-01-31") blocked_cli))
    (ViolationsList (mkQuery 1 15 None None None)
       [("decision", JStr "block"); ("source", JStr "cli"); ("from", JStr "2026-01-01"); ("to", JStr "2026-01-31")]).
Proof.
  apply (page_served (fun _ => None) (context_of MOCK_SESSION) (violations_page "" "2026-01-01" "2026-01-31") blocked_cli).
  - right. left. exists "", "2026-01-01", "2026-01-31". by left.
  - eapply ctls_step; [eapply ctls_step; [constructor|]|].
    + eapply (ctl_select _ _ "decision" [""; "allow"; "warn"; "block"] "block"); apply list_elem_of_In; cbn; tauto.
    + eapply (ctl_select _ _ "source" [""; "browser"; "ide"; "cli"; "api"] "cli"); apply list_elem_of_In; cbn; tauto.
  - split_and!; [cbn; lia|reflexivity|apply (bool_decide_unpack _); vm_compute; exact I].
Qed.

(** The first answer arrives after the next page was asked for. *)
Definition page_two : list_query := on_page 2 (lp_start (devices_page "")).
Definition turned : listing := list_settle true 1 (Ok (rows_of "two")) (list_settle true 0 (Ok (rows_of "one")) (set_query page_two (list_mount (lp_start (devices_page ""))))).
Definition turned_log : answers := [(1%nat, page_two, Ok (rows_of "two")); (0%nat, lp_start (devices_page ""), Ok (rows_of "one"))].

Lemma turned_reachable : list_reachable true (lp_start (devices_page "")) turned turned_log.
Proof.
  eapply lr_step; [|apply (ls_step_settle true _ _ 1 page_two); left].
  eapply lr_step; [|apply (ls_step_settle true _ _ 0 (lp_start (devices_page ""))); right; left].
  eapply lr_step; [|apply ls_step_query]. constructor.
Qed.

Lemma list_page_latest_witness : ls_loading turned = false /\ ls_data turned = Some (rows_of "two") /\ shows_answer turned turned_log.
Proof.
  split; [reflexivity|]. split; [reflexivity|]. apply (list_page_latest (lp_start (devices_page "")) turned turned_log turned_reachable). reflexivity.
Defined.
