(* ===== verification/DashExceptions.v ===== *)
(** * The exceptions page: [app/exceptions/page.tsx]

    The page lists exceptions, shows the one picked, asks for confirmation before it approves or rejects it, and has a form for a new
    one.  Its requests are answered in any order while the user goes on clicking, so it is a machine over [exc_event]; [exc_enabled]
    is what is on the screen and not disabled.  [x_ops] are the operations asked of the registry, newest first. *)

From S2P Require Import Prelude Json JsonText Resilience CliFiles CliInput Dashboard DashFetch DashQuery DashRepo DashRoutes DashStats DashUi DashLists.

(** ** Trimming twice *)

Definition head_kept (l : chars) : Prop := match l with [] => True | c :: _ => is_space c = false end.

Lemma drop_spaces_head s : head_kept (drop_spaces s).
Proof. induction s as [|c s IH]; [done|]. cbn. destruct (is_space c) eqn:E; [done|exact E]. Qed.
Lemma drop_spaces_stable l : head_kept l -> drop_spaces l = l.
Proof. destruct l as [|c l]; [done|]. cbn. by intros ->. Qed.
Lemma drop_spaces_suffix s : exists p, s = p ++ drop_spaces s.
Proof.
  induction s as [|c s [p IH]]; [by exists []|]. cbn. destruct (is_space c); [|by exists []]. exists (c :: p). cbn. by rewrite <- IH.
Qed.

Lemma js_trim_idem s : js_trim (js_trim s) = js_trim s.
Proof.
  unfold js_trim. rewrite to_of_chars. f_equal. unfold trim_chars.
  set (m := drop_spaces (to_chars s)). assert (head_kept m) as Hm by apply drop_spaces_head.
  destruct (drop_spaces_suffix (rev m)) as [p Hp]. pose proof (drop_spaces_head (rev m)) as Hr. set (r := drop_spaces (rev m)) in *.
  assert (m = rev r ++ rev p) as Hm' by (by rewrite <- rev_app_distr, <- Hp, rev_involutive).
  rewrite (drop_spaces_stable (rev r)), rev_involutive; [by rewrite drop_spaces_stable|].
  rewrite Hm' in Hm. by destruct (rev r).
Qed.

(** ** Data *)

Record exc_comment := mkComment { cm_author : string; cm_timestamp_ms : Z; cm_body : string }.

Record ExceptionDetail := mkException {
  xd_exception_id : string;
  xd_policy_name : string;
  xd_policy_version : Z;
  xd_status : string;
  xd_rule_description : string;
  xd_reason : string;
  xd_requested_by_email : string;
  xd_approved_by_email : option string;
  xd_expires_at_ms : option Z;
  xd_comment_history : list exc_comment
}.

Inductive review := RApprove | RReject.

#[export] Instance review_eq_dec : EqDecision review.
Proof. solve_decision. Defined.

(** Requests of the page other than its list; a handler keeps the query of the render it was made in. *)
Inductive exc_task :=
| TGet (id : string)
| TReview (a : review) (id : string) (q : list_query)
| TCreate (ruleId reason : string) (q : list_query).

Definition is_review (t : exc_task) : bool := match t with TReview _ _ _ => true | _ => false end.
Definition is_create (t : exc_task) : bool := match t with TCreate _ _ _ => true | _ => false end.
Definition is_get (t : exc_task) : bool := match t with TGet _ => true | _ => false end.

Inductive toast := ToastSuccess (title description : string) | ToastError (title description : string).

Record exc_page := mkExc {
  x_list : listing;
  x_selected : option ExceptionDetail;
  x_detailLoading : bool;
  x_reviewAction : option review;
  x_reviewBusy : bool;
  x_createOpen : bool;
  x_createRuleId : string;
  x_createReason : string;
  x_createBusy : bool;
  x_tasks : list (nat * exc_task);
  x_next : nat;
  x_toasts : list toast;
  x_ops : list repo_op
}.

Definition exc_mount : exc_page :=
  mkExc (list_mount (lp_start exceptions_page)) None false None false false "" "" false [] 0 [] [].

(** ** Updates *)

Definition with_list (l : listing) (x : exc_page) : exc_page :=
  mkExc l (x_selected x) (x_detailLoading x) (x_reviewAction x) (x_reviewBusy x) (x_createOpen x) (x_createRuleId x) (x_createReason x)
    (x_createBusy x) (x_tasks x) (x_next x) (x_toasts x) (x_ops x).
Definition with_detail (selected : option ExceptionDetail) (loading : bool) (x : exc_page) : exc_page :=
  mkExc (x_list x) selected loading (x_reviewAction x) (x_reviewBusy x) (x_createOpen x) (x_createRuleId x) (x_createReason x)
    (x_createBusy x) (x_tasks x) (x_next x) (x_toasts x) (x_ops x).
Definition with_review (a : option review) (busy : bool) (x : exc_page) : exc_page :=
  mkExc (x_list x) (x_selected x) (x_detailLoading x) a busy (x_createOpen x) (x_createRuleId x) (x_createReason x)
    (x_createBusy x) (x_tasks x) (x_next x) (x_toasts x) (x_ops x).
Definition with_create (open : bool) (ruleId reason : string) (busy : bool) (x : exc_page) : exc_page :=
  mkExc (x_list x) (x_selected x) (x_detailLoading x) (x_reviewAction x) (x_reviewBusy x) open ruleId reason busy
    (x_tasks x) (x_next x) (x_toasts x) (x_ops x).
Definition with_toast (t : toast) (x : exc_page) : exc_page :=
  mkExc (x_list x) (x_selected x) (x_detailLoading x) (x_reviewAction x) (x_reviewBusy x) (x_createOpen x) (x_createRuleId x) (x_createReason x)
    (x_createBusy x) (x_tasks x) (x_next x) (t :: x_toasts x) (x_ops x).
(** A request is sent. *)
Definition send_task (t : exc_task) (op : repo_op) (x : exc_page) : exc_page :=
  mkExc (x_list x) (x_selected x) (x_detailLoading x) (x_reviewAction x) (x_reviewBusy x) (x_createOpen x) (x_createRuleId x) (x_createReason x)
    (x_createBusy x) ((x_next x, t) :: x_tasks x) (S (x_next x)) (x_toasts x) (op :: x_ops x).
Definition end_task (id : nat) (x : exc_page) : exc_page :=
  mkExc (x_list x) (x_selected x) (x_detailLoading x) (x_reviewAction x) (x_reviewBusy x) (x_createOpen x) (x_createRuleId x) (x_createReason x)
    (x_createBusy x) (List.filter (fun t => negb (Nat.eqb t.1 id)) (x_tasks x)) (x_next x) (x_toasts x) (x_ops x).

(** ** Handlers *)

Section page.
Context (session : UserSession).

Definition canApprove : bool := canPerformAction (s_role session) "approve:exception".

(** [refresh], with the query of the render its handler was made in; it is not cancelled. *)
Definition exc_refresh (q : list_query) (x : exc_page) : exc_page := with_list (refresh q (x_list x)) x.

(** The button of a row *)
Definition click_review (id : string) (x : exc_page) : exc_page :=
  send_task (TGet id) (ExceptionGet id) (with_detail (x_selected x) true x).

(** The two branches of [submitReview] *)
Definition review_op (a : review) (id : string) : repo_op :=
  match a with RApprove => ExceptionApprove id (s_email session) | RReject => ExceptionReject id (s_email session) "Insufficient context" end.

Definition submitReview (x : exc_page) : exc_page :=
  match x_selected x, x_reviewAction x with
  | Some d, Some a =>
      send_task (TReview a (xd_exception_id d) (ls_query (x_list x))) (review_op a (xd_exception_id d)) (with_review (Some a) true x)
  | _, _ => x
  end.

Definition submitCreate (x : exc_page) : exc_page :=
  let ruleId := js_trim (x_createRuleId x) in
  let reason := js_trim (x_createReason x) in
  if is_empty ruleId || is_empty reason then x
  else send_task (TCreate ruleId reason (ls_query (x_list x))) (ExceptionCreate ruleId reason)
         (with_create (x_createOpen x) (x_createRuleId x) (x_createReason x) true x).

(** [onClose] of the two dialogs *)
Definition close_review (x : exc_page) : exc_page := if x_reviewBusy x then x else with_review None (x_reviewBusy x) x.
Definition close_create (x : exc_page) : exc_page :=
  if x_createBusy x then x else with_create false (x_createRuleId x) (x_createReason x) (x_createBusy x) x.

(** What follows the answer of a request *)
Definition got_detail (r : option ExceptionDetail) (x : exc_page) : exc_page :=
  match r with Some d => with_detail (Some d) false x | None => with_detail (x_selected x) false x end.

Definition reviewed (q : list_query) (r : option ExceptionDetail) (x : exc_page) : exc_page :=
  match r with
  | Some next => with_review None false (exc_refresh q (with_detail (Some next) (x_detailLoading x) x))
  | None => with_review (x_reviewAction x) false x
  end.

Definition created (ruleId : string) (q : list_query) (ok : bool) (x : exc_page) : exc_page :=
  if ok then
    with_toast (ToastSuccess "Exception requested" ("Request for rule " +:+ ruleId +:+ " submitted for review."))
      (exc_refresh q (with_create false "" "" false x))
  else
    with_toast (ToastError "Could not create exception" "Check the rule ID and try again.")
      (with_create (x_createOpen x) (x_createRuleId x) (x_createReason x) false x).

(** An answer: what it returned, or [None] when it failed *)
Definition settle (id : nat) (r : option ExceptionDetail) (x : exc_page) : exc_page :=
  match list_find (fun t => t.1 = id) (x_tasks x) with
  | Some (_, (_, t)) =>
      let x' := end_task id x in
      match t with
      | TGet _ => got_detail r x'
      | TReview _ _ q => reviewed q r x'
      | TCreate ruleId _ q => created ruleId q (bool_decide (is_Some r)) x'
      end
  | None => x
  end.

(** ** Events *)

Inductive exc_event :=
| ESetQuery (q : list_query)
| EListAnswer (id : nat) (r : result string Page)
| EReview (id : string)
| EPick (a : review)                          (* Approve or Reject in the panel *)
| EConfirm
| ECloseReview
| EOpenCreate
| EType (ruleId reason : string)
| ESubmit
| ECloseCreate
| EAnswer (id : nat) (r : option ExceptionDetail).

Definition exc_do (x : exc_page) (e : exc_event) : exc_page :=
  match e with
  | ESetQuery q => with_list (set_query q (x_list x)) x
  | EListAnswer id r => with_list (list_settle false id r (x_list x)) x
  | EReview id => click_review id x
  | EPick a => with_review (Some a) (x_reviewBusy x) x
  | EConfirm => submitReview x
  | ECloseReview => close_review x
  | EOpenCreate => with_create true (x_createRuleId x) (x_createReason x) (x_createBusy x) x
  | EType ruleId reason => with_create (x_createOpen x) ruleId reason (x_createBusy x) x
  | ESubmit => submitCreate x
  | ECloseCreate => close_create x
  | EAnswer id r => settle id r x
  end.

(** The buttons of [ExceptionDetailPanel] *)
Definition panel_buttons (d : ExceptionDetail) : bool := canApprove && String.eqb (xd_status d) "pending".

(** A dialog covers the page. *)
Definition covered (x : exc_page) : bool := x_createOpen x || bool_decide (is_Some (x_reviewAction x)).

(** A row is on the screen when the list is. *)
Definition exc_enabled (x : exc_page) (e : exc_event) : bool :=
  match e with
  | ESetQuery _ => negb (covered x)
  | EReview _ => negb (covered x) && negb (ls_loading (x_list x)) && bool_decide (is_Some (ls_data (x_list x)))
  | EPick _ =>
      negb (covered x) && negb (x_detailLoading x) && match x_selected x with Some d => panel_buttons d | None => false end
  | EConfirm => bool_decide (is_Some (x_reviewAction x)) && negb (x_reviewBusy x)
  | ECloseReview => bool_decide (is_Some (x_reviewAction x))
  | EOpenCreate => canApprove && negb (covered x)
  | EType _ _ => x_createOpen x && negb (x_createBusy x)
  | ESubmit => x_createOpen x && negb (x_createBusy x || is_empty (js_trim (x_createRuleId x)) || is_empty (js_trim (x_createReason x)))
  | ECloseCreate => x_createOpen x
  | EListAnswer id _ => bool_decide (id ∈ (ls_pending (x_list x)).*1)
  | EAnswer id _ => bool_decide (id ∈ (x_tasks x).*1)
  end.

Inductive exc_reachable : exc_page -> Prop :=
| xr_mount : exc_reachable exc_mount
| xr_step x e : exc_reachable x -> exc_enabled x e = true -> exc_reachable (exc_do x e).
End page.

(** ** Invariants *)

Definition tasks_of (f : exc_task -> bool) (x : exc_page) : nat := List.length (List.filter (fun t => f t.2) (x_tasks x)).

Lemma filter_filter_drop {A} (f g : A -> bool) l : List.filter f (List.filter g l) = List.filter (fun x => g x && f x) l.
Proof. induction l as [|x l IH]; [done|]. cbn. destruct (g x); cbn; [destruct (f x); by rewrite IH|done]. Qed.

(** Ending a request takes away that one. *)
Lemma count_end f (tasks : list (nat * exc_task)) id t :
  NoDup tasks.*1 -> (id, t) ∈ tasks ->
  List.length (List.filter (fun t => f t.2) tasks)
  = (Nat.b2n (f t) + List.length (List.filter (fun t => f t.2) (List.filter (fun t => negb (Nat.eqb t.1 id)) tasks)))%nat.
Proof.
  induction tasks as [|[j u] l IH]; [set_solver|]. cbn [fmap list_fmap]. intros [Hj Hnd]%NoDup_cons [[= <- <-]|Hin]%elem_of_cons.
  - cbn. rewrite Nat.eqb_refl. cbn.
    assert (List.filter (fun t0 => negb (Nat.eqb t0.1 id)) l = l) as ->.
    { clear -Hj. induction l as [|[k v] l IH]; [done|]. cbn in *. apply not_elem_of_cons in Hj as [Hk Hl].
      destruct (Nat.eqb_spec k id); [congruence|]. cbn. by rewrite IH. }
    by destruct (f t).
  - cbn. destruct (Nat.eqb_spec j id) as [->|]; [destruct Hj; apply list_elem_of_fmap; by exists (id, t)|].
    cbn. destruct (f u); cbn; rewrite (IH Hnd Hin); lia.
Qed.

Lemma find_task (tasks : list (nat * exc_task)) id :
  id ∈ tasks.*1 -> exists i t, list_find (fun t => t.1 = id) tasks = Some (i, (id, t)) /\ (id, t) ∈ tasks.
Proof.
  intros ([j t] & -> & Hin)%list_elem_of_fmap. destruct (list_find_elem_of (fun u : nat * exc_task => u.1 = (j, t).1) tasks (j, t)) as [[i [k u]] Hf]; [done|done|].
  pose proof Hf as (Hu & Hk & _)%list_find_Some. cbn in Hk. subst k. exists i, u. split; [done|]. by eapply list_elem_of_lookup_2.
Qed.

Section invariants.
Context (session : UserSession).

(** What the page may ask for: in the name of the session, with texts that are trimmed and not empty *)
Definition op_may (op : repo_op) : Prop :=
  is_mutation op = true -> canApprove session = true /\
    match op with
    | ExceptionApprove _ approver => approver = s_email session
    | ExceptionReject _ approver reason => approver = s_email session /\ reason = "Insufficient context"
    | ExceptionCreate ruleId reason => ruleId <> "" /\ reason <> "" /\ js_trim ruleId = ruleId /\ js_trim reason = reason
    | _ => False
    end.

Record exc_inv (x : exc_page) : Prop := {
  xi_ids : NoDup (x_tasks x).*1 /\ Forall (fun t => (t.1 < x_next x)%nat) (x_tasks x);
  xi_reviews : tasks_of is_review x = Nat.b2n (x_reviewBusy x);
  xi_creates : tasks_of is_create x = Nat.b2n (x_createBusy x);
  xi_action : is_Some (x_reviewAction x) -> canApprove session = true;
  xi_open : x_createOpen x = true -> canApprove session = true;
  xi_ops : Forall op_may (x_ops x)
}.

Lemma send_ids x t : NoDup (x_tasks x).*1 /\ Forall (fun t => (t.1 < x_next x)%nat) (x_tasks x) ->
  NoDup ((x_next x, t) :: x_tasks x).*1 /\ Forall (fun t => (t.1 < S (x_next x))%nat) ((x_next x, t) :: x_tasks x).
Proof.
  intros [Hnd Hf]. rewrite Forall_forall in Hf. split.
  - cbn. apply NoDup_cons. split; [|done]. intros (u & Hu & Hin)%list_elem_of_fmap. specialize (Hf u Hin). lia.
  - constructor; [cbn; lia|]. apply Forall_forall. intros u Hu. specialize (Hf u Hu). lia.
Qed.

Lemma end_ids id x : NoDup (x_tasks x).*1 /\ Forall (fun t => (t.1 < x_next x)%nat) (x_tasks x) ->
  NoDup (x_tasks (end_task id x)).*1 /\ Forall (fun t => (t.1 < x_next (end_task id x))%nat) (x_tasks (end_task id x)).
Proof.
  cbn. generalize (x_next x) as n. intros n [Hnd Hf]. induction (x_tasks x) as [|[j t] l IH]; [by split|].
  cbn in Hnd. apply NoDup_cons in Hnd as [Hj Hnd]. apply Forall_cons in Hf as [Hl Hf]. destruct (IH Hnd Hf) as [IH1 IH2]. cbn.
  destruct (Nat.eqb j id); cbn; [done|]. split; [|by constructor]. apply NoDup_cons. split; [|done].
  intros (u & -> & Hu)%list_elem_of_fmap. apply list_elem_of_In, List.filter_In in Hu as [Hu _]. apply Hj. apply list_elem_of_fmap. exists u. split; [done|]. by apply list_elem_of_In.
Qed.

Lemma answer_inv x id r : exc_inv x -> id ∈ (x_tasks x).*1 -> exc_inv (settle id r x).
Proof.
  intros [Hids Hr Hc Ha Ho Hops] Hin. unfold settle. destruct (find_task _ _ Hin) as (i & t & -> & Ht).
  pose proof (count_end is_review _ id t (proj1 Hids) Ht) as Er. pose proof (count_end is_create _ id t (proj1 Hids) Ht) as Ec.
  unfold tasks_of in Hr, Hc. rewrite Hr in Er. rewrite Hc in Ec.
  destruct t as [g|a g q|ru re q]; cbn [is_review is_create Nat.b2n] in Er, Ec.
  - destruct r; (constructor; [by apply (end_ids id)|..]); unfold tasks_of; cbn in *; done || lia.
  - destruct (x_reviewBusy x) eqn:Eb; [|cbn in Er; lia].
    destruct r; (constructor; [by apply (end_ids id)|..]); unfold tasks_of; cbn in *; try done; try lia.
  - destruct (x_createBusy x) eqn:Eb; [|cbn in Ec; lia].
    unfold created. case_bool_decide; (constructor; [by apply (end_ids id)|..]); unfold tasks_of; cbn in *; try done; lia.
Qed.

Lemma exc_step_inv x e : exc_inv x -> exc_enabled session x e = true -> exc_inv (exc_do session x e).
Proof.
  intros Hi He. destruct e; cbn [exc_do] in *; try (apply answer_inv; [done|]; cbn in He; by bool_simpl).
  all: destruct Hi as [Hids Hr Hc Ha Ho Hops]; unfold tasks_of in Hr, Hc.
  - by constructor.
  - by constructor.
  - unfold click_review. constructor; [apply send_ids; exact Hids|..]; unfold tasks_of; cbn in *; try done. constructor; [|done]. by intros [=].
  - cbn in He. constructor; try done. intros _. destruct (x_selected x); [|by rewrite andb_false_r in He].
    unfold panel_buttons in He. destruct (canApprove session); [done|]. cbn in He. by rewrite andb_false_r in He.
  - unfold submitReview. cbn in He. apply andb_true_iff in He as [Hs Hb]. apply bool_decide_eq_true in Hs. apply negb_true_iff in Hb.
    destruct (x_selected x) as [d|]; [|by constructor]. destruct (x_reviewAction x) as [a|]; [|by destruct Hs].
    rewrite Hb in Hr. constructor; [apply send_ids; exact Hids|..]; unfold tasks_of; cbn in *; auto; try lia.
    constructor; [|done]. intros _. split; [auto|]. by destruct a.
  - unfold close_review. destruct (x_reviewBusy x) eqn:Eb; [by constructor; rewrite ?Eb|]. constructor; cbn; try done.
  - cbn in He. apply andb_true_iff in He as [Hca _]. by constructor.
  - by constructor.
  - unfold submitCreate. cbn in He. apply andb_true_iff in He as [Hopen He]. rewrite negb_true_iff, !orb_false_iff in He. destruct He as [[Hb H1] H2].
    rewrite H1, H2. cbn [orb]. rewrite Hb in Hc. constructor; [apply send_ids; exact Hids|..]; unfold tasks_of; cbn in *; auto; try lia.
    constructor; [|done]. intros _. split; [auto|]. cbn. split_and!; [by intros E; rewrite E in H1|by intros E; rewrite E in H2|apply js_trim_idem..].
  - unfold close_create. destruct (x_createBusy x) eqn:Eb; [by constructor; rewrite ?Eb|]. by constructor.
Qed.

Lemma exc_reachable_inv x : exc_reachable session x -> exc_inv x.
Proof.
  induction 1 as [|x e _ IH He]; [|by apply exc_step_inv]. constructor; try done; cbn; try constructor; try constructor. by intros [? [=]].
Qed.
End invariants.

(** ** What is confirmed is what was shown *)

Section picked.
Context (session : UserSession).

(** A user who opens the details of one exception at a time *)
Definition patient (x : exc_page) (e : exc_event) : bool :=
  match e with EReview _ => negb (existsb (fun t => is_get t.2) (x_tasks x)) | _ => true end.

(** [shown]: the exception on the screen when Approve or Reject was last pressed *)
Inductive picked_run : exc_page -> option string -> Prop :=
| pk_mount : picked_run exc_mount None
| pk_step x shown e :
    picked_run x shown -> exc_enabled session x e = true -> patient x e = true ->
    picked_run (exc_do session x e) (match e with EPick _ => xd_exception_id <$> x_selected x | _ => shown end).

Definition gets (x : exc_page) : nat := tasks_of is_get x.

Record picked_inv (x : exc_page) (shown : option string) : Prop := {
  pi_ids : NoDup (x_tasks x).*1 /\ Forall (fun t => (t.1 < x_next x)%nat) (x_tasks x);
  pi_gets : (gets x <= Nat.b2n (x_detailLoading x))%nat;
  pi_shown : is_Some (x_reviewAction x) -> gets x = 0%nat /\ is_Some shown /\ shown = xd_exception_id <$> x_selected x
}.

Lemma existsb_gets x : existsb (fun t => is_get t.2) (x_tasks x) = false -> gets x = 0%nat.
Proof.
  unfold gets, tasks_of. induction (x_tasks x) as [|t l IH]; [done|]. cbn. intros [-> Hl]%orb_false_iff. auto.
Qed.

Lemma picked_answer x shown id r : picked_inv x shown -> id ∈ (x_tasks x).*1 -> picked_inv (settle id r x) shown.
Proof.
  intros [Hids Hg Hs] Hin. unfold settle. destruct (find_task _ _ Hin) as (i & t & -> & Ht).
  pose proof (count_end is_get _ id t (proj1 Hids) Ht) as Eg. unfold gets, tasks_of in *.
  destruct t as [g|a g q|ru re q]; cbn [is_get Nat.b2n] in Eg.
  - assert (x_reviewAction x = None) as Hno.
    { destruct (x_reviewAction x); [|done]. destruct Hs as [Hz _]; [done|]. lia. }
    destruct r; (constructor; [by apply (end_ids id)|..]); unfold gets, tasks_of; cbn in *; rewrite ?Hno; try (by intros [? [=]]).
    all: destruct (x_detailLoading x); cbn in *; lia.
  - destruct r; (constructor; [by apply (end_ids id)|..]); unfold gets, tasks_of; cbn in *; try lia.
    + by intros [? [=]].
    + intros Ha. destruct (Hs Ha) as (? & ? & ?). split_and!; [lia|done..].
  - unfold created. case_bool_decide; (constructor; [by apply (end_ids id)|..]); unfold gets, tasks_of; cbn in *; try lia.
    all: intros Ha; destruct (Hs Ha) as (? & ? & ?); split_and!; [lia|done..].
Qed.

Lemma picked_reachable x shown : picked_run x shown -> picked_inv x shown.
Proof.
  induction 1 as [|x shown e _ IH He Hp].
  { constructor; cbn; [split; constructor|unfold gets, tasks_of; cbn; lia|by intros [? [=]]]. }
  destruct e; cbn [exc_do] in *; try (apply picked_answer; [done|]; cbn in He; by bool_simpl).
  all: destruct IH as [Hids Hg Hs].
  all: try (by constructor).
  - cbn in He, Hp. apply negb_true_iff in Hp. pose proof (existsb_gets x Hp) as Hz.
    constructor; [apply (send_ids (with_detail _ _ _)); exact Hids|..]; unfold gets, tasks_of in *; cbn in *; [lia|].
    intros Ha. apply andb_true_iff in He as [[He _]%andb_true_iff _]. unfold covered in He. by rewrite (bool_decide_true _ Ha), orb_true_r in He.
  - constructor; [done|done|]. intros _. cbn in He. apply andb_true_iff in He as [[_ Hl]%andb_true_iff Hb]. apply negb_true_iff in Hl.
    rewrite Hl in Hg. unfold gets, tasks_of in *. cbn in *. split_and!; [lia| |done]. by destruct (x_selected x).
  - unfold submitReview. destruct (x_selected x) as [d|] eqn:Ed; [|by constructor; rewrite ?Ed].
    destruct (x_reviewAction x) as [a|] eqn:Ea; [|by constructor; rewrite ?Ed, ?Ea].
    constructor; [apply (send_ids (with_review _ _ _)); exact Hids|..]; unfold gets, tasks_of in *; cbn in *; [done|]. intros _. rewrite Ed. auto.
  - unfold close_review. destruct (x_reviewBusy x) eqn:Eb; [by constructor|]. constructor; [done|done|]. by intros [? [=]].
  - unfold submitCreate. destruct (_ || _); [by constructor|]. constructor; [apply (send_ids (with_create _ _ _ _ _)); exact Hids|..]; done.
  - unfold close_create. by destruct (x_createBusy x); constructor.
Qed.
End picked.

(** ** The panel of a detail *)

(** The facts of [ExceptionDetailPanel], label and text; [formatDateTime] is the locale's.  A time of 0 is written as it is, with no label. *)
Definition detail_facts (formatDateTime : Z -> string) (d : ExceptionDetail) : list (string * string) :=
  [("Rule", xd_rule_description d); ("Reason", xd_reason d); ("Requested by", xd_requested_by_email d)]
  ++ (if truthy (xd_approved_by_email d)
      then [(if String.eqb (xd_status d) "rejected" then "Rejected by" else "Approved by", default "" (xd_approved_by_email d))] else [])
  ++ (match xd_expires_at_ms d with
      | Some ms => if ms =? 0 then [("", "0")] else [("Expires", formatDateTime ms)]
      | None => []
      end).

(** [statusBadgeVariant] *)
Definition exception_badge : list (string * string) :=
  [("pending", "warning"); ("approved", "success"); ("rejected", "error"); ("expired", "default"); ("revoked", "info")].

(** ** Properties *)

(** The exceptions page changes something only for those who may, and once at a time.  Whatever the user clicks and
    in whatever order answers arrive: every approval, rejection and request the page sends is sent for a role that can approve exceptions,
    in the name of the session's e-mail address, with a rule and a reason that are not blank; and there is never more than one review and one
    new request on its way, exactly when the dialog it was sent from is busy. *)
Theorem exceptions_page_safe session x :
  exc_reachable session x ->
  Forall (op_may session) (x_ops x) /\
  tasks_of is_review x = Nat.b2n (x_reviewBusy x) /\ tasks_of is_create x = Nat.b2n (x_createBusy x).
Proof. by intros [_ Hr Hc _ _ Ho]%exc_reachable_inv. Qed.

(** What is confirmed is what was shown.  When the user opens one detail at a time, confirming sends the review for the exception that was on
    the screen when Approve or Reject was pressed. *)
Theorem confirm_reviews_shown session x shown :
  picked_run session x shown -> exc_enabled session x EConfirm = true ->
  exists a id, x_reviewAction x = Some a /\ shown = Some id /\ x_ops (exc_do session x EConfirm) = review_op session a id :: x_ops x.
Proof.
  intros [_ _ Hs]%picked_reachable He. cbn in He. apply andb_true_iff in He as [Ha _]. apply bool_decide_eq_true in Ha.
  destruct (Hs Ha) as (_ & [id Hid] & Hsel). destruct Ha as [a Ha]. exists a, id. split_and!; [done..|].
  cbn. unfold submitReview. rewrite Ha. rewrite Hsel in Hid. destruct (x_selected x) as [d|]; cbn in *; congruence.
Qed.

(** ** Examples *)

Definition some_exception (id status : string) : ExceptionDetail := mkException id "Base" 3 status "No keys" "CI job" "dev@corp.example" None None [].
Definition sample_admin : UserSession := mkSession "u1" "admin@corp.example" OrgAdmin "org-1" "Corp" [].
Definition loaded : list exc_event := [EListAnswer 0 (Ok (rows_of "all"))].
Definition exc_run (es : list exc_event) : exc_page := fold_left (exc_do sample_admin) es exc_mount.

(** Opening a second detail before the first has arrived: the first is approved in the panel, the second arrives, and confirming
    approves the second. *)
Definition race_events : list exc_event :=
  loaded ++ [EReview "A"; EReview "B"; EAnswer 0 (Some (some_exception "A" "pending")); EPick RApprove; EAnswer 1 (Some (some_exception "B" "rejected")); EConfirm].

Fixpoint all_enabled (session : UserSession) (x : exc_page) (es : list exc_event) : bool :=
  match es with [] => true | e :: es' => exc_enabled session x e && all_enabled session (exc_do session x e) es' end.

Example wrong_exception_approved :
  all_enabled sample_admin exc_mount race_events = true /\ head (x_ops (exc_run race_events)) = Some (ExceptionApprove "B" "admin@corp.example").
Proof. vm_compute. by split. Qed.

(** A review that fails leaves the dialog open, says nothing and can be sent again. *)
Example failed_review_silent :
  let x := exc_run (loaded ++ [EReview "A"; EAnswer 0 (Some (some_exception "A" "pending")); EPick RApprove; EConfirm; EAnswer 1 None]) in
  (x_reviewAction x, x_reviewBusy x, x_toasts x) = (Some RApprove, false, []).
Proof. vm_compute. reflexivity. Qed.

Definition review_events : list exc_event := loaded ++ [EReview "A"; EAnswer 0 (Some (some_exception "A" "pending")); EPick RReject].

Lemma run_reachable session x es : exc_reachable session x -> all_enabled session x es = true -> exc_reachable session (fold_left (exc_do session) es x).
Proof. revert x. induction es as [|e es IH]; intros x Hx; [done|]. cbn. intros [He Hes]%andb_true_iff. apply IH; [by constructor|done]. Qed.

Lemma exceptions_page_safe_witness :
  Forall (op_may sample_admin) [ExceptionReject "A" "admin@corp.example" "Insufficient context"; ExceptionGet "A"] /\
  tasks_of is_review (exc_run (review_events ++ [EConfirm])) = 1%nat.
Proof.
  assert (exc_reachable sample_admin (exc_run (review_events ++ [EConfirm]))) as Hr
    by (apply run_reachable; [constructor|vm_compute; reflexivity]).
  destruct (exceptions_page_safe sample_admin _ Hr) as (Ho & Ht & _). split; [exact Ho|exact Ht].
Defined.

Lemma picked_mount_run session es : forall x shown,
  picked_run session x shown ->
  forallb (fun e => negb (match e with EPick _ => true | _ => false end)) es = true ->
  (fix go (x : exc_page) (es : list exc_event) : bool :=
     match es with [] => true | e :: es' => exc_enabled session x e && patient x e && go (exc_do session x e) es' end) x es = true ->
  picked_run session (fold_left (exc_do session) es x) shown.
Proof.
  induction es as [|e es IH]; intros x shown Hx; [done|]. cbn. intros [Hn Hns]%andb_true_iff [[He Hp]%andb_true_iff Hes]%andb_true_iff.
  apply IH; [|done|done]. pose proof (pk_step session x shown e Hx He Hp) as H. by destruct e.
Qed.

Definition opened : exc_page := exc_run (loaded ++ [EReview "A"; EAnswer 0 (Some (some_exception "A" "pending"))]).

Lemma review_events_picked : picked_run sample_admin (exc_run review_events) (Some "A").
Proof.
  change (picked_run sample_admin (exc_do sample_admin opened (EPick RReject)) (xd_exception_id <$> x_selected opened)).
  apply (pk_step sample_admin opened None (EPick RReject)); [|vm_compute; reflexivity..].
  apply picked_mount_run; [constructor|vm_compute; reflexivity..].
Qed.

Lemma confirm_reviews_shown_witness :
  exists a id, x_reviewAction (exc_run review_events) = Some a /\ Some "A" = Some id /\
    x_ops (exc_do sample_admin (exc_run review_events) EConfirm) = review_op sample_admin a id :: x_ops (exc_run review_events).
Proof. apply (confirm_reviews_shown sample_admin (exc_run review_events) (Some "A")); [exact review_events_picked|vm_compute; reflexivity]. Defined.
