(* ===== verification/DashSettings.v ===== *)
(** * The settings page: [app/settings/page.tsx]

    The organisation's settings (a draft that is saved or reset), the users of the organisation (a list, an invitation and a button to
    disable a user) and the table of roles; and, at the end, that what the dashboard's pages offer is what its API grants. *)

From S2P Require Import Prelude Json JsonText Resilience CliFiles CliInput Dashboard DashFetch DashQuery DashRepo DashRoutes DashStats DashUi DashLists DashExceptions.

(** ** The organisation *)

Record OrgSettings := mkOrg {
  os_org_id : string;
  os_org_name : string;
  os_default_policy_id : string;
  os_enrollment_mode : string;
  os_data_retention_days : num;
  os_email_alerts : bool;
  os_slack_webhook_url : option string
}.

Definition ENROLLMENT_OPTIONS : list string := ["open"; "invite"; "closed"].

Definition org_json (o : OrgSettings) : filters :=
  [("org_id", JStr (os_org_id o)); ("org_name", JStr (os_org_name o)); ("default_policy_id", JStr (os_default_policy_id o));
   ("enrollment_mode", JStr (os_enrollment_mode o)); ("data_retention_days", JNum (os_data_retention_days o));
   ("email_alerts", JBool (os_email_alerts o));
   ("slack_webhook_url", match os_slack_webhook_url o with Some u => JStr u | None => JNull end)].

Record org_tab := mkOrgTab {
  ot_settings : option OrgSettings;
  ot_loading : bool;
  ot_saving : bool;
  ot_draft : option OrgSettings;
  ot_ops : list repo_op
}.

Definition org_mount : org_tab := mkOrgTab None true false None [].

Inductive org_event :=
| OLoaded (r : option OrgSettings)             (* the answer of [org.get] *)
| OName (v : string)
| OEnrollment (v : string)
| ORetention (n : num)                         (* [Number(e.target.value)]; an empty field is 0 *)
| OSlack (v : string)
| OAlerts (v : bool)
| OReset
| OSave
| OSaved (r : option OrgSettings).

(** [setDraft({ ...draft, field: value })] *)
Definition edit (f : OrgSettings -> OrgSettings) (t : org_tab) : org_tab :=
  mkOrgTab (ot_settings t) (ot_loading t) (ot_saving t) (f <$> ot_draft t) (ot_ops t).

Definition handleSave (t : org_tab) : org_tab :=
  match ot_draft t with
  | Some d => mkOrgTab (ot_settings t) (ot_loading t) true (ot_draft t) (OrgUpdate (org_json d) :: ot_ops t)
  | None => t
  end.

Definition org_do (t : org_tab) (e : org_event) : org_tab :=
  match e with
  | OLoaded (Some s) => mkOrgTab (Some s) false (ot_saving t) (Some s) (ot_ops t)
  | OLoaded None => mkOrgTab (ot_settings t) false (ot_saving t) (ot_draft t) (ot_ops t)
  | OName v => edit (fun d => mkOrg (os_org_id d) v (os_default_policy_id d) (os_enrollment_mode d) (os_data_retention_days d) (os_email_alerts d) (os_slack_webhook_url d)) t
  | OEnrollment v => edit (fun d => mkOrg (os_org_id d) (os_org_name d) (os_default_policy_id d) v (os_data_retention_days d) (os_email_alerts d) (os_slack_webhook_url d)) t
  | ORetention n => edit (fun d => mkOrg (os_org_id d) (os_org_name d) (os_default_policy_id d) (os_enrollment_mode d) n (os_email_alerts d) (os_slack_webhook_url d)) t
  | OSlack v => edit (fun d => mkOrg (os_org_id d) (os_org_name d) (os_default_policy_id d) (os_enrollment_mode d) (os_data_retention_days d) (os_email_alerts d)
                                 (if is_empty v then None else Some v)) t
  | OAlerts v => edit (fun d => mkOrg (os_org_id d) (os_org_name d) (os_default_policy_id d) (os_enrollment_mode d) (os_data_retention_days d) v (os_slack_webhook_url d)) t
  | OReset => mkOrgTab (ot_settings t) (ot_loading t) (ot_saving t) (ot_settings t) (ot_ops t)
  | OSave => handleSave t
  | OSaved (Some next) => mkOrgTab (Some next) (ot_loading t) false (Some next) (ot_ops t)
  | OSaved None => mkOrgTab (ot_settings t) (ot_loading t) false (ot_draft t) (ot_ops t)
  end.

Section org.
Context (role : DashRole).
Definition canManageSettings : bool := canPerformAction role "manage:settings".
Definition canManageEnrollment : bool := canPerformAction role "manage:enrollment".

(** The form is shown when there is a draft; the controls are disabled for those who may not. *)
Definition form_shown (t : org_tab) : bool := negb (ot_loading t) && bool_decide (is_Some (ot_settings t)) && bool_decide (is_Some (ot_draft t)).

Definition org_enabled (t : org_tab) (e : org_event) : bool :=
  match e with
  | OLoaded _ => ot_loading t
  | OSaved _ => ot_saving t
  | OEnrollment v => form_shown t && canManageEnrollment && bool_decide (v ∈ ENROLLMENT_OPTIONS)
  | OSave => form_shown t && canManageSettings && negb (ot_saving t)
  | _ => form_shown t && canManageSettings
  end.

Inductive org_reachable : org_tab -> Prop :=
| or_mount : org_reachable org_mount
| or_step t e : org_reachable t -> org_enabled t e = true -> org_reachable (org_do t e).
End org.

(** ** The users *)

Record UserSummary := mkUser { us_id : string; us_email : string; us_role : DashRole; us_status : string; us_last_login_ms : option Z }.

Record users_tab := mkUsersTab {
  ut_list : listing;
  ut_columns_query : list_query;                 (* the query of the render in which the columns were made *)
  ut_inviteEmail : string;
  ut_inviteRole : DashRole;
  ut_inviting : bool;
  ut_inviteQuery : list_query;                   (* the query of the render the invitation was sent in *)
  ut_ops : list repo_op
}.

Definition users_mount : users_tab := mkUsersTab (list_mount (lp_start users_page)) (lp_start users_page) "" Viewer false (lp_start users_page) [].

Section users.
Context (currentUser : UserSession).
Definition canCreateSuperAdmin : bool := canPerformAction (s_role currentUser) "create:super_admin".

Definition canInviteToRole (target : DashRole) : bool :=
  canCreateUser (s_role currentUser) target || canCreateSuperAdmin && bool_decide (target = SuperAdmin).

Definition roleOptions : list DashRole := List.filter canInviteToRole [Viewer; Auditor; OrgAdmin; SuperAdmin].

Definition getRoleLevel (role : DashRole) : Z := ROLE_HIERARCHY role.

(** The button of a row *)
Definition disable_shown (u : UserSummary) : bool :=
  String.eqb (us_status u) "active" && (getRoleLevel (us_role u) <? getRoleLevel (s_role currentUser)).

Definition handleInvite (t : users_tab) : users_tab :=
  if is_empty (ut_inviteEmail t) then t
  else mkUsersTab (ut_list t) (ut_columns_query t) (ut_inviteEmail t) (ut_inviteRole t) true (ls_query (ut_list t))
         (UserInvite (ut_inviteEmail t) (dash_role_name (ut_inviteRole t)) :: ut_ops t).

Inductive users_event :=
| USetQuery (q : list_query)
| UListAnswer (id : nat) (r : result string Page)
| UEmail (v : string)
| URole (r : DashRole)
| UInvite
| UInvited (ok : bool)
| UDisable (u : UserSummary)
| UDisabled.                                     (* its answer; a failure is dropped *)

Definition users_do (t : users_tab) (e : users_event) : users_tab :=
  match e with
  | USetQuery q => mkUsersTab (set_query q (ut_list t)) (ut_columns_query t) (ut_inviteEmail t) (ut_inviteRole t) (ut_inviting t) (ut_inviteQuery t) (ut_ops t)
  | UListAnswer id r => mkUsersTab (list_settle false id r (ut_list t)) (ut_columns_query t) (ut_inviteEmail t) (ut_inviteRole t) (ut_inviting t) (ut_inviteQuery t) (ut_ops t)
  | UEmail v => mkUsersTab (ut_list t) (ut_columns_query t) v (ut_inviteRole t) (ut_inviting t) (ut_inviteQuery t) (ut_ops t)
  | URole r => mkUsersTab (ut_list t) (ut_columns_query t) (ut_inviteEmail t) r (ut_inviting t) (ut_inviteQuery t) (ut_ops t)
  | UInvite => handleInvite t
  | UInvited true => mkUsersTab (refresh (ut_inviteQuery t) (ut_list t)) (ut_columns_query t) "" (ut_inviteRole t) false (ut_inviteQuery t) (ut_ops t)
  | UInvited false => mkUsersTab (ut_list t) (ut_columns_query t) (ut_inviteEmail t) (ut_inviteRole t) false (ut_inviteQuery t) (ut_ops t)
  | UDisable u => mkUsersTab (ut_list t) (ut_columns_query t) (ut_inviteEmail t) (ut_inviteRole t) (ut_inviting t) (ut_inviteQuery t) (UserDisable (us_id u) :: ut_ops t)
  | UDisabled => mkUsersTab (refresh (ut_columns_query t) (ut_list t)) (ut_columns_query t) (ut_inviteEmail t) (ut_inviteRole t) (ut_inviting t) (ut_inviteQuery t) (ut_ops t)
  end.

Definition users_enabled (t : users_tab) (e : users_event) : bool :=
  match e with
  | URole r => bool_decide (r ∈ roleOptions)
  | UInvite => negb (ut_inviting t) && negb (is_empty (ut_inviteEmail t)) && negb (bool_decide (roleOptions = []))
  | UInvited _ => ut_inviting t
  | UDisable u => disable_shown u
  | UDisabled => existsb (fun op => match op with UserDisable _ => true | _ => false end) (ut_ops t)
  | _ => true
  end.

Inductive users_reachable : users_tab -> Prop :=
| ur_mount : users_reachable users_mount
| ur_step t e : users_reachable t -> users_enabled t e = true -> users_reachable (users_do t e).
End users.

(** ** The table of roles *)

Definition RBAC_MATRIX : list (DashRole * Z * list string) :=
  [(SuperAdmin, 100, ["Full read/write across org"; "Create / publish policies"; "Approve / reject exceptions";
                      "Manage settings, users, enrollment"; "View audit log + export"]);
   (OrgAdmin, 80, ["Read everything, edit policies"; "Approve / reject exceptions"; "Manage settings, users, enrollment"; "View audit log + export"]);
   (Auditor, 50, ["Read policies, violations, audit, exceptions"; "View audit log + export"; "Read-only settings"]);
   (Viewer, 20, ["Read dashboard, devices, violations"])].

(** [RbacTab]: the rows, with the one marked as the reader's *)
Definition rbac_rows (currentRole : DashRole) : list (DashRole * Z * list string * bool) := map (fun row => (row, bool_decide (row.1.1 = currentRole))) RBAC_MATRIX.

(** ** Devices: the button of a row, [app/devices/page.tsx] *)

Definition canDeactivate (role : DashRole) : bool := canPerformAction role "deactivate:device".
Definition deactivate_shown (role : DashRole) (status : string) : bool := canDeactivate role && negb (String.eqb status "deactivated").

(** ** Invariants *)

Lemma admin_action role action : canPerformAction role action = true ->
  is_one_of action ["create:policy"; "update:policy"; "delete:policy"; "publish:policy"; "create:exception"; "approve:exception";
                    "deactivate:device"; "manage:settings"; "manage:enrollment"] = true -> role = SuperAdmin \/ role = OrgAdmin.
Proof. unfold canPerformAction. intros Hc Ho. rewrite Ho in Hc. by bool_simpl. Qed.

(** Nothing the table maps is refused to an administrator. *)
Lemma admin_authorized role method path : role = SuperAdmin \/ role = OrgAdmin -> authorizeRoute role method path = Ok tt.
Proof.
  intros Hr. unfold authorizeRoute. destruct (routePermissionFor method path) as [m|] eqn:Em; [|done].
  destruct Hr as [->| ->]; [done|]. cbn [bool_decide]. rewrite bool_decide_false by done.
  assert (forall a, rp_action m = Some a -> canPerformAction OrgAdmin a = true) as Ha.
  { unfold routePermissionFor in Em. apply find_some in Em as [Hin _]. intros a. repeat (destruct Hin as [<-|Hin]; [cbn; intros [= <-]; reflexivity || discriminate|]). done. }
  destruct (rp_action m) as [a|]; [rewrite (Ha a eq_refl)|]; done.
Qed.

Lemma invite_is_create s r : canInviteToRole s r = canCreateUser (s_role s) r.
Proof. unfold canInviteToRole, canCreateSuperAdmin. by destruct (s_role s), r. Qed.

Lemma options_viewer s : roleOptions s <> [] -> Viewer ∈ roleOptions s.
Proof.
  unfold roleOptions, canInviteToRole, canCreateSuperAdmin. destruct (s_role s); vm_compute; intros H; (left || by destruct H).
Qed.

Lemma role_options s r : r ∈ roleOptions s -> canCreateUser (s_role s) r = true.
Proof. unfold roleOptions. rewrite list_elem_of_In, List.filter_In, invite_is_create. by intros [_ ?]. Qed.

Definition org_op_ok (role : DashRole) (op : repo_op) : Prop := exists d, op = OrgUpdate (org_json d) /\ canManageSettings role = true.

Lemma org_reachable_ops role t : org_reachable role t -> Forall (org_op_ok role) (ot_ops t).
Proof.
  induction 1 as [|t e _ IH He]; [constructor|]. destruct e as [[s|]| | | | | | | |[s|]]; try exact IH.
  cbn. unfold handleSave. destruct (ot_draft t) as [d|]; [|done]. constructor; [|done]. exists d. split; [done|].
  cbn in He. apply andb_true_iff in He as [[_ He]%andb_true_iff _]. done.
Qed.

Definition users_op_ok (s : UserSession) (op : repo_op) : Prop :=
  match op with
  | UserInvite email role => email <> "" /\ exists r, role = dash_role_name r /\ canCreateUser (s_role s) r = true
  | UserDisable _ => exists r, getRoleLevel r < getRoleLevel (s_role s)
  | _ => False
  end.

Lemma users_reachable_inv s t :
  users_reachable s t -> Forall (users_op_ok s) (ut_ops t) /\ (roleOptions s <> [] -> ut_inviteRole t ∈ roleOptions s).
Proof.
  induction 1 as [|t e _ [IH Hr] He]; [split; [constructor|apply options_viewer]|].
  destruct e as [| | | | |[]|u|]; try by split.
  - split; [done|]. intros _. cbn in He. by bool_simpl.
  - cbn in He |- *. unfold handleInvite. apply andb_true_iff in He as [[_ He]%andb_true_iff Ho]. apply negb_true_iff in He, Ho.
    rewrite He. cbn. split; [|done]. constructor; [|done]. split; [by destruct (ut_inviteEmail t)|]. eexists. split; [done|].
    apply role_options, Hr. by bool_simpl.
  - split; [|done]. constructor; [|done]. cbn in He. unfold disable_shown in He. apply andb_true_iff in He as [_ He]. exists (us_role u). lia.
Qed.

(** ** What the server does with it *)

(** An operation a handler comes to, with some answers *)
Inductive reaches (op : repo_op) : prog -> Prop :=
| rc_here k : reaches op (Perform op k)
| rc_later op' k r : reaches op (k r) -> reaches op (Perform op' k).

(** An identifier that needs no escape *)
Definition plain_id (id : string) : Prop := id <> "" /\ Forall (fun c => uri_plain c = true) (to_chars id).

Lemma plain_free c id : uri_plain c = false -> plain_id id -> free c (to_chars id).
Proof. intros Hc [_ Hid]. apply (Forall_impl _ _ _ Hid). intros a Ha ->. congruence. Qed.

Lemma cut_none sep s : free sep s -> cut sep s = (s, None).
Proof. induction 1 as [|c s Hc _ IH]; [done|]. cbn. rewrite IH. by destruct (Ascii.eqb_spec c sep). Qed.

Lemma id_segments x id :
  slash_free x -> plain_id id -> segments ("/api/" +:+ x +:+ "/" +:+ id) = [""; "api"; x; id].
Proof.
  intros Hx Hid. change ("/api/" +:+ x +:+ "/" +:+ id) with (js_join "/" [""; "api"; x; id]). apply split_join; [done|].
  repeat match goal with |- Forall slash_free (_ :: _) => constructor | |- Forall slash_free [] => constructor end.
  - constructor.
  - apply (bool_decide_unpack _). vm_compute. exact I.
  - done.
  - by apply (plain_free "/").
Qed.

Lemma id_free x id : free "?" (to_chars ("/api/" +:+ x +:+ "/")) -> plain_id id -> free "?" (to_chars ("/api/" +:+ x +:+ "/" +:+ id)).
Proof.
  intros Hx Hid. rewrite !to_chars_app in *. unfold free in *. rewrite !Forall_app in *. destruct Hx as (H1 & H2 & H3).
  split_and!; try done. by apply (plain_free "?").
Qed.

Section mutations.
Context (date : string -> option Z) (ctx : RequestContext).

Lemma ask_id op x id :
  hq_path (bff_request op) = "/api/" +:+ x +:+ "/" +:+ id -> free "?" (to_chars ("/api/" +:+ x +:+ "/")) -> plain_id id ->
  ask_server date ctx op = route_request date ctx (hq_method (bff_request op)) ("/api/" +:+ x +:+ "/" +:+ id) []
    (match hq_body (bff_request op) with Some b => print_json b | None => [] end).
Proof.
  intros Hp Hx Hid. unfold ask_server. rewrite Hp, cut_none by by apply id_free. by rewrite of_to_chars.
Qed.
(** *** The handlers of the paths with an identifier *)

Ltac by_id x id Hid :=
  unfold route_request, route_matches; change ("/api/" +:+ x +:+ "/" +:+ id) with ("/api/" +:+ x +:+ "/" +:+ id);
  rewrite (id_segments x id); [|apply (bool_decide_unpack _); vm_compute; exact I|exact Hid]; destruct Hid as [? _]; by destruct id.

Lemma exception_routed id params text :
  plain_id id -> route_request date ctx "POST" ("/api/" +:+ "exceptions" +:+ "/" +:+ id) params text = Some (exception_post (s_email (ctx_session ctx)) id text).
Proof. intros Hid. by_id "exceptions" id Hid. Qed.
Lemma device_routed id params text :
  plain_id id -> route_request date ctx "DELETE" ("/api/" +:+ "devices" +:+ "/" +:+ id) params text = Some (device_delete id).
Proof. intros Hid. by_id "devices" id Hid. Qed.
Lemma user_routed id params text :
  plain_id id -> route_request date ctx "DELETE" ("/api/" +:+ "users" +:+ "/" +:+ id) params text = Some (user_delete id).
Proof. intros Hid. by_id "users" id Hid. Qed.

(** What a request comes to at the server *)
Definition comes_to (asked op : repo_op) : Prop := exists p, ask_server date ctx asked = Some p /\ reaches op p.

Lemma body_read v : jsonable v -> body_of (print_json v) = nullish (Some v) (JObj []).
Proof.
  intros Hv. unfold body_of, readJson. pose proof (parse_print_json v Hv) as E. case_decide as Et; [by rewrite Et in E|]. by rewrite E.
Qed.

(** An object of strings *)
Ltac flat_json := split; [split; [apply (bool_decide_unpack _); vm_compute; exact I|repeat constructor]|by repeat split].

Ltac to_id x id := rewrite (ask_id _ x id); [|done|apply (bool_decide_unpack _); vm_compute; exact I|done]; cbn [bff_request hq_method hq_body].

Lemma deactivate_comes id : plain_id id -> comes_to (DeviceDeactivate id) (DeviceDeactivate id).
Proof.
  intros Hid. eexists. split; [to_id "devices" id; by apply device_routed|].
  apply (rc_later _ _ _ (RJson (JObj [("device_id", JStr id)]))). constructor.
Qed.

Lemma disable_comes id : plain_id id -> comes_to (UserDisable id) (UserDisable id).
Proof.
  intros Hid. eexists. split; [to_id "users" id; by apply user_routed|].
  apply (rc_later _ _ _ (RPage (mkPage JNull JNull JNull JNull JNull))). constructor.
Qed.

Lemma review_comes s a id : plain_id id -> s_email (ctx_session ctx) = s_email s -> comes_to (review_op s a id) (review_op s a id).
Proof.
  intros Hid Hs. eexists. split; [destruct a; (to_id "exceptions" id; by apply exception_routed)|].
  apply (rc_later _ _ _ (RJson (JObj [("exception_id", JStr id)]))). cbn [or_not_found js_truthy]. rewrite Hs.
  destruct a; cbn [review_op bff_request hq_body]; (rewrite body_read; [constructor|flat_json]).
Qed.

(** The paths without an identifier *)
Lemma ask_plain op path :
  hq_path (bff_request op) = path -> free "?" (to_chars path) ->
  ask_server date ctx op = route_request date ctx (hq_method (bff_request op)) path []
    (match hq_body (bff_request op) with Some b => print_json b | None => [] end).
Proof. intros Hp Hf. unfold ask_server. by rewrite Hp, cut_none, of_to_chars. Qed.

Ltac to_path path := rewrite (ask_plain _ path); [|done|apply (bool_decide_unpack _); vm_compute; exact I]; cbn [bff_request hq_method hq_body]; reflexivity.

Lemma trimmed_field k s o : json_get k (JObj o) = Some (JStr s) -> trimmed (JObj o) k = Ok (Some (js_trim s)).
Proof. unfold trimmed. by intros ->. Qed.

Lemma required_ok s message k : s <> "" -> required (Some s) message k = k s.
Proof. by destruct s. Qed.

Lemma create_comes ruleId reason :
  js_trim ruleId <> "" -> js_trim reason <> "" -> comes_to (ExceptionCreate ruleId reason) (ExceptionCreate (js_trim ruleId) (js_trim reason)).
Proof.
  intros Hr Hn. eexists. split; [to_path "/api/exceptions"|]. unfold exceptions_post. rewrite body_read by flat_json. cbn [nullish].
  rewrite (trimmed_field "rule_id" ruleId), (trimmed_field "reason" reason) by done. cbn [when_ok]. rewrite !required_ok by done. constructor.
Qed.

Lemma invite_comes email r :
  js_trim email <> "" -> canCreateUser (ctx_role ctx) r = true -> comes_to (UserInvite email (dash_role_name r)) (UserInvite (js_trim email) (dash_role_name r)).
Proof.
  intros He Hc. eexists. split; [to_path "/api/users"|]. unfold users_post. rewrite body_read by flat_json. cbn [nullish].
  rewrite (trimmed_field "email" email), (trimmed_field "role" (dash_role_name r)) by done. cbn [when_ok]. rewrite required_ok by done.
  replace (Some (js_trim (dash_role_name r)) ≫= role_of_name) with (Some r) by (by destruct r).
  unfold assertCanCreateRole. rewrite Hc. constructor.
Qed.

(** The fields of a draft the API takes *)
Definition org_patch (d : OrgSettings) : filters := List.filter (fun kv => bool_decide (kv.1 ∈ PATCH_KEYS)) (org_json d).

Lemma org_comes d : num_ok (os_data_retention_days d) -> comes_to (OrgUpdate (org_json d)) (OrgUpdate (org_patch d)).
Proof.
  intros Hd. eexists. split; [to_path "/api/settings"|]. unfold settings_patch_route. rewrite body_read.
  - cbn [nullish settings_patch when_ok]. constructor.
  - split; [split; [apply (bool_decide_unpack _); vm_compute; exact I|repeat constructor]|].
    cbn. split_and!; try done. by destruct (os_slack_webhook_url d).
Qed.
End mutations.

(** ** Properties *)

(** What the registry is asked for in the end: texts are trimmed, and of the settings only the known fields are kept. *)
Definition as_stored (op : repo_op) : repo_op :=
  match op with
  | ExceptionCreate ruleId reason => ExceptionCreate (js_trim ruleId) (js_trim reason)
  | UserInvite email role => UserInvite (js_trim email) role
  | OrgUpdate f => OrgUpdate (List.filter (fun kv => bool_decide (kv.1 ∈ PATCH_KEYS)) f)
  | _ => op
  end.

(** Identifiers that need no escape, an address that is not blank, a number of days JSON can hold *)
Definition sendable (op : repo_op) : Prop :=
  match op with
  | DeviceDeactivate id | ExceptionApprove id _ | ExceptionReject id _ _ | UserDisable id => plain_id id
  | UserInvite email _ => js_trim email <> ""
  | OrgUpdate f => forall n, obj_get "data_retention_days" f = Some (JNum n) -> num_ok n
  | _ => True
  end.

(** The API lets the role make the request, and the handler comes to the operation. *)
Definition granted (date : string -> option Z) (s : UserSession) (op : repo_op) : Prop :=
  authorizeRoute (s_role s) (hq_method (bff_request op)) (hq_path (bff_request op)) = Ok tt /\
  (sendable op -> comes_to date (context_of s) op (as_stored op)).

Lemma exception_granted date s op : is_mutation op = true -> op_may s op -> granted date s op.
Proof.
  intros Hm Ho. destruct (Ho Hm) as [Hc Hop]. split; [apply admin_authorized; by eapply (admin_action _ "approve:exception")|].
  intros Hs. destruct op; try done; cbn [as_stored sendable] in *.
  - destruct Hop as (? & ? & E1 & E2). apply create_comes; by rewrite ?E1, ?E2.
  - subst. by apply (review_comes date (context_of s) s RApprove).
  - destruct Hop as [-> ->]. by apply (review_comes date (context_of s) s RReject).
Qed.

Lemma org_granted date s op : org_op_ok (s_role s) op -> granted date s op.
Proof.
  intros (d & -> & Hc). split; [apply admin_authorized; by eapply (admin_action _ "manage:settings")|].
  intros Hs. apply org_comes. by apply Hs.
Qed.

Lemma creates_admin role r : canCreateUser role r = true -> role = SuperAdmin \/ role = OrgAdmin.
Proof. destruct role, r; cbn; auto; discriminate. Qed.

Lemma users_granted date s op : users_op_ok s op -> s_role s <> Auditor -> granted date s op.
Proof.
  intros Ho Ha. destruct op; try done; cbn in Ho.
  - destruct Ho as (_ & r & -> & Hc). split; [by eapply admin_authorized, creates_admin|]. intros Hs. by apply invite_comes.
  - destruct Ho as [r Hr]. split.
    + apply admin_authorized. destruct (s_role s), r; cbn in Hr; try lia; tauto.
    + intros Hs. by apply disable_comes.
Qed.


(** ** Examples *)

(** An identifier with a question mark or a slash: the handler is given another device, or the path has no handler. *)
Example id_misrouted :
  ask_server (fun _ => None) (context_of sample_admin) (DeviceDeactivate "d1?force") =
    ask_server (fun _ => None) (context_of sample_admin) (DeviceDeactivate "d1") /\
  ask_server (fun _ => None) (context_of sample_admin) (DeviceDeactivate "d1/d2") = None.
Proof. vm_compute. done. Qed.

(** The levels of the table are those of the hierarchy. *)
Example matrix_levels : Forall (fun row => row.1.2 = ROLE_HIERARCHY row.1.1) RBAC_MATRIX /\ map (fun row => row.1.1) RBAC_MATRIX = ROLES.
Proof. split; [repeat constructor|reflexivity]. Qed.

(** The table says that auditors read the settings and that viewers do not read policies or exceptions; the API does the opposite. *)
Example matrix_differs :
  authorizeRoute Auditor "GET" "/api/settings" = Err (forbiddenError "Auditor role is read-only") /\
  authorizeRoute Viewer "GET" "/api/policies" = Ok tt /\ authorizeRoute Viewer "GET" "/api/exceptions" = Ok tt.
Proof. by vm_compute. Qed.

(** An auditor is offered to disable a viewer, which the API refuses; no error is shown, for the failure is dropped. *)
Definition sample_auditor : UserSession := mkSession "u2" "audit@corp.example" Auditor "org-1" "Corp" [].
Example auditor_offered_disable :
  disable_shown sample_auditor (mkUser "u9" "v@corp.example" Viewer "active" None) = true /\
  authorizeRoute Auditor "DELETE" "/api/users/u9" = Err (forbiddenError "Role 'auditor' cannot perform 'manage:settings'").
Proof. by vm_compute. Qed.

(** Disabling a user on the second page loads the first: the columns keep the [refresh] of the render they were made in.  The state
    says page 2, so that pressing page 2 does not load it again. *)
Definition users_run (es : list users_event) : users_tab := fold_left users_do es users_mount.
Definition second_users : list_query := on_page 2 (lp_start users_page).
Definition disabled_on_second : users_tab :=
  users_run [UListAnswer 0 (Ok (rows_of "first")); USetQuery second_users; UListAnswer 1 (Ok (rows_of "second"));
             UDisable (mkUser "u9" "v@corp.example" Viewer "active" None); UDisabled; UListAnswer 2 (Ok (rows_of "first again"))].
Example stale_refresh :
  (lq_page (ls_query (ut_list disabled_on_second)), ls_data (ut_list disabled_on_second)) = (2, Some (rows_of "first again")) /\
  ls_pending (ut_list (users_do disabled_on_second (USetQuery second_users))) = [].
Proof. by vm_compute. Qed.

(** The bounds of the number field are not checked: an emptied one is saved as no days at all. *)
Definition sample_org : OrgSettings := mkOrg "org-1" "Corp" "base" "invite" (NInt 90) true None.
Definition org_run (es : list org_event) : org_tab := fold_left org_do es org_mount.
Example retention_unchecked :
  obj_get "data_retention_days" (match ot_ops (org_run [OLoaded (Some sample_org); ORetention (NInt 0); OSave]) with [OrgUpdate f] => f | _ => [] end)
  = Some (JNum (NInt 0)).
Proof. reflexivity. Qed.

(** What is typed while a save is on its way is lost when it returns. *)
Example edit_lost :
  ot_draft (org_run [OLoaded (Some sample_org); OSave; OName "New name"; OSaved (Some sample_org)]) = Some sample_org.
Proof. reflexivity. Qed.

