(* ===== verification/DashRows.v ===== *)
(** * What the dashboard's tables show

    The accessors of the columns of [app/devices], [app/violations], [app/policies], [app/audit], [app/exceptions] and [app/settings],
    [categoryLabel] of [types/index.ts], [truncate] and [bytesToHexPreview] of [lib/utils/format.ts], and the indicators of
    [components/ui/StatusIndicator.tsx].  A cell is what is read in it: texts, badges, links and buttons; classes are left out.
    [None] is a cell whose rendering throws. *)

From S2P Require Import Prelude Json JsonText Resilience CliFiles CliInput Dashboard DashFetch DashQuery DashRepo DashRoutes DashStats DashUi DashLists DashExceptions DashSettings.

(** ** Cells *)

(** [Dash] is the em dash that stands for no value. *)
Inductive cell :=
| Dash
| Txt (s : string)
| Badge (variant : string) (label : cell)
| Indicator (tone label : string) (pulse : bool)
| Anchor (href : string) (label : cell)
| Press (label : string)
| Several (l : list cell).

Record column (A : Type) := mkCol { co_key : string; co_header : string; co_sortable : bool; co_cell : A -> option cell }.
Arguments mkCol {A}.
Arguments co_key {A}.
Arguments co_header {A}.
Arguments co_sortable {A}.
Arguments co_cell {A}.

(** The cells of a row, [None] when one of them throws *)
Definition row_cells {A} (cols : list (column A)) (a : A) : option (list cell) := mapM (fun c => co_cell c a) cols.

Definition txt (s : string) : option cell := Some (Txt s).
(** [v ?? "—"] *)
Definition or_dash (v : option string) : cell := match v with Some s => Txt s | None => Dash end.
(** [v || "—"] *)
Definition or_dash_truthy (v : option string) : cell := if truthy v then or_dash v else Dash.

(** ** Labels *)

Definition CATEGORY_LABELS : list (string * string) :=
  [("secret", "Secret"); ("pii", "PII"); ("source_code", "Source Code"); ("classification", "Classification");
   ("company_confidential", "Company Confidential"); ("financial", "Financial"); ("intellectual_property", "Intellectual Property");
   ("usage_policy", "Usage Policy"); ("prompt_injection", "Prompt Injection"); ("sensitive_document", "Sensitive Document");
   ("customer_data", "Customer Data"); ("compliance", "Compliance"); ("keyword", "Keyword"); ("file_policy", "File Policy");
   ("image_policy", "Image Policy"); ("ai_classification", "AI Classification"); ("destructive_command", "Destructive Command");
   ("legal", "Legal"); ("medical", "Medical"); ("hr", "HR"); ("security", "Security"); ("research_development", "Research & Development");
   ("communication", "Communication"); ("procurement", "Procurement"); ("government", "Government")].

(** [CATEGORY_LABELS[category] ?? category]; a category named like a property of every object is left aside. *)
Definition category_text (category : string) : string := default category (obj_get category CATEGORY_LABELS).
Definition categoryLabel (category : option string) : cell := if truthy category then Txt (category_text (default "" category)) else Dash.

(** [severityToTone], [severityLabel], [decisionToTone] and [decisionLabel] *)
Definition SEVERITY_TONE : list (string * (string * string)) :=
  [("low", ("info", "Low")); ("medium", ("warning", "Medium")); ("high", ("error", "High")); ("critical", ("error", "Critical"))].
Definition DECISION_TONE : list (string * (string * string)) :=
  [("allow", ("success", "Allowed")); ("warn", ("warning", "Warned")); ("block", ("error", "Blocked"))].

(** The tone of a value that has none is [undefined], and reading its styles throws. *)
Definition SeverityIndicator (severity : string) : option cell :=
  (fun tl => Indicator tl.1 tl.2 (String.eqb severity "critical")) <$> obj_get severity SEVERITY_TONE.
Definition DecisionIndicator (decision : string) : option cell :=
  (fun tl => Indicator tl.1 tl.2 false) <$> obj_get decision DECISION_TONE.

(** [statusBadgeVariant[d.status]]: a variant that is not there is the default of [Badge]. *)
Definition variant_of (variants : list (string * string)) (k : string) : string := default "default" (obj_get k variants).

Definition device_variant : list (string * string) := [("active", "success"); ("inactive", "default"); ("deactivated", "error")].
Definition chain_variant : list (string * string) := [("verified", "success"); ("incomplete", "warning"); ("broken", "error"); ("unknown", "default")].
Definition policy_variant : list (string * string) := [("active", "success"); ("draft", "warning"); ("superseded", "default"); ("rollback", "info")].
Definition role_variant (r : DashRole) : string := match r with SuperAdmin => "error" | OrgAdmin => "warning" | Auditor => "info" | Viewer => "default" end.
Definition role_label (r : DashRole) : string := match r with SuperAdmin => "Super Admin" | OrgAdmin => "Org Admin" | Auditor => "Auditor" | Viewer => "Viewer" end.

(** ** Texts: [lib/utils/format.ts] *)

Section format.
(** The ellipsis, one code unit *)
Context (ellipsis : ascii).

Definition str_take (n : nat) (s : string) : string := of_chars (take n (to_chars s)).
(** [s.slice(-n)] *)
Definition str_last (n : nat) (s : string) : string := of_chars (drop (String.length s - n) (to_chars s)).

Definition truncate (text : string) (max : nat) : string :=
  if (String.length text <=? max)%nat then text else str_take (max - 1) text +:+ of_chars [ellipsis].

Definition bytesToHexPreview (hash : string) (length : nat) : cell :=
  if is_empty hash then Dash
  else if (String.length hash <=? length * 2)%nat then Txt hash
  else Txt (str_take length hash +:+ of_chars [ellipsis] +:+ str_last length hash).
End format.

(** ** Addresses *)

(** [/devices/${encodeURIComponent(id)}] *)
Definition device_href (id : string) : string := "/devices/" +:+ encodeURIComponent id.

(** [decodeURIComponent]: [None] where it throws *)
Fixpoint uri_bytes (s : chars) : option chars :=
  match s with
  | [] => Some []
  | c :: s1 =>
      if Ascii.eqb c "%" then
        match s1 with
        | a :: b :: s2 => match hex_val a, hex_val b with Some x, Some y => cons (chr (x * 16 + y)) <$> uri_bytes s2 | _, _ => None end
        | _ => None
        end
      else cons c <$> uri_bytes s1
  end.
Definition decodeURIComponent (s : string) : option string := of_chars <$> (uri_bytes (to_chars s) ≫= utf8_decode).

(** ** Columns *)

(** Of the rows, the fields the pages read *)

Record Device := mkDevice {
  dv_device_id : string;
  dv_hostname : string;
  dv_platform : string;
  dv_agent_version : string;
  dv_model : option string;
  dv_os_version : option string;
  dv_last_user : option string;
  dv_ip_address : option string;
  dv_status : string;
  dv_last_seen_ms : option Z;
  dv_event_count_24h : Z;
  dv_violation_count_24h : Z;
  dv_chain_status : string
}.

Record Violation := mkViolation {
  vi_event_id : string;
  vi_timestamp_ms : Z;
  vi_user_id : string;
  vi_device_id : string;
  vi_source : option string;
  vi_model : option string;
  vi_decision : string;
  vi_risk_level : string;
  vi_classification : string;
  vi_policy_version : Z;
  vi_category : option string;
  vi_reason : option string
}.

Record PolicyRow := mkPolicyRow {
  pw_policy_id : string;
  pw_version : Z;
  pw_name : string;
  pw_status : string;
  pw_default_action : string;
  pw_created_at : string;
  pw_published_at : option string;
  pw_rule_count : Z
}.

Record ExceptionRow := mkExceptionRow {
  xr_exception_id : string;
  xr_rule_id : string;
  xr_policy_version : Z;
  xr_reason : string;
  xr_requested_by : string;
  xr_status : string;
  xr_expires_at_ms : option Z
}.

Record AuditEventRow := mkAuditEventRow {
  ae_event_id : string;
  ae_timestamp_ms : Z;
  ae_type : string;
  ae_user_id : string;
  ae_device_id : string;
  ae_decision : string;
  ae_risk_level : string;
  ae_event_hash : string
}.

(** [hostname || device_id] *)
Definition device_name (d : Device) : string := if is_empty (dv_hostname d) then dv_device_id d else dv_hostname d.

Section columns.
Context (ellipsis : ascii) (now : Z).
(** [formatDate] of [new Date(s).getTime()], which is the locale's and throws for a date that is none *)
Context (date_text : string -> option string).
(** [useDeviceNames] *)
Context (deviceNames : list (string * string)).

Definition ago_cell (ms : option Z) : cell := match ms with Some t => Txt (formatRelativeTime t now) | None => Dash end.

(** [deviceNames[id] ?? id], with a link to the device *)
Definition device_cell (id : string) : cell := Anchor (device_href id) (Txt (default id (obj_get id deviceNames))).

Definition devices_columns (role : DashRole) : list (column Device) :=
  [mkCol "device" "Device" true (fun d => Some (Anchor (device_href (dv_device_id d)) (Several [Txt (device_name d); Txt (dv_device_id d)])));
   mkCol "user" "User" false (fun d => Some (or_dash (dv_last_user d)));
   mkCol "platform" "Platform" false (fun d => txt (dv_platform d));
   mkCol "hardware" "Hardware / OS" false (fun d =>
     if truthy (dv_model d) || truthy (dv_os_version d)
     then Some (Several [or_dash (dv_model d); Txt (default "" (dv_os_version d))]) else Some Dash);
   mkCol "ip" "IP" false (fun d => Some (or_dash (dv_ip_address d)));
   mkCol "agent" "Agent" false (fun d => txt ("v" +:+ dv_agent_version d));
   mkCol "status" "Status" false (fun d => Some (Badge (variant_of device_variant (dv_status d)) (Txt (dv_status d))));
   mkCol "chain" "Chain" false (fun d => Some (Badge (variant_of chain_variant (dv_chain_status d)) (Txt (dv_chain_status d))));
   mkCol "events" "Events 24h" false (fun d => txt (num_text (dv_event_count_24h d)));
   mkCol "violations" "Violations 24h" false (fun d => txt (num_text (dv_violation_count_24h d)));
   mkCol "last_seen" "Last Seen" true (fun d => Some (ago_cell (dv_last_seen_ms d)));
   mkCol "actions" "" false (fun d =>
     Some (Several (Anchor (device_href (dv_device_id d)) (Press "View") ::
       (if deactivate_shown role (dv_status d) then [Press "Deactivate"] else []))))].

Definition violations_columns : list (column Violation) :=
  [mkCol "event_id" "Event ID" false (fun v => txt (vi_event_id v));
   mkCol "classification" "Classification" true (fun v => txt (vi_classification v));
   mkCol "category" "Category" true (fun v =>
     if truthy (vi_category v) then Some (Badge "default" (categoryLabel (vi_category v))) else Some Dash);
   mkCol "reason" "Reason" false (fun v => Some (or_dash (vi_reason v)));
   mkCol "user" "User / Device" false (fun v => Some (Several [Txt (vi_user_id v); device_cell (vi_device_id v)]));
   mkCol "source" "Source" false (fun v => Some (or_dash (vi_source v)));
   mkCol "model" "Model" false (fun v => Some (or_dash (vi_model v)));
   mkCol "severity" "Severity" false (fun v => SeverityIndicator (vi_risk_level v));
   mkCol "decision" "Decision" false (fun v => DecisionIndicator (vi_decision v));
   mkCol "policy" "Policy" false (fun v => txt ("v" +:+ num_text (vi_policy_version v)));
   mkCol "when" "When" true (fun v => Some (ago_cell (Some (vi_timestamp_ms v))));
   mkCol "details" "" false (fun v => Some (Press "Details"))].

Definition policies_columns : list (column PolicyRow) :=
  [mkCol "name" "Policy" true (fun p => Some (Several [Txt (pw_name p); Txt ("v" +:+ num_text (pw_version p)); Txt (num_text (pw_rule_count p) +:+ " rules")]));
   mkCol "status" "Status" false (fun p => Some (Badge (variant_of policy_variant (pw_status p)) (Txt (pw_status p))));
   mkCol "default_action" "Default Action" false (fun p => DecisionIndicator (pw_default_action p));
   mkCol "created" "Created" false (fun p => Txt <$> date_text (pw_created_at p));
   mkCol "published" "Published" false (fun p =>
     match pw_published_at p with Some d => if is_empty d then Some Dash else Txt <$> date_text d | None => Some Dash end);
   mkCol "actions" "" false (fun p => Some (Press "View"))].

Definition exceptions_columns : list (column ExceptionRow) :=
  [mkCol "exception_id" "Exception" false (fun e => txt (xr_exception_id e));
   mkCol "policy" "Policy / Rule" false (fun e =>
     Some (Several [Txt ("v" +:+ num_text (xr_policy_version e)); Txt (truncate ellipsis (xr_rule_id e) 24); Txt (xr_reason e)]));
   mkCol "requested_by" "Requested By" false (fun e => txt (xr_requested_by e));
   mkCol "status" "Status" false (fun e => Some (Badge (variant_of exception_badge (xr_status e)) (Txt (xr_status e))));
   mkCol "expires" "Expires" false (fun e =>
     match xr_expires_at_ms e with Some ms => if ms =? 0 then Some Dash else Some (ago_cell (Some ms)) | None => Some Dash end);
   mkCol "actions" "" false (fun e => Some (Press "Review"))].

Definition audit_columns : list (column AuditEventRow) :=
  [mkCol "event_id" "Event" false (fun e => txt (ae_event_id e));
   mkCol "type" "Type" true (fun e => Some (Badge "default" (Txt (ae_type e))));
   mkCol "user" "Actor / Device" false (fun e => Some (Several [Txt (ae_user_id e); device_cell (ae_device_id e)]));
   mkCol "decision" "Decision" false (fun e => DecisionIndicator (ae_decision e));
   mkCol "risk" "Risk" false (fun e => txt (ae_risk_level e));
   mkCol "hash" "Hash" false (fun e => Some (bytesToHexPreview ellipsis (ae_event_hash e) 8));
   mkCol "when" "When" true (fun e => Some (ago_cell (Some (ae_timestamp_ms e))))].

Definition users_columns (currentUser : UserSession) : list (column UserSummary) :=
  [mkCol "email" "Email" true (fun u => txt (us_email u));
   mkCol "role" "Role" false (fun u => Some (Badge (role_variant (us_role u)) (Txt (role_label (us_role u)))));
   mkCol "status" "Status" false (fun u =>
     Some (Badge (if String.eqb (us_status u) "active" then "success" else if String.eqb (us_status u) "invited" then "warning" else "default")
             (Txt (us_status u))));
   mkCol "last_login" "Last login" false (fun u => Some (ago_cell (us_last_login_ms u)));
   mkCol "actions" "" false (fun u => Some (if disable_shown currentUser u then Press "Disable" else Several []))].
End columns.

(** ** [hooks/useDeviceNames.ts] *)

(** The request: one page of a hundred devices *)
Definition device_names_op : repo_op := DevicesList (mkQuery 1 100 None None None) [].

(** [map[d.device_id] = d.hostname], for devices with a name *)
Definition device_names (items : list Device) : list (string * string) :=
  foldl (fun m d => if is_empty (dv_hostname d) then m else obj_set (dv_device_id d) (dv_hostname d) m) [] items.

(** The names kept by the hook: those of the answer, if it arrives before the component is gone *)
Definition names_settled (cancelled : bool) (answer : option (list Device)) (names : list (string * string)) : list (string * string) :=
  match answer with Some items => if cancelled then names else device_names items | None => names end.

(** ** Lemmas *)

Lemma uri_char c rest :
  uri_bytes ((if uri_plain c then [c] else ["%"%char; hex_upper (code c / 16); hex_upper (code c mod 16)]) ++ rest) = cons c <$> uri_bytes rest.
Proof. destruct c as [[] [] [] [] [] [] [] []]; reflexivity. Qed.

Lemma uri_roundtrip id : decodeURIComponent (encodeURIComponent id) = Some id.
Proof.
  unfold decodeURIComponent, encodeURIComponent. rewrite to_of_chars.
  assert (forall b, uri_bytes (flat_map (fun c => if uri_plain c then [c] else ["%"%char; hex_upper (code c / 16); hex_upper (code c mod 16)]) b) = Some b) as ->.
  { induction b as [|c b IH]; [done|]. cbn [flat_map]. by rewrite uri_char, IH. }
  cbn [mbind option_bind]. rewrite utf8_roundtrip. cbn. by rewrite of_to_chars.
Qed.

(** The characters an encoded text is made of *)
Definition uri_out (c : ascii) : bool := uri_plain c || Ascii.eqb c "%".

Lemma uri_char_out c : Forall (fun a => uri_out a = true) (if uri_plain c then [c] else ["%"%char; hex_upper (code c / 16); hex_upper (code c mod 16)]).
Proof. destruct c as [[] [] [] [] [] [] [] []]; repeat constructor. Qed.

Lemma encoded_free sep id : uri_out sep = false -> free sep (to_chars (encodeURIComponent id)).
Proof.
  intros Hs. unfold encodeURIComponent. rewrite to_of_chars. induction (utf8_encode (to_chars id)) as [|c b IH]; [constructor|].
  cbn [flat_map]. apply Forall_app. split; [|done]. pose proof (uri_char_out c) as Hc. apply (Forall_impl _ _ _ Hc). intros a Ha ->. congruence.
Qed.

Lemma length_to_chars s : List.length (to_chars s) = String.length s.
Proof. by rewrite <- (of_to_chars s) at 2; rewrite length_of_chars. Qed.

Lemma length_append_str a b : String.length (a +:+ b) = (String.length a + String.length b)%nat.
Proof. rewrite <- !length_to_chars, to_chars_app. apply length_app. Qed.

(** A text is cut to its limit, the ellipsis included, and only when it is over it. *)
Lemma truncate_bound e text max : (1 <= max)%nat ->
  (String.length (truncate e text max) <= max)%nat /\ ((String.length text <= max)%nat -> truncate e text max = text).
Proof.
  intros Hm. unfold truncate. destruct (Nat.leb_spec (String.length text) max); [done|]. split; [|lia].
  rewrite length_append_str. unfold str_take. rewrite length_of_chars, length_take, length_to_chars. cbn. lia.
Qed.

Lemma device_names_step m d id :
  NoDup (obj_keys m) ->
  obj_get id (if is_empty (dv_hostname d) then m else obj_set (dv_device_id d) (dv_hostname d) m)
  = if String.eqb id (dv_device_id d) && negb (is_empty (dv_hostname d)) then Some (dv_hostname d) else obj_get id m.
Proof.
  intros Hm. destruct (is_empty (dv_hostname d)); [by rewrite andb_false_r|]. rewrite obj_get_set by done.
  by destruct (String.eqb id (dv_device_id d)).
Qed.

(** The device whose name a row shows: the last of the page with that identifier and a name *)
Definition named (id : string) (d : Device) : bool := String.eqb id (dv_device_id d) && negb (is_empty (dv_hostname d)).

Lemma device_names_get items id : obj_get id (device_names items) = dv_hostname <$> last (List.filter (named id) items).
Proof.
  unfold device_names. assert (forall m, NoDup (obj_keys m) ->
    NoDup (obj_keys (foldl (fun m d => if is_empty (dv_hostname d) then m else obj_set (dv_device_id d) (dv_hostname d) m) m items)) /\
    obj_get id (foldl (fun m d => if is_empty (dv_hostname d) then m else obj_set (dv_device_id d) (dv_hostname d) m) m items)
    = match last (List.filter (named id) items) with Some d => Some (dv_hostname d) | None => obj_get id m end) as H.
  { induction items as [|d items IH] using rev_ind; intros m Hm; [done|]. rewrite foldl_app. cbn [foldl].
    destruct (IH m Hm) as [Hnd Hget]. split.
    - destruct (is_empty _); [done|]. by apply obj_set_NoDup.
    - rewrite device_names_step by done. rewrite List.filter_app. cbn. unfold named at 2.
      destruct (String.eqb id (dv_device_id d) && negb (is_empty (dv_hostname d))); [by rewrite last_snoc|by rewrite app_nil_r]. }
  destruct (H [] (NoDup_nil_2)) as [_ ->]. by destruct (last _).
Qed.

(** ** Properties *)

(** A link to a device opens that device.  The address of the link, on every table, has the encoded identifier as its last segment, and the
    detail page, which decodes it, gets the very identifier back: for any identifier, with slashes, spaces or percent signs in it. *)
Theorem device_link_opens id :
  exists segment, segments (device_href id) = [""; "devices"; segment] /\ decodeURIComponent segment = Some id.
Proof.
  exists (encodeURIComponent id). split; [|apply uri_roundtrip].
  change (device_href id) with (js_join "/" [""; "devices"; encodeURIComponent id]). apply split_join; [done|].
  repeat match goal with |- Forall slash_free (_ :: _) => constructor | |- Forall slash_free [] => constructor end.
  - constructor.
  - apply (bool_decide_unpack _). vm_compute. exact I.
  - by apply encoded_free.
Qed.

(** A violation is shown exactly when its decision and its severity are ones the indicators know; any other makes the table throw. *)
Theorem violation_row_shown now names v :
  is_Some (row_cells (violations_columns now names) v) <->
  vi_decision v ∈ ["allow"; "warn"; "block"] /\ vi_risk_level v ∈ ["low"; "medium"; "high"; "critical"].
Proof.
  assert (forall s l, is_Some (obj_get s (A := string * string) l) <-> s ∈ obj_keys l) as Hget.
  { intros s l. induction l as [|[k x] l IH]; cbn; [split; [by intros [? [=]]|set_solver]|].
    destruct (String.eqb_spec s k) as [->|Hne]; [split; [left|by eexists]|]. rewrite IH. rewrite elem_of_cons. naive_solver. }
  specialize (Hget (vi_decision v) DECISION_TONE) as Hd. specialize (Hget (vi_risk_level v) SEVERITY_TONE) as Hr.
  change (obj_keys DECISION_TONE) with ["allow"; "warn"; "block"] in Hd. change (obj_keys SEVERITY_TONE) with ["low"; "medium"; "high"; "critical"] in Hr.
  rewrite <- Hd, <- Hr. unfold row_cells. rewrite mapM_is_Some. clear Hget Hd Hr. unfold violations_columns.
  repeat rewrite Forall_cons. unfold compose. cbn [co_cell]. unfold SeverityIndicator, DecisionIndicator. rewrite !fmap_is_Some.
  split; [tauto|]. intros [? ?]. repeat split; try done; try (by eexists). by case_match; eexists.
Qed.

(** ** Examples *)

Definition oddly_named : string := "lab/a b%c".
Example odd_href : device_href oddly_named = "/devices/lab%2Fa%20b%25c".
Proof. reflexivity. Qed.

Example audit_row_throws :
  row_cells (audit_columns "." 0 []) (mkAuditEventRow "e1" 0 "user.login" "u" "d" "" "low" "") = None.
Proof. reflexivity. Qed.
