(* ===== verification/DashDetail.v ===== *)
(** * The detail views and the overview of the dashboard

    [app/devices/[id]/page.tsx] (facts, processes, extensions and events of a device), the dialog of [app/violations/page.tsx], the panel of
    [app/policies/page.tsx] and the charts of [app/dashboard/page.tsx]. *)

From S2P Require Import Prelude Json JsonText Resilience CliFiles CliInput Dashboard DashFetch DashQuery DashRepo DashRoutes DashStats DashUi DashLists DashExceptions DashSettings DashPolicies DashRows.

(** ** Durations *)

(** [formatDuration]; [None] is a number that is not finite. *)
Definition formatDuration (ms : option Z) : cell :=
  match ms with
  | None => Dash
  | Some ms =>
      if ms <? 0 then Dash
      else
        let minutes := ms / 60000 in
        let days := minutes / 1440 in
        let hours := (minutes mod 1440) / 60 in
        let mins := minutes mod 60 in
        if 0 <? days then Txt (num_text days +:+ "d " +:+ num_text hours +:+ "h")
        else if 0 <? hours then Txt (num_text hours +:+ "h " +:+ num_text mins +:+ "m")
        else if 0 <? mins then Txt (num_text mins +:+ "m")
        else Txt "<1m"
  end.

(** ** The device *)

Record DeviceProcess := mkProcess {
  dp_pid : Z;
  dp_name : string;
  dp_user : option string;
  dp_started_at_ms : option Z;
  dp_is_app : bool;
  dp_command : option string;
  dp_ai_category : option string;
  dp_status : option string
}.

Record BrowserExtension := mkBrowserExtension { be_browser : string; be_extension_id : option string; be_name : string; be_version : option string }.

Record Inventory := mkInventory {
  di_device_id : string;
  di_collected_at_ms : Z;
  di_processes : list DeviceProcess;
  di_extensions : list BrowserExtension
}.

Record DeviceDetail := mkDeviceDetail {
  dd_device : Device;
  dd_hostname_full : option string;
  dd_enrolled_by : option string;
  dd_registered_at_ms : Z;
  dd_chain_status : option string;
  dd_violation_count_24h : option Z
}.

Record device_page := mkDevicePage {
  pd_deviceId : string;
  pd_device : option DeviceDetail;
  pd_deviceLoading : bool;
  pd_inventory : option Inventory
}.

(** The page is mounted at an address; the two requests of its effect *)
Definition open_device (deviceId : string) : device_page * list repo_op :=
  (mkDevicePage deviceId None true None, [DeviceGet deviceId; DeviceInventory deviceId]).

Definition got_device (r : option DeviceDetail) (p : device_page) : device_page :=
  match r with
  | Some d => mkDevicePage (pd_deviceId p) (Some d) false (pd_inventory p)
  | None => mkDevicePage (pd_deviceId p) (pd_device p) false (pd_inventory p)
  end.
(** A failure is shown as an empty inventory. *)
Definition got_inventory (r : option Inventory) (p : device_page) : device_page :=
  mkDevicePage (pd_deviceId p) (pd_device p) (pd_deviceLoading p) (Some (default (mkInventory (pd_deviceId p) 0 [] []) r)).

(** What the card above the tabs shows *)
Inductive device_card := CardLoading | CardFacts (d : DeviceDetail) | CardNotFound.
Definition device_card_of (p : device_page) : device_card :=
  if pd_deviceLoading p then CardLoading else match pd_device p with Some d => CardFacts d | None => CardNotFound end.

(** [device?.hostname || deviceId] *)
Definition page_title (p : device_page) : string :=
  match pd_device p with Some d => if is_empty (dv_hostname (dd_device d)) then pd_deviceId p else dv_hostname (dd_device d) | None => pd_deviceId p end.

Definition has_category (p : DeviceProcess) : bool := truthy (dp_ai_category p).
Definition zlen {A} (l : list A) : Z := Z.of_nat (List.length l).

(** The labels of the tabs *)
Definition tab_labels (p : device_page) : list string :=
  match pd_inventory p with
  | Some inv =>
      ["Processes (" +:+ num_text (zlen (List.filter has_category (di_processes inv))) +:+ " AI / " +:+ num_text (zlen (di_processes inv)) +:+ ")";
       "Extensions (" +:+ num_text (zlen (di_extensions inv)) +:+ ")"; "Events"]
  | None => ["Processes"; "Extensions"; "Events"]
  end.

Section facts.
Context (formatDateTime : Z -> string) (now : Z).

Definition time_or_dash (f : Z -> string) (ms : option Z) : cell :=
  match ms with Some t => if t =? 0 then Dash else Txt (f t) | None => Dash end.

Definition device_facts (d : DeviceDetail) : list (string * cell) :=
  let b := dd_device d in
  [("Hostname", Txt (if truthy (dd_hostname_full d) then default "" (dd_hostname_full d) else dv_hostname b));
   ("User", or_dash_truthy (dv_last_user b)); ("Platform", Txt (dv_platform b)); ("Model", or_dash_truthy (dv_model b));
   ("OS", or_dash_truthy (dv_os_version b)); ("IP address", or_dash_truthy (dv_ip_address b)); ("Agent", Txt ("v" +:+ dv_agent_version b));
   ("Enrolled by", or_dash_truthy (dd_enrolled_by d)); ("Registered", time_or_dash formatDateTime (Some (dd_registered_at_ms d)));
   ("Last seen", time_or_dash (fun t => formatRelativeTime t now) (dv_last_seen_ms b));
   ("Chain", Badge "default" (Txt (default "unknown" (dd_chain_status d))));
   ("Violations 24h", Txt (num_text (default 0 (dd_violation_count_24h d))))].

(** ** Processes *)

(** [p.status ?? "running"] *)
Definition process_status (p : DeviceProcess) : string := default "running" (dp_status p).

Definition process_columns : list (column DeviceProcess) :=
  [mkCol "name" "Name" false (fun p => Some (Several (Txt (dp_name p) :: if dp_is_app p then [Badge "info" (Txt "App")] else [])));
   mkCol "status" "Status" false (fun p =>
     Some (if String.eqb (process_status p) "running" then Badge "success" (Txt "running") else Badge "default" (Txt "installed")));
   mkCol "pid" "PID" false (fun p => Some (if 0 <? dp_pid p then Txt (num_text (dp_pid p)) else Dash));
   mkCol "user" "User" false (fun p => Some (or_dash (dp_user p)));
   mkCol "started" "Started" false (fun p => Some (time_or_dash formatDateTime (dp_started_at_ms p)));
   mkCol "active" "Active for" false (fun p =>
     Some (match dp_started_at_ms p with Some t => if t =? 0 then Dash else formatDuration (Some (now - t)) | None => Dash end));
   mkCol "command" "Command" false (fun p => Some (or_dash_truthy (dp_command p)))].
End facts.

Definition AI_GROUPS : list (string * string) :=
  [("ai_ide", "AI IDEs"); ("ai_cli", "AI CLIs"); ("ai_desktop", "Desktop AI apps"); ("browser", "Browsers (AI web access)")].

Definition process_key (p : DeviceProcess) : string := num_text (dp_pid p) +:+ "-" +:+ dp_name p +:+ "-" +:+ process_status p.
Definition extension_key (e : BrowserExtension) : string := be_browser e +:+ "-" +:+ default (be_name e) (be_extension_id e).

(** The processes of a group *)
Definition in_group (key : string) (p : DeviceProcess) : bool := bool_decide (dp_ai_category p = Some key).

Inductive processes_view :=
| PvLoading
| PvEmpty
| PvAi (button : string) (groups : list (string * list DeviceProcess))
| PvAll (button : option string) (items : list DeviceProcess).

Definition processes_tab (showAll : bool) (inventory : option Inventory) : processes_view :=
  match inventory with
  | None => PvLoading
  | Some inv =>
      let ps := di_processes inv in
      match ps with
      | [] => PvEmpty
      | _ =>
          let aiItems := List.filter has_category ps in
          if negb showAll && (0 <? zlen aiItems) then
            PvAi ("Show all processes (" +:+ num_text (zlen ps) +:+ ")")
              (omap (fun g => let items := List.filter (in_group g.1) aiItems in
                              match items with [] => None | _ => Some (g.2 +:+ " (" +:+ num_text (zlen items) +:+ ")", items) end) AI_GROUPS)
          else PvAll (if 0 <? zlen aiItems then Some ("Show AI only (" +:+ num_text (zlen aiItems) +:+ ")") else None) ps
      end
  end.

(** The rows of a view *)
Definition view_items (v : processes_view) : list DeviceProcess :=
  match v with PvAi _ groups => flat_map snd groups | PvAll _ items => items | _ => [] end.

(** ** Extensions and events *)

Definition extension_columns : list (column BrowserExtension) :=
  [mkCol "browser" "Browser" false (fun e => txt (be_browser e)); mkCol "name" "Extension" false (fun e => txt (be_name e));
   mkCol "version" "Version" false (fun e => Some (or_dash (be_version e))); mkCol "id" "ID" false (fun e => Some (or_dash (be_extension_id e)))].

(** [ExtensionsTab]: the table has a row for each extension, keyed by [extension_key]. *)
Inductive extensions_view := ExtensionsLoading | NoExtensions | ExtensionRows (rows : list (string * list cell)).
Definition extensions_tab (inventory : option Inventory) : option extensions_view :=
  match inventory with
  | None => Some ExtensionsLoading
  | Some inv =>
      match di_extensions inv with
      | [] => Some NoExtensions
      | es => ExtensionRows <$> mapM (fun e => (fun cs => (extension_key e, cs)) <$> row_cells extension_columns e) es
      end
  end.

(** [InventoryFreshness] *)
Definition InventoryFreshness (formatDateTime : Z -> string) (now : Z) (inv : Inventory) : option string :=
  if di_collected_at_ms inv =? 0 then None
  else Some ("Snapshot collected " +:+ formatRelativeTime (di_collected_at_ms inv) now +:+ " (" +:+ formatDateTime (di_collected_at_ms inv) +:+ ")").

Record DeviceEvent := mkDeviceEvent {
  de_event_id : string; de_timestamp_ms : Z; de_decision : string; de_event_type : string; de_category : option string; de_reason : option string }.

Definition decision_badge : list (string * string) := [("allow", "success"); ("warn", "warning"); ("block", "error")].

Definition event_columns (now : Z) : list (column DeviceEvent) :=
  [mkCol "time" "Time" false (fun e => txt (formatRelativeTime (de_timestamp_ms e) now));
   mkCol "type" "Type" false (fun e => txt (de_event_type e));
   mkCol "decision" "Decision" false (fun e => Some (Badge (variant_of decision_badge (de_decision e)) (Txt (de_decision e))));
   mkCol "category" "Category" false (fun e => Some (categoryLabel (de_category e)));
   mkCol "reason" "Reason" false (fun e => Some (or_dash (de_reason e)))].

(** ** The dialog of a violation: [app/violations/page.tsx] *)

(** The row is kept when its button is pressed; its detail is loaded by an effect that is cancelled with it.  Requests are numbered. *)
Record violation_dialog := mkDialog {
  vd_selected : option Violation;
  vd_detail : option (list string);               (* the findings of the detail, by their detectors *)
  vd_request : option nat;                         (* the request that is not cancelled *)
  vd_next : nat
}.
Definition dialog_mount : violation_dialog := mkDialog None None None 0.

Definition open_violation (v : Violation) (d : violation_dialog) : violation_dialog := mkDialog (Some v) (vd_detail d) (Some (vd_next d)) (S (vd_next d)).
Definition close_violation (d : violation_dialog) : violation_dialog := mkDialog None None None (vd_next d).
(** The answer of request [n]; [None]: it failed, or there is no such violation *)
Definition got_violation (n : nat) (r : option (list string)) (d : violation_dialog) : violation_dialog :=
  if decide (vd_request d = Some n) then mkDialog (vd_selected d) r None (vd_next d) else d.

Inductive findings_view := FindingsLoading | NoFindings | Findings (l : list string).
Definition findings_shown (d : violation_dialog) : findings_view :=
  match vd_detail d with None => FindingsLoading | Some [] => NoFindings | Some l => Findings l end.

(** What the dialog says above the findings; [None]: an indicator throws. *)
Definition violation_facts (formatDateTime : Z -> string) (deviceNames : list (string * string)) (v : Violation) : option (list (string * cell)) :=
  decision ← DecisionIndicator (vi_decision v);
  severity ← SeverityIndicator (vi_risk_level v);
  Some ([("", decision); ("", severity)]
        ++ (if truthy (vi_category v) then [("", Badge "default" (categoryLabel (vi_category v)))] else [])
        ++ [("Reason", Txt (default "No reason recorded for this event." (vi_reason v))); ("User", Txt (vi_user_id v));
            ("Device", Several [device_cell deviceNames (vi_device_id v); Txt ("(" +:+ vi_device_id v +:+ ")")]);
            ("Classification", Txt (vi_classification v)); ("When", Txt (formatDateTime (vi_timestamp_ms v)))]).

(** A detail that cannot be had is shown as one that is still loading. *)
Example failed_detail_loads_forever v :
  findings_shown (got_violation 0 None (open_violation v dialog_mount)) = FindingsLoading /\
  vd_request (got_violation 0 None (open_violation v dialog_mount)) = None.
Proof. done. Qed.

(** The findings shown are never those of a violation looked at before: closing drops them, and cancels their request. *)
Lemma dialog_reopened v n r d : (n < vd_next d)%nat ->
  got_violation n r (open_violation v (close_violation d)) = open_violation v (close_violation d).
Proof. intros Hn. unfold got_violation. rewrite decide_False; [done|]. cbn. intros [= E]. lia. Qed.

(** ** The panel of a policy: [app/policies/page.tsx] *)

(** The buttons, all disabled: authoring is not in the dashboard. *)
Definition policy_actions (role : DashRole) (status : string) : list string :=
  (if canPerformAction role "update:policy" then ["Edit"] else [])
  ++ (if canPerformAction role "publish:policy" && String.eqb status "draft" then ["Publish"] else []).
Definition page_actions (role : DashRole) : list string := if canPerformAction role "update:policy" then ["New Policy"] else [].

(** [PolicyRulesTab]: what is shown of a rule; an action that is no decision throws. *)
Definition rule_line (r : PolicyRule) : option (list cell) :=
  (fun decision => [Txt (pr_description r); decision; Indicator (if pr_enabled r then "success" else "neutral") (if pr_enabled r then "Enabled" else "Disabled") false;
                    Txt (pr_conditions r)]) <$> DecisionIndicator (pr_action r).
Definition rules_tab (rules : list PolicyRule) : option (list (list cell)) := mapM rule_line rules.

(** [PolicyHistoryTab]: versions that are [null] are left out; [date_text] formats a date, which throws when it is none. *)
Definition history_tab (date_text : string -> option string) (p : PolicyRow) (supersedes superseded_by : option Z) : option (list (string * string)) :=
  created ← date_text (pw_created_at p);
  published ← match pw_published_at p with
              | Some d => if is_empty d then Some [] else (fun t => [("Published", t)]) <$> date_text d
              | None => Some []
              end;
  Some ([("Current version", "v" +:+ num_text (pw_version p))]
        ++ match supersedes with Some v => [("Supersedes", "v" +:+ num_text v)] | None => [] end
        ++ match superseded_by with Some v => [("Superseded by", "v" +:+ num_text v)] | None => [] end
        ++ [("Created", created)] ++ published).

(** [PolicyDetailsTab] *)
Definition details_tab (ellipsis : ascii) (p : PolicyRow) (created_by : string) (notes : option string) : option (list (string * cell)) :=
  action ← DecisionIndicator (pw_default_action p);
  Some [("Policy ID", Txt (truncate ellipsis (pw_policy_id p) 32)); ("Default action", action); ("Created by", Txt created_by);
        ("Notes", or_dash_truthy notes)].

(** The panel beside the list: the policy in it and the requests on their way, oldest last; nothing cancels them. *)
Record policy_panel := mkPanel { pp_selected : option string; pp_detailLoading : bool; pp_pending : list string }.
Definition panel_mount : policy_panel := mkPanel None false [].
(** [View] *)
Definition view_policy (policy_id : string) (p : policy_panel) : policy_panel := mkPanel (pp_selected p) true (policy_id :: pp_pending p).
(** The [n]th request is answered with the policy, with [null] ([Some None]), or fails. *)
Definition got_policy (n : nat) (r : option (option string)) (p : policy_panel) : policy_panel :=
  mkPanel (match r with Some d => d | None => pp_selected p end) false (delete n (pp_pending p)).

Inductive panel_view := PanelLoading | PanelPolicy (policy_id : string) | PanelNone.
Definition panel_shown (p : policy_panel) : panel_view :=
  if pp_detailLoading p then PanelLoading else match pp_selected p with Some d => PanelPolicy d | None => PanelNone end.

(** The policy in the panel is that of the answer that came last, not of the button that was pressed last. *)
Example other_policy_shown :
  panel_shown (got_policy 0 (Some (Some "old")) (got_policy 0 (Some (Some "new")) (view_policy "new" (view_policy "old" panel_mount)))) = PanelPolicy "old".
Proof. reflexivity. Qed.

(** With one request at a time it is the policy asked for; a failure leaves the one before. *)
Lemma one_view r id p : pp_pending p = [] ->
  let p' := got_policy 0 r (view_policy id p) in
  pp_pending p' = [] /\ panel_shown p' = match r with
                                       | Some (Some d) => PanelPolicy d
                                       | Some None => PanelNone
                                       | None => match pp_selected p with Some d => PanelPolicy d | None => PanelNone end
                                       end.
Proof. intros Hp. cbn. rewrite Hp. by destruct r as [[]|]. Qed.

(** ** The overview: [app/dashboard/page.tsx] *)

Definition TOP_CATEGORY_LIMIT : nat := 5.

Record CategoryRow := mkCategoryRow { cr_label : cell; cr_warn : Z; cr_block : Z }.

Definition volume (c : CategoryCount) : Z := cc_warn c + cc_block c.
Definition sum_of {A} (f : A -> Z) (l : list A) : Z := foldl (fun sum c => sum + f c) 0 l.

(** Top categories by warn+block volume, with the tail folded into Other. *)
Definition topCategoryRows (items : list CategoryCount) : list CategoryRow :=
  let sorted := sort_desc volume (List.filter (fun c => 0 <? volume c) items) in
  let rows := map (fun c => mkCategoryRow (categoryLabel (Some (cc_category c))) (cc_warn c) (cc_block c)) (take TOP_CATEGORY_LIMIT sorted) in
  let rest := drop TOP_CATEGORY_LIMIT sorted in
  if 0 <? zlen rest then rows ++ [mkCategoryRow (Txt "Other") (sum_of cc_warn rest) (sum_of cc_block rest)] else rows.

Definition row_volume (r : CategoryRow) : Z := cr_warn r + cr_block r.
Definition maxCategoryTotal (rows : list CategoryRow) : Z := foldl (fun max row => Z.max max (row_volume row)) 0 rows.

(** The widths of the two bars of a row are these shares of the row's width: numerator and denominator. *)
Definition bar_shares (rows : list CategoryRow) (row : CategoryRow) : (Z * Z) * (Z * Z) :=
  let m := maxCategoryTotal rows in
  if 0 <? m then ((cr_warn row, m), (cr_block row, m)) else ((0, 1), (0, 1)).

(** [Object.entries(counts)] with labels; a key without one has the label [undefined]. *)
Definition SEVERITY_LABELS : list (string * string) := [("low", "Low"); ("medium", "Medium"); ("high", "High"); ("critical", "Critical")].
Definition DECISION_LABELS : list (string * string) := [("allow", "Allowed"); ("warn", "Warned"); ("block", "Blocked")].
Definition chart_points (labels : list (string * string)) (counts : list (string * Z)) : list (option string * Z) :=
  map (fun kv => (obj_get kv.1 labels, kv.2)) counts.

(** The seven values of the weekly trend: [Math.max(2, Math.round((seed * 3.2) % 25))], with [seed * 3.2] taken exactly *)
Definition weekly_value (totalViolations24h : Z) (i : Z) : Z :=
  let seed := totalViolations24h + i * 7 + 1 in
  Z.max 2 (round_div ((seed * 16) mod 125) 5).
Definition weeklyTrend (totalViolations24h : Z) : list Z := map (weekly_value totalViolations24h) (range 0 6).

(** ** Lemmas *)

Lemma sum_acc {A} (f : A -> Z) l a : foldl (fun sum c => sum + f c) a l = a + sum_of f l.
Proof. revert a. unfold sum_of. induction l as [|x l IH]; intros a; cbn; [lia|]. rewrite IH, (IH (0 + f x)). lia. Qed.
Lemma sum_cons {A} (f : A -> Z) x l : sum_of f (x :: l) = f x + sum_of f l.
Proof. unfold sum_of at 1. cbn. rewrite sum_acc. lia. Qed.
Lemma sum_app {A} (f : A -> Z) l k : sum_of f (l ++ k) = sum_of f l + sum_of f k.
Proof. induction l as [|x l IH]; [done|]. cbn [Datatypes.app]. rewrite !sum_cons, IH. lia. Qed.
Lemma sum_map {A B} (g : A -> B) (f : B -> Z) l : sum_of f (map g l) = sum_of (fun x => f (g x)) l.
Proof. induction l as [|x l IH]; [done|]. cbn [map]. by rewrite !sum_cons, IH. Qed.
Lemma sum_perm {A} (f : A -> Z) l k : l ≡ₚ k -> sum_of f l = sum_of f k.
Proof. induction 1; rewrite ?sum_cons; lia. Qed.
Lemma sum_filter {A} (f : A -> Z) (p : A -> bool) l : (forall x, x ∈ l -> p x = false -> f x = 0) -> sum_of f (List.filter p l) = sum_of f l.
Proof.
  induction l as [|x l IH]; [done|]. intros H. cbn [List.filter]. rewrite (sum_cons f x l). rewrite <- IH by (intros y Hy; apply H; by right).
  destruct (p x) eqn:E; [by rewrite sum_cons|]. rewrite (H x) by (done || left). lia.
Qed.
Lemma sum_nonneg {A} (f : A -> Z) l : Forall (fun x => 0 <= f x) l -> 0 <= sum_of f l.
Proof. induction 1; rewrite ?sum_cons; [done|lia]. Qed.
Lemma sum_positive {A} (f : A -> Z) l : l <> [] -> Forall (fun x => 0 < f x) l -> 0 < sum_of f l.
Proof.
  intros Hne Hf. destruct Hf as [|x l Hx Hl]; [done|]. rewrite sum_cons. assert (0 <= sum_of f l); [|lia].
  apply sum_nonneg. apply (Forall_impl _ _ _ Hl). intros; lia.
Qed.

Lemma max_bound rows r : r ∈ rows -> row_volume r <= maxCategoryTotal rows.
Proof.
  unfold maxCategoryTotal. assert (forall a, a <= foldl (fun m row => Z.max m (row_volume row)) a rows) as Ha.
  { induction rows as [|x l IH]; intros a; cbn; [lia|]. specialize (IH (Z.max a (row_volume x))). lia. }
  intros Hr. revert Ha. generalize 0 as a0. induction rows as [|x l IH]; [set_solver|]. intros a0 Ha. cbn.
  assert (forall a, a <= foldl (fun m row => Z.max m (row_volume row)) a l) as Hl.
  { clear. induction l as [|x l IH]; intros a; cbn; [lia|]. specialize (IH (Z.max a (row_volume x))). lia. }
  apply elem_of_cons in Hr as [->|Hr]; [specialize (Hl (Z.max a0 (row_volume x))); lia|]. by apply IH.
Qed.

Lemma filter_elem {A} (p : A -> bool) l x : x ∈ List.filter p l <-> x ∈ l /\ p x = true.
Proof. rewrite !list_elem_of_In. apply List.filter_In. Qed.

(** *** Categories *)

Definition sorted_categories (items : list CategoryCount) : list CategoryCount := sort_desc volume (List.filter (fun c => 0 <? volume c) items).

Lemma sorted_positive items c : c ∈ sorted_categories items -> 0 < volume c.
Proof. unfold sorted_categories. rewrite sort_desc_perm, filter_elem. lia. Qed.

Lemma sorted_sum (f : CategoryCount -> Z) items :
  (forall c, c ∈ items -> volume c <= 0 -> f c = 0) -> sum_of f (sorted_categories items) = sum_of f items.
Proof.
  intros Hf. unfold sorted_categories. rewrite (sum_perm f _ _ (sort_desc_perm volume _)). apply sum_filter.
  intros x Hx Hv. apply Hf; [done|lia].
Qed.

(** *** Processes *)

(** The categories the groups show *)
Definition grouped (p : DeviceProcess) : bool := existsb (fun g => in_group g.1 p) AI_GROUPS.

Lemma filter_or {A} (f g : A -> bool) l :
  (forall x, f x = true -> g x = false) -> List.filter (fun x => f x || g x) l ≡ₚ List.filter f l ++ List.filter g l.
Proof.
  intros H. induction l as [|x l IH]; [done|]. cbn. destruct (f x) eqn:Ef; cbn.
  - rewrite (H x Ef). by rewrite IH.
  - destruct (g x); [|done]. by rewrite IH, Permutation_middle.
Qed.

Lemma filter_groups (keys : list string) ps :
  NoDup keys -> flat_map (fun k => List.filter (in_group k) ps) keys ≡ₚ List.filter (fun p => existsb (fun k => in_group k p) keys) ps.
Proof.
  induction keys as [|k keys IH]; [by induction ps|]. intros [Hk Hnd]%NoDup_cons. cbn [flat_map existsb]. rewrite filter_or; [by rewrite IH|].
  intros p Hp. apply not_true_is_false. intros (k' & Hk' & Hp')%existsb_exists. unfold in_group in *. bool_simpl.
  assert (k' = k) as -> by congruence. apply Hk. by apply list_elem_of_In.
Qed.

Lemma filter_known k ps : k <> "" -> List.filter (in_group k) (List.filter has_category ps) = List.filter (in_group k) ps.
Proof.
  intros Hk. rewrite filter_filter_drop. apply List.filter_ext. intros p. unfold in_group. case_bool_decide as E; [|by rewrite andb_false_r].
  unfold has_category. rewrite E. by destruct k.
Qed.

Lemma view_groups button ps :
  view_items (PvAi button (omap (fun g => let items := List.filter (in_group g.1) (List.filter has_category ps) in
     match items with [] => None | _ => Some (g.2 +:+ " (" +:+ num_text (zlen items) +:+ ")", items) end) AI_GROUPS))
  = flat_map (fun k => List.filter (in_group k) ps) (map fst AI_GROUPS).
Proof.
  cbn [view_items]. assert (Forall (fun g => g.1 <> "") AI_GROUPS) as Hne by (by repeat constructor).
  induction Hne as [|g gs Hg _ IH]; [done|]. cbn [omap list_omap map flat_map]. cbn zeta. rewrite filter_known by done.
  destruct (List.filter (in_group g.1) ps) as [|x l]; cbn [flat_map snd]; by rewrite IH.
Qed.

Lemma grouped_keys p : existsb (fun k => in_group k p) (map fst AI_GROUPS) = grouped p.
Proof. reflexivity. Qed.

(** ** Properties *)

(** The overview of categories loses nothing.  For counts that are not negative, the rows shown (at most five categories and Other) add up to
    the warned and the blocked of all categories; no row is empty; no category folded into Other has more events than one that is
    listed; and the two bars of a row fit in it. *)
Theorem top_categories items :
  Forall (fun c => 0 <= cc_warn c /\ 0 <= cc_block c) items ->
  let rows := topCategoryRows items in
  sum_of cr_warn rows = sum_of cc_warn items /\ sum_of cr_block rows = sum_of cc_block items /\
  (List.length rows <= S TOP_CATEGORY_LIMIT)%nat /\
  Forall (fun r => 0 < row_volume r <= maxCategoryTotal rows) rows /\
  (forall c c', c ∈ take TOP_CATEGORY_LIMIT (sorted_categories items) -> c' ∈ drop TOP_CATEGORY_LIMIT (sorted_categories items) -> volume c' <= volume c).
Proof.
  intros Hnn rows.
  assert (forall c, c ∈ items -> volume c <= 0 -> cc_warn c = 0 /\ cc_block c = 0) as Hz.
  { intros c Hc. rewrite Forall_forall in Hnn. specialize (Hnn c Hc). unfold volume. lia. }
  set (cs := sorted_categories items) in *. set (top := take TOP_CATEGORY_LIMIT cs). set (rest := drop TOP_CATEGORY_LIMIT cs).
  assert (cs = top ++ rest) as HS by (symmetry; apply take_drop).
  assert (Forall (fun c => 0 < volume c) cs) as Hpos by (apply Forall_forall; apply sorted_positive).
  assert (rows = map (fun c => mkCategoryRow (categoryLabel (Some (cc_category c))) (cc_warn c) (cc_block c)) top ++
    (if 0 <? zlen rest then [mkCategoryRow (Txt "Other") (sum_of cc_warn rest) (sum_of cc_block rest)] else [])) as Hrows.
  { unfold rows, topCategoryRows. fold (sorted_categories items). fold cs top rest. destruct (0 <? zlen rest); [done|by rewrite app_nil_r]. }
  assert (sum_of cc_warn cs = sum_of cc_warn items /\ sum_of cc_block cs = sum_of cc_block items) as [Hw Hb]
    by (split; apply sorted_sum; intros c Hc Hv; by apply Hz).
  assert (0 <? zlen rest = false -> rest = []) as Hrest by (unfold zlen; clearbody rest; by destruct rest).
  split_and!.
  - rewrite Hrows, <- Hw, HS, !sum_app, sum_map. f_equal. destruct (0 <? zlen rest) eqn:E; [by rewrite sum_cons, Z.add_0_r|by rewrite Hrest].
  - rewrite Hrows, <- Hb, HS, !sum_app, sum_map. f_equal. destruct (0 <? zlen rest) eqn:E; [by rewrite sum_cons, Z.add_0_r|by rewrite Hrest].
  - rewrite Hrows, length_app, length_map. assert (List.length top <= TOP_CATEGORY_LIMIT)%nat by (unfold top; rewrite length_take; lia).
    unfold TOP_CATEGORY_LIMIT in *. destruct (0 <? zlen rest); cbn; lia.
  - rewrite Forall_forall. intros r Hr. split; [|by apply max_bound]. rewrite Hrows in Hr. rewrite HS, Forall_app in Hpos. destruct Hpos as [Ht Hre].
    apply elem_of_app in Hr as [(c & -> & Hc)%list_elem_of_fmap|Hr].
    + rewrite Forall_forall in Ht. by apply (Ht c).
    + destruct (0 <? zlen rest) eqn:E; [|by apply not_elem_of_nil in Hr]. apply list_elem_of_singleton in Hr as ->. unfold row_volume. cbn [cr_warn cr_block].
      assert (sum_of volume rest = sum_of cc_warn rest + sum_of cc_block rest) as <-
        by (clear; induction rest as [|x l IH]; [done|]; rewrite !sum_cons, IH; unfold volume; lia).
      apply sum_positive; [|done]. intros ->. done.
  - intros c c' Hc Hc'. pose proof (sort_desc_sorted volume (List.filter (fun c => 0 <? volume c) items)) as Hs.
    change (StronglySorted (desc volume) cs) in Hs. rewrite HS in Hs. apply sorted_app in Hs as [_ Hs]. rewrite Forall_forall in Hs. specialize (Hs c Hc). rewrite Forall_forall in Hs. by apply Hs.
Qed.

(** The tab of processes.  Showing all, or when nothing is tagged, it shows every process of the snapshot in its order; showing AI, every process
    with the category of a group, once.  A process is missing only when its category is none of the four. *)
Theorem processes_shown showAll inv :
  let ps := di_processes inv in
  let shown := view_items (processes_tab showAll (Some inv)) in
  (showAll = true \/ List.filter has_category ps = [] -> shown = ps) /\
  (showAll = false -> List.filter has_category ps <> [] -> shown ≡ₚ List.filter grouped ps).
Proof.
  intros ps shown. unfold shown, processes_tab. fold ps. clear shown. destruct ps as [|p l] eqn:Eps; [by split|]. rewrite <- Eps in *. clear Eps.
  split.
  - intros H. assert (negb showAll && (0 <? zlen (List.filter has_category ps)) = false) as -> by (destruct H as [->| ->]; [done|by rewrite andb_false_r]). done.
  - intros -> Hne. assert (0 <? zlen (List.filter has_category ps) = true) as -> by (unfold zlen; destruct (List.filter has_category ps); [done|reflexivity]).
    cbn [negb andb]. rewrite view_groups. apply filter_groups. apply (bool_decide_unpack _). vm_compute. exact I.
Qed.

(** The parts of a duration are its parts: hours are fewer than a day's, minutes fewer than an hour's, and together they are the whole minutes. *)
Lemma duration_parts ms :
  0 <= ms -> let minutes := ms / 60000 in
  minutes = minutes / 1440 * 1440 + (minutes mod 1440) / 60 * 60 + minutes mod 60 /\
  0 <= (minutes mod 1440) / 60 < 24 /\ 0 <= minutes mod 60 < 60 /\ 0 <= minutes / 1440.
Proof.
  intros Hms minutes. assert (0 <= minutes) as Hm by (apply Z.div_pos; lia). clearbody minutes.
  pose proof (Z.div_mod minutes 1440) as H1. pose proof (Z.mod_pos_bound minutes 1440) as H2.
  assert (minutes mod 60 = (minutes mod 1440) mod 60) as -> by (rewrite <- (Znumtheory.Zmod_div_mod 60 1440) by (lia || exists 24; lia); done).
  set (r := minutes mod 1440) in *. clearbody r. pose proof (Z.div_mod r 60) as H3. pose proof (Z.mod_pos_bound r 60) as H4.
  assert (0 <= minutes / 1440) by (apply Z.div_pos; lia).
  assert (0 <= r / 60 < 24) by (split; [apply Z.div_pos; lia|apply Z.div_lt_upper_bound; lia]). split_and!; lia.
Qed.

(** The weekly trend is made up of one number: its values are between 2 and 25 whatever happened in the week. *)
Lemma weekly_bounds total : Forall (fun v => 2 <= v <= 25) (weeklyTrend total).
Proof.
  unfold weeklyTrend. apply Forall_map, Forall_forall. intros i _. unfold weekly_value, round_div.
  pose proof (Z.mod_pos_bound ((total + i * 7 + 1) * 16) 125) as Hm. set (r := ((total + i * 7 + 1) * 16) mod 125) in *. clearbody r.
  assert (0 <= (2 * r + 5) / (2 * 5) < 26) by (split; [apply Z.div_pos; lia|apply Z.div_lt_upper_bound; lia]).
  assert ((2 * r + 5) / (2 * 5) <= 25) by lia. lia.
Qed.

(** The rules the policies client reads of a bundle can all be shown. *)
Theorem bundle_rules_shown bundle rules : rulesFromBundle bundle = Ok rules -> is_Some (rules_tab rules).
Proof.
  intros Hr%rulesFromBundle_wf. unfold rules_tab. apply mapM_is_Some. apply (Forall_impl _ _ _ Hr). intros r (_ & _ & Ha).
  unfold compose, rule_line, DecisionIndicator. rewrite !fmap_is_Some. unfold DECISIONS in Ha. rewrite !elem_of_cons, elem_of_nil in Ha.
  destruct Ha as [->|[->|[->|[]]]]; by eexists.
Qed.

(** ** Examples *)

(** A process with another category is counted in the label and in no table. *)
Definition tagged (name category : string) : DeviceProcess := mkProcess 1 name None None false None (Some category) None.
Definition odd_inventory : Inventory := mkInventory "d1" 1 [tagged "cursor" "ai_ide"; tagged "agentd" "ai_agent"] [].
Example category_not_shown :
  tab_labels (mkDevicePage "d1" None false (Some odd_inventory)) !! 0%nat = Some "Processes (2 AI / 2)" /\
  view_items (processes_tab false (Some odd_inventory)) = [tagged "cursor" "ai_ide"].
Proof. by vm_compute. Qed.

(** Two installed applications of one name have one key. *)
Example process_keys_collide :
  process_key (mkProcess 0 "Code" None None true (Some "/a") None (Some "installed")) =
  process_key (mkProcess 0 "Code" None None true (Some "/b") None (Some "installed")).
Proof. reflexivity. Qed.

(** The trend falls and rises by itself, with one violation in all. *)
Example synthetic_trend : weeklyTrend 1 = [6; 4; 2; 24; 21; 18; 16].
Proof. reflexivity. Qed.

Example durations :
  map (fun ms => formatDuration (Some ms)) [59999; 60000; 8040000; 90000000] = [Txt "<1m"; Txt "1m"; Txt "2h 14m"; Txt "1d 1h"].
Proof. reflexivity. Qed.

Definition six_categories : list CategoryCount :=
  [mkCategory "secret" 1 2; mkCategory "pii" 4 0; mkCategory "hr" 0 0; mkCategory "legal" 1 0; mkCategory "medical" 0 1; mkCategory "financial" 0 5; mkCategory "keyword" 1 1].

Example other_row : map (fun r => (cr_label r, row_volume r)) (topCategoryRows six_categories) =
  [(Txt "Financial", 5); (Txt "PII", 4); (Txt "Secret", 3); (Txt "Keyword", 2); (Txt "Legal", 1); (Txt "Other", 1)].
Proof. reflexivity. Qed.

Lemma top_categories_witness : sum_of cr_block (topCategoryRows six_categories) = 9 /\ sum_of cc_block six_categories = 9.
Proof.
  destruct (top_categories six_categories) as (_ & Hb & _); [repeat (constructor; [cbn; lia|]); constructor|].
  split; [rewrite Hb|]; reflexivity.
Defined.
