(* ===== verification/DashWidgets.v ===== *)
(** * The dashboard's widgets

    [components/ui/Dropdown.tsx], [Tabs.tsx], [Toast.tsx], [Modal.tsx], [Table.tsx], [SearchInput.tsx], [Avatar.tsx], [ThemeToggle.tsx] and the frame of
    every page, [components/layout/*.tsx]: what they keep, and what a press, a key, a timer or an answer does to it. *)

From S2P Require Import Prelude Json JsonText Resilience CliFiles CliInput Dashboard DashFetch DashQuery DashRepo DashRoutes DashStats DashUi DashLists DashExceptions DashSettings DashRows DashAsync.

(** ** [Dropdown] *)

(** The place of the menu: edges in pixels, [bottom] and [right] of the trigger included *)
Record rect := mkRect { rc_left : Z; rc_top : Z; rc_width : Z; rc_height : Z }.
Definition rc_right (r : rect) : Z := rc_left r + rc_width r.
Definition rc_bottom (r : rect) : Z := rc_top r + rc_height r.

Inductive align := AlignLeft | AlignRight.

Definition menu_position (a : align) (offset viewportWidth viewportHeight : Z) (reference : rect) (width height : Z) : Z * Z :=
  let left := match a with AlignLeft => rc_left reference | AlignRight => rc_right reference - width end in
  let top := rc_bottom reference + offset in
  let left := if left <? 8 then 8 else left in
  let left := if viewportWidth - 8 <? left + width then viewportWidth - width - 8 else left in
  let top := if viewportHeight - 8 <? top + height then rc_top reference - height - offset else top in
  (left, top).

Record dropdown := mkDropdown { dw_isOpen : bool; dw_rect : option rect }.
Definition dropdown_mount : dropdown := mkDropdown false None.
Definition dropdown_open (trigger : option rect) (d : dropdown) : dropdown :=
  mkDropdown true (match trigger with Some r => Some r | None => dw_rect d end).
Definition dropdown_close (d : dropdown) : dropdown := mkDropdown false None.
Definition dropdown_toggle (trigger : option rect) (d : dropdown) : dropdown :=
  if dw_isOpen d then dropdown_close d else dropdown_open trigger d.

(** The keys of the trigger *)
Definition trigger_key (trigger : option rect) (key : string) (d : dropdown) : dropdown :=
  if bool_decide (key ∈ ["Enter"; " "; "ArrowDown"]) then dropdown_open trigger d
  else if String.eqb key "Escape" then dropdown_close d else d.

Record DropdownItem := mkItem { it_label : string; it_goes : string; it_disabled : bool; it_divider : bool }.

(** Pressing an item: where it leads, and the menu after it *)
Definition press_item (closeOnClick : bool) (i : DropdownItem) (d : dropdown) : option string * dropdown :=
  if it_divider i || it_disabled i then (None, d) else (Some (it_goes i), if closeOnClick then dropdown_close d else d).

(** A press of the mouse is a [mousedown], heard by the open menu when it is outside it, and then a [click]. *)
Definition mousedown_outside (d : dropdown) : dropdown := if dw_isOpen d then dropdown_close d else d.
Definition press_trigger (trigger : option rect) (d : dropdown) : dropdown := dropdown_toggle trigger (mousedown_outside d).

(** The items the keys move between *)
Definition focusable_items (items : list DropdownItem) : list DropdownItem := List.filter (fun i => negb (it_divider i || it_disabled i)) items.

(** ** [Tabs] *)

Record TabItem := mkTab { tb_id : string; tb_disabled : bool }.

Definition first_enabled (items : list TabItem) : string := from_option tb_id "" (find (fun i => negb (tb_disabled i)) items).

Record tabs := mkTabs { ts_items : list TabItem; ts_controlled : option string; ts_internal : string; ts_calls : list string }.
Definition tabs_mount (items : list TabItem) (defaultActiveId activeId : option string) : tabs :=
  mkTabs items activeId (default (first_enabled items) defaultActiveId) [].
Definition tabs_active (t : tabs) : string := default (ts_internal t) (ts_controlled t).
(** [setActiveId] *)
Definition tabs_set (id : string) (t : tabs) : tabs :=
  mkTabs (ts_items t) (ts_controlled t) (match ts_controlled t with Some _ => ts_internal t | None => id end) (id :: ts_calls t).
Definition press_tab (i : TabItem) (t : tabs) : tabs := if tb_disabled i then t else tabs_set (tb_id i) t.
(** The panel shown, and the triggers the keyboard comes to *)
Definition tabs_panel (t : tabs) : option TabItem := find (fun i => String.eqb (tb_id i) (tabs_active t)) (ts_items t).
Definition tabs_tabbable (t : tabs) : list string :=
  map tb_id (List.filter (fun i => String.eqb (tb_id i) (tabs_active t) && negb (tb_disabled i)) (ts_items t)).

(** ** [Toast] *)

Inductive toast_type := TSuccess | TError | TWarning | TInfo.
(** [None] of a duration is the default; [dismissible] is absent or not [false]. *)
Record Toast := mkToast { to_id : string; to_type : toast_type; to_title : string; to_message : option string; to_duration : option Z; to_dismissible : bool }.

Definition addToast (t : Toast) (toasts : list Toast) : list Toast := toasts ++ [t].
Definition dismissToast (id : string) (toasts : list Toast) : list Toast := List.filter (fun t => negb (String.eqb (to_id t) id)) toasts.
Definition dismissAll (toasts : list Toast) : list Toast := [].

(** When a toast that appears at [now] is taken away: its time and the 200 ms it takes to leave; [None]: it stays. *)
Definition toast_end (now : Z) (infinite : bool) (t : Toast) : option Z :=
  if infinite || bool_decide (to_duration t = Some 0) then None else Some (now + default 5000 (to_duration t) + 200).

(** [handleDismiss]: pressed at [now], the toast leaves as one whose time is over. *)
Definition handleDismiss (now : Z) : Z := now + 200.
(** [useToastHelpers]: a toast of a type with the options of the caller, which come last; [None] of a field is left out. *)
Record toast_options := mkOptions { op_type : option toast_type; op_title : option string; op_message : option string; op_duration : option Z; op_dismissible : option bool }.
Definition toast_helper (type : toast_type) (id title : string) (message : option string) (o : toast_options) : Toast :=
  mkToast id (default type (op_type o)) (default title (op_title o)) (match op_message o with Some m => Some m | None => message end)
    (op_duration o) (default true (op_dismissible o)).

(** The provider with its clock: toasts and when each was added *)
Record toaster := mkToaster { tr_now : Z; tr_toasts : list (Toast * Z) }.
Definition toaster_tick (ms : Z) (s : toaster) : toaster :=
  let now := tr_now s + ms in
  mkToaster now (List.filter (fun t => match toast_end t.2 false t.1 with Some e => now <? e | None => true end) (tr_toasts s)).
Definition toaster_add (t : Toast) (s : toaster) : toaster := mkToaster (tr_now s) (tr_toasts s ++ [(t, tr_now s)]).

(** ** [Modal] *)

Record modal_props := mkModal { mo_isOpen : bool; mo_closeOnOverlayClick : bool; mo_closeOnEscape : bool; mo_showCloseButton : bool }.

Inductive modal_event := MEscape | MOverlay | MContent | MCloseButton.
(** Whether [onClose] is called *)
Definition modal_closes (m : modal_props) (e : modal_event) : bool :=
  mo_isOpen m && match e with
                 | MEscape => mo_closeOnEscape m
                 | MOverlay => mo_closeOnOverlayClick m
                 | MContent => false
                 | MCloseButton => mo_showCloseButton m
                 end.

(** [handleTabKey]: the index focus is moved to, of [n] focusable elements; [None] is left to the browser. *)
Definition modal_tab (n : Z) (active : option Z) (shift : bool) : option Z :=
  if n =? 0 then None
  else if shift && bool_decide (active = Some 0) then Some (n - 1)
  else if negb shift && bool_decide (active = Some (n - 1)) then Some 0
  else None.
(** Where the browser moves it otherwise, among the elements of the dialog *)
Definition tab_moves (n : Z) (active : Z) (shift : bool) : Z := default (if shift then active - 1 else active + 1) (modal_tab n (Some active) shift).

(** [ConfirmModal]: its dialog while the action is on its way *)
Definition confirm_props (isOpen loading : bool) : modal_props := mkModal isOpen (negb loading) (negb loading) false.
(** The calls of its two buttons *)
Inductive confirm_call := OnConfirm | OnClose.
Definition confirm_press (loading confirm : bool) : list confirm_call := if loading then [] else if confirm then [OnConfirm; OnClose] else [OnClose].

(** ** [Table] *)

(** [aria-sort] of a header, and what pressing it calls *)
Definition aria_sort {A} (sortColumn : option string) (sortDirection : option string) (c : column A) : string :=
  if co_sortable c && bool_decide (sortColumn = Some (co_key c)) then (if bool_decide (sortDirection = Some "asc") then "ascending" else "descending") else "none".
Definition press_header {A} (onSort : bool) (c : column A) : option string := if co_sortable c && onSort then Some (co_key c) else None.

Inductive table_body := TableLoading | TableEmpty (messages : list string) | TableRows (rows : list (string * list cell)).
(** [None]: a cell throws. *)
Definition table {A} (columns : list (column A)) (keyExtractor : A -> string) (emptyMessage : string) (loading : bool) (data : list A) : option table_body :=
  if loading then Some TableLoading
  else match data with
       | [] => Some (TableEmpty ["No data available"; emptyMessage])
       | _ => TableRows <$> mapM (fun row => (fun cs => (keyExtractor row, cs)) <$> row_cells columns row) data
       end.

(** ** [Avatar] and [ThemeToggle] *)

(** [getInitials]: the first characters of the words; an empty word has none. *)
Definition getInitials (name : string) : string :=
  str_take 2 (to_upper (of_chars (flat_map (fun part => take 1 (to_chars part)) (js_split " "%char name)))).

Record avatar_view := mkAvatarView { av_image : option string; av_initials : string }.
Definition avatar (src alt fallback : option string) (imageError : bool) : avatar_view :=
  mkAvatarView (if truthy src && negb imageError then src else None)
    (getInitials (match fallback with Some f => f | None => default "?" alt end)).

(** [AvatarGroup]: those shown, and the number on the last one *)
Definition avatar_group {A} (avatars : list A) (max : nat) : list A * option Z :=
  let remaining := Z.of_nat (List.length avatars) - Z.of_nat max in
  (take max avatars, if 0 <? remaining then Some remaining else None).

Inductive ThemeMode := Light | Dark | System.
Definition NEXT_MODE (m : ThemeMode) : ThemeMode := match m with Light => Dark | Dark => System | System => Light end.
Definition theme_mode (theme : option string) : ThemeMode :=
  match theme with Some "light" => Light | Some "dark" => Dark | _ => System end.

(** ** The frame of a page *)

(** [Sidebar]: the entries, with whether each is the page's *)
Definition sidebar_active (pathname href : string) : bool :=
  String.eqb pathname href || negb (String.eqb href "/dashboard") && starts_with href pathname.
Definition sidebar (role : option DashRole) (pathname : string) : list (string * bool) :=
  map (fun item => (item.1, sidebar_active pathname item.2)) (getSidebarItems (default Viewer role)).

(** [Topbar] *)
Definition user_menu : list DropdownItem :=
  [mkItem "Settings" "/settings" false false; mkItem "Help & Support" "/help" false false; mkItem "" "" false true;
   mkItem "Sign Out" "/api/auth/logout" false false].
(** [email?.charAt(0).toUpperCase() ?? "U"] *)
Definition user_initial (email : option string) : string := match email with Some e => to_upper (str_take 1 e) | None => "U" end.

(** [useSession] of [hooks/useSession.ts]: a session that is still loading is a viewer without a name. *)
Definition LOADING_PLACEHOLDER : UserSession := mkSession "" "" Viewer "" "" [].
Definition useSession (data : option UserSession) : UserSession := default LOADING_PLACEHOLDER data.

(** [NotificationsBell] *)
Definition MAX_ITEMS : nat := 5.
Definition POLL_INTERVAL_MS : Z := 60000.
Record StatsSlice := mkSlice { sl_total_snake : option Z; sl_total : option Z; sl_recent_snake : option (list Violation); sl_recent : option (list Violation) }.
Record bell := mkBell { bl_count : Z; bl_recent : list Violation; bl_cancelled : bool }.
Definition bell_mount : bell := mkBell 0 [] false.
(** An answer; [None]: it failed, or was not ok *)
Definition bell_answer (r : option StatsSlice) (b : bell) : bell :=
  match r with
  | Some s =>
      if bl_cancelled b then b
      else mkBell (default (default 0 (sl_total s)) (sl_total_snake s)) (default (default [] (sl_recent s)) (sl_recent_snake s)) false
  | None => b
  end.
Definition bell_unmount (b : bell) : bell := mkBell (bl_count b) (bl_recent b) true.
Definition bell_badge (b : bell) : option string :=
  if 0 <? bl_count b then Some (if 9 <? bl_count b then "9+" else num_text (bl_count b)) else None.
(** An entry of the menu: decision, category and device of a violation *)
Inductive bell_item := BellNone | BellViolation (decision : string) (category : cell) (device : string) | BellDivider | BellAll.
Definition bell_items (deviceNames : list (string * string)) (b : bell) : list bell_item :=
  match bl_recent b with
  | [] => [BellNone]
  | recent =>
      map (fun v => BellViolation (to_upper (vi_decision v)) (categoryLabel (vi_category v)) (default (vi_device_id v) (obj_get (vi_device_id v) deviceNames)))
        (take MAX_ITEMS recent) ++ [BellDivider; BellAll]
  end.

(** ** The search box: what [DashAsync] leaves out *)

(** [fetchGroup]: the items of an answer; [None]: the request threw *)
Definition group_items (answer : option (bool * json)) : option json :=
  match answer with
  | Some (true, JObj o) => Some (nullish (obj_get "items" o) (JArr []))
  | _ => Some (JArr [])
  end.

Definition focus_box (s : search) : search :=
  if 2 <=? strlen (js_trim (sr_query s)) then mkSearch (sr_query s) true (sr_loading s) (sr_results s) (sr_timer s) (sr_inflight s) else s.
Definition outside_box (s : search) : search := mkSearch (sr_query s) false (sr_loading s) (sr_results s) (sr_timer s) (sr_inflight s).
(** The keys: where Enter leads to, and the box after it *)
Definition box_key (key : string) (s : search) : option string * search :=
  if String.eqb key "Escape" then (None, outside_box s)
  else if String.eqb key "Enter" && negb (is_empty (js_trim (sr_query s)))
  then (Some ("/violations?search=" +:+ encodeURIComponent (js_trim (sr_query s))), navigate s)
  else (None, s).

Inductive box_view := BoxHidden | BoxSearching | BoxNothing (query : string) | BoxResults.
Definition box_shown (total : Z) (s : search) : box_view :=
  if sr_open s && (2 <=? strlen (js_trim (sr_query s))) then
    if sr_loading s then BoxSearching else if total =? 0 then BoxNothing (js_trim (sr_query s)) else BoxResults
  else BoxHidden.

(** Where the rows lead to *)
Definition policy_href (name : string) : string := "/policies?search=" +:+ encodeURIComponent name.
Definition violation_href (event_id : string) : string := "/violations?search=" +:+ encodeURIComponent event_id.

(** The search a page starts with: [new URLSearchParams(window.location.search).get("search") ?? ""], once, when it is mounted *)
Definition seeded (address : string) : string := default "" (param "search" (form_parse (default [] (cut "?"%char (to_chars address)).2))).

(** [SearchInput]: the button that clears it is there when there is something to clear. *)
Definition clear_shown (value : string) (disabled : bool) : bool := negb (is_empty value) && negb disabled.


(** ** Lemmas *)

(** *** The address of a search *)

Lemma percent_uri_char c rest :
  percent_decode ((if uri_plain c then [c] else ["%"%char; hex_upper (code c / 16); hex_upper (code c mod 16)]) ++ rest) = c :: percent_decode rest.
Proof. destruct c as [[] [] [] [] [] [] [] []]; reflexivity. Qed.

(** What [encodeURIComponent] writes, [URLSearchParams] reads back. *)
Lemma form_decode_uri s : form_decode (to_chars (encodeURIComponent s)) = s.
Proof.
  unfold form_decode, encodeURIComponent, buffer_text. rewrite to_of_chars.
  enough (forall b, percent_decode (flat_map (fun c => if uri_plain c then [c] else ["%"%char; hex_upper (code c / 16); hex_upper (code c mod 16)]) b) = b) as ->
    by by rewrite utf8_text_encode, of_to_chars.
  induction b as [|c b IH]; [done|]. cbn [flat_map]. by rewrite percent_uri_char, IH.
Qed.

(** A list opened at [?search=...] starts with that search, whatever the text. *)
Lemma seeded_search page s : free "?" (to_chars page) -> seeded (page +:+ "?search=" +:+ encodeURIComponent s) = s.
Proof.
  intros Hp. unfold seeded. rewrite !to_chars_app.
  change (to_chars "?search=" ++ ?l) with ("?"%char :: (to_chars "search=" ++ l)). rewrite cut_free by done. cbn [snd default].
  assert (free "&" (to_chars "search=" ++ to_chars (encodeURIComponent s))) as Hamp.
  { apply Forall_app. split; [apply (bool_decide_unpack _); vm_compute; exact I|by apply encoded_free]. }
  unfold form_parse. rewrite split_on_end by done. cbn [rev app].
  set (l := to_chars "search=" ++ to_chars (encodeURIComponent s)). assert (is_empty (of_chars l) = false) as El by done.
  rewrite filter_cons_True by done. rewrite filter_nil. cbn [map]. rewrite to_of_chars. unfold form_pair. change (id l) with l.
  assert (cut "=" l = (to_chars "search", Some (to_chars (encodeURIComponent s)))) as -> by (apply (cut_free "=" (to_chars "search") (to_chars (encodeURIComponent s))); apply (bool_decide_unpack _); vm_compute; exact I).
  cbn [default from_option id]. unfold param. rewrite form_decode_uri. reflexivity.
Qed.

(** *** Menus and dialogs *)

(** A menu that fits between the margins is between them; one that is not taller than the room above its trigger, too. *)
Lemma menu_in_view a offset vw vh r width height :
  0 <= width <= vw - 16 ->
  let at_ := menu_position a offset vw vh r width height in
  8 <= at_.1 /\ at_.1 + width <= vw - 8 /\ (at_.2 + height <= vh - 8 \/ at_.2 = rc_top r - height - offset).
Proof.
  intros Hw. unfold menu_position. cbn [fst snd].
  set (l := match a with AlignLeft => _ | AlignRight => _ end). clearbody l. split_and!.
  - destruct (Z.ltb_spec l 8); [destruct (Z.ltb_spec (vw - 8) (8 + width))|destruct (Z.ltb_spec (vw - 8) (l + width))]; lia.
  - destruct (Z.ltb_spec l 8); [destruct (Z.ltb_spec (vw - 8) (8 + width))|destruct (Z.ltb_spec (vw - 8) (l + width))]; lia.
  - destruct (Z.ltb_spec (vh - 8) (rc_bottom r + offset + height)); lia.
Qed.

(** Tab and Shift+Tab go round the elements of a dialog and never leave it. *)
Lemma focus_trapped n active shift :
  0 <= active < n -> 0 <= tab_moves n active shift < n /\ tab_moves n (tab_moves n active shift) (negb shift) = active.
Proof.
  intros Ha. assert (forall k b, 0 <= k < n -> tab_moves n k b = if b then (k - 1) mod n else (k + 1) mod n) as H.
  { intros k b Hk. unfold tab_moves, modal_tab. destruct (Z.eqb_spec n 0); [lia|].
    destruct b; cbn [andb negb]; case_bool_decide as E; cbn [default from_option id].
    - injection E as ->. replace (0 - 1) with (n - 1 + (-1) * n) by lia. rewrite Z.mod_add by lia. by rewrite Z.mod_small by lia.
    - rewrite Z.mod_small; [done|]. assert (k <> 0) by congruence. lia.
    - injection E as ->. replace (n - 1 + 1) with (0 + 1 * n) by lia. by rewrite Z.mod_add by lia.
    - rewrite Z.mod_small; [done|]. assert (k <> n - 1) by congruence. lia. }
  assert (0 <= tab_moves n active shift < n) as Hin by (rewrite H by done; destruct shift; apply Z.mod_pos_bound; lia).
  split; [done|]. rewrite H by done. rewrite (H active) by done.
  destruct shift; cbn [negb]; rewrite ?Zplus_mod_idemp_l, ?Zminus_mod_idemp_l; rewrite Z.mod_small; lia.
Qed.

(** While its action is on its way a confirmation cannot be left and cannot be confirmed again. *)
Lemma confirm_held e confirm : modal_closes (confirm_props true true) e = false /\ confirm_press true confirm = [].
Proof. by destruct e. Qed.

(** *** Toasts *)

Lemma toaster_monotone ms ms' s : 0 <= ms -> 0 <= ms' -> toaster_tick ms' (toaster_tick ms s) = toaster_tick (ms + ms') s.
Proof.
  intros H H'. unfold toaster_tick. cbn [tr_now tr_toasts]. rewrite Z.add_assoc. f_equal.
  induction (tr_toasts s) as [|t l IH]; [done|]. cbn [List.filter].
  destruct (toast_end t.2 false t.1) as [e|] eqn:E; cbn [List.filter]; [|by rewrite E, IH].
  destruct (Z.ltb_spec (tr_now s + ms) e); cbn [List.filter]; rewrite ?E, IH; [done|].
  destruct (Z.ltb_spec (tr_now s + ms + ms') e); [lia|done].
Qed.

(** A toast is gone when its time and its leaving are over, and not before; one of duration 0 stays. *)
Lemma toast_life t s ms :
  0 <= ms -> (t, tr_now s) ∉ tr_toasts s ->
  (t, tr_now s) ∈ tr_toasts (toaster_tick ms (toaster_add t s)) <-> to_duration t = Some 0 \/ ms < default 5000 (to_duration t) + 200.
Proof.
  intros Hms Hn. cbn [toaster_tick toaster_add tr_now tr_toasts]. rewrite list_elem_of_In, List.filter_In, <- list_elem_of_In. cbn [fst snd].
  rewrite elem_of_app, list_elem_of_singleton. unfold toast_end. cbn [orb].
  case_bool_decide as E; [rewrite E; naive_solver|]. rewrite Z.ltb_lt. split; [intros [_ ?]; right; lia|]. intros [?|?]; [done|]. split; [by right|lia].
Qed.

(** *** The frame *)

Lemma filter_at_most_one {A B} (f : A -> B) (p : A -> bool) k l :
  NoDup (map f l) -> (forall x, x ∈ l -> p x = true -> f x = k) -> (List.length (List.filter p l) <= 1)%nat.
Proof.
  induction l as [|x l IH]; cbn; [lia|]. intros [Hx Hnd]%NoDup_cons Hk.
  destruct (p x) eqn:E; [|apply IH; [done|intros y Hy; apply Hk; by right]]. destruct (List.filter p l) as [|y r] eqn:Ef; [cbn; lia|].
  assert (y ∈ l /\ p y = true) as [Hy Hp] by (rewrite list_elem_of_In, <- List.filter_In, Ef; by left).
  destruct Hx. rewrite (Hk x), <- (Hk y) by (done || left || by right). by apply list_elem_of_fmap_2.
Qed.

(** At most one entry of the sidebar is marked as the page's. *)
Lemma sidebar_one role pathname : (List.length (List.filter snd (sidebar role pathname)) <= 1)%nat.
Proof.
  set (items := getSidebarItems (default Viewer role)).
  replace (List.length (List.filter snd (sidebar role pathname))) with (List.length (List.filter (fun i => sidebar_active pathname i.2) items))
    by (unfold sidebar; fold items; induction items as [|i l IH]; [done|]; cbn; destruct (sidebar_active pathname i.2); cbn; by rewrite IH).
  apply (filter_at_most_one (fun i => take 3 (to_chars i.2)) _ (take 3 (to_chars pathname))).
  - destruct role as [[]|]; apply (bool_decide_unpack _); vm_compute; exact I.
  - assert (Forall (fun i => (3 <= List.length (to_chars i.2))%nat) items) as Hlen by (destruct role as [[]|]; repeat constructor; cbn; lia).
    intros i Hi. rewrite Forall_forall in Hlen. specialize (Hlen i Hi). unfold sidebar_active. intros [H|[_ H]%andb_true_iff]%orb_true_iff.
    + by apply String.eqb_eq in H as ->.
    + apply prefix_split in H as (b & ->). by rewrite to_chars_app, take_app_le.
Qed.

(** The bell lists at most five violations, and says so above nine. *)
Lemma bell_bounded names b : (List.length (bell_items names b) <= MAX_ITEMS + 2)%nat.
Proof.
  unfold bell_items. destruct (bl_recent b) as [|v l]; [cbn; lia|]. rewrite length_app, length_map, length_take. cbn [List.length]. unfold MAX_ITEMS. lia.
Qed.

(** ** Properties *)

(** Enter in the search box finds what was typed.  After a user types a query with something in it and presses Enter, the page that opens
    is the list of violations, its search box holds the query without the blanks around it, whatever characters it has, and the request of
    that page makes the server look up the violations of that search, first page, for the range the page starts with.  The query is at most the
    200 characters the server keeps. *)
Theorem search_box_finds date ctx from to typed s :
  js_trim typed <> "" -> strlen (js_trim typed) <= 200 ->
  exists rest after, box_key "Enter" (type_query typed s) = (Some ("/violations" +:+ rest), after) /\ sr_query after = "" /\
    let p := violations_page (seeded ("/violations" +:+ rest)) from to in
    lq_search (lp_start p) = js_trim typed /\
    performs (ask_server date ctx (lp_op p (lp_start p)))
      (ViolationsList (mkQuery 1 15 (Some (js_trim typed)) None None) (sent_filters [("from", JStr from); ("to", JStr to)])).
Proof.
  intros Hne Hlen. exists ("?search=" +:+ encodeURIComponent (js_trim typed)), (navigate (type_query typed s)).
  assert (sr_query (type_query typed s) = typed) as Hq by (unfold type_query; by destruct (_ <? _)).
  rewrite seeded_search by (apply (bool_decide_unpack _); vm_compute; exact I). split; [|split; [done|cbv zeta; split; [done|]]].
  - unfold box_key. cbn [String.eqb Ascii.eqb]. rewrite Hq. by destruct (js_trim typed).
  - set (p := violations_page (js_trim typed) from to).
    destruct (page_start p (js_trim typed) from to "") as [Hw _]; [unfold all_pages; apply list_elem_of_In; cbn; tauto|].
    pose proof (violations_served date ctx (js_trim typed) from to (lp_start p) Hw) as H.
    assert (askable (lp_start p)) as Ha by (split_and!; [cbn; lia|apply js_trim_idem|done]).
    specialize (H Ha). subst p. cbn in H. by destruct (js_trim typed).
Qed.

(** ** Examples *)

Lemma search_box_finds_witness :
  js_trim " secret & key=1? " = "secret & key=1?" /\
  exists rest after, box_key "Enter" (type_query " secret & key=1? " (mkSearch "" false false None None [])) = (Some ("/violations" +:+ rest), after) /\
    performs (ask_server (fun _ => None) (context_of MOCK_SESSION)
                (lp_op (violations_page (seeded ("/violations" +:+ rest)) "2026-01-01" "2026-01-31") (lp_start (violations_page (seeded ("/violations" +:+ rest)) "2026-01-01" "2026-01-31"))))
      (ViolationsList (mkQuery 1 15 (Some "secret & key=1?") None None) [("from", JStr "2026-01-01"); ("to", JStr "2026-01-31")]).
Proof.
  split; [reflexivity|].
  destruct (search_box_finds (fun _ => None) (context_of MOCK_SESSION) "2026-01-01" "2026-01-31" " secret & key=1? " (mkSearch "" false false None None []))
    as (rest & after & Hk & _ & _ & Hp); [vm_compute; congruence|vm_compute; congruence|].
  exists rest, after. split; [exact Hk|exact Hp].
Defined.

(** A press on the trigger of an open menu leaves it open: the mouse button going down closes it, and the click opens it again. *)
Example trigger_reopens r d : dw_isOpen (press_trigger r d) = true.
Proof. by destruct d as [[]]. Qed.

(** The keyboard comes to the selected tab only, and no key selects another. *)
Example one_tab_reached : tabs_tabbable (tabs_mount [mkTab "org" false; mkTab "users" false; mkTab "rbac" false] None None) = ["org"].
Proof. reflexivity. Qed.

(** A menu near the top of a low window is put above its edge. *)
Example menu_above_the_window : menu_position AlignLeft 4 800 300 (mkRect 100 10 50 40) 200 280 = (100, -274).
Proof. reflexivity. Qed.

Example initials : (getInitials "Ada Lovelace", getInitials "root", getInitials "a  b c") = ("AL", "R", "AB").
Proof. reflexivity. Qed.
