(* ===== verification/DashOverview.v ===== *)
(** * The overview of the dashboard

    [app/dashboard/page.tsx] with [components/shared/KpiCard.tsx], [ChartPlaceholder.tsx] and [formatNumber] of [lib/utils/format.ts]:
    the cards and charts it makes of the statistics of [DashStats]. *)

From S2P Require Import Prelude Json JsonText Resilience CliFiles CliInput Dashboard DashFetch DashQuery DashRepo DashRoutes DashStats DashUi DashLists DashExceptions DashSettings DashRows DashDetail.

(** ** [formatNumber]: [Intl.NumberFormat("en-US")] of a whole number *)

(** Commas between groups of three digits; the digits are given and returned last first. *)
Fixpoint group_digits (n : nat) (digits : chars) : chars :=
  match digits with
  | [] => []
  | d :: rest => match n with O => ","%char :: d :: group_digits 2 rest | S m => d :: group_digits m rest end
  end.
Definition formatNumber (value : Z) : string :=
  (if value <? 0 then "-" else "") +:+ of_chars (rev (group_digits 3 (rev (to_chars (num_text (Z.abs value)))))).

(** ** The page *)

Record overview := mkOverview { ov_stats : option DashboardStats; ov_loading : bool }.
Definition overview_mount : overview := mkOverview None true.
(** The answer of [getStats], while the page is there; [None]: it failed *)
Definition got_stats (r : option DashboardStats) (o : overview) : overview :=
  mkOverview (match r with Some s => Some s | None => ov_stats o end) false.

Record KpiCard := mkKpi { kp_label : string; kp_value : string; kp_helper : string; kp_tone : string }.

(** [${n}] of a field that may be missing *)
Definition field_text (n : option Z) : string := from_option num_text "undefined" n.
(** [formatNumber(a + b)] of two fields *)
Definition sum_text (a b : option Z) : string := match a, b with Some x, Some y => formatNumber (x + y) | _, _ => "NaN" end.

(** [middot] is the sign between the parts of a line. *)
Definition kpi_cards (middot : ascii) (s : DashboardStats) : list KpiCard :=
  [mkKpi "Total Devices" (formatNumber (st_totalDevices s)) (formatNumber (st_activeDevices s) +:+ " active") "info";
   mkKpi "Violations (24h)" (formatNumber (st_totalViolations24h s))
     (sum_text (obj_get "critical" (st_violationsBySeverity s)) (obj_get "high" (st_violationsBySeverity s)) +:+ " high/critical") "error";
   mkKpi "Events (24h)" (formatNumber (st_events24h s))
     (js_join (of_chars [" "%char; middot; " "%char]) [field_text (obj_get "allow" (st_eventsByDecision s)) +:+ " allowed"; field_text (obj_get "warn" (st_eventsByDecision s)) +:+ " warned";
                     field_text (obj_get "block" (st_eventsByDecision s)) +:+ " blocked"]) "default";
   mkKpi "Pending Exceptions" (formatNumber (st_pendingExceptions s)) (num_text (st_policiesActive s) +:+ " active policies") "warning"].

(** [ChartPlaceholder]: what is drawn of the points *)
Inductive chart_view := ChartLoading | ChartEmpty | ChartOf (points : list (option string * Z)).
Definition chart_shown (loading : bool) (points : list (option string * Z)) : chart_view :=
  if loading then ChartLoading else match points with [] => ChartEmpty | _ => ChartOf points end.

(** [violationTrend] and [decisionDistribution] *)
Definition violationTrend (stats : option DashboardStats) : list (option string * Z) :=
  match stats with Some s => chart_points SEVERITY_LABELS (st_violationsBySeverity s) | None => [] end.
Definition decisionDistribution (stats : option DashboardStats) : list (option string * Z) :=
  match stats with Some s => chart_points DECISION_LABELS (st_eventsByDecision s) | None => [] end.

(** A line of the recent violations, and the card of a recent device *)
Definition recent_line (now : Z) (v : Violation) : option (list cell) :=
  severity ← SeverityIndicator (vi_risk_level v);
  decision ← DecisionIndicator (vi_decision v);
  Some [Txt (vi_classification v); Several [Txt (vi_user_id v); Txt (vi_device_id v); ago_cell now (Some (vi_timestamp_ms v))]; severity; decision].
Definition recent_card (now : Z) (d : Device) : list cell :=
  [Txt (device_name d);
   Badge (if String.eqb (dv_status d) "active" then "success" else if String.eqb (dv_status d) "inactive" then "default" else "error") (Txt (dv_status d));
   Several [Txt (dv_platform d); Txt ("v" +:+ dv_agent_version d)]; ago_cell now (dv_last_seen_ms d)].

Inductive overview_view := OverviewLoading | OverviewShown (cards : list KpiCard) (severities : chart_view) (weekly : list Z) (decisions : chart_view) (categories : list CategoryRow).
Definition overview_shown (middot : ascii) (o : overview) : overview_view :=
  match ov_loading o, ov_stats o with
  | false, Some s =>
      OverviewShown (kpi_cards middot s) (chart_shown false (violationTrend (Some s))) (weeklyTrend (st_totalViolations24h s))
        (chart_shown false (decisionDistribution (Some s))) (topCategoryRows (st_violationsByCategory s))
  | _, _ => OverviewLoading
  end.

(** ** Lemmas *)

(** Taking the commas out of a formatted number gives its digits back. *)
Lemma group_digits_plain n l : free "," l -> List.filter (fun c => negb (Ascii.eqb c ",")) (group_digits n l) = l.
Proof.
  intros Hl. revert n. induction Hl as [|c l Hc Hl IH]; intros n; [by destruct n|].
  assert (Ascii.eqb c "," = false) as Ec by by apply Ascii.eqb_neq.
  destruct n; cbn; rewrite Ec; cbn; by rewrite IH.
Qed.

(** Every group of a formatted number has three digits, but the first, which has one to three. *)
Fixpoint groups_ok (n : nat) (l : chars) : bool :=
  match l with
  | [] => true
  | c :: l' => if Ascii.eqb c "," then Nat.eqb n 0 && match l' with [] => false | _ => groups_ok 3 l' end
               else match n with O => false | S m => groups_ok m l' end
  end.

Lemma group_digits_ok n l : free "," l -> groups_ok n (group_digits n l) = true.
Proof.
  intros Hl. revert n. assert (forall l n, free "," l -> groups_ok n (group_digits n l) = true) as H; [|auto].
  clear. induction l as [|c l IH]; intros n Hl; [by destruct n|]. apply Forall_cons in Hl as [Hc Hl].
  assert (Ascii.eqb c "," = false) as Ec by by apply Ascii.eqb_neq.
  destruct n; cbn; rewrite Ec; cbn; by apply IH.
Qed.

Lemma count_filter {A} (f g : A -> bool) l : count f (List.filter g l) = count (fun x => g x && f x) l.
Proof. unfold count. induction l as [|x l IH]; [done|]. cbn. destruct (g x); cbn; [destruct (f x); cbn|]; rewrite ?Nat2Z.inj_succ, ?IH; done || lia. Qed.

Lemma count_or {A} (f g : A -> bool) l : (forall x, f x = true -> g x = false) -> count f l + count g l = count (fun x => f x || g x) l.
Proof.
  intros Hd. unfold count. induction l as [|x l IH]; [done|]. cbn. specialize (Hd x). destruct (f x), (g x); cbn; try (specialize (Hd eq_refl); done); lia.
Qed.

(** An object is its fields, in their order. *)
Lemma obj_fields {A} (o : list (string * A)) : NoDup (obj_keys o) -> map (fun k => (k, obj_get k o)) (obj_keys o) = map (fun kv => (kv.1, Some kv.2)) o.
Proof.
  induction o as [|[k v] o IH]; [done|]. cbn. intros [Hk Hnd]%NoDup_cons. rewrite String.eqb_refl. f_equal. rewrite <- IH by done.
  apply map_ext_in. intros k' Hk'. destruct (String.eqb_spec k' k) as [->|]; [|done]. destruct Hk. by apply list_elem_of_In.
Qed.

Lemma bump_same_keys counts k : obj_keys (bump counts k) = obj_keys counts.
Proof.
  unfold bump. destruct (obj_get k counts) as [n|] eqn:E; [|done]. unfold obj_set.
  assert (existsb (fun kv => String.eqb k kv.1) counts = true) as -> by (apply obj_mem_spec; destruct (decide (k ∈ obj_keys counts)) as [|Hn]; [done|];
    apply obj_get_None in Hn; congruence).
  apply obj_keys_replace.
Qed.

Lemma breakdown_keys {A} (f : A -> string) items counts : obj_keys (fold_left (fun c x => bump c (f x)) items counts) = obj_keys counts.
Proof. revert counts. induction items as [|x items IH]; intros counts; [done|]. cbn [fold_left]. by rewrite IH, bump_same_keys. Qed.

(** A chart of a breakdown has a point for each label, in their order, with the number of items of its key. *)
Lemma chart_of_breakdown {A} (f : A -> string) items (labels : list (string * string)) :
  NoDup (map fst labels) ->
  chart_points labels (fold_left (fun c x => bump c (f x)) items (map (fun kl => (kl.1, 0)) labels))
  = map (fun kl => (Some kl.2, count (fun x => String.eqb kl.1 (f x)) items)) labels.
Proof.
  intros Hnd. set (counts := map (fun kl => (kl.1, 0)) labels). set (o := fold_left _ items counts).
  assert (obj_keys counts = map fst labels) as Hc by (unfold counts, obj_keys; rewrite map_map; apply map_ext; by intros []).
  assert (obj_keys o = map fst labels) as Hk by (unfold o; by rewrite breakdown_keys).
  assert (forall kl, kl ∈ labels -> obj_get kl.1 labels = Some kl.2) as Hlab by (intros [k l] Hin; by apply obj_get_elem).
  assert (forall kl, kl ∈ labels -> obj_get kl.1 o = Some (count (fun x => String.eqb kl.1 (f x)) items)) as Ho.
  { intros kl Hin. unfold o. rewrite (breakdown_get f items counts _ 0); [f_equal; lia|by rewrite Hc|].
    apply obj_get_elem; [by rewrite Hc|]. unfold counts. apply list_elem_of_fmap. by exists kl. }
  unfold chart_points. assert (map (fun kv => (kv.1, Some kv.2)) o = map (fun kl => (kl.1, Some (count (fun x => String.eqb kl.1 (f x)) items))) labels) as E.
  { rewrite <- obj_fields by by rewrite Hk. rewrite Hk, map_map. apply map_ext_in. intros kl Hin. by rewrite Ho by by apply list_elem_of_In. }
  assert (o = map (fun kl => (kl.1, count (fun x => String.eqb kl.1 (f x)) items)) labels) as ->.
  { apply (list_fmap_eq_inj (fun kv : string * Z => (kv.1, Some kv.2))); [|etrans; [exact E|]; unfold fmap; by rewrite map_map].
    intros [a b] [c d] [= -> ->]. done. }
  rewrite map_map. apply map_ext_in. intros kl Hin. cbn. by rewrite Hlab by by apply list_elem_of_In.
Qed.

(** ** Properties *)

Definition lately (now : Z) (e : StatEvent) : bool := now - ONE_DAY_MS <=? ev_timestamp_ms e.

(** The numbers of the overview are the counts their labels name.  Of the events the page is given, the card of violations shows how many
    are of the last day and how many of those are high or critical; the card of events the same for the decisions; the bars of the severity
    chart and the slices of the decision chart have one entry for each severity and decision, in order, with the number of those of the last day. *)
Theorem overview_counts now scalar devices violations audit policies exceptions middot :
  let s := getStats now scalar devices violations audit policies exceptions in
  let of_violations P := count (fun v => lately now v && P v) (items_of violations) in
  let of_events P := count (fun e => lately now e && P e) (items_of audit) in
  kpi_cards middot s !! 1%nat =
    Some (mkKpi "Violations (24h)" (formatNumber (of_violations (fun _ => true)))
            (formatNumber (of_violations (fun v => String.eqb "critical" (ev_risk_level v) || String.eqb "high" (ev_risk_level v))) +:+ " high/critical") "error") /\
  kpi_cards middot s !! 2%nat =
    Some (mkKpi "Events (24h)" (formatNumber (of_events (fun _ => true)))
            (js_join (of_chars [" "%char; middot; " "%char])
               (map (fun dw => num_text (of_events (fun e => String.eqb dw.1 (ev_decision e))) +:+ dw.2) [("allow", " allowed"); ("warn", " warned"); ("block", " blocked")]))
            "default") /\
  violationTrend (Some s) = map (fun kl => (Some kl.2, of_violations (fun v => String.eqb kl.1 (ev_risk_level v)))) SEVERITY_LABELS /\
  decisionDistribution (Some s) = map (fun kl => (Some kl.2, of_events (fun e => String.eqb kl.1 (ev_decision e)))) DECISION_LABELS.
Proof.
  intros s of_violations of_events.
  assert (forall P, of_violations P = count P (List.filter (lately now) (items_of violations))) as Hv by (intros P; by rewrite count_filter).
  assert (forall P, of_events P = count P (List.filter (lately now) (items_of audit))) as He by (intros P; by rewrite count_filter).
  assert (forall A (l : list A), count (fun _ => true) l = Z.of_nat (List.length l)) as Hall.
  { intros A l. unfold count. do 2 f_equal. induction l as [|x l IH]; [done|]. cbn. by rewrite IH. }
  split_and!.
  - cbn [kpi_cards lookup list_lookup]. do 2 f_equal; [by rewrite Hv, Hall|].
    unfold s, getStats. cbn [st_violationsBySeverity].
    rewrite (breakdown_get ev_risk_level _ SEVERITY_COUNTS "critical" 0), (breakdown_get ev_risk_level _ SEVERITY_COUNTS "high" 0)
      by (reflexivity || (apply (bool_decide_unpack _); vm_compute; exact I)).
    cbn [sum_text]. do 2 f_equal. rewrite Hv, <- count_or; [done|]. by intros x <-%String.eqb_eq.
  - cbn [kpi_cards lookup list_lookup]. f_equal. f_equal; [by rewrite He, Hall|].
    unfold s, getStats. cbn [st_eventsByDecision map].
    rewrite (breakdown_get ev_decision _ DECISION_COUNTS "allow" 0), (breakdown_get ev_decision _ DECISION_COUNTS "warn" 0), (breakdown_get ev_decision _ DECISION_COUNTS "block" 0)
      by (reflexivity || (apply (bool_decide_unpack _); vm_compute; exact I)).
    by rewrite !He.
  - unfold violationTrend, s, getStats. cbn [st_violationsBySeverity].
    rewrite (chart_of_breakdown ev_risk_level _ SEVERITY_LABELS) by (apply (bool_decide_unpack _); vm_compute; exact I). apply map_ext. intros kl. by rewrite Hv.
  - unfold decisionDistribution, s, getStats. cbn [st_eventsByDecision].
    rewrite (chart_of_breakdown ev_decision _ DECISION_LABELS) by (apply (bool_decide_unpack _); vm_compute; exact I). apply map_ext. intros kl. by rewrite He.
Qed.

(** ** Examples *)

Example numbers : map formatNumber [0; 999; 1000; 1234567; -45678] = ["0"; "999"; "1,000"; "1,234,567"; "-45,678"].
Proof. reflexivity. Qed.

(** The chart described as of the last 7 days leaves out a violation of two days ago. *)
Definition two_days_ago : StatEvent := mkStatEvent "e1" 0 "block" "critical" None.
Example severity_chart_of_a_day :
  violationTrend (Some (getStats (2 * ONE_DAY_MS) None None (Some (mkRawPage (Some [two_days_ago]) (Some 1))) None None None))
  = [(Some "Low", 0); (Some "Medium", 0); (Some "High", 0); (Some "Critical", 0)].
Proof. reflexivity. Qed.

(** A page whose statistics fail stays a skeleton, with no word about it. *)
Example failed_overview middot : overview_shown middot (got_stats None overview_mount) = OverviewLoading.
Proof. reflexivity. Qed.
