(* ===== verification/DashBackend.v ===== *)
(** * From the page to the Rust backend and back

    The registry of [lib/api/registry.ts] over the HTTP client: what each operation of [lib/api/backend/*.ts] does with the
    reply, the responses of the API as the browser reads them ([bff] of [bff-repositories.ts]), and the whole path put
    together: a page asks, the API authorises and routes, the handler asks the backend, and the answer comes back. *)

From S2P Require Import Prelude Json JsonText Resilience CliFiles CliInput Dashboard DashFetch DashQuery DashRepo DashRoutes DashPolicies DashLists.

(** ** The registry over the HTTP client *)

(** What is thrown by the client is an [Error] of its own, which the pipeline does not know: its message is all that counts. *)
Definition thrown (e : fetch_error) : dash_error :=
  match e with
  | BackendClientError _ _ message _ => PlainError (to_text message)
  | OtherFailure (OtherError _ message) => PlainError message
  | OtherFailure _ => PlainError ""
  end.

Definition page_or_throw (v : json) : result dash_error repo_result :=
  match mapPage v with Some p => Ok (RPage p) | None => Err TypeErr end.

Definition detail_json (d : PolicyDetail) : json :=
  JObj (summary_json (pd_summary d) ++
    [("rules", JArr (map (fun r => JObj [("rule_id", JStr (pr_rule_id r)); ("description", JStr (pr_description r)); ("action", JStr (pr_action r));
                                          ("conditions", JStr (pr_conditions r)); ("enabled", JBool (pr_enabled r))]) (pd_rules d)));
     ("notes", JStr (pd_notes d)); ("created_by", JStr (pd_created_by d)); ("supersedes_version", pd_supersedes_version d);
     ("superseded_by_version", JNull)]).

(** What an operation makes of the reply of the backend; the two that return nothing are [null] here, which no handler reads. *)
Definition reply_of (op : repo_op) (v : json) : result dash_error repo_result :=
  match op with
  | DevicesList _ _ | DeviceEvents _ _ | ViolationsList _ _ | ExceptionsList _ _ | AuditList _ _ | UsersList _ => page_or_throw v
  | PoliciesList _ _ => p ← policies_listed v; Ok (RPage p)
  | PolicyGet _ => d ← policy_got v; Ok (RJson (match d with Some d => detail_json d | None => JNull end))
  | PolicyVersions _ => ss ← versions_listed v; Ok (RJson (JArr (map (fun s => JObj (summary_json s)) ss)))
  | DeviceInventory id => match inventory_got id v with Some i => Ok (RJson i) | None => Err TypeErr end
  | DeviceDeactivate _ | UserDisable _ => Ok (RJson JNull)
  | _ => Ok (RJson v)
  end.

(** The operations that read a single thing answer [null] for a 404. *)
Definition or_null (op : repo_op) : bool :=
  match op with DeviceGet _ | PolicyGet _ | ViolationGet _ | ExceptionGet _ | AuditGet _ => true | _ => false end.

Definition init_of (token : option string) (r : http_req) : fetch_init :=
  mkInit (if String.eqb (hq_method r) "GET" then None else Some (hq_method r)) []
    ((fun b => of_chars (print_json b)) <$> hq_body r) token.

Section registry.
Context {W : Type} (fetch : fetch_call -> W -> reply fetch_resp * W) (env : dash_env) (timeoutMs : Z) (base : string).
(** [getStats], whose six requests are in [DashStats] *)
Context (stats : option string -> W -> result dash_error json * W).

Definition registry (token : option string) (op : repo_op) (w : W) : result dash_error repo_result * W :=
  match backend_request op with
  | Some r =>
      let '(_, res, w') := backendFetch fetch env timeoutMs base (hq_path r) (init_of token r) w in
      (match res with
       | Ok v => reply_of op (default JNull v)
       | Err e => match e with
                  | BackendClientError 404 _ _ _ => if or_null op then reply_of op JNull else Err (thrown e)
                  | _ => Err (thrown e)
                  end
       end, w')
  | None => let '(v, w') := stats token w in (RJson <$> v, w')
  end.
End registry.

(** ** The whole path *)

(** The response of a handler on the wire; its status text is not used when there is an error body. *)
Definition response_of (d : dash_response) : fetch_resp :=
  mkFetched (dr_status d) "" (Some (match dr_json d with Some v => print_json v | None => [] end)).

Section path.
Context (date : string -> option Z).
Context (jwtVerify : string -> string -> string -> option json) (refreshCognitoTokens : string -> option (string * option string * string)).
Context (env : dash_env) (parse : string -> option json).
Context {W : Type} (fetch : fetch_call -> W -> reply fetch_resp * W) (timeoutMs : Z) (base : string).
Context (stats : option string -> W -> result dash_error json * W).
(** What the framework answers for a path no file serves *)
Context (no_route : fetch_resp).

(** An operation of the browser's registry: the request, the API, the answer read *)
Definition browse (op : repo_op) (j : jar) (w : W) : result error (option json) * jar * W :=
  let r := bff_request op in
  let '(path, query) := cut "?"%char (to_chars (hq_path r)) in
  let '(resp, _, j', w') :=
    serve date jwtVerify refreshCognitoTokens env parse (registry fetch env timeoutMs base stats) (hq_method r) (of_chars path)
      (form_parse (default [] query)) (match hq_body r with Some b => print_json b | None => [] end) j w in
  (bff_result (hq_path r) (match resp with Some d => response_of d | None => no_route end), j', w').

(** A list as the page gets it *)
Definition browse_list (op : repo_op) (j : jar) (w : W) : result error Page * jar * W :=
  let '(r, j', w') := browse op j w in
  (match r with
   | Ok v => match mapPage (default JNull v) with Some p => Ok p | None => Err (OtherError "TypeError" "") end
   | Err e => Err e
   end, j', w').
End path.

(** ** What comes back *)

(** The list routes send the page on; a viewer does not see which rule a violation matched. *)
Definition shown (role : DashRole) (op : repo_op) (p : Page) : Page :=
  match op, pg_items p with
  | ViolationsList _ _, JArr items =>
      if bool_decide (role = Viewer)
      then mkPage (JArr (map (with_null "matched_rule_id") items)) (pg_page p) (pg_perPage p) (pg_total p) (pg_nextToken p) else p
  | _, _ => p
  end.

(** A handler that performs a list and sends what is shown of it *)
Definition sends (role : DashRole) (p : prog) : Prop :=
  match p with
  | Perform op k => forall page items, pg_items page = JArr items -> k (RPage page) = Done (ok (toPageResponse (shown role op page)))
  | _ => True
  end.

Lemma sends_when_ok {A} role (r : result dash_error A) k : (forall a, sends role (k a)) -> sends role (when_ok r k).
Proof. destruct r; cbn; auto. Qed.
Lemma sends_enum role params key allowed message k : sends role k -> sends role (check_enum params key allowed message k).
Proof. intros H. unfold check_enum. destruct (param key params); [|done]. by destruct (_ || _). Qed.
Lemma sends_page role op : (forall p, shown role op p = p) -> sends role (perform_page op send_page).
Proof. intros H page items _. cbn. by rewrite H. Qed.

Lemma routes_send role date params :
  sends role (devices_route params) /\ sends role (policies_route params) /\ sends role (violations_route role params) /\
  sends role (audit_route date params) /\ sends role (exceptions_route params) /\ sends role (users_route params).
Proof.
  split_and!.
  - apply sends_when_ok. intros raw. do 2 apply sends_enum. by apply sends_page.
  - apply sends_when_ok. intros raw. apply sends_enum. by apply sends_page.
  - apply sends_when_ok. intros raw. do 4 apply sends_enum. intros page items Hi. cbn. rewrite Hi. by case_bool_decide.
  - apply sends_when_ok. intros raw.
    destruct (date_of date params "from") as [[|]|], (date_of date params "to") as [[|]|]; try done; try by apply sends_page.
    destruct (_ <? _); [done|]. destruct (_ <? _); [done|]. by apply sends_page.
  - apply sends_when_ok. intros raw. apply sends_enum. by apply sends_page.
  - apply sends_when_ok. intros raw. by apply sends_page.
Qed.

(** The request of a list page, routed, is one of these. *)
Lemma page_sends date ctx p q prog : followed date p q -> ask_server date ctx (lp_op p q) = Some prog -> sends (ctx_role ctx) prog.
Proof.
  assert (forall op path query route, bff_request op = http_get (path +:+ "?" +:+ query) -> free "?" (to_chars path) ->
    (forall params, route_request date ctx "GET" path params [] = Some (route params)) -> (forall params, sends (ctx_role ctx) (route params)) ->
    ask_server date ctx op = Some prog -> sends (ctx_role ctx) prog) as H.
  { intros op path query route Hb Hf Hr Hs. rewrite (ask_get date ctx op path query Hb Hf), Hr. by intros [= <-]. }
  pose proof (fun params => routes_send (ctx_role ctx) date params) as Hs.
  intros [(a & [->| ->])|[(a & b & c & [->|[-> _]])|[->| ->]]].
  - eapply (H _ "/api/devices" _ devices_route); [reflexivity|apply (bool_decide_unpack _); vm_compute; exact I|reflexivity|apply Hs].
  - eapply (H _ "/api/policies" _ policies_route); [reflexivity|apply (bool_decide_unpack _); vm_compute; exact I|reflexivity|apply Hs].
  - eapply (H _ "/api/violations" _ (violations_route (ctx_role ctx))); [reflexivity|apply (bool_decide_unpack _); vm_compute; exact I|reflexivity|apply Hs].
  - eapply (H _ "/api/audit" _ (audit_route date)); [reflexivity|apply (bool_decide_unpack _); vm_compute; exact I|reflexivity|apply Hs].
  - eapply (H _ "/api/exceptions" _ exceptions_route); [reflexivity|apply (bool_decide_unpack _); vm_compute; exact I|reflexivity|apply Hs].
  - eapply (H _ "/api/users" _ users_route); [reflexivity|apply (bool_decide_unpack _); vm_compute; exact I|reflexivity|apply Hs].
Qed.

(** *** Reading what was printed *)

Lemma printed_read v : jsonable v -> parse_body (print_json v) = Some v.
Proof.
  intros Hv. unfold parse_body. rewrite decide_False; [by apply parse_print_json|].
  intros E. destruct (print_json_head v) as (c & t & Hc & _). congruence.
Qed.

Lemma response_read path v : jsonable v -> bff_result path (response_of (ok v)) = Ok (Some v).
Proof. intros Hv. unfold bff_result. cbn [response_of ok apiSuccess dr_status dr_json fr_status fr_text Z.eqb]. by rewrite printed_read. Qed.

(** The backend's envelope: [{ items, total, page, per_page, next_token }] *)
Definition envelope (items : list json) (page perPage total : Z) (next : option string) : json :=
  JObj [("items", JArr items); ("total", JNum (NInt total)); ("page", JNum (NInt page)); ("per_page", JNum (NInt perPage));
        ("next_token", from_option JStr JNull next)].
Definition page_of (items : list json) (page perPage total : Z) (next : option string) : Page :=
  mkPage (JArr items) (JNum (NInt page)) (JNum (NInt perPage)) (JNum (NInt total)) (from_option JStr JNull next).

Lemma envelope_mapped items page perPage total next : mapPage (envelope items page perPage total next) = Some (page_of items page perPage total next).
Proof. by destruct next. Qed.
Lemma page_reread items page perPage total next : mapPage (toPageResponse (page_of items page perPage total next)) = Some (page_of items page perPage total next).
Proof. by destruct next. Qed.

Definition small (n : Z) : Prop := Z.abs n <= 2 ^ 53.

Lemma jsonable_list l : Forall jsonable l <-> foldr (fun x P => jsonable x /\ P) True l.
Proof. induction l as [|x l IH]; cbn; [done|]. by rewrite Forall_cons, IH. Qed.

Lemma page_jsonable items page perPage total next :
  Forall jsonable items -> small page -> small perPage -> small total ->
  jsonable (envelope items page perPage total next) /\ jsonable (toPageResponse (page_of items page perPage total next)).
Proof.
  intros Hi%jsonable_list Hp Hpp Ht. assert (jsonable (from_option JStr JNull next)) as Hn by by destruct next.
  assert (forall (f : json) (l : list (string * json)), NoDup (obj_keys l) -> StronglySorted (fun a b => key_before b a = false) (obj_keys l) ->
    foldr (fun kv P => jsonable kv.2 /\ P) True l -> jsonable (JObj l)) as Hobj by (intros; by repeat split).
  split; apply Hobj; try exact JNull; try (apply (bool_decide_unpack _); vm_compute; exact I); try (repeat constructor; fail); cbn; split_and!; done || exact Hi.
Qed.

Lemma jsonable_fields (o : list (string * json)) : Forall (fun kv => jsonable kv.2) o <-> foldr (fun kv P => jsonable kv.2 /\ P) True o.
Proof. induction o as [|kv o IH]; cbn; [done|]. by rewrite Forall_cons, IH. Qed.

Lemma obj_set_Forall {A} (P : string * A -> Prop) k v o : P (k, v) -> Forall P o -> Forall P (obj_set k v o).
Proof.
  intros Hv Ho. unfold obj_set. destruct (existsb _ o); [|by rewrite obj_insert_Permutation; constructor].
  induction Ho as [|[k' v'] o Hkv Ho IH]; cbn; [constructor|]. destruct (String.eqb k k'); by constructor.
Qed.

Lemma with_null_jsonable k v : jsonable v -> jsonable (with_null k v).
Proof.
  intros Hv. unfold with_null. assert (exists o, (match v with JObj o => o | _ => [] end) = o /\ obj_canon o /\ Forall (fun kv => jsonable kv.2) o) as (o & -> & Hc & Ho).
  { destruct v; try (exists []; split_and!; [done|split; constructor|constructor]). destruct Hv as [Hc Ho%jsonable_fields]. by eexists. }
  split; [by apply obj_set_canon|]. apply jsonable_fields. by apply obj_set_Forall.
Qed.

(** What is shown of a page can be sent and read back. *)
Lemma shown_reread role op items page perPage total next :
  Forall jsonable items -> small page -> small perPage -> small total ->
  let p := shown role op (page_of items page perPage total next) in
  jsonable (toPageResponse p) /\ mapPage (toPageResponse p) = Some p.
Proof.
  intros Hi Hp Hpp Ht. cbv zeta. assert (exists items', Forall jsonable items' /\ shown role op (page_of items page perPage total next) = page_of items' page perPage total next)
    as (items' & Hi' & ->); [|by split; [apply page_jsonable|apply page_reread]].
  destruct op; try by exists items. cbn. case_bool_decide; [|by exists items]. exists (map (with_null "matched_rule_id") items). split; [|done].
  apply Forall_map. apply (Forall_impl _ _ _ Hi). intros v. apply with_null_jsonable.
Qed.

(** *** The filters of a list are an object. *)

Lemma fields_nodup g names : NoDup names -> NoDup (obj_keys (sent_filters (fields g names))).
Proof.
  intros Hnd. apply (sublist_NoDup _ names Hnd). clear Hnd. unfold fields, obj_keys, sent_filters. induction names as [|n names IH]; [constructor|]. cbn.
  destruct (g n) as [[|c v]|]; cbn; [by apply sublist_cons|by apply sublist_skip|by apply sublist_cons].
Qed.

Lemma list_scope_not_sent date s p q :
  followed date p q -> backend_request (scoped_op s (sent_op (lp_op p q))) = backend_request (sent_op (lp_op p q)).
Proof.
  assert (forall pq f, NoDup (obj_keys f) -> forall op, op ∈ [DevicesList pq f; PoliciesList pq f; ViolationsList pq f; ExceptionsList pq f; AuditList pq f] ->
    backend_request (scoped_op s op) = backend_request op) as H.
  { intros pq f Hf op Hop. pose proof (scope_not_sent s pq f Hf) as Hall. rewrite Forall_forall in Hall. by apply Hall. }
  intros [(a & [->| ->])|[(a & b & c & [->|[-> _]])|[->| ->]]]; cbn [lp_op devices_page policies_page violations_page audit_page exceptions_page users_page sent_op]; [..|done].
  all: eapply H; [|repeat first [apply list_elem_of_here|apply list_elem_of_further]].
  all: first [rewrite chosen_range_fields by (apply (bool_decide_unpack _); vm_compute; exact I)|rewrite chosen_fields].
  all: apply fields_nodup; apply (bool_decide_unpack _); vm_compute; exact I.
Qed.

(** *** The registry *)

Section registry_facts.
Context {W : Type} (fetch : fetch_call -> W -> reply fetch_resp * W) (env : dash_env) (timeoutMs : Z) (base : string).
Context (stats : option string -> W -> result dash_error json * W).

(** An answer in time, of a status that is ok, takes one request. *)
Lemma registry_answered token op r w t status st v w' :
  backend_request op = Some r ->
  fetch (call_of env base (hq_path r) (init_of token r)) w = (Settles t (Ok (mkFetched status st (Some (print_json v)))), w') ->
  t <= timeoutMs -> 200 <= status <= 299 -> jsonable v ->
  registry fetch env timeoutMs base stats token op w = (reply_of op v, w').
Proof.
  intros Hr Hf Ht Hs Hv. unfold registry. rewrite Hr. unfold backendFetch. cbn [fetch_loop]. unfold attempt_fetch. rewrite Hf.
  assert (t <=? timeoutMs = true) as -> by lia. unfold read_response. cbn [andb fr_text]. rewrite printed_read by done.
  unfold fr_ok. cbn [fr_status]. assert ((200 <=? status) && (status <=? 299) = true) as -> by lia. done.
Qed.
End registry_facts.

(** The error body of the backend *)
Definition refusal (code message : string) : json := JObj [("error", JObj [("code", JStr code); ("message", JStr message)])].

Lemma refusal_jsonable code message : jsonable (refusal code message).
Proof. repeat split; cbn; try done; try (apply (bool_decide_unpack _); vm_compute; exact I); repeat constructor. Qed.

Lemma list_not_null date s p q : followed date p q -> or_null (scoped_op s (sent_op (lp_op p q))) = false.
Proof. by intros [(a & [->| ->])|[(a & b & c & [->|[-> _]])|[->| ->]]]. Qed.

(** ** Properties *)

Section path_facts.
Context (date : string -> option Z).
Context (jwtVerify : string -> string -> string -> option json) (refreshCognitoTokens : string -> option (string * option string * string)).
Context (env : dash_env) (parse : string -> option json).
Context {W : Type} (fetch : fetch_call -> W -> reply fetch_resp * W) (timeoutMs : Z) (base : string).
Context (stats : option string -> W -> result dash_error json * W) (no_route : fetch_resp).

(** The API lets the request of an operation through, for a session and with its token. *)
Definition let_through (op : repo_op) (s : UserSession) (token : option string) (j j' : jar) : Prop :=
  withBff jwtVerify refreshCognitoTokens env parse None (fun ctx token => Ok (ctx, token)) (hq_method (bff_request op))
    (of_chars (cut "?"%char (to_chars (hq_path (bff_request op)))).1) j = (Ok (context_of s, token), j').

(** The backend answers a request in time, with status 200 and a JSON text. *)
Definition answers_with (token : option string) (r : http_req) (v : json) (w w' : W) : Prop :=
  exists t, t <= timeoutMs /\
    fetch (call_of env base (hq_path r) (init_of token r)) w = (Settles t (Ok (mkFetched 200 "OK" (Some (print_json v)))), w').

(** A request let through runs the handler it is routed to. *)
Lemma browse_handled op s token j j' w p :
  let_through op s token j j' -> ask_server date (context_of s) op = Some p ->
  browse date jwtVerify refreshCognitoTokens env parse fetch timeoutMs base stats no_route op j w
  = let '(out, _, w') := run_logged (fun op => registry fetch env timeoutMs base stats token (scoped_op s op)) p w in
    (bff_result (hq_path (bff_request op)) (response_of (match out with Ok r => r | Err e => error_response (apiErrorFromUnknown e) end)), j', w').
Proof.
  unfold let_through, ask_server, browse. destruct (cut _ _) as [path query]. cbn [fst]. intros Hb Hr. unfold serve. rewrite Hb, Hr. cbn [context_of ctx_session].
  by destruct (run_logged _ p w) as [[out log] w'].
Qed.

(** A list whose items the backend client passes on as they are; those of the policies are rebuilt ([policies_listed]). *)
Definition relayed (op : repo_op) : Prop :=
  match op with DevicesList _ _ | ViolationsList _ _ | ExceptionsList _ _ | AuditList _ _ | UsersList _ => True | _ => False end.

Lemma relayed_reply s op items page perPage total next :
  relayed op -> reply_of (scoped_op s (sent_op op)) (envelope items page perPage total next) = Ok (RPage (page_of items page perPage total next)).
Proof. by destruct op, next. Qed.
Lemma shown_sent role op p : shown role (sent_op op) p = shown role op p.
Proof. by destruct op. Qed.

(** A handler of a list whose operation is answered sends what is shown of the page. *)
Lemma list_run s op (run : repo_op -> W -> result dash_error repo_result * W) p w w' items page perPage total next :
  let pg := page_of items page perPage total next in
  performs (Some p) op -> sends (s_role s) p -> run op w = (Ok (RPage pg), w') ->
  run_logged run p w = (Ok (ok (toPageResponse (shown (s_role s) op pg))), [op], w').
Proof.
  cbv zeta. intros (k & [= ->]) Hk Hr. cbn [run_logged]. rewrite Hr. by rewrite (Hk _ items).
Qed.

(** The answer to the request of a list page is the page of the backend, as far as it is shown. *)
Lemma list_answered p q s token j j' w w' r items page perPage total next :
  followed date p q -> controls p q -> askable q -> relayed (lp_op p q) ->
  let_through (lp_op p q) s token j j' -> backend_request (sent_op (lp_op p q)) = Some r ->
  answers_with token r (envelope items page perPage total next) w w' ->
  Forall jsonable items -> small page -> small perPage -> small total ->
  browse_list date jwtVerify refreshCognitoTokens env parse fetch timeoutMs base stats no_route (lp_op p q) j w
  = (Ok (shown (s_role s) (lp_op p q) (page_of items page perPage total next)), j', w').
Proof.
  intros Hf Hc Ha Hrel Hl Hreq (t & Ht & Hans) Hi Hp Hpp Htt.
  destruct (page_served date (context_of s) p q Hf Hc Ha) as [k Hask].
  pose proof (page_sends date (context_of s) p q _ Hf Hask) as Hs.
  unfold browse_list. rewrite (browse_handled _ _ _ _ _ _ _ Hl Hask).
  erewrite (list_run s); [|by eexists|exact Hs|].
  2: { erewrite registry_answered; [by rewrite relayed_reply|by rewrite (list_scope_not_sent date)|exact Hans|done|lia|by apply page_jsonable]. }
  rewrite shown_sent. destruct (shown_reread (s_role s) (lp_op p q) items page perPage total next) as [Hj Hm]; [done..|].
  rewrite response_read by done. cbn [from_option id]. by rewrite Hm.
Qed.

(** The backend refuses a request: a 4xx status with the error body of [{ error: { code, message } }]. *)
Definition refuses (token : option string) (r : http_req) (status : Z) (code message : string) (w w' : W) : Prop :=
  exists t st, t <= timeoutMs /\
    fetch (call_of env base (hq_path r) (init_of token r)) w
    = (Settles t (Ok (mkFetched status st (Some (print_json (refusal code message))))), w').

Lemma registry_refused token op r w status code message w' :
  backend_request op = Some r -> refuses token r status code message w w' -> 400 <= status <= 499 -> or_null op = false ->
  registry fetch env timeoutMs base stats token op w = (Err (PlainError message), w').
Proof.
  intros Hr (t & st & Ht & Hf) Hs Ho. unfold registry. rewrite Hr. unfold backendFetch. cbn [fetch_loop]. unfold attempt_fetch. rewrite Hf.
  assert (t <=? timeoutMs = true) as -> by lia. unfold read_response. cbn [andb fr_text]. rewrite printed_read by apply refusal_jsonable.
  unfold fr_ok. cbn [fr_status]. assert ((200 <=? status) && (status <=? 299) = false) as -> by lia. cbn [negb retryable_error].
  assert (500 <=? status = false) as -> by lia. rewrite Ho.
  assert (forall (A : Type) (a : A), match status with 404 => a | _ => a end = a) as E by (intros A a; repeat case_match; done).
  by rewrite E.
Qed.

(** A refusal of the first operation of a handler is an internal error of the API. *)
Lemma list_refused p q s token j j' w w' r status code message :
  followed date p q -> controls p q -> askable q ->
  let_through (lp_op p q) s token j j' -> backend_request (sent_op (lp_op p q)) = Some r ->
  refuses token r status code message w w' -> 400 <= status <= 499 -> message <> "Authentication required" ->
  browse_list date jwtVerify refreshCognitoTokens env parse fetch timeoutMs base stats no_route (lp_op p q) j w
  = (Err (OtherError "Error" ("BFF " +:+ hq_path (bff_request (lp_op p q)) +:+ " → 500 internal_error: Internal server error")), j', w').
Proof.
  intros Hf Hc Ha Hl Hreq Hans Hs Hm%String.eqb_neq. destruct (page_served date (context_of s) p q Hf Hc Ha) as [k Hask].
  unfold browse_list. rewrite (browse_handled _ _ _ _ _ _ _ Hl Hask). cbn [run_logged].
  erewrite registry_refused; [|by rewrite (list_scope_not_sent date)|exact Hans|done|by apply (list_not_null date)].
  unfold apiErrorFromUnknown. rewrite Hm. set (path := hq_path _).
  unfold bff_result. cbn [response_of error_response apiError dr_status dr_json fr_status fr_text Z.eqb fst snd].
  change (JObj [("error", _)]) with (refusal "internal_error" "Internal server error").
  rewrite printed_read by apply refusal_jsonable. reflexivity.
Qed.
End path_facts.

(** C10: a list page shows what the backend answered, and no more than its user may see.  For the controls of the devices, violations,
    audit, exceptions and users lists in any state a user can bring them to, with a page of at most 10000 and a search that is trimmed and
    of at most 200 characters, and on the audit page a range in order and of at most 90 days ([followed], [askable]: the API refuses the
    others, or cuts the search): when the API lets the request of the page through for a session, with its token ([let_through]), the
    handler asks the backend once for that very query, and when the backend answers in time with a page, the browser gets the page with its
    items, numbers and next token unchanged, through two JSON texts; of a violation a viewer does not get which rule it matched. *)
Theorem list_end_to_end date jwtVerify refreshCognitoTokens env parse {W} (fetch : fetch_call -> W -> reply fetch_resp * W) timeoutMs base stats no_route
    p q s token j j' w w' r items page perPage total next :
  followed date p q -> controls p q -> askable q -> relayed (lp_op p q) ->
  let_through jwtVerify refreshCognitoTokens env parse (lp_op p q) s token j j' ->
  backend_request (sent_op (lp_op p q)) = Some r ->
  answers_with env fetch timeoutMs base token r (envelope items page perPage total next) w w' ->
  Forall jsonable items -> small page -> small perPage -> small total ->
  browse_list date jwtVerify refreshCognitoTokens env parse fetch timeoutMs base stats no_route (lp_op p q) j w
  = (Ok (shown (s_role s) (lp_op p q) (page_of items page perPage total next)), j', w').
Proof. apply list_answered. Qed.

(** A refusal of the backend, whatever its status, code and message, reaches the page as an internal error of the API. *)
Theorem refusals_hidden date jwtVerify refreshCognitoTokens env parse {W} (fetch : fetch_call -> W -> reply fetch_resp * W) timeoutMs base stats no_route
    p q s token j j' w w' r status code message :
  followed date p q -> controls p q -> askable q ->
  let_through jwtVerify refreshCognitoTokens env parse (lp_op p q) s token j j' ->
  backend_request (sent_op (lp_op p q)) = Some r ->
  refuses env fetch timeoutMs base token r status code message w w' -> 400 <= status <= 499 -> message <> "Authentication required" ->
  browse_list date jwtVerify refreshCognitoTokens env parse fetch timeoutMs base stats no_route (lp_op p q) j w
  = (Err (OtherError "Error" ("BFF " +:+ hq_path (bff_request (lp_op p q)) +:+ " → 500 internal_error: Internal server error")), j', w').
Proof. apply list_refused. Qed.

(** ** Examples *)

Definition viewer_payload : json :=
  JObj [("sub", JStr "u2"); ("email", JStr "v@b.c"); ("custom:org_id", JStr "org"); ("cognito:groups", JArr [JStr "viewer"])].
Definition viewer_verify (token issuer audience : string) : option json := if String.eqb token "good" then Some viewer_payload else None.
Definition viewer_session : UserSession := mkSession "u2" "v@b.c" Viewer "org" "org" ["viewer"].

Definition one_violation (rule : json) : json := JObj [("matched_rule_id", rule); ("violation_id", JStr "v1")].
(** A backend that notes the calls and answers each with one violation *)
Definition one_answer (call : fetch_call) (log : list string) : reply fetch_resp * list string :=
  (Settles 20 (Ok (mkFetched 200 "OK" (Some (print_json (envelope [one_violation (JStr "rule-7")] 1 15 1 None))))), log ++ [fc_url call]).

Definition january : list_page := violations_page "" "2026-01-01" "2026-01-31".

Lemma list_end_to_end_witness :
  browse_list (fun _ => None) viewer_verify (fun _ => None) sample_env (fun _ => None) one_answer 8000 "https://backend" (fun _ w => (Ok JNull, w))
    (mkFetched 404 "Not Found" None) (lp_op january blocked_cli) sample_jar []
  = (Ok (page_of [one_violation JNull] 1 15 1 None), sample_jar,
     ["https://backend/admin/violations?page=1&per_page=15&decision=block&source=cli&from=2026-01-01&to=2026-01-31"]).
Proof.
  eapply (list_end_to_end (fun _ => None) viewer_verify (fun _ => None) sample_env (fun _ => None) one_answer 8000 "https://backend"
    (fun _ w => (Ok JNull, w)) (mkFetched 404 "Not Found" None) january blocked_cli viewer_session (Some "good") sample_jar sample_jar [] _ _
    [one_violation (JStr "rule-7")] 1 15 1 None).
  - right. left. exists "", "2026-01-01", "2026-01-31". by left.
  - eapply ctls_step; [eapply ctls_step; [constructor|]|].
    + eapply (ctl_select _ _ "decision" [""; "allow"; "warn"; "block"] "block"); apply list_elem_of_In; cbn; tauto.
    + eapply (ctl_select _ _ "source" [""; "browser"; "ide"; "cli"; "api"] "cli"); apply list_elem_of_In; cbn; tauto.
  - split_and!; [cbn; lia|reflexivity|apply (bool_decide_unpack _); vm_compute; exact I].
  - exact I.
  - vm_compute. reflexivity.
  - reflexivity.
  - exists 20. split; [lia|]. vm_compute. reflexivity.
  - constructor; [|constructor]. repeat split; try done; try (apply (bool_decide_unpack _); vm_compute; exact I); repeat constructor.
  - unfold small. lia.
  - unfold small. lia.
  - unfold small. lia.
Defined.
