(* ===== verification/ExtPage.v ===== *)
(** * The upload hook, the relay and the dialogs in the page

    [browser-connectors/chrome/extension/src/content]: [page-hook.ts] and the relay of [content-script.ts] as they talk over the
    messages of the window, and [modal.ts] with the gate.  [ExtUpload] has what a single upload does once its verdicts are known; here
    the verdicts arrive: several uploads are under way, messages are delivered in the order they were posted, the background answers in
    any order, timers fire, and the scripts of the site post messages of their own. *)

From S2P Require Import Prelude Base64 Json JsonText Resilience ExtTransport ExtGate ExtUpload.

(** ** The messages of the window *)

(** [{ source: 'vg-page', kind: 'scan-file-request', id, file }]; a [mime] that is undefined is left out. *)
Definition upload_json (f : ScanFile) : json :=
  JObj ([("name", JStr (sf_name f))] ++ (match sf_mime f with Some m => [("mime", JStr m)] | None => [] end)
        ++ [("content_base64", JStr (sf_base64 f))]).
Definition request_msg (id : Z) (f : ScanFile) : json :=
  JObj [("source", JStr "vg-page"); ("kind", JStr "scan-file-request"); ("id", JNum (NInt id)); ("file", upload_json f)].
Definition verdict_msg (id : option json) (allow : bool) : json :=
  JObj ([("source", JStr "vg-content"); ("kind", JStr "scan-file-verdict")] ++ (match id with Some v => [("id", v)] | None => [] end)
        ++ [("allow", JBool allow)]).

Definition is_msg (source kind : string) (data : json) : bool :=
  is_str source (chain (Some data) "source") && is_str kind (chain (Some data) "kind").

(** ** The hook and the relay *)

(** A call of the patched [fetch]: it reads the files that are left, or waits for the verdict of one; then the request went out or was
    answered with a 403. *)
Inductive upload :=
| Reading (files : list UploadFile)
| Waiting (id : Z) (files : list UploadFile)
| Sent
| Withheld.

(** How the verdict on a file was settled *)
Inductive settled := Posted (allow : bool) | Expired.

(** [seq] and [pending] are the hook's, with the call each resolver belongs to; [timers] are the ones it has set.  [queue] holds the
    messages posted and not delivered.  [calls] are the scans the relay waits for, with the id it will answer under; [next] numbers them.
    The rest records what happened: the body of each call, the call and the file behind each id, the verdicts, the answers of the
    background, the notices. *)
Record page := mkPage {
  p_seq : Z;
  p_pending : gmap Z nat;
  p_timers : gset Z;
  p_queue : list json;
  p_calls : gmap nat (option json * json);
  p_next : nat;
  p_uploads : gmap nat upload;
  p_bodies : gmap nat (list UploadFile);
  p_asked : gmap Z (nat * ScanFile);
  p_verdicts : list (Z * settled);
  p_answers : list (option json * json * result error xdecision);
  p_notices : list gate_effect
}.

Definition page_init : page := mkPage 0 ∅ ∅ [] ∅ 0 ∅ ∅ ∅ [] [] [].

Definition post (data : json) (p : page) : page :=
  mkPage (p_seq p) (p_pending p) (p_timers p) (p_queue p ++ [data]) (p_calls p) (p_next p) (p_uploads p) (p_bodies p) (p_asked p) (p_verdicts p)
    (p_answers p) (p_notices p).
Definition set_upload (n : nat) (u : upload) (p : page) : page :=
  mkPage (p_seq p) (p_pending p) (p_timers p) (p_queue p) (p_calls p) (p_next p) (<[n := u]> (p_uploads p)) (p_bodies p) (p_asked p) (p_verdicts p)
    (p_answers p) (p_notices p).
Definition set_timers (t : gset Z) (p : page) : page :=
  mkPage (p_seq p) (p_pending p) t (p_queue p) (p_calls p) (p_next p) (p_uploads p) (p_bodies p) (p_asked p) (p_verdicts p) (p_answers p) (p_notices p).
Definition set_queue (q : list json) (p : page) : page :=
  mkPage (p_seq p) (p_pending p) (p_timers p) q (p_calls p) (p_next p) (p_uploads p) (p_bodies p) (p_asked p) (p_verdicts p) (p_answers p) (p_notices p).

(** The page calls [fetch]. *)
Definition on_fetch (n : nat) (body : fetch_body) (p : page) : page :=
  let files := extractUploadFiles body in
  mkPage (p_seq p) (p_pending p) (p_timers p) (p_queue p) (p_calls p) (p_next p) (<[n := Reading files]> (p_uploads p)) (<[n := files]> (p_bodies p))
    (p_asked p) (p_verdicts p) (p_answers p) (p_notices p).

(** [requestVerdict] *)
Definition request_verdict (n : nat) (f : ScanFile) (rest : list UploadFile) (p : page) : page :=
  let id := p_seq p + 1 in
  mkPage id (<[id := n]> (p_pending p)) ({[id]} ∪ p_timers p) (p_queue p ++ [request_msg id f]) (p_calls p) (p_next p)
    (<[n := Waiting id rest]> (p_uploads p)) (p_bodies p) (<[id := (n, f)]> (p_asked p)) (p_verdicts p) (p_answers p) (p_notices p).

(** The next turn of the loop of [patchedFetch] *)
Definition on_read (n : nat) (files : list UploadFile) (p : page) : page :=
  match files with
  | [] => set_upload n Sent p
  | f :: rest =>
      match encodeUploadFile f MAX_UPLOAD_BYTES with
      | Err _ => set_upload n Sent p
      | Ok None => set_upload n (Reading rest) p
      | Ok (Some encoded) => request_verdict n encoded rest p
      end
  end.

(** [pending.delete(id); resolve(allow)], and the call goes on with the answer *)
Definition settle_verdict (id : Z) (how : settled) (p : page) : page :=
  match p_pending p !! id with
  | Some n =>
      let allow := match how with Posted b => b | Expired => true end in
      let uploads := match p_uploads p !! n with
                     | Some (Waiting _ rest) => <[n := if allow then Reading rest else Withheld]> (p_uploads p)
                     | _ => p_uploads p
                     end in
      mkPage (p_seq p) (delete id (p_pending p)) (p_timers p) (p_queue p) (p_calls p) (p_next p) uploads (p_bodies p) (p_asked p)
        (p_verdicts p ++ [(id, how)]) (p_answers p) (p_notices p)
  | None => p
  end.

(** The listener of the hook *)
Definition hook_listens (data : json) (p : page) : page :=
  if is_msg "vg-content" "scan-file-verdict" data then
    match chain (Some data) "id" with
    | Some (JNum (NInt id)) =>
        settle_verdict id (Posted (match chain (Some data) "allow" with Some (JBool true) => true | _ => false end)) p
    | _ => p
    end
  else p.

(** The timer of a verdict *)
Definition on_timer (id : Z) (p : page) : page := settle_verdict id Expired (set_timers (p_timers p ∖ {[id]}) p).

(** [None]: there is nothing to scan, and the relay answers at once. *)
Definition relay_file (data : json) : option json :=
  let raw := chain (Some data) "file" in
  match chain raw "content_base64", chain raw "name" with
  | Some content, Some name =>
      if js_truthy content && js_truthy name
      then Some (JObj ([("name", name)] ++ (match chain raw "mime" with Some m => if js_truthy m then [("mime", m)] else [] | None => [] end)
                       ++ [("content_base64", content)]))
      else None
  | _, _ => None
  end.

(** The listener of the relay *)
Definition relay_listens (data : json) (p : page) : page :=
  if is_msg "vg-page" "scan-file-request" data then
    let id := chain (Some data) "id" in
    match relay_file data with
    | None => post (verdict_msg id true) p
    | Some file =>
        mkPage (p_seq p) (p_pending p) (p_timers p) (p_queue p) (<[p_next p := (id, file)]> (p_calls p)) (S (p_next p)) (p_uploads p) (p_bodies p)
          (p_asked p) (p_verdicts p) (p_answers p) (p_notices p)
    end
  else p.

(** The verdict for an answer of the background: a notice that throws, and any other failure, lets the file through. *)
Definition relay_verdict (r : result error xdecision) : bool :=
  match r with
  | Err _ => true
  | Ok d =>
      match shouldBlockUpload d with
      | Some true => match distinctCategories d with Some _ => false | None => true end
      | _ => true
      end
  end.
Definition relay_notice (r : result error xdecision) : list gate_effect :=
  match r with
  | Ok d => if relay_verdict r then [] else [BlockNotice (Some "Upload blocked by policy") (d ≫= json_get "reason") (default [] (distinctCategories d))]
  | Err _ => []
  end.

Definition on_answer (k : nat) (id : option json) (file : json) (r : result error xdecision) (p : page) : page :=
  mkPage (p_seq p) (p_pending p) (p_timers p) (p_queue p ++ [verdict_msg id (relay_verdict r)]) (delete k (p_calls p)) (p_next p) (p_uploads p)
    (p_bodies p) (p_asked p) (p_verdicts p) (p_answers p ++ [(id, file, r)]) (p_notices p ++ relay_notice r).

Inductive pevent :=
| PFetch (n : nat) (body : fetch_body)
| PRead (n : nat) (files : list UploadFile)
| PDeliver (data : json) (rest : list json)
| PAnswer (k : nat) (id : option json) (file : json) (r : result error xdecision)
| PTimer (id : Z)
| PPost (data : json).                      (* a script of the site posts to its own window *)

Definition phandle (ev : pevent) (p : page) : page :=
  match ev with
  | PFetch n body => on_fetch n body p
  | PRead n files => on_read n files p
  | PDeliver data rest => relay_listens data (hook_listens data (set_queue rest p))
  | PAnswer k id file r => on_answer k id file r p
  | PTimer id => on_timer id p
  | PPost data => post data p
  end.

Definition penabled (ev : pevent) (p : page) : Prop :=
  match ev with
  | PFetch n _ => p_uploads p !! n = None
  | PRead n files => p_uploads p !! n = Some (Reading files)
  | PDeliver data rest => p_queue p = data :: rest
  | PAnswer k id file _ => p_calls p !! k = Some (id, file)
  | PTimer id => id ∈ p_timers p
  | PPost _ => True
  end.

Inductive pstep (p : page) (ev : pevent) : page -> Prop :=
| pstep_intro : penabled ev p -> pstep p ev (phandle ev p).

Definition psteps : page -> list pevent -> page -> Prop := rtc_trace pstep.

(** No script of the site posts a message that looks like one of the extension's. *)
Definition quiet (ev : pevent) : Prop :=
  match ev with
  | PPost data => is_msg "vg-content" "scan-file-verdict" data = false /\ is_msg "vg-page" "scan-file-request" data = false
  | _ => True
  end.

(** ** What a verdict is about *)

(** A file the upload is past: it was too large to scan, or its verdict was not a refusal. *)
Definition cleared (p : page) (n : nat) (f : UploadFile) : Prop :=
  encodeUploadFile f MAX_UPLOAD_BYTES = Ok None \/
  exists sf id how, encodeUploadFile f MAX_UPLOAD_BYTES = Ok (Some sf) /\ p_asked p !! id = Some (n, sf) /\ (id, how) ∈ p_verdicts p /\ how <> Posted false.

(** Where an upload of [files] is *)
Definition upload_ok (p : page) (n : nat) (files : list UploadFile) (u : upload) : Prop :=
  exists before rest, files = before ++ rest /\ Forall (cleared p n) before /\
    match u with
    | Reading r => r = rest
    | Waiting id r => exists f sf, rest = f :: r /\ encodeUploadFile f MAX_UPLOAD_BYTES = Ok (Some sf) /\ p_asked p !! id = Some (n, sf)
    | Sent => rest = [] \/ exists f r, rest = f :: r /\ ~ readable f
    | Withheld => exists f r sf id, rest = f :: r /\ encodeUploadFile f MAX_UPLOAD_BYTES = Ok (Some sf) /\ p_asked p !! id = Some (n, sf) /\
                    (id, Posted false) ∈ p_verdicts p
    end.

(** The relay was asked about the file behind [id] and [allow] is what it says of it. *)
Definition justified (p : page) (id : Z) (allow : bool) : Prop :=
  exists n f, p_asked p !! id = Some (n, f) /\
    match relay_file (request_msg id f) with
    | None => allow = true
    | Some file => exists r, (Some (JNum (NInt id)), file, r) ∈ p_answers p /\ allow = relay_verdict r
    end.

Definition msg_ok (p : page) (data : json) : Prop :=
  (exists id n f, data = request_msg id f /\ p_asked p !! id = Some (n, f)) \/
  (exists id allow, data = verdict_msg (Some (JNum (NInt id))) allow /\ justified p id allow) \/
  (is_msg "vg-content" "scan-file-verdict" data = false /\ is_msg "vg-page" "scan-file-request" data = false).

(** ** The invariants *)

Record page_ok (p : page) : Prop := {
  po_seq : forall id x, p_asked p !! id = Some x -> id <= p_seq p;
  po_pending : forall id n, p_pending p !! id = Some n -> id ∈ p_timers p /\ id <= p_seq p /\ exists r, p_uploads p !! n = Some (Waiting id r);
  po_waiting : forall n id r, p_uploads p !! n = Some (Waiting id r) -> p_pending p !! id = Some n;
  po_once : NoDup (p_verdicts p).*1;
  po_settled : forall id, id ∈ (p_verdicts p).*1 -> p_pending p !! id = None /\ id <= p_seq p;
  po_uploads : forall n u, p_uploads p !! n = Some u -> exists files, p_bodies p !! n = Some files /\ upload_ok p n files u
}.

(** As long as the site posts nothing of the kind *)
Record page_honest (p : page) : Prop := {
  ph_queue : Forall (msg_ok p) (p_queue p);
  ph_calls : forall k i file, p_calls p !! k = Some (i, file) ->
    exists id n f, i = Some (JNum (NInt id)) /\ p_asked p !! id = Some (n, f) /\ relay_file (request_msg id f) = Some file;
  ph_verdicts : forall id allow, (id, Posted allow) ∈ p_verdicts p -> justified p id allow
}.

(** What is recorded stays recorded. *)
Record grows (p p' : page) : Prop := {
  gr_asked : p_asked p ⊆ p_asked p';
  gr_verdicts : p_verdicts p ⊆ p_verdicts p';
  gr_answers : p_answers p ⊆ p_answers p'
}.

Lemma cleared_mono p p' n f : grows p p' -> cleared p n f -> cleared p' n f.
Proof.
  intros [Ha Hv _] [?|(sf & id & how & He & Hq & Hin & Hn)]; [by left|right]. exists sf, id, how. split_and!; auto.
  by eapply lookup_weaken.
Qed.

Lemma upload_ok_mono p p' n files u : grows p p' -> upload_ok p n files u -> upload_ok p' n files u.
Proof.
  intros G (before & rest & -> & Hb & Hu). exists before, rest. split_and!; [done| |].
  - apply (Forall_impl _ _ _ Hb). intros f. by apply cleared_mono.
  - destruct G as [Ha Hv _], u; [done| |done|].
    + destruct Hu as (f & sf & ? & ? & ?). exists f, sf. split_and!; [done..|by eapply lookup_weaken].
    + destruct Hu as (f & r & sf & id & ? & ? & ? & ?). exists f, r, sf, id. split_and!; [done|done|by eapply lookup_weaken|by apply Hv].
Qed.

Lemma justified_mono p p' id allow : grows p p' -> justified p id allow -> justified p' id allow.
Proof.
  intros [Ha _ Hr] (n & f & Hq & Hf). exists n, f. split; [by eapply lookup_weaken|].
  destruct (relay_file _); [|done]. destruct Hf as (r & ? & ?). exists r. auto.
Qed.

Lemma msg_ok_mono p p' data : grows p p' -> msg_ok p data -> msg_ok p' data.
Proof.
  intros G [(id & n & f & -> & Hq)|[(id & allow & -> & Hj)|?]].
  - left. exists id, n, f. split; [done|]. destruct G. by eapply lookup_weaken.
  - right. left. exists id, allow. split; [done|]. by eapply justified_mono.
  - by do 2 right.
Qed.

(** The messages are recognised by the one they are for. *)
Lemma request_known id f : is_msg "vg-page" "scan-file-request" (request_msg id f) = true /\ is_msg "vg-content" "scan-file-verdict" (request_msg id f) = false
  /\ chain (Some (request_msg id f)) "id" = Some (JNum (NInt id)).
Proof. done. Qed.
Lemma verdict_known id allow : let m := verdict_msg (Some (JNum (NInt id))) allow in
  is_msg "vg-content" "scan-file-verdict" m = true /\ is_msg "vg-page" "scan-file-request" m = false /\ chain (Some m) "id" = Some (JNum (NInt id)) /\
  match chain (Some m) "allow" with Some (JBool true) => true | _ => false end = allow.
Proof. by destruct allow. Qed.

(** The relay as [ExtUpload] has it: the answer counts only when there is something to scan. *)
Lemma relay_split id f r : relay r f = match relay_file (request_msg id f) with None => true | Some _ => relay_verdict r end.
Proof.
  destruct f as [name mime content]. unfold relay, relay_file.
  assert (chain (chain (Some (request_msg id (mkScanFile name mime content))) "file") "content_base64" = Some (JStr content)) as -> by by destruct mime.
  assert (chain (chain (Some (request_msg id (mkScanFile name mime content))) "file") "name" = Some (JStr name)) as -> by by destruct mime.
  cbn [js_truthy sf_base64 sf_name]. by destruct (is_empty content), (is_empty name).
Qed.

(** ** The steps keep them *)

(** A step that only posts, forgets messages or works for the relay *)
Lemma page_ok_bookkeeping p p' :
  p_seq p' = p_seq p -> p_pending p' = p_pending p -> p_timers p' = p_timers p -> p_uploads p' = p_uploads p -> p_bodies p' = p_bodies p ->
  p_asked p' = p_asked p -> p_verdicts p' = p_verdicts p -> p_answers p ⊆ p_answers p' -> page_ok p -> page_ok p' /\ grows p p'.
Proof.
  intros Eq Ep Et Eu Eb Ea Ev Hr [H1 H2 H3 H4 H5 H6]. assert (grows p p') as G by (split; [by rewrite Ea|by rewrite Ev|done]).
  split; [|done]. split.
  - by rewrite Ea, Eq.
  - by rewrite Ep, Et, Eq, Eu.
  - by rewrite Eu, Ep.
  - by rewrite Ev.
  - by rewrite Ev, Ep, Eq.
  - rewrite Eu, Eb. intros n u Hu. destruct (H6 n u Hu) as (files & ? & ?). exists files. split; [done|]. by eapply upload_ok_mono.
Qed.

(** A step of the upload [n] that waits for nothing before nor after *)
Lemma page_ok_upload p n u u' bodies :
  page_ok p -> (forall id r, u' <> Waiting id r) -> p_uploads p !! n = u -> (forall id r, u <> Some (Waiting id r)) ->
  (forall m, m <> n -> bodies !! m = p_bodies p !! m) ->
  (exists files, bodies !! n = Some files /\ upload_ok p n files u') ->
  page_ok (mkPage (p_seq p) (p_pending p) (p_timers p) (p_queue p) (p_calls p) (p_next p) (<[n := u']> (p_uploads p)) bodies (p_asked p) (p_verdicts p)
    (p_answers p) (p_notices p)).
Proof.
  intros [H1 H2 H3 H4 H5 H6] Hu' Hu Hnw Hb Hok. split; cbn; [done| | |done|done|].
  - intros id m Hm. destruct (H2 id m Hm) as (? & ? & r & Hr). split_and!; [done..|]. exists r. rewrite lookup_insert_ne; [done|]. intros <-.
    rewrite Hr in Hu. by eapply Hnw.
  - intros m id r. rewrite lookup_insert. case_decide as E; [|apply H3]. intros [= ->]. by destruct (Hu' id r).
  - intros m v. rewrite lookup_insert. case_decide as E; [subst m; by intros [= <-]|]. rewrite Hb by congruence. apply H6.
Qed.

Lemma upload_next p n files f rest :
  upload_ok p n files (Reading (f :: rest)) -> cleared p n f -> upload_ok p n files (Reading rest).
Proof.
  intros (before & r & -> & Hb & <-) Hf. exists (before ++ [f]), rest. split_and!; [by rewrite <- app_assoc| |done].
  apply Forall_app. split; [done|by constructor].
Qed.

Lemma on_fetch_ok n body p : p_uploads p !! n = None -> page_ok p -> page_ok (on_fetch n body p).
Proof.
  intros Hn Hp. apply (page_ok_upload p n None); [done|done|done|done| |].
  - intros m Hm. by rewrite lookup_insert_ne.
  - eexists. rewrite lookup_insert_eq. split; [done|]. by exists [], (extractUploadFiles body).
Qed.

Lemma request_verdict_ok n f sf rest p :
  p_uploads p !! n = Some (Reading (f :: rest)) -> encodeUploadFile f MAX_UPLOAD_BYTES = Ok (Some sf) -> page_ok p -> page_ok (request_verdict n sf rest p).
Proof.
  intros Hn He Hp. assert (p_asked p !! (p_seq p + 1) = None) as Hfresh.
  { destruct (p_asked p !! (p_seq p + 1)) eqn:E; [|done]. apply (po_seq _ Hp) in E. lia. }
  assert (grows p (request_verdict n sf rest p)) as G by (split; cbn; [by apply insert_subseteq|done|done]).
  destruct Hp as [H1 H2 H3 H4 H5 H6]. split; cbn.
  - intros id x. rewrite lookup_insert. case_decide as E; [lia|]. intros ?%H1. lia.
  - intros id m. rewrite lookup_insert. case_decide as E.
    + intros [= <-]. subst id. split_and!; [set_solver|lia|]. exists rest. by rewrite lookup_insert_eq.
    + intros Hm. destruct (H2 id m Hm) as (? & ? & r & Hr). split_and!; [set_solver|lia|]. exists r. rewrite lookup_insert_ne; [done|congruence].
  - intros m id r. rewrite !lookup_insert. do 2 case_decide; subst; try congruence.
    + intros Hm%H3. destruct (H2 _ _ Hm) as (_ & ? & _). lia.
    + apply H3.
  - done.
  - intros id Hid. destruct (H5 id Hid) as [? ?]. split; [|lia]. rewrite lookup_insert_ne; [done|lia].
  - intros m u. rewrite lookup_insert. case_decide as E.
    + subst m. intros [= <-]. destruct (H6 _ _ Hn) as (files & Hf & before & r & -> & Hb & <-). exists (before ++ f :: rest). split; [done|].
      exists before, (f :: rest). split_and!; [done| |].
      * apply (Forall_impl _ _ _ Hb). intros g. by apply cleared_mono.
      * exists f, sf. cbn. by rewrite lookup_insert_eq.
    + intros Hu. destruct (H6 m u Hu) as (files & ? & ?). exists files. split; [done|]. by eapply upload_ok_mono.
Qed.

Lemma on_read_ok n files p : p_uploads p !! n = Some (Reading files) -> page_ok p -> page_ok (on_read n files p).
Proof.
  intros Hn Hp. destruct (po_uploads _ Hp _ _ Hn) as (all & Hall & Hok).
  assert (forall u', (forall id r, u' <> Waiting id r) -> upload_ok p n all u' -> page_ok (set_upload n u' p)) as Hset.
  { intros u' Hu' Hok'. by apply (page_ok_upload p n (Some (Reading files))); eauto. }
  unfold on_read. destruct files as [|f rest].
  - apply Hset; [done|]. destruct Hok as (before & r & -> & Hb & <-). exists before, []. auto.
  - destruct (encodeUploadFile f MAX_UPLOAD_BYTES) as [[sf|]|e] eqn:Ee.
    + by eapply request_verdict_ok.
    + apply Hset; [done|]. eapply upload_next; [done|by left].
    + apply Hset; [done|]. destruct Hok as (before & r & -> & Hb & <-). exists before, (f :: rest). split_and!; [done..|]. right. exists f, rest.
      split; [done|]. unfold readable. by rewrite Ee.
Qed.

Lemma settle_verdict_grows id how p : grows p (settle_verdict id how p).
Proof. unfold settle_verdict. destruct (p_pending p !! id); split; cbn; try done. set_solver. Qed.

(** Timers other than the one of [id] may not be lost. *)
Lemma settle_verdict_ok id how t p : p_timers p ∖ {[id]} ⊆ t -> page_ok p -> page_ok (settle_verdict id how (set_timers t p)).
Proof.
  intros Ht Hp. unfold settle_verdict. cbn [set_timers p_pending]. destruct (p_pending p !! id) as [n|] eqn:En.
  - pose proof (settle_verdict_grows id how (set_timers t p)) as G. unfold settle_verdict in G. cbn [set_timers p_pending] in G. rewrite En in G.
    destruct (po_pending _ Hp _ _ En) as (_ & Hseq & r & Hr). destruct (po_uploads _ Hp _ _ Hr) as (all & Hall & Hok).
    destruct Hp as [H1 H2 H3 H4 H5 H6]. cbn [set_timers p_uploads] in *. rewrite Hr in *. split; cbn.
    + done.
    + intros id' m [Hne Hm]%lookup_delete_Some. destruct (H2 id' m Hm) as (? & ? & r' & Hr'). split_and!; [set_solver|done|]. exists r'.
      rewrite lookup_insert_ne; [done|congruence].
    + intros m id' r'. rewrite lookup_insert. case_decide; [by destruct how as [[]|]|]. intros Hm. rewrite lookup_delete_ne; [by eapply H3|].
      intros <-. apply H3 in Hm. congruence.
    + rewrite fmap_app. apply NoDup_app. split_and!; [done| |by apply NoDup_singleton]. intros x Hx. cbn. rewrite list_elem_of_singleton. intros ->.
      destruct (H5 _ Hx). congruence.
    + intros id'. rewrite fmap_app, elem_of_app. intros [Hx|Hx].
      * destruct (H5 _ Hx). by rewrite lookup_delete_None; auto.
      * cbn in Hx. apply list_elem_of_singleton in Hx as ->. by rewrite lookup_delete_eq.
    + intros m u. rewrite lookup_insert. case_decide as E.
      * subst m. intros [= <-]. exists all. split; [done|]. apply (upload_ok_mono _ _ _ _ _ G) in Hok as (before & rest & -> & Hb & f & sf & -> & He & Ha).
        destruct how as [[]|]; [exists (before ++ [f]), r|exists before, (f :: r)|exists (before ++ [f]), r].
        all: split_and!; [by rewrite <- ?app_assoc| |]; cbn; try done.
        -- apply Forall_app. split; [done|]. constructor; [|done]. right. exists sf, id, (Posted true). split_and!; [done|done|cbn; set_solver|done].
        -- exists f, r, sf, id. split_and!; [done..|set_solver].
        -- apply Forall_app. split; [done|]. constructor; [|done]. right. exists sf, id, Expired. split_and!; [done|done|cbn; set_solver|done].
      * intros Hu. destruct (H6 m u Hu) as (files & ? & Hu'). exists files. split; [done|]. eapply upload_ok_mono; [exact G|].
        by eapply (upload_ok_mono p).
  - destruct Hp as [H1 H2 H3 H4 H5 H6]. split; cbn; try done. intros id' m Hm. destruct (H2 id' m Hm) as (? & ? & ?).
    split_and!; [|done..]. assert (id' <> id) by congruence. set_solver.
Qed.

Lemma hook_listens_ok data p : page_ok p -> page_ok (hook_listens data p).
Proof.
  intros Hp. unfold hook_listens. destruct (is_msg _ _ _); [|done]. destruct (chain _ "id") as [[| |[id|]| | |]|]; try done.
  assert (set_timers (p_timers p) p = p) as E by by destruct p. rewrite <- E. apply settle_verdict_ok; [set_solver|done].
Qed.

Lemma relay_listens_ok data p : page_ok p -> page_ok (relay_listens data p) /\ grows p (relay_listens data p).
Proof. intros Hp. unfold relay_listens. destruct (is_msg _ _ _), (relay_file data); by apply page_ok_bookkeeping. Qed.

Lemma pstep_ok p ev p' : page_ok p -> pstep p ev p' -> page_ok p'.
Proof.
  intros Hp [He]. destruct ev; cbn [phandle penabled] in *.
  - by apply on_fetch_ok.
  - by apply on_read_ok.
  - apply relay_listens_ok, hook_listens_ok. by eapply page_ok_bookkeeping; [..|exact Hp].
  - eapply page_ok_bookkeeping; [..|exact Hp]; try done. cbn. set_solver.
  - apply settle_verdict_ok; [done|done].
  - by eapply page_ok_bookkeeping; [..|exact Hp].
Qed.

Lemma page_init_ok : page_ok page_init.
Proof.
  split; [| | | constructor| |]; try (intros *; cbn; rewrite lookup_empty; done).
  intros id Hin. by apply elem_of_nil in Hin.
Qed.

(** *** Honest pages *)

(** What was justified stays so; the rest is about what is new. *)
Lemma page_honest_grows p p' :
  grows p p' -> page_honest p ->
  (Forall (msg_ok p) (p_queue p) -> Forall (msg_ok p') (p_queue p')) ->
  (forall k x, p_calls p' !! k = Some x -> p_calls p !! k = Some x \/
     exists id n f, x.1 = Some (JNum (NInt id)) /\ p_asked p' !! id = Some (n, f) /\ relay_file (request_msg id f) = Some x.2) ->
  (forall id allow, (id, Posted allow) ∈ p_verdicts p' -> (id, Posted allow) ∈ p_verdicts p \/ justified p id allow) ->
  page_honest p'.
Proof.
  intros G [Hq Hc Hv] Hq' Hc' Hv'. split; [auto| |].
  - intros k i file [Hk|(id & n & f & ? & ? & ?)]%Hc'; [|by exists id, n, f]. destruct (Hc k i file Hk) as (id & n & f & ? & ? & ?).
    exists id, n, f. split_and!; [done| |done]. destruct G. by eapply lookup_weaken.
  - intros id allow [Hin|Hj]%Hv'; eapply justified_mono; eauto.
Qed.

Lemma queue_grows p p' q : grows p p' -> Forall (msg_ok p) q -> Forall (msg_ok p') q.
Proof. intros G H. apply (Forall_impl _ _ _ H). intros m. by apply msg_ok_mono. Qed.

Lemma hook_listens_honest data p :
  msg_ok p data -> page_honest p -> page_honest (hook_listens data p) /\ grows p (hook_listens data p) /\ p_queue (hook_listens data p) = p_queue p.
Proof.
  intros Hm Hp. assert (forall id allow, justified p id allow ->
    page_honest (settle_verdict id (Posted allow) p) /\ grows p (settle_verdict id (Posted allow) p) /\ p_queue (settle_verdict id (Posted allow) p) = p_queue p) as H.
  { intros id allow Hj. pose proof (settle_verdict_grows id (Posted allow) p) as G. split_and!; [|done|unfold settle_verdict; by destruct (_ !! id)].
    eapply page_honest_grows; [exact G|done|..]; unfold settle_verdict; destruct (p_pending p !! id) eqn:E; cbn; auto.
    intros id' b. rewrite elem_of_app, list_elem_of_singleton. intros [?|[= -> ->]]; auto. }
  assert (page_honest p /\ grows p p /\ p_queue p = p_queue p) as Hsame by by split_and!.
  unfold hook_listens. destruct Hm as [(id & n & f & -> & Hq)|[(id & allow & -> & Hj)|[-> _]]]; [done| |done].
  destruct (verdict_known id allow) as (-> & _ & -> & ->). by apply H.
Qed.

Lemma relay_listens_honest data p : msg_ok p data -> page_honest p -> page_honest (relay_listens data p).
Proof.
  intros Hm Hp. unfold relay_listens. destruct Hm as [(id & n & f & -> & Hq)|[(id & allow & -> & Hj)|[_ ->]]]; [|done|done].
  destruct (request_known id f) as (-> & _ & ->). destruct (relay_file (request_msg id f)) as [file|] eqn:Ef.
  - eapply (page_honest_grows p); cbn; [by split|done|done| |auto]. intros k x. rewrite lookup_insert. case_decide; [|auto]. intros [= <-].
    right. exists id, n, f. auto.
  - eapply (page_honest_grows p); cbn; [by split|done| |auto|auto]. intros H. apply Forall_app. split; [done|]. constructor; [|done].
    right. left. exists id, true. split; [done|]. exists n, f. by rewrite Ef.
Qed.

Lemma pstep_honest p ev p' : page_ok p -> page_honest p -> quiet ev -> pstep p ev p' -> page_honest p'.
Proof.
  intros Hp Hh Hq [He]. destruct ev as [n body|n files|data rest|k i file r|id|data]; cbn [phandle penabled quiet] in *.
  - by eapply (page_honest_grows p); cbn; auto.
  - assert (forall u, page_honest (set_upload n u p)) as Hset by (intros u; by eapply (page_honest_grows p); cbn; auto).
    unfold on_read. destruct files as [|f rest]; [done|]. destruct (encodeUploadFile f MAX_UPLOAD_BYTES) as [[sf|]|e] eqn:Ee; [|done|done].
    assert (grows p (request_verdict n sf rest p)) as G.
    { split; cbn; [|done|done]. apply insert_subseteq. destruct (p_asked p !! (p_seq p + 1)) eqn:E; [|done]. apply (po_seq _ Hp) in E. lia. }
    eapply (page_honest_grows p _ G); cbn; auto. intros H. apply Forall_app. split; [by eapply queue_grows|]. constructor; [|done].
    left. exists (p_seq p + 1), n, sf. cbn. by rewrite lookup_insert_eq.
  - pose proof (ph_queue _ Hh) as H. rewrite He in H. apply Forall_cons in H as [Hd Hr].
    assert (page_honest (set_queue rest p)) as Hh' by (by eapply (page_honest_grows p); cbn; auto).
    destruct (hook_listens_honest data (set_queue rest p)) as (H1 & G & _); [done..|]. apply relay_listens_honest; [|done]. by eapply msg_ok_mono.
  - assert (grows p (on_answer k i file r p)) as G by (split; cbn; set_solver).
    eapply (page_honest_grows p _ G); cbn; auto.
    + intros H. apply Forall_app. split; [by eapply queue_grows|]. constructor; [|done].
      destruct (ph_calls _ Hh _ _ _ He) as (id & n & f & -> & Ha & Hf). right. left. exists id, (relay_verdict r). split; [done|].
      exists n, f. split; [done|]. rewrite Hf. exists r. split; [cbn; set_solver|done].
    + intros k' x [_ Hk]%lookup_delete_Some. auto.
  - pose proof (settle_verdict_grows id Expired (set_timers (p_timers p ∖ {[id]}) p)) as G. unfold on_timer, settle_verdict in *. cbn [set_timers p_pending] in *.
    destruct (p_pending p !! id); (eapply (page_honest_grows p); cbn; [by split; destruct G|done|auto..]).
    intros id' b. rewrite elem_of_app, list_elem_of_singleton. intros [?|[=]]; auto.
  - eapply (page_honest_grows p); cbn; auto; [by split|]. intros H. apply Forall_app. split; [done|]. constructor; [|done]. by do 2 right.
Qed.

Lemma page_init_honest : page_honest page_init.
Proof.
  split; [constructor|intros *; cbn; rewrite lookup_empty; done|]. intros id allow Hin. by apply elem_of_nil in Hin.
Qed.

Lemma psteps_ok evs p : psteps page_init evs p -> page_ok p.
Proof. apply rtc_trace_invariant; [|exact page_init_ok]. intros a e b. apply pstep_ok. Qed.

Lemma psteps_honest p evs p' : page_ok p -> page_honest p -> Forall quiet evs -> psteps p evs p' -> page_honest p'.
Proof.
  intros Hp Hh Hq Hs. induction Hs as [|p ev p1 evs p2 Hstep _ IH]; [done|]. apply Forall_cons in Hq as [Hq Hqs].
  apply IH; [by eapply pstep_ok|by eapply pstep_honest|done].
Qed.

(** ** Properties *)

(** The verdict [allow] the upload [n] got on a file is the relay's: of the background's answer on that very file, or of none where there
    is nothing to scan. *)
Definition relayed_as (p : page) (n : nat) (f : ScanFile) (allow : bool) : Prop :=
  exists id, p_asked p !! id = Some (n, f) /\ (id, Posted allow) ∈ p_verdicts p /\
    ((exists file r, (Some (JNum (NInt id)), file, r) ∈ p_answers p /\ relay r f = allow) \/ (allow = true /\ forall r, relay r f = true)).

Lemma justified_relayed p n id f allow :
  p_asked p !! id = Some (n, f) -> (id, Posted allow) ∈ p_verdicts p -> justified p id allow -> relayed_as p n f allow.
Proof.
  intros Ha Hv (n' & f' & Ha' & Hj). rewrite Ha in Ha'. injection Ha' as <- <-. exists id. split_and!; [done..|]. pose proof (relay_split id f) as Hs.
  destruct (relay_file _) as [file|]; [|auto]. destruct Hj as (r & Hr & ->). left. exists file, r. auto.
Qed.

(** A file was let through: too large, or no verdict came in time, or the relay said so. *)
Definition let_go (p : page) (n : nat) (f : UploadFile) : Prop :=
  match encodeUploadFile f MAX_UPLOAD_BYTES with
  | Ok (Some sf) => relayed_as p n sf true \/ exists id, p_asked p !! id = Some (n, sf) /\ (id, Expired) ∈ p_verdicts p
  | Ok None => True
  | Err _ => False
  end.


(** ** Examples *)

Definition key_file : UploadFile := mkUpload (mkBlob 3 "" (Some (to_chars "key"))) "k.txt".
Definition cat_file : UploadFile := mkUpload (mkBlob 3 "image/png" (Some (to_chars "cat"))) "cat.png".
Definition key_scan : ScanFile := mkScanFile "k.txt" None "a2V5".
Definition cat_scan : ScanFile := mkScanFile "cat.png" (Some "image/png") "Y2F0".
Definition block_answer : result error xdecision := Ok (Some (JObj [("action", JStr "block"); ("findings", JArr [])])).
Definition allow_answer : result error xdecision := Ok (Some (JObj [("action", JStr "allow"); ("findings", JArr [])])).
Definition num_id (id : Z) : option json := Some (JNum (NInt id)).

(** Two uploads under way, answered in the other order *)
Definition two_uploads : list pevent :=
  [PFetch 0 (BodyFile (uf_blob key_file) "k.txt"); PFetch 1 (BodyFile (uf_blob cat_file) "cat.png"); PRead 0 [key_file]; PRead 1 [cat_file];
   PDeliver (request_msg 1 key_scan) [request_msg 2 cat_scan]; PDeliver (request_msg 2 cat_scan) [];
   PAnswer 1 (num_id 2) (upload_json cat_scan) allow_answer; PAnswer 0 (num_id 1) (upload_json key_scan) block_answer;
   PDeliver (verdict_msg (num_id 2) true) [verdict_msg (num_id 1) false]; PDeliver (verdict_msg (num_id 1) false) []; PRead 1 []].
Definition prun (evs : list pevent) : page := fold_left (fun p ev => phandle ev p) evs page_init.

Ltac run_events evs := apply (along_trace penabled phandle); [by constructor|]; unfold evs;
  repeat (split; [first [exact I|vm_compute; reflexivity|apply (bool_decide_unpack _); vm_compute; exact I]|]); exact I.

Lemma two_uploads_steps : psteps page_init two_uploads (prun two_uploads).
Proof. run_events two_uploads. Qed.


(** A verdict of the site itself, posted before the relay's, is taken: the file that the background blocks goes out. *)
Definition forged : list pevent :=
  [PFetch 0 (BodyFile (uf_blob key_file) "k.txt"); PRead 0 [key_file]; PPost (verdict_msg (num_id 1) true);
   PDeliver (request_msg 1 key_scan) [verdict_msg (num_id 1) true]; PDeliver (verdict_msg (num_id 1) true) []; PRead 0 [];
   PAnswer 0 (num_id 1) (upload_json key_scan) block_answer; PDeliver (verdict_msg (num_id 1) false) []].

Example forged_verdict_honored : psteps page_init forged (prun forged) /\ p_uploads (prun forged) !! 0%nat = Some Sent /\
  p_answers (prun forged) = [(num_id 1, upload_json key_scan, block_answer)] /\ relay block_answer key_scan = false.
Proof. split; [run_events forged|]. vm_compute. auto. Qed.

(** A block that takes longer than the timer comes too late, although the notice says that the upload was blocked. *)
Definition slow_scan : list pevent :=
  [PFetch 0 (BodyFile (uf_blob key_file) "k.txt"); PRead 0 [key_file]; PDeliver (request_msg 1 key_scan) []; PTimer 1; PRead 0 [];
   PAnswer 0 (num_id 1) (upload_json key_scan) block_answer; PDeliver (verdict_msg (num_id 1) false) []].

Example late_block_ignored : psteps page_init slow_scan (prun slow_scan) /\ p_uploads (prun slow_scan) !! 0%nat = Some Sent /\
  p_notices (prun slow_scan) = [BlockNotice (Some "Upload blocked by policy") None []].
Proof. split; [run_events slow_scan|]. vm_compute. auto. Qed.
