(* ===== verification/ExtModal.v ===== *)
(** * The dialog and the notices of the gate

    [browser-connectors/chrome/extension/src/content/modal.ts]: what the warning dialog and the two notices show, which click settles the
    dialog and how, and the gate of [ExtGate] with its dialogs on the page: the promise the gate waits for is the dialog's. *)

From S2P Require Import Prelude Json JsonText Resilience ExtTransport ExtGate.

(** ** What is shown *)

(** A value in a template, in [textContent] and in [join] *)
Definition template_text (v : option json) : string := match v with None => "undefined" | Some w => to_text w end.
Definition content_text (v : option json) : string := match v with None | Some JNull => "" | Some w => to_text w end.

(** [v || d] *)
Definition or_text (v : option json) (d : string) : string := if opt_truthy v then content_text v else d.

Definition categoriesLabel (categories : list (option json)) : string :=
  match categories with [] => "Policy warning" | _ => "Detected: " +:+ js_join ", " (map content_text categories) end.

Record dialog := mkDialog {
  dg_title : string;
  dg_riskClass : string;
  dg_risk : string;
  dg_reason : string;
  dg_cats : string
}.

Definition showWarnModal (reason riskLevel : option json) (categories : list (option json)) : dialog :=
  mkDialog "This prompt may violate policy" ("risk " +:+ (if is_str "low" riskLevel then "low" else "medium")) (template_text riskLevel +:+ " risk")
    (or_text reason "Submitting this prompt is flagged by your organization.") (categoriesLabel categories).

Record toast := mkToast { to_class : string; to_title : string; to_reason : string }.

Definition showBlockNotice (title : option string) (reason : option json) (categories : list (option json)) : toast :=
  mkToast "toast" (default "Prompt blocked by policy" title) (or_text reason (categoriesLabel categories)).
Definition showWarnNotice (reason : option json) (categories : list (option json)) : toast :=
  mkToast "toast warn" "Policy warning — prompt sent" (or_text reason (categoriesLabel categories)).

(** ** Clicks *)

(** What a click in the dialog hits; the card is everything in it but the buttons. *)
Inductive target := OnCancel | OnProceed | OnBackdrop | OnCard.

(** The listener of the button, and then that of the backdrop, where the click bubbles to: it looks at what was hit. *)
Definition finish (t : target) : option bool :=
  match t with
  | OnCancel => Some false
  | OnProceed => Some true
  | OnBackdrop => Some false
  | OnCard => None
  end.

(** ** The gate with its dialogs *)

(** The dialogs on the page by the call of [decide] that opened them, the notices with a number each; [clicks] records the clicks in
    dialogs with what they showed. *)
Record ui := mkUi {
  u_gate : gate;
  u_dialogs : gmap nat dialog;
  u_toasts : gmap nat toast;
  u_next : nat;
  u_clicks : list (nat * dialog * target)
}.

Definition ui_init (input : option string) (button : bool) : ui := mkUi (gate_init input button) ∅ ∅ 0 [].

(** The call under way is [n]. *)
Definition mount (n : nat) (u : ui) (e : gate_effect) : ui :=
  match e with
  | WarnModal reason riskLevel categories =>
      mkUi (u_gate u) (<[n := showWarnModal reason riskLevel categories]> (u_dialogs u)) (u_toasts u) (u_next u) (u_clicks u)
  | BlockNotice title reason categories =>
      mkUi (u_gate u) (u_dialogs u) (<[u_next u := showBlockNotice title reason categories]> (u_toasts u)) (S (u_next u)) (u_clicks u)
  | WarnNotice reason categories =>
      mkUi (u_gate u) (u_dialogs u) (<[u_next u := showWarnNotice reason categories]> (u_toasts u)) (S (u_next u)) (u_clicks u)
  | Ack _ _ => u
  end.

(** What the gate calls while it handles an event is shown. *)
Definition gate_turn (n : nat) (ev : gevent) (u : ui) : ui :=
  let g := ghandle ev (u_gate u) in
  fold_left (mount n) (drop (List.length (g_effects (u_gate u))) (g_effects g)) (mkUi g (u_dialogs u) (u_toasts u) (u_next u) (u_clicks u)).

(** A click in the dialog of the call [n]: [finish] removes the dialog and resolves the promise the gate waits for. *)
Definition on_click (n : nat) (t : target) (u : ui) : ui :=
  match u_dialogs u !! n with
  | None => u
  | Some dlg =>
      let u1 := mkUi (u_gate u) (u_dialogs u) (u_toasts u) (u_next u) (u_clicks u ++ [(n, dlg, t)]) in
      match finish t, g_open (u_gate u) !! n with
      | Some proceed, Some (Asking text d eventId) =>
          gate_turn n (GAnswered n text d eventId proceed)
            (mkUi (u_gate u) (delete n (u_dialogs u)) (u_toasts u) (u_next u) (u_clicks u ++ [(n, dlg, t)]))
      | Some _, _ => mkUi (u_gate u) (delete n (u_dialogs u)) (u_toasts u) (u_next u) (u_clicks u ++ [(n, dlg, t)])
      | None, _ => u1
      end
  end.

Inductive uevent :=
| UGate (ev : gevent)                 (* anything the gate listens to but the answers of its dialogs *)
| UClick (n : nat) (t : target)
| UToastTimer (k : nat).              (* 6 seconds after a notice was shown *)

Definition turn_of (ev : gevent) : nat := match ev with GScanned n _ _ | GAnswered n _ _ _ _ => n | _ => 0%nat end.

Definition uhandle (ev : uevent) (u : ui) : ui :=
  match ev with
  | UGate ev => gate_turn (turn_of ev) ev u
  | UClick n t => on_click n t u
  | UToastTimer k => mkUi (u_gate u) (u_dialogs u) (delete k (u_toasts u)) (u_next u) (u_clicks u)
  end.

Definition uenabled (ev : uevent) (u : ui) : Prop :=
  match ev with
  | UGate (GAnswered _ _ _ _ _) => False
  | UGate ev => genabled ev (u_gate u)
  | UClick n _ => is_Some (u_dialogs u !! n)
  | UToastTimer k => is_Some (u_toasts u !! k)
  end.

Inductive ustep (u : ui) (ev : uevent) : ui -> Prop :=
| ustep_intro : uenabled ev u -> ustep u ev (uhandle ev u).

Definition usteps : ui -> list uevent -> ui -> Prop := rtc_trace ustep.

(** The dialog a decision is shown in *)
Definition dialog_of (d : xdecision) : option dialog :=
  match on_decision d with Asks (WarnModal reason riskLevel categories) _ => Some (showWarnModal reason riskLevel categories) | _ => None end.

(** ** What a turn of the gate changes *)

Definition quiet_effect (e : gate_effect) : Prop := match e with WarnModal _ _ _ => False | _ => True end.

Lemma mount_quiet n es u :
  Forall quiet_effect es ->
  let u' := fold_left (mount n) es u in u_gate u' = u_gate u /\ u_dialogs u' = u_dialogs u /\ u_clicks u' = u_clicks u.
Proof.
  intros H. revert u. induction H as [|e es He _ IH]; intros u; cbn; [done|]. destruct (IH (mount n u e)) as (-> & -> & ->). by destruct e.
Qed.

(** Only a dialog that is opened is a dialog. *)
Lemma on_decision_effects d :
  match on_decision d with
  | Replays es | Stops es => Forall quiet_effect es
  | Asks m _ => exists reason riskLevel categories, m = WarnModal reason riskLevel categories /\ dialog_of d = Some (showWarnModal reason riskLevel categories)
  | Throws => True
  end.
Proof.
  unfold dialog_of. destruct (on_decision d) as [es|es|m e|] eqn:E; [..|done]; unfold on_decision in E;
    repeat (case_match; simplify_eq/=; try done); repeat constructor; eauto.
Qed.

Lemma replay_core n text d a g :
  g_open (replay n text d a g) = g_open g /\ g_next (replay n text d a g) = g_next g /\ g_effects (replay n text d a g) = g_effects g /\
  g_granted (replay n text d a g) = <[n := (text, d, a)]> (g_granted g).
Proof.
  unfold replay, onClick. cbn [set_granted set_bypass g_bypass g_button]. destruct (_ && _); [|done]. unfold page_submit. by destruct (g_input _).
Qed.

Lemma intercept_core text g :
  g_effects (intercept text g) = g_effects g /\ g_granted (intercept text g) = g_granted g /\
  (g_open (intercept text g) = g_open g /\ g_next (intercept text g) = g_next g \/
   g_open (intercept text g) = <[g_next g := Scanning text]> (g_open g) /\ g_next (intercept text g) = S (g_next g)).
Proof. unfold intercept, page_submit. destruct (is_empty _); [destruct (g_input g)|]; auto. Qed.

(** An event of the user or of the page *)
Lemma local_core ev g :
  match ev with GScanned _ _ _ | GAnswered _ _ _ _ _ => False | _ => True end ->
  g_effects (ghandle ev g) = g_effects g /\ g_granted (ghandle ev g) = g_granted g /\
  (g_open (ghandle ev g) = g_open g /\ g_next (ghandle ev g) = g_next g \/
   exists text, g_open (ghandle ev g) = <[g_next g := Scanning text]> (g_open g) /\ g_next (ghandle ev g) = S (g_next g)).
Proof.
  assert (forall text, let g' := intercept text g in g_effects g' = g_effects g /\ g_granted g' = g_granted g /\
    (g_open g' = g_open g /\ g_next g' = g_next g \/ exists t, g_open g' = <[g_next g := Scanning t]> (g_open g) /\ g_next g' = S (g_next g))) as Hi.
  { intros text. destruct (intercept_core text g) as (? & ? & [?|?]); cbv zeta; eauto. }
  assert (forall who, let g' := page_submit who g in g_effects g' = g_effects g /\ g_granted g' = g_granted g /\
    (g_open g' = g_open g /\ g_next g' = g_next g \/ exists t, g_open g' = <[g_next g := Scanning t]> (g_open g) /\ g_next g' = S (g_next g))) as Hp.
  { intros who. unfold page_submit. destruct (g_input g); cbv zeta; auto. }
  destruct ev; intros Hev; try done; cbn [ghandle]; [unfold onKeydown|unfold onClick|auto|auto]; repeat (case_match; auto).
Qed.

(** ** The invariant *)

Record ui_ok (u : ui) : Prop := {
  uo_next : forall n ph, g_open (u_gate u) !! n = Some ph -> (n < g_next (u_gate u))%nat;
  uo_dialogs : forall n dlg, u_dialogs u !! n = Some dlg -> exists text d e, g_open (u_gate u) !! n = Some (Asking text d e) /\ dialog_of d = Some dlg;
  uo_asking : forall n text d e, g_open (u_gate u) !! n = Some (Asking text d e) -> u_dialogs u !! n = dialog_of d;
  uo_granted : forall n s d, g_granted (u_gate u) !! n = Some (s, d, Some true) -> exists dlg, (n, dlg, OnProceed) ∈ u_clicks u /\ dialog_of d = Some dlg
}.

(** The effects a turn appends are what is shown. *)
Lemma gate_turn_shows n ev u es :
  g_effects (ghandle ev (u_gate u)) = g_effects (u_gate u) ++ es ->
  gate_turn n ev u = fold_left (mount n) es (mkUi (ghandle ev (u_gate u)) (u_dialogs u) (u_toasts u) (u_next u) (u_clicks u)).
Proof. intros E. unfold gate_turn. by rewrite E, drop_app_length. Qed.

(** The call [n] ends without a dialog of its own and with no consent. *)
Lemma call_closed u u' n :
  ui_ok u -> g_open (u_gate u') = delete n (g_open (u_gate u)) -> g_next (u_gate u') = g_next (u_gate u) -> u_dialogs u' = delete n (u_dialogs u) ->
  u_clicks u ⊆ u_clicks u' ->
  (forall m s d, g_granted (u_gate u') !! m = Some (s, d, Some true) -> g_granted (u_gate u) !! m = Some (s, d, Some true) \/
     exists dlg, (m, dlg, OnProceed) ∈ u_clicks u' /\ dialog_of d = Some dlg) ->
  ui_ok u'.
Proof.
  intros [H1 H2 H3 H4] Eo En Ed Hc Hg. split.
  - rewrite Eo, En. intros m ph [_ Hm]%lookup_delete_Some. by eapply H1.
  - rewrite Eo, Ed. intros m dlg [Hne Hm]%lookup_delete_Some. destruct (H2 m dlg Hm) as (text & d & e & ? & ?). exists text, d, e.
    by rewrite lookup_delete_ne.
  - rewrite Eo, Ed. intros m text d e [Hne Hm]%lookup_delete_Some. rewrite lookup_delete_ne by done. by eapply H3.
  - intros m s d [Hm|?]%Hg; [|done]. destruct (H4 m s d Hm) as (dlg & ? & ?). exists dlg. auto.
Qed.

Lemma scanning_no_dialog u n text : ui_ok u -> g_open (u_gate u) !! n = Some (Scanning text) -> u_dialogs u !! n = None.
Proof. intros Hu Hn. destruct (u_dialogs u !! n) eqn:E; [|done]. destruct (uo_dialogs _ Hu _ _ E) as (? & ? & ? & ? & _). congruence. Qed.

Lemma scanned_ok u n text r : ui_ok u -> g_open (u_gate u) !! n = Some (Scanning text) -> ui_ok (gate_turn n (GScanned n text r) u).
Proof.
  intros Hu Hn. pose proof (scanning_no_dialog u n text Hu Hn) as Hd.
  assert (forall es, g_effects (ghandle (GScanned n text r) (u_gate u)) = g_effects (u_gate u) ++ es -> Forall quiet_effect es ->
    g_open (ghandle (GScanned n text r) (u_gate u)) = delete n (g_open (u_gate u)) -> g_next (ghandle (GScanned n text r) (u_gate u)) = g_next (u_gate u) ->
    (forall m s d, g_granted (ghandle (GScanned n text r) (u_gate u)) !! m = Some (s, d, Some true) -> g_granted (u_gate u) !! m = Some (s, d, Some true)) ->
    ui_ok (gate_turn n (GScanned n text r) u)) as Hquiet.
  { intros es He Hq Ho Hx Hg. rewrite (gate_turn_shows _ _ _ _ He).
    destruct (mount_quiet n es (mkUi (ghandle (GScanned n text r) (u_gate u)) (u_dialogs u) (u_toasts u) (u_next u) (u_clicks u)) Hq) as (E1 & E2 & E3).
    eapply (call_closed u _ n); rewrite ?E1, ?E2, ?E3; cbn [u_gate u_dialogs u_clicks]; [done|done|done|by rewrite delete_id|done|auto]. }
  cbn [ghandle] in *. unfold onScanned in *. destruct r as [d|e].
  2: { eapply Hquiet; cbn; [done|by repeat constructor|done|done|done]. }
  pose proof (on_decision_effects d) as He. destruct (on_decision d) as [es|es|m e|] eqn:Ed.
  - destruct (replay_core n text d None (emit es (set_open (delete n (g_open (u_gate u))) (u_gate u)))) as (Eo & En & Ee & Eg).
    eapply (Hquiet es); [by rewrite Ee|done|by rewrite Eo|by rewrite En|]. intros m s d'. rewrite Eg, lookup_insert. by case_decide.
  - by eapply (Hquiet es).
  - destruct He as (reason & riskLevel & categories & -> & Hdlg). clear Hquiet.
    assert (ghandle (GScanned n text (Ok d)) (u_gate u)
      = emit [WarnModal reason riskLevel categories] (set_open (<[n := Asking text d e]> (g_open (u_gate u))) (u_gate u))) as Eg
      by (cbn [ghandle]; unfold onScanned; by rewrite Ed).
    rewrite (gate_turn_shows _ _ _ [WarnModal reason riskLevel categories]) by by rewrite Eg. rewrite Eg. cbn [fold_left mount].
    destruct Hu as [H1 H2 H3 H4]. split; cbn; [| | |done].
    + intros m ph. rewrite lookup_insert. case_decide; [|apply H1]. subst m. intros _. by eapply H1.
    + intros m dlg. rewrite !lookup_insert. case_decide; [|apply H2]. intros [= <-]. eauto.
    + intros m text' d' e'. rewrite !lookup_insert. case_decide; [|apply H3]. by intros [= <- <- <-].
  - eapply (Hquiet []); cbn; [by rewrite app_nil_r|constructor|done|done|done].
Qed.

Lemma answered_ok u n t proceed dlg text d e :
  ui_ok u -> finish t = Some proceed -> u_dialogs u !! n = Some dlg -> g_open (u_gate u) !! n = Some (Asking text d e) ->
  ui_ok (gate_turn n (GAnswered n text d e proceed)
    (mkUi (u_gate u) (delete n (u_dialogs u)) (u_toasts u) (u_next u) (u_clicks u ++ [(n, dlg, t)]))).
Proof.
  intros Hu Ht Hd Ho. pose proof (uo_asking _ Hu _ _ _ _ Ho) as Hdlg. rewrite Hd in Hdlg. symmetry in Hdlg.
  rewrite (gate_turn_shows _ _ _ [Ack e proceed]); cbn [fold_left mount u_gate ghandle]; unfold onAnswered.
  - destruct proceed.
    + destruct (replay_core n text d (Some true) (emit [Ack e true] (set_open (delete n (g_open (u_gate u))) (u_gate u)))) as (Eo & En & _ & Eg).
      apply (call_closed u _ n); cbn [u_gate u_dialogs u_clicks]; [done|by rewrite Eo|by rewrite En|done|set_solver|]. intros m s d'. rewrite Eg, lookup_insert.
      case_decide; [|by left]. subst m. intros [= <- <-]. right. exists dlg. split; [|done].
      assert (t = OnProceed) as -> by (by destruct t). set_solver.
    + apply (call_closed u _ n); cbn; [done..|set_solver|auto].
  - destruct proceed; [|done]. by destruct (replay_core n text d (Some true) (emit [Ack e true] (set_open (delete n (g_open (u_gate u))) (u_gate u))))
      as (_ & _ & -> & _).
Qed.

Lemma local_ok u k ev :
  match ev with GScanned _ _ _ | GAnswered _ _ _ _ _ => False | _ => True end -> ui_ok u -> ui_ok (gate_turn k ev u).
Proof.
  intros Hev [H1 H2 H3 H4]. destruct (local_core ev (u_gate u) Hev) as (Ee & Eg & Hopen).
  rewrite (gate_turn_shows _ _ _ []) by by rewrite app_nil_r. cbn [fold_left]. split; cbn [u_gate u_dialogs u_clicks]; [| | |by rewrite Eg].
  all: destruct Hopen as [[Eo En]|(text & Eo & En)]; rewrite Eo, ?En; [done|].
  - intros n ph. rewrite lookup_insert. case_decide; [lia|]. intros ?%H1. lia.
  - intros n dlg Hd. destruct (H2 n dlg Hd) as (t & d & e & Ho & ?). exists t, d, e. split; [|done]. rewrite lookup_insert_ne; [done|].
    apply H1 in Ho. lia.
  - intros n t d e. rewrite lookup_insert. case_decide; [done|apply H3].
Qed.

Lemma ustep_ok u ev u' : ui_ok u -> ustep u ev u' -> ui_ok u'.
Proof.
  intros Hu [He]. destruct ev as [ev|n t|k]; cbn [uhandle uenabled] in *.
  - destruct ev; try done; try by apply local_ok. by apply scanned_ok.
  - destruct He as [dlg Hd]. unfold on_click. rewrite Hd. destruct (uo_dialogs _ Hu _ _ Hd) as (text & d & e & Ho & _). rewrite Ho.
    destruct (finish t) as [proceed|] eqn:Ef; [by apply answered_ok|]. destruct Hu as [H1 H2 H3 H4]. split; cbn; [done..|].
    intros m s d' Hm. destruct (H4 m s d' Hm) as (dlg' & ? & ?). exists dlg'. split; [set_solver|done].
  - destruct Hu. by split.
Qed.

Lemma ui_init_ok input button : ui_ok (ui_init input button).
Proof. split; intros *; cbn; by rewrite lookup_empty. Qed.

(** The gate of the page is the gate of [ExtGate]. *)
Lemma mount_gate n es u : u_gate (fold_left (mount n) es u) = u_gate u.
Proof. revert u. induction es as [|e es IH]; intros u; cbn; [done|]. rewrite IH. by destruct e. Qed.

Lemma ustep_gate u ev u' : ui_ok u -> ustep u ev u' -> exists evs, gsteps (u_gate u) evs (u_gate u').
Proof.
  assert (forall n ev v, genabled ev (u_gate v) -> exists evs, gsteps (u_gate v) evs (u_gate (gate_turn n ev v))) as Hturn.
  { intros n ev' v He. exists [ev']. unfold gate_turn. rewrite mount_gate. eapply trace_cons; [by constructor|constructor]. }
  intros Hu [He]. destruct ev as [ev|n t|k]; cbn [uhandle uenabled] in *; [|unfold on_click|by exists []; constructor].
  - apply Hturn. by destruct ev.
  - destruct He as [dlg Hd]. rewrite Hd. destruct (uo_dialogs _ Hu _ _ Hd) as (text & d & e & Ho & _). rewrite Ho.
    destruct (finish t); [|exists []; constructor]. by apply (Hturn n (GAnswered n text d e b) (mkUi _ _ _ _ _)).
Qed.

Lemma usteps_gate u evs u' : ui_ok u -> usteps u evs u' -> ui_ok u' /\ exists gevs, gsteps (u_gate u) gevs (u_gate u').
Proof.
  intros Hu Hs. induction Hs as [u|u ev u1 evs u2 Hstep _ IH]; [split; [done|exists []; constructor]|].
  destruct (ustep_gate _ _ _ Hu Hstep) as [g1 H1]. destruct IH as (? & g2 & H2); [by eapply ustep_ok|]. split; [done|].
  exists (g1 ++ g2). by eapply rtc_trace_app.
Qed.

(** ** Properties *)


(** ** Examples *)

Definition asked_run : list uevent :=
  [UGate (GKeydown true); UGate (GScanned 0 "hi" (Ok warn_decision)); UClick 0 OnCard; UClick 0 OnProceed; UGate GTimer].
Definition after_asked : ui := fold_left (fun u ev => uhandle ev u) asked_run (ui_init (Some "hi") true).

Lemma asked_steps : usteps (ui_init (Some "hi") true) asked_run after_asked.
Proof.
  apply (along_trace uenabled uhandle); [by constructor|]. unfold asked_run.
  repeat (split; [first [exact I|vm_compute; reflexivity|apply (bool_decide_unpack _); vm_compute; exact I]|]). exact I.
Qed.


Example dialog_shown : dialog_of warn_decision
  = Some (mkDialog "This prompt may violate policy" "risk medium" "medium risk" "Submitting this prompt is flagged by your organization." "Policy warning").
Proof. reflexivity. Qed.
