(* ===== verification/CliProcess.v ===== *)
(** * Child processes of the command line tools

    [cli-connectors/framework/src/process]: [executeToolCaptured] of [executor.ts] with the options both executors spawn with, and the
    session of [pty-session.ts] around the gate of [PtyGuard]: the terminal set up and restored, chunks of input that arrive while a line
    is being scanned, output, resizes and the exit of the child.  A rejection of the loop that processes the input is handled by nobody:
    the handler of uncaught exceptions of [signals.ts] ends the process. *)

From S2P Require Import Prelude Json Zod Enums Decision ScanRequest AuditEvent Resilience Framing Transport Client CliInput CliConnector CliFiles AckStore PtyGuard.

(** ** The options of [spawn] *)

Record ExecutionOptions := mkExecOptions {
  eo_executable : string;
  eo_args : list string;
  eo_cwd : option string;
  eo_env : gmap string string;
  eo_stdinData : option string
}.

Inductive stdio := Inherit | Piped | Ignored.
Record SpawnOptions := mkSpawnOptions { so_stdio : stdio * stdio * stdio; so_env : gmap string string; so_cwd : option string }.

(** [if (options.cwd)], and [{ ...process.env, ...options.env }] *)
Definition spawn_options (files : stdio * stdio * stdio) (env : gmap string string) (o : ExecutionOptions) : SpawnOptions :=
  mkSpawnOptions files (eo_env o ∪ env) (if truthy (eo_cwd o) then eo_cwd o else None).
Definition inherited_options (env : gmap string string) (o : ExecutionOptions) : SpawnOptions :=
  spawn_options (match eo_stdinData o with Some _ => Piped | None => Inherit end, Inherit, Inherit) env o.
Definition captured_options : gmap string string -> ExecutionOptions -> SpawnOptions := spawn_options (Ignored, Piped, Piped).

(** ** [executeToolCaptured] *)

Inductive child_event :=
| OutData (b : chars)
| ErrData (b : chars)
| ExitEv (code : option Z) (signal : option string)
| ErrorEv (message : string).

Record captured := mkCaptured { cp_exitCode : Z; cp_stdout : string; cp_stderr : string; cp_started : bool }.

(** The variables of the executor, and what its promise was resolved with *)
Record capture := mkCapture { k_stdout : string; k_stderr : string; k_result : option captured }.

(** A promise is resolved once. *)
Definition resolve_capture (r : captured) (k : capture) : capture :=
  mkCapture (k_stdout k) (k_stderr k) (match k_result k with Some r0 => Some r0 | None => Some r end).

Definition on_child_event (k : capture) (ev : child_event) : capture :=
  match ev with
  | OutData b => mkCapture (k_stdout k +:+ buffer_text b) (k_stderr k) (k_result k)
  | ErrData b => mkCapture (k_stdout k) (k_stderr k +:+ buffer_text b) (k_result k)
  | ExitEv code signal => resolve_capture (mkCaptured (exit_code_of code signal) (k_stdout k) (k_stderr k) true) k
  | ErrorEv message => resolve_capture (mkCaptured 1 (k_stdout k) message false) k
  end.

(** The events of the child, or the message of what [spawn] threw; [None] is a promise not resolved yet. *)
Definition executeToolCaptured (spawned : result string (list child_event)) : option captured :=
  match spawned with
  | Err message => Some (mkCaptured 1 "" message false)
  | Ok evs => k_result (fold_left on_child_event evs (mkCapture "" "" None))
  end.

(** ** [runPtySession] *)

(** The terminal: [process.stdin] and the resize listener of [process.stdout] *)
Record terminal := mkTerminal { t_isTTY : bool; t_isRaw : bool; t_flowing : bool; t_listening : bool; t_resizing : bool }.

Definition setRawMode (b : bool) (t : terminal) : terminal := mkTerminal (t_isTTY t) b (t_flowing t) (t_listening t) (t_resizing t).
(** [if (stdin.isTTY) stdin.setRawMode(true); stdin.resume(); process.stdout.on('resize', …); stdin.on('data', …)] *)
Definition set_up (t : terminal) : terminal :=
  let t1 := if t_isTTY t then setRawMode true t else t in mkTerminal (t_isTTY t1) (t_isRaw t1) true true true.
(** The handler of the exit *)
Definition tear_down (wasRaw : bool) (t : terminal) : terminal :=
  let t1 := if t_isTTY t && negb wasRaw then setRawMode false t else t in mkTerminal (t_isTTY t1) (t_isRaw t1) false false false.

(** [typeof signal === 'number' && signal > 0 ? 128 + signal : exitCode] *)
Definition pty_exit_code (exitCode : Z) (signal : option Z) : Z :=
  match signal with Some s => if 0 <? s then 128 + s else exitCode | None => exitCode end.

Definition columns_or (c : option Z) : Z := default 80 c.
Definition rows_or (r : option Z) : Z := default 24 r.

Section pty_session.
Context `{Zod} {T : Type} `{EventLoop T} (tr : Transport T) (timeoutMs : Z) (uuid : nat -> string) (jitter : nat -> Z).
Context {disk : AckDisk} (sha256 : string -> string) (tool : ToolDefinition) (user : UserContext) (repo : option RepoContext).

(** [queue] and [draining] are the session's, the second with what the slice under way comes to; [wasRaw] is what raw mode was; [crashed]
    is the uncaught rejection that has ended the process.  The rest
    records what happened: the chunks that were read, the slices that were processed and when, what was written to the screen, the sizes
    the child got. *)
Record live := mkLive {
  v_guard : pty T;
  v_queue : list chars;
  v_draining : option (reply unit);
  v_terminal : terminal;
  v_wasRaw : bool;
  v_code : option Z;
  v_typed : list chars;
  v_slices : list (Z * chars);
  v_screen : list string;
  v_sizes : list (Z * Z);
  v_crashed : option error
}.

Definition slice_at (now : Z) : chars -> async (pty T) unit := processSlice tr timeoutMs uuid jitter sha256 now tool user repo.

(** The [while] loop of [drain] takes all that is pending. *)
Definition next_slice (now : Z) (v : live) : live :=
  match v_queue v with
  | [] => mkLive (v_guard v) [] None (v_terminal v) (v_wasRaw v) (v_code v) (v_typed v) (v_slices v) (v_screen v) (v_sizes v) (v_crashed v)
  | _ =>
      let slice := List.concat (v_queue v) in
      let '(r, g) := slice_at now slice (v_guard v) in
      mkLive g [] (Some r) (v_terminal v) (v_wasRaw v) (v_code v) (v_typed v) (v_slices v ++ [(now, slice)]) (v_screen v) (v_sizes v) (v_crashed v)
  end.

Definition onStdin (now : Z) (chunk : chars) (v : live) : live :=
  let v1 := mkLive (v_guard v) (v_queue v ++ [chunk]) (v_draining v) (v_terminal v) (v_wasRaw v) (v_code v) (v_typed v ++ [chunk]) (v_slices v)
              (v_screen v) (v_sizes v) (v_crashed v) in
  match v_draining v with None => next_slice now v1 | Some _ => v1 end.

(** [await processSlice(slice)] is over: the loop goes on, or the rejection ends it, which nobody handles ([void drain()]). *)
Definition on_slice (now : Z) (v : live) : live :=
  match v_draining v with
  | Some (Settles _ (Ok _)) => next_slice now v
  | Some (Settles _ (Err e)) =>
      mkLive (v_guard v) (v_queue v) None (v_terminal v) (v_wasRaw v) (v_code v) (v_typed v) (v_slices v) (v_screen v) (v_sizes v) (Some e)
  | _ => v
  end.

Definition onResize (columns rows : option Z) (v : live) : live :=
  mkLive (v_guard v) (v_queue v) (v_draining v) (v_terminal v) (v_wasRaw v) (v_code v) (v_typed v) (v_slices v) (v_screen v)
    (v_sizes v ++ [(columns_or columns, rows_or rows)]) (v_crashed v).

Definition onExit (exitCode : Z) (signal : option Z) (v : live) : live :=
  mkLive (v_guard v) (v_queue v) (v_draining v) (tear_down (v_wasRaw v) (v_terminal v)) (v_wasRaw v)
    (match v_code v with Some c => Some c | None => Some (pty_exit_code exitCode signal) end) (v_typed v) (v_slices v) (v_screen v) (v_sizes v) (v_crashed v).

Definition onData (data : string) (v : live) : live :=
  mkLive (v_guard v) (v_queue v) (v_draining v) (v_terminal v) (v_wasRaw v) (v_code v) (v_typed v) (v_slices v) (v_screen v ++ [data]) (v_sizes v) (v_crashed v).

(** The session once the pseudo-terminal exists, of the given size; a [spawnPty] that throws leaves the terminal as it was. *)
Definition runPtySession (spawned : result error unit) (columns rows : option Z) (g : pty T) (t : terminal) : result error live :=
  match spawned with
  | Err e => Err e
  | Ok _ => Ok (mkLive g [] None (set_up t) (t_isRaw t) None [] [] [] [(columns_or columns, rows_or rows)] None)
  end.

Inductive pty_event :=
| VStdin (now : Z) (chunk : chars)
| VSlice (now : Z)
| VData (data : string)
| VResize (columns rows : option Z)
| VExit (exitCode : Z) (signal : option Z).

Definition vhandle (ev : pty_event) (v : live) : live :=
  match ev with
  | VStdin now chunk => onStdin now chunk v
  | VSlice now => on_slice now v
  | VData data => onData data v
  | VResize columns rows => onResize columns rows v
  | VExit exitCode signal => onExit exitCode signal v
  end.

(** The terminal sends to its listeners; the child exits once, and is silent from then on; nothing happens in a process that has ended. *)
Definition venabled (ev : pty_event) (v : live) : Prop :=
  v_crashed v = None /\
  match ev with
  | VStdin _ _ => t_listening (v_terminal v) = true
  | VSlice _ => exists t r, v_draining v = Some (Settles t r)
  | VData _ => v_code v = None
  | VResize _ _ => t_resizing (v_terminal v) = true
  | VExit _ _ => v_code v = None
  end.

Inductive vstep (v : live) (ev : pty_event) : live -> Prop :=
| vstep_intro : venabled ev v -> vstep v ev (vhandle ev v).

Definition vsteps : live -> list pty_event -> live -> Prop := rtc_trace vstep.

(** Slices one after the other, each at its time *)
Fixpoint drain_at (slices : list (Z * chars)) : async (pty T) unit :=
  match slices with [] => mret tt | (now, b) :: bs => _ ← slice_at now b; drain_at bs end.
End pty_session.

(** ** Capturing *)

Definition is_data (ev : child_event) : bool := match ev with OutData _ | ErrData _ => true | _ => false end.
Definition out_text (evs : list child_event) : string := foldr (fun ev s => match ev with OutData b => buffer_text b +:+ s | _ => s end) "" evs.
Definition err_text (evs : list child_event) : string := foldr (fun ev s => match ev with ErrData b => buffer_text b +:+ s | _ => s end) "" evs.

Lemma capture_data evs k :
  forallb is_data evs = true -> fold_left on_child_event evs k = mkCapture (k_stdout k +:+ out_text evs) (k_stderr k +:+ err_text evs) (k_result k).
Proof.
  revert k. induction evs as [|ev evs IH]; intros [o e r] Hd; cbn in *; [by rewrite !append_nil_r|].
  apply andb_true_iff in Hd as [He Hd]. rewrite IH by done. by destruct ev; cbn; rewrite ?append_assoc.
Qed.

Lemma capture_settled evs k r : k_result k = Some r -> k_result (fold_left on_child_event evs k) = Some r.
Proof. revert k. induction evs as [|ev evs IH]; intros k Hk; cbn; [done|]. apply IH. destruct ev; cbn; by rewrite ?Hk. Qed.

(** What an exit or an error settles the capture with, after the events before it *)
Definition settled_by (ev : child_event) (before : list child_event) : captured :=
  match ev with
  | ErrorEv message => mkCaptured 1 (out_text before) message false
  | ExitEv code signal => mkCaptured (exit_code_of code signal) (out_text before) (err_text before) true
  | OutData _ | ErrData _ => mkCaptured 1 "" "" false
  end.

(** The first exit or error settles the capture, with the output read by then; what the pipes still hold is not in it. *)
Theorem captured_at_exit before ev after :
  forallb is_data before = true -> is_data ev = false -> executeToolCaptured (Ok (before ++ ev :: after)) = Some (settled_by ev before).
Proof.
  intros Hb He. destruct ev; try done; cbn [executeToolCaptured]; rewrite fold_left_app, (capture_data before) by done; cbn [fold_left];
    by apply capture_settled.
Qed.

(** ** The session *)

(** A promise that is rejected with errors of a kind only *)
Definition rejects_only {St A} (Q : error -> Prop) (m : async St A) : Prop := forall s t e, (m s).1 = Settles t (Err e) -> Q e.

Section rejections.
Context {St : Type} (Q : error -> Prop).

Lemma rejects_bind {A B} (m : async St A) (k : A -> async St B) :
  rejects_only Q m -> (forall a, rejects_only Q (k a)) -> rejects_only Q (m ≫= k).
Proof.
  intros Hm Hk s t e. unfold mbind, async_bind. specialize (Hm s). destruct (m s) as [[t1 [a|e1]|] s1]; cbn in *; [| |done].
  - specialize (Hk a s1). destruct (k a s1) as [[t2 r2|] s2]; cbn in *; [|done]. intros [= _ ->]. by eapply Hk.
  - intros [= _ <-]. by eapply Hm.
Qed.
Lemma rejects_ret {A} (a : A) : rejects_only Q (mret a : async St A).
Proof. by intros s t e. Qed.
Lemma rejects_modify (f : St -> St) : rejects_only Q (modify f).
Proof. by intros s t e. Qed.
End rejections.

Section pty_session_lemmas.
Context `{Zod} {T : Type} `{EventLoop T} (tr : Transport T) (timeoutMs : Z) (uuid : nat -> string) (jitter : nat -> Z).
Context {disk : AckDisk} (sha256 : string -> string) (tool : ToolDefinition) (user : UserContext) (repo : option RepoContext).

Local Abbreviation slice' := (slice_at tr timeoutMs uuid jitter sha256 tool user repo).
Local Abbreviation drain' := (drain_at tr timeoutMs uuid jitter sha256 tool user repo).

Lemma gate_rejects now txt : rejects_only store_error (gateLine tr timeoutMs uuid jitter sha256 now tool user repo txt).
Proof.
  assert (forall str (b : bool), rejects_only store_error (_ ← writeOut (T := T) str; mret b)) as Hout.
  { intros. apply rejects_bind; [apply rejects_modify|intros; apply rejects_ret]. }
  unfold gateLine. apply rejects_bind; [apply rejects_modify|]. intros _. apply rejects_bind.
  { intros s t e. unfold inspect. by destruct (on_policy _ s) as [[]]. }
  intros [d|e]; [|apply Hout]. destruct (action d); [apply rejects_ret| |apply Hout]. destruct (warnTier _); [apply Hout| |apply Hout].
  apply rejects_bind.
  { intros s t e. unfold acknowledge. pose proof (consume_throws (ackKey sha256 ("pty:" +:+ tool_name tool) txt) now (p_acks s) e) as Hc.
    destruct (consumeOrRecordAck _ _ _) as [x f]. intros [= _ ->]. auto. }
  intros []; [|apply Hout]. apply rejects_bind; [apply rejects_modify|]. intros _.
  apply rejects_bind; [by intros s t e|intros; apply rejects_ret].
Qed.

(** A slice is rejected only when the acknowledgements cannot be written: a scan that fails blocks its line. *)
Lemma slice_rejects now b : rejects_only store_error (slice' now b).
Proof.
  assert (forall c, rejects_only store_error (reconstruct (T := T) c)) as Hr by (intros c s t e; unfold reconstruct; by destruct (recon_push _ _)).
  assert (forall c, rejects_only store_error (forward (T := T) c)) as Hf.
  { intros [|x c]; [apply rejects_ret|]. apply rejects_bind; [apply Hr|intros; apply rejects_modify]. }
  unfold slice_at, processSlice. generalize (S (List.length b)). intros fuel. revert b.
  induction fuel as [|fuel IH]; intros b; [apply rejects_ret|]. cbn [process_loop].
  destruct (split_newline b) as [[[x nl] y]|]; [|apply Hf]. apply rejects_bind; [apply Hf|]. intros _.
  apply rejects_bind; [|intros; apply IH]. unfold on_newline. apply rejects_bind; [apply Hr|]. intros lines.
  destruct (nothing_to_scan _); [apply rejects_modify|]. apply rejects_bind; [apply gate_rejects|intros; apply rejects_modify].
Qed.

Lemma drain_rejects l : rejects_only store_error (drain' l).
Proof. induction l as [|[now b] l IH]; [apply rejects_ret|]. apply rejects_bind; [apply slice_rejects|]. intros _. apply IH. Qed.

(** Slices one after the other meet the specification of the gate. *)
Lemma drain_at_meets l g : meets tr timeoutMs uuid jitter sha256 tool user repo (drain' l) (List.concat (map snd l)) g.
Proof.
  revert g. induction l as [|[now b] l IH]; intros g; cbn [drain_at map List.concat snd].
  - exists []. rewrite app_nil_r. split; [done|constructor].
  - apply meets_bind; [apply slice_meets|apply IH].
Qed.

Lemma drain_snoc l now b g t g1 r g2 :
  drain' l g = (Settles t (Ok tt), g1) -> slice' now b g1 = (r, g2) ->
  exists r', drain' (l ++ [(now, b)]) g = (r', g2) /\ match r, r' with Settles _ a, Settles _ a' => a = a' | Hangs, Hangs => True | _, _ => False end.
Proof.
  revert g t. induction l as [|[n c] l IH]; intros g t Hd Hs; [rewrite app_nil_l|rewrite <- app_comm_cons]; cbn [drain_at] in *.
  - injection Hd as <- <-. unfold mbind, async_bind. rewrite Hs. destruct r as [t2 [[]|e]|]; (eexists; split; [reflexivity|done]).
  - unfold mbind, async_bind in *. destruct (slice' n c g) as [[t1 [[]|e]|] g'] eqn:E1; try by inversion Hd.
    destruct (drain' l g') as [[t2 r2|] g''] eqn:E2; [|by inversion Hd]. injection Hd as Ht -> ->.
    destruct (IH g' t2 E2 Hs) as (r' & Hr' & Hm). rewrite Hr'. exists (delayed t1 r'). split; [done|]. by destruct r'.
Qed.

(** The terminal as it was found, with nobody reading it *)
Definition restored (t : terminal) : terminal := mkTerminal (t_isTTY t) (t_isRaw t) false false false.

Lemma tear_down_set_up t : tear_down (t_isRaw t) (set_up t) = restored t.
Proof. by destruct t as [[] [] ? ? ?]. Qed.

(** Two promises settle alike. *)
Definition settle_alike (x y : reply unit) : Prop :=
  match x, y with Settles _ a, Settles _ b => a = b | Hangs, Hangs => True | _, _ => False end.

(** What the slices taken so far come to *)
Definition progress (v : @live T) : reply unit :=
  match v_crashed v, v_draining v with Some e, _ => Settles 0 (Err e) | None, Some r => r | None, None => Settles 0 (Ok tt) end.

Record live_ok (g0 : pty T) (t0 : terminal) (v : @live T) : Prop := {
  lo_order : List.concat (map snd (v_slices v)) ++ List.concat (v_queue v) = List.concat (v_typed v);
  lo_guard : exists rs, drain' (v_slices v) g0 = (rs, v_guard v) /\ settle_alike (progress v) rs;
  lo_queue : v_queue v <> [] -> v_draining v <> None \/ v_crashed v <> None;
  lo_raw : v_wasRaw v = t_isRaw t0;
  lo_terminal : v_terminal v = match v_code v with None => set_up t0 | Some _ => restored t0 end
}.

Lemma next_slice_ok g0 t0 now v t :
  List.concat (map snd (v_slices v)) ++ List.concat (v_queue v) = List.concat (v_typed v) ->
  drain' (v_slices v) g0 = (Settles t (Ok tt), v_guard v) -> v_crashed v = None -> v_wasRaw v = t_isRaw t0 ->
  v_terminal v = match v_code v with None => set_up t0 | Some _ => restored t0 end ->
  live_ok g0 t0 (next_slice tr timeoutMs uuid jitter sha256 tool user repo now v).
Proof.
  intros Ho Hg Hc Hr Ht. unfold next_slice. destruct (v_queue v) as [|c q] eqn:Eq.
  - split; cbn; [done| |done|done|done]. eexists. split; [exact Hg|]. unfold progress. cbn. by rewrite Hc.
  - rewrite <- Eq. destruct (slice' now (List.concat (v_queue v)) (v_guard v)) as [r g] eqn:Es. split; cbn; [| |by left|done|done].
    + rewrite map_app, concat_app. cbn. by rewrite !app_nil_r, Eq.
    + destruct (drain_snoc _ _ _ _ _ _ _ _ Hg Es) as (r' & Hd & Hm). exists r'. split; [done|]. unfold progress. cbn. by rewrite Hc.
Qed.

Lemma vstep_ok g0 t0 v ev v' : live_ok g0 t0 v -> vstep tr timeoutMs uuid jitter sha256 tool user repo v ev v' -> live_ok g0 t0 v'.
Proof.
  intros Hv [[Hc He]]. destruct ev as [now chunk|now|data|columns rows|exitCode signal]; cbn [vhandle] in *.
  - destruct Hv as [Ho (rs & Hg & Hd) _ Hr Ht]. unfold progress in Hd. rewrite Hc in Hd.
    assert (List.concat (map snd (v_slices v)) ++ List.concat (v_queue v ++ [chunk])
      = List.concat (v_typed v ++ [chunk])) as Ho' by (rewrite !concat_app, app_assoc; by rewrite Ho).
    unfold onStdin. destruct (v_draining v) as [r|] eqn:Ed.
    + split; cbn; [done| |by left|done|done]. exists rs. split; [done|]. unfold progress. cbn. by rewrite Hc.
    + destruct rs as [t1 rr|]; [|done]. cbn in Hd. subst rr. by eapply next_slice_ok.
  - destruct He as (t & r & Ed). destruct Hv as [Ho (rs & Hg & Hd) Hq Hr Ht]. unfold progress in Hd. rewrite Hc, Ed in Hd.
    unfold on_slice. rewrite Ed. destruct rs as [t' r'|]; [|done]. cbn in Hd. subst r'. destruct r as [[]|e]; [by eapply next_slice_ok|].
    split; cbn; [done| |by right|done|done]. eexists. split; [exact Hg|done].
  - by destruct Hv; split.
  - by destruct Hv; split.
  - destruct Hv as [Ho Hg Hq Hr Ht]. rewrite He in Ht. split; cbn; [done|done|done|done|]. by rewrite He, Hr, Ht, tear_down_set_up.
Qed.

Lemma vsteps_ok g t columns rows evs v0 v :
  runPtySession (Ok tt) columns rows g t = Ok v0 -> vsteps tr timeoutMs uuid jitter sha256 tool user repo v0 evs v -> live_ok g t v.
Proof.
  intros [= <-] Hs. eapply rtc_trace_invariant; [|..|exact Hs].
  - intros a e b. apply vstep_ok.
  - split; cbn; [done| |done|done|done]. by exists (Settles 0 (Ok tt)).
Qed.

Lemma typed_of_events v0 evs v :
  vsteps tr timeoutMs uuid jitter sha256 tool user repo v0 evs v ->
  v_typed v = v_typed v0 ++ omap (fun ev => match ev with VStdin _ chunk => Some chunk | _ => None end) evs.
Proof.
  assert (forall now v, v_typed (next_slice tr timeoutMs uuid jitter sha256 tool user repo now v) = v_typed v) as Hn.
  { intros now v1. unfold next_slice. destruct (v_queue v1); [done|]. by destruct (slice' _ _ _). }
  induction 1 as [v1|v1 ev v2 evs v3 [He] _ IH]; [by rewrite app_nil_r|]. rewrite IH. destruct ev as [now chunk|now| | |]; cbn [vhandle omap list_omap].
  - unfold onStdin. destruct (v_draining v1); rewrite ?Hn; cbn; by rewrite <- app_assoc.
  - unfold on_slice. by destruct (v_draining v1) as [[? []|]|]; rewrite ?Hn.
  - done.
  - done.
  - done.
Qed.
End pty_session_lemmas.

(** ** Properties *)

Section pty_properties.
Context `{Zod} {T : Type} `{EventLoop T} (tr : Transport T) (timeoutMs : Z) (uuid : nat -> string) (jitter : nat -> Z).
Context {disk : AckDisk} (sha256 : string -> string) (tool : ToolDefinition) (user : UserContext) (repo : option RepoContext).

End pty_properties.

(** ** Examples *)

Abbreviation sample_vsteps := (vsteps MockTransport 2000 (fun _ => "u") (fun _ => 0) (fun s => s) sample_tool (mkUser "u" RoleUser []) None).
Abbreviation sample_vhandle := (vhandle MockTransport 2000 (fun _ => "u") (fun _ => 0) (fun s => s) sample_tool (mkUser "u" RoleUser []) None).
Definition cooked : terminal := mkTerminal true false false false false.
Definition opened : @live MockState := mkLive (sample_pty mock_allow) [] None (set_up cooked) false None [] [] [] [(80, 24)] None.

(** Keys typed while the first line is being scanned; then the child exits on a signal. *)
Definition typed_ahead : list pty_event :=
  [VStdin 1000 (to_chars "hello" ++ [chr 13]); VStdin 1001 (to_chars "lo"); VStdin 1002 (to_chars "ok" ++ [chr 13]); VData "thinking"; VSlice 1050;
   VResize (Some 120) None; VSlice 1090; VExit 0 (Some 15)].
Definition after_typed : live := fold_left (fun v ev => sample_vhandle ev v) typed_ahead opened.

Lemma typed_ahead_steps : sample_vsteps opened typed_ahead after_typed.
Proof.
  apply (along_trace venabled sample_vhandle); [by constructor|]. unfold typed_ahead.
  repeat (split; [split; [vm_compute; reflexivity|first [vm_compute; reflexivity|do 2 eexists; vm_compute; reflexivity]]|]). exact I.
Qed.


Example typed_ahead_gated : p_effects (v_guard after_typed) =
  [ChildWrite (to_chars "hello"); Scanned (sample_buildRequest "hello"); ChildWrite [chr 13];
   ChildWrite (to_chars "look"); Scanned (sample_buildRequest "look"); ChildWrite [chr 13]].
Proof. vm_compute. reflexivity. Qed.

(** A line the agent warns of, on a disk that is full: the answer of the store is an error that nobody handles, and the process ends; the
    child has got neither the carriage return nor the clear sequence. *)
Definition mock_warn : MockState :=
  respondWith Method.SubmitScan
    (encodeDecision (mkDecision "r" Warn Medium Public None None None [] [] "careful" (NInt 1) (NInt 40) false)) mock_new.
Definition full_disk : AckDisk := fun _ f => Some (OtherError "Error" "ENOSPC", f).

Example store_unwritable_ends_session :
  let v := fold_left (fun v ev => vhandle (disk := full_disk) MockTransport 2000 (fun _ => "u") (fun _ => 0) (fun s => s) sample_tool
                        (mkUser "u" RoleUser []) None ev v)
             [VStdin 1000 (to_chars "hello" ++ [chr 13]); VSlice 1050]
             (mkLive (sample_pty mock_warn) [] None (set_up cooked) false None [] [] [] [(80, 24)] None) in
  v_crashed v = Some (OtherError "Error" "ENOSPC") /\
  p_effects (v_guard v) = [ChildWrite (to_chars "hello"); Scanned (sample_buildRequest "hello")].
Proof. vm_compute. done. Qed.

(** Output that is read after the exit is lost, and a character that arrives in two chunks is spoilt. *)
Example output_after_exit_lost :
  executeToolCaptured (Ok [OutData (to_chars "one "); ExitEv (Some 0) None; OutData (to_chars "two")]) = Some (mkCaptured 0 "one " "" true).
Proof. reflexivity. Qed.
Example split_character :
  executeToolCaptured (Ok [OutData [chr 195]; OutData [chr 169]; ExitEv (Some 0) None])
  <> executeToolCaptured (Ok [OutData [chr 195; chr 169]; ExitEv (Some 0) None]).
Proof. vm_compute. discriminate. Qed.
