(* ===== verification/ExtSites.v ===== *)
(** * The pages of the sites

    [browser-connectors/chrome/extension/src]: the selectors of [adapters/*.ts], [queryFirst] and [readText] of [adapters/common.ts], and
    the listeners of [content/gate.ts] on a document.  [ExtGate] has the gate on what an adapter reads of the page, the text of the input
    and whether there is a send button; here the page is a tree of elements, an event has a target, and what the site sends is what the
    scripts of the site take from the document, a parameter.  The gate on a document is shown to refine the gate of [ExtGate] for sites
    that send what is in the input the adapter finds. *)

From S2P Require Import Prelude Json Resilience CliFiles ExtTransport ExtGate ExtUpload.

(** ** Documents *)

(** An element is an object ([n] is its identity) with a tag, attributes and a value; [html]: it is an [HTMLElement], and not of SVG. *)
Inductive node :=
| Text (s : string)
| Element (n : nat) (html : bool) (tag : string) (attrs : list (string * string)) (value : string) (kids : list node).

Fixpoint textContent (x : node) : string :=
  match x with
  | Text s => s
  | Element _ _ _ _ _ kids => foldr (fun k s => textContent k +:+ s) "" kids
  end.

(** The elements in document order, each with its ancestors, the nearest first *)
Fixpoint walk (path : list node) (x : node) : list (list node * node) :=
  match x with
  | Text _ => []
  | Element _ _ _ _ _ kids => (path, x) :: flat_map (walk (x :: path)) kids
  end.

Definition node_id (x : node) : option nat := match x with Element n _ _ _ _ _ => Some n | Text _ => None end.
Definition is_html (x : node) : bool := match x with Element _ html _ _ _ _ => html | Text _ => false end.
Definition tag_of (x : node) : string := match x with Element _ _ tag _ _ _ => tag | Text _ => "" end.
Definition attr (k : string) (x : node) : option string := match x with Element _ _ _ attrs _ _ => snd <$> List.find (fun kv => String.eqb kv.1 k) attrs | Text _ => None end.

(** [x.contains(target)] *)
Definition contains (x : node) (target : nat) : bool := existsb (fun pe => bool_decide (node_id pe.2 = Some target)) (walk [] x).

(** ** Selectors *)

Inductive simple :=
| SId (v : string)
| SClass (v : string)
| SAttr (k : string)
| SAttrIs (k v : string)
| SAttrHas (k v : string).           (* the substring test that ignores case *)

(** Compounds with the descendant combinator between them *)
Record compound := mkCompound { c_tag : option string; c_tests : list simple }.
Definition selector : Type := list compound.

(** ASCII white space, which separates classes *)
Definition ascii_ws (c : ascii) : bool :=
  let n := code c in (n =? 32) || (n =? 9) || (n =? 10) || (n =? 12) || (n =? 13).

Fixpoint words_go (w s : chars) : list string :=
  match s with
  | [] => match w with [] => [] | _ => [of_chars (rev w)] end
  | c :: s' => if ascii_ws c then match w with [] => words_go [] s' | _ => of_chars (rev w) :: words_go [] s' end else words_go (c :: w) s'
  end.
Definition class_list (x : node) : list string := words_go [] (to_chars (default "" (attr "class" x))).

Definition simple_matches (t : simple) (x : node) : bool :=
  match t with
  | SId v => bool_decide (attr "id" x = Some v)
  | SClass v => bool_decide (v ∈ class_list x)
  | SAttr k => bool_decide (is_Some (attr k x))
  | SAttrIs k v => bool_decide (attr k x = Some v)
  | SAttrHas k v => match attr k x with Some w => js_includes (to_lower w) (to_lower v) | None => false end
  end.

Definition compound_matches (c : compound) (x : node) : bool :=
  match c_tag c with Some t => String.eqb t (tag_of x) | None => true end && forallb (fun t => simple_matches t x) (c_tests c).

(** The compounds before the last, from the right, among the ancestors *)
Fixpoint among (cs : list compound) (path : list node) : bool :=
  match cs, path with
  | [], _ => true
  | _ :: _, [] => false
  | c :: cs', x :: path' => (compound_matches c x && among cs' path') || among cs path'
  end.

Definition selects (sel : selector) (path : list node) (x : node) : bool :=
  match rev sel with [] => false | c :: cs => compound_matches c x && among cs path end.

(** [document.querySelector] *)
Definition querySelector (sel : selector) (doc : node) : option node :=
  snd <$> List.find (fun pe => selects sel pe.1 pe.2) (walk [] doc).

(** As it is written *)
Definition quoted (v : string) : string := of_chars [chr 34] +:+ v +:+ of_chars [chr 34].
Definition show_simple (t : simple) : string :=
  match t with
  | SId v => "#" +:+ v
  | SClass v => "." +:+ v
  | SAttr k => "[" +:+ k +:+ "]"
  | SAttrIs k v => "[" +:+ k +:+ "=" +:+ quoted v +:+ "]"
  | SAttrHas k v => "[" +:+ k +:+ "*=" +:+ quoted v +:+ " i]"
  end.
Definition show_compound (c : compound) : string := default "" (c_tag c) +:+ js_join "" (map show_simple (c_tests c)).
Definition show_selector (sel : selector) : string := js_join " " (map show_compound sel).

(** ** [common.ts] *)

Fixpoint queryFirst (selectors : list selector) (doc : node) : option node :=
  match selectors with
  | [] => None
  | sel :: rest =>
      match querySelector sel doc with
      | Some e => if is_html e then Some e else queryFirst rest doc
      | None => queryFirst rest doc
      end
  end.

Definition NBSP : ascii := chr 160.
Definition readText (input : node) : string :=
  match input with
  | Element _ _ tag _ value _ =>
      if String.eqb tag "textarea" || String.eqb tag "input" then value
      else js_trim (of_chars (map (fun c => if Ascii.eqb c NBSP then " "%char else c) (to_chars (textContent input))))
  | Text s => s
  end.

(** ** The adapters *)

Record site := mkSite { site_adapter : SiteAdapter; site_INPUT : list selector; site_SEND : list selector }.

Definition one (tag : string) (tests : list simple) : compound := mkCompound (if is_empty tag then None else Some tag) tests.
Definition editable : simple := SAttrIs "contenteditable" "true".

Definition openai : site := mkSite openaiAdapter
  [[one "" [SId "prompt-textarea"]]; [one "div" [editable; SId "prompt-textarea"]]; [one "textarea" [SAttr "data-id"]]; [one "main" []; one "textarea" []]]
  [[one "button" [SAttrIs "data-testid" "send-button"]]; [one "button" [SAttrHas "aria-label" "Send"]]].
Definition anthropic : site := mkSite anthropicAdapter
  [[one "div" [editable; SClass "ProseMirror"]]; [one "div" [SClass "ProseMirror"; editable]]; [one "div" [editable]]]
  [[one "button" [SAttrIs "aria-label" "Send Message"]]; [one "button" [SAttrHas "aria-label" "Send"]]].
Definition gemini : site := mkSite geminiAdapter
  [[one "rich-textarea" []; one "div" [SClass "ql-editor"; editable]]; [one "div" [SClass "ql-editor"; editable]]; [one "div" [editable]]]
  [[one "button" [SAttrHas "aria-label" "Send"]]; [one "button" [SClass "send-button"]]; [one "button" [SAttrHas "mattooltip" "Send"]]].
Definition perplexity : site := mkSite perplexityAdapter
  [[one "textarea" [SAttrHas "placeholder" "Ask"]]; [one "main" []; one "textarea" []]; [one "textarea" []]; [one "div" [editable]]]
  [[one "button" [SAttrHas "aria-label" "Submit"]]; [one "button" [SAttrHas "aria-label" "Send"]]].
Definition SITES : list site := [openai; anthropic; gemini; perplexity].

Definition getInput (st : site) (doc : node) : option node := queryFirst (site_INPUT st) doc.
Definition findSendButton (st : site) (doc : node) : option node := queryFirst (site_SEND st) doc.

(** ** The gate on a document *)

Inductive dom_event := Keydown (ke : KeyboardEvent) (target : nat) | Click (target : nat).

Record dgate := mkDGate {
  d_bypass : bool;
  d_timers : nat;
  d_doc : node;
  d_open : gmap nat phase;
  d_next : nat;
  d_scans : list string;
  d_effects : list gate_effect;
  d_window : option nat;
  d_granted : gmap nat (string * xdecision * option bool);
  d_page : list (string * option nat)
}.

Section dom_gate.
Context (st : site).
(** The scripts of the site: the editor whose content they send when an event reaches them *)
Context (sends : node -> dom_event -> option node).

Definition dgate_init (doc : node) : dgate := mkDGate false 0 doc ∅ 0 [] [] None ∅ [].

Definition dset_open o d := mkDGate (d_bypass d) (d_timers d) (d_doc d) o (d_next d) (d_scans d) (d_effects d) (d_window d) (d_granted d) (d_page d).
Definition demit (l : list gate_effect) (d : dgate) : dgate :=
  mkDGate (d_bypass d) (d_timers d) (d_doc d) (d_open d) (d_next d) (d_scans d) (d_effects d ++ l) (d_window d) (d_granted d) (d_page d).

(** The event reaches the site. *)
Definition site_gets (ev : dom_event) (who : option nat) (d : dgate) : dgate :=
  match sends (d_doc d) ev with
  | Some editor =>
      mkDGate (d_bypass d) (d_timers d) (d_doc d) (d_open d) (d_next d) (d_scans d) (d_effects d) (d_window d) (d_granted d)
        (d_page d ++ [(readText editor, who)])
  | None => d
  end.

(** [intercept]: an event that is not left to the site is stopped, and the prompt is scanned. *)
Definition dintercept (ev : dom_event) (input : node) (d : dgate) : dgate :=
  let text := readText input in
  if is_empty (js_trim text) then site_gets ev None d
  else mkDGate (d_bypass d) (d_timers d) (d_doc d) (<[d_next d := Scanning text]> (d_open d)) (S (d_next d)) (d_scans d ++ [text]) (d_effects d)
         (d_window d) (d_granted d) (d_page d).

Definition don_keydown (ke : KeyboardEvent) (target : nat) (d : dgate) : dgate :=
  let ev := Keydown ke target in
  if d_bypass d then site_gets ev (d_window d) d
  else
    match getInput st (d_doc d) with
    | Some input => if isPlainEnter ke then dintercept ev input d else site_gets ev None d
    | None => site_gets ev None d
    end.

Definition don_click (target : nat) (d : dgate) : dgate :=
  let ev := Click target in
  if d_bypass d then site_gets ev (d_window d) d
  else
    match findSendButton st (d_doc d) with
    | Some button =>
        if contains button target then
          match getInput st (d_doc d) with Some input => dintercept ev input d | None => site_gets ev None d end
        else site_gets ev None d
    | None => site_gets ev None d
    end.

(** [replay], with [submit] of the adapter: a click on the send button, when there is one *)
Definition dreplay (n : nat) (text : string) (dec : xdecision) (answer : option bool) (d : dgate) : dgate :=
  let d1 := mkDGate true (S (d_timers d)) (d_doc d) (d_open d) (d_next d) (d_scans d) (d_effects d) (Some n) (<[n := (text, dec, answer)]> (d_granted d))
              (d_page d) in
  match findSendButton st (d_doc d) ≫= node_id with Some target => don_click target d1 | None => d1 end.

Definition don_scanned (n : nat) (text : string) (r : result error xdecision) (d : dgate) : dgate :=
  let d1 := dset_open (delete n (d_open d)) d in
  match r with
  | Err _ => demit [BlockNotice None (Some (JStr "agent unavailable; prompt blocked")) []] d1
  | Ok dec =>
      match on_decision dec with
      | Replays effects => dreplay n text dec None (demit effects d1)
      | Stops effects => demit effects d1
      | Asks modal eventId => demit [modal] (dset_open (<[n := Asking text dec eventId]> (d_open d)) d)
      | Throws => d1
      end
  end.

Definition don_answered (n : nat) (text : string) (dec : xdecision) (eventId : option json) (proceed : bool) (d : dgate) : dgate :=
  let d1 := demit [Ack eventId proceed] (dset_open (delete n (d_open d)) d) in
  if proceed then dreplay n text dec (Some true) d1 else d1.

Inductive devent :=
| DKeydown (ke : KeyboardEvent) (target : nat)
| DClick (target : nat)
| DDoc (doc : node)                                (* the user edits, or the site redraws *)
| DScanned (n : nat) (text : string) (r : result error xdecision)
| DAnswered (n : nat) (text : string) (dec : xdecision) (eventId : option json) (proceed : bool)
| DTimer.

Definition dhandle (ev : devent) (d : dgate) : dgate :=
  match ev with
  | DKeydown ke target => don_keydown ke target d
  | DClick target => don_click target d
  | DDoc doc =>
      mkDGate (d_bypass d) (d_timers d) doc (d_open d) (d_next d) (d_scans d) (d_effects d) (d_window d) (d_granted d) (d_page d)
  | DScanned n text r => don_scanned n text r d
  | DAnswered n text dec eventId proceed => don_answered n text dec eventId proceed d
  | DTimer =>
      mkDGate false (pred (d_timers d)) (d_doc d) (d_open d) (d_next d) (d_scans d) (d_effects d) None (d_granted d) (d_page d)
  end.

Definition denabled (ev : devent) (d : dgate) : Prop :=
  match ev with
  | DScanned n text _ => d_open d !! n = Some (Scanning text)
  | DAnswered n text dec eventId _ => d_open d !! n = Some (Asking text dec eventId)
  | DTimer => (0 < d_timers d)%nat
  | _ => True
  end.

Inductive dstep (d : dgate) (ev : devent) : dgate -> Prop :=
| dstep_intro : denabled ev d -> dstep d ev (dhandle ev d).

Definition dsteps : dgate -> list devent -> dgate -> Prop := rtc_trace dstep.

(** A submit in the sense of the gate *)
Definition submits (doc : node) (ev : dom_event) : Prop :=
  match ev with
  | Keydown ke _ => isPlainEnter ke = true
  | Click target => exists button, findSendButton st doc = Some button /\ contains button target = true
  end.

(** The site sends only what is in the input the adapter finds, and only on a submit. *)
Definition plain_site : Prop := forall doc ev editor, sends doc ev = Some editor -> submits doc ev /\ getInput st doc = Some editor.
End dom_gate.

(** ** What a query finds *)

(** A selector that finds nothing, or first an element that is not of HTML *)
Definition misses (doc : node) (sel : selector) : Prop := forall e, querySelector sel doc = Some e -> is_html e = false.

Lemma queryFirst_spec sels doc e :
  queryFirst sels doc = Some e <->
  exists before sel after, sels = before ++ sel :: after /\ Forall (misses doc) before /\ querySelector sel doc = Some e /\ is_html e = true.
Proof.
  induction sels as [|sel sels IH]; cbn.
  - split; [done|]. intros (before & sel & after & E & _). by destruct before.
  - assert (misses doc sel -> (exists before s after, sel :: sels = before ++ s :: after /\ Forall (misses doc) before /\ querySelector s doc = Some e /\
      is_html e = true) <-> queryFirst sels doc = Some e) as Hskip.
    { intros Hm. rewrite IH. split.
      - intros (before & s & after & E & Hb & Hs & Hh). destruct before as [|b before]; simplify_eq/=; [by rewrite (Hm e Hs) in Hh|].
        inv Hb. eauto 10.
      - intros (before & s & after & -> & Hb & Hs & Hh). exists (sel :: before), s, after. split_and!; [done|by constructor|done..]. }
    destruct (querySelector sel doc) as [e'|] eqn:Eq; [destruct (is_html e') eqn:Eh|].
    + split; [intros [= ->]; by exists [], sel, sels|]. intros (before & s & after & E & Hb & Hs & Hh).
      destruct before as [|b before]; simplify_eq/=; [congruence|]. inv Hb. match goal with H : misses _ _ |- _ => rewrite (H _ Eq) in Eh end. done.
    + symmetry. apply Hskip. intros x Hx. congruence.
    + symmetry. apply Hskip. intros x Hx. congruence.
Qed.

(** What a selector finds is selected by it, in the document, and no element before it is. *)
Lemma querySelector_spec sel doc e :
  querySelector sel doc = Some e -> exists before path after, walk [] doc = before ++ (path, e) :: after /\ selects sel path e = true /\
    Forall (fun pe => selects sel pe.1 pe.2 = false) before.
Proof.
  unfold querySelector. generalize (walk [] doc). intros l. induction l as [|[path x] l IH]; cbn; [done|].
  destruct (selects sel path x) eqn:Es; cbn.
  - intros [= ->]. exists [], path, l. by split_and!.
  - intros (before & p & after & -> & ? & ?)%IH. exists ((path, x) :: before), p, after. split_and!; [done|done|by constructor].
Qed.

Lemma selects_tag sel c t path e : last sel = Some c -> c_tag c = Some t -> selects sel path e = true -> tag_of e = t.
Proof.
  intros (sel' & ->)%last_Some Ht. unfold selects. rewrite rev_app_distr. cbn. unfold compound_matches. rewrite Ht.
  intros [[He%String.eqb_eq _]%andb_true_iff _]%andb_true_iff. done.
Qed.

Lemma html_element e : is_html e = true -> exists n, node_id e = Some n /\ contains e n = true.
Proof. destruct e as [|n html tag attrs value kids]; [done|]. intros _. exists n. split; [done|]. unfold contains. cbn. by rewrite bool_decide_true. Qed.

(** ** The refinement *)

Section dom_gate_facts.
Context (st : site) (sends : node -> dom_event -> option node).

(** The gate of [ExtGate] on what the adapter reads of the document *)
Definition abs (d : dgate) (pg : list (string * option nat)) : gate :=
  mkGate (d_bypass d) (d_timers d) (readText <$> getInput st (d_doc d)) (bool_decide (is_Some (findSendButton st (d_doc d)))) (d_open d) (d_next d)
    (d_scans d) (d_effects d) (d_window d) (d_granted d) pg.

(** A step of the document is one of the gate, which sends at least as much. *)
Definition follows (g : gate) (d' : dgate) : Prop := exists pg', g = abs d' pg' /\ d_page d' ⊆ pg'.

Lemma abs_reads d pg : g_bypass (abs d pg) = d_bypass d /\ g_window (abs d pg) = d_window d /\
  g_input (abs d pg) = readText <$> getInput st (d_doc d) /\ g_button (abs d pg) = bool_decide (is_Some (findSendButton st (d_doc d))).
Proof. done. Qed.

Hypothesis plain : plain_site st sends.

Lemma site_gets_nothing ev who d : getInput st (d_doc d) = None \/ ~ submits st (d_doc d) ev -> site_gets sends ev who d = d.
Proof using plain.
  intros H. unfold site_gets. destruct (sends (d_doc d) ev) eqn:E; [|done]. destruct (plain _ _ _ E). destruct H; [congruence|done].
Qed.

Lemma site_gets_follows ev who d pg : d_page d ⊆ pg -> follows (page_submit who (abs d pg)) (site_gets sends ev who d).
Proof using plain.
  intros Hp. unfold site_gets, page_submit. cbn [abs g_input]. destruct (sends (d_doc d) ev) as [editor|] eqn:E.
  - destruct (plain _ _ _ E) as [_ ->]. cbn. eexists. split; [reflexivity|]. cbn. set_solver.
  - destruct (getInput st (d_doc d)) eqn:Ei; cbn.
    + exists (pg ++ [(readText n, who)]). split; [by unfold set_page, abs; cbn; rewrite Ei|set_solver].
    + exists pg. split; [by unfold abs; rewrite Ei|done].
Qed.

Lemma stays d pg : d_page d ⊆ pg -> follows (abs d pg) d.
Proof. intros Hp. by exists pg. Qed.

Lemma intercept_follows ev input d pg :
  getInput st (d_doc d) = Some input -> d_page d ⊆ pg -> follows (intercept (readText input) (abs d pg)) (dintercept sends ev input d).
Proof using plain.
  intros Hi Hp. unfold intercept, dintercept. destruct (is_empty _); [by apply site_gets_follows|]. by eexists.
Qed.

Lemma keydown_follows ke target d pg : d_page d ⊆ pg -> follows (onKeydown (isPlainEnter ke) (abs d pg)) (don_keydown st sends ke target d).
Proof using plain.
  intros Hp. unfold onKeydown, don_keydown. destruct (abs_reads d pg) as (-> & -> & -> & _). destruct (isPlainEnter ke) eqn:Ek.
  - destruct (d_bypass d); [by apply site_gets_follows|]. destruct (getInput st (d_doc d)) as [input|] eqn:Ei; cbn [fmap option_fmap option_map].
    + by apply intercept_follows.
    + rewrite site_gets_nothing by auto. by apply stays.
  - assert (forall who, site_gets sends (Keydown ke target) who d = d) as Hn by (intros who; apply site_gets_nothing; right; cbn; congruence).
    rewrite !Hn. destruct (d_bypass d), (getInput st (d_doc d)); by apply stays.
Qed.

Lemma click_follows target d pg :
  d_page d ⊆ pg ->
  follows (onClick (match findSendButton st (d_doc d) with Some b => contains b target | None => false end) (abs d pg)) (don_click st sends target d).
Proof using plain.
  intros Hp. unfold onClick, don_click. destruct (abs_reads d pg) as (-> & -> & -> & ->).
  destruct (findSendButton st (d_doc d)) as [button|] eqn:Eb.
  - rewrite bool_decide_true by eauto. cbn [andb]. destruct (contains button target) eqn:Ec; cbn [negb].
    + destruct (d_bypass d); [by apply site_gets_follows|]. destruct (getInput st (d_doc d)) as [input|] eqn:Ei; cbn [fmap option_fmap option_map].
      * by apply intercept_follows.
      * rewrite site_gets_nothing by auto. by apply stays.
    + assert (forall who, site_gets sends (Click target) who d = d) as Hn.
      { intros who. apply site_gets_nothing. right. intros (b & Hb & Hc). congruence. }
      rewrite !Hn. destruct (d_bypass d); by apply stays.
  - rewrite bool_decide_false by (intros [? ?]; congruence). cbn [andb negb].
    assert (forall who, site_gets sends (Click target) who d = d) as Hn.
    { intros who. apply site_gets_nothing. right. intros (b & Hb & Hc). congruence. }
    rewrite !Hn. destruct (d_bypass d); by apply stays.
Qed.

Lemma replay_follows n text dec a d pg : d_page d ⊆ pg -> follows (replay n text dec a (abs d pg)) (dreplay st sends n text dec a d).
Proof using plain.
  intros Hp. unfold replay, dreplay.
  set (d1 := mkDGate true _ _ _ _ _ _ _ _ _). assert (follows (onClick (match findSendButton st (d_doc d) with Some b => true | None => false end) (abs d1 pg))
    (match findSendButton st (d_doc d) ≫= node_id with Some target => don_click st sends target d1 | None => d1 end)) as H.
  { destruct (findSendButton st (d_doc d)) as [b|] eqn:Eb; cbn.
    - assert (exists m, node_id b = Some m /\ contains b m = true) as (m & -> & Hc).
      { apply html_element. apply queryFirst_spec in Eb as (? & ? & ? & _ & _ & _ & ?). done. }
      pose proof (click_follows m d1 pg Hp) as Hm. unfold d1 in Hm at 1. cbn [d_doc] in Hm. by rewrite Eb, Hc in Hm.
    - pose proof (click_follows 0 d1 pg Hp) as Hm. unfold d1 in Hm at 1. cbn [d_doc] in Hm. rewrite Eb in Hm.
      unfold onClick. cbn [abs g_button d1 d_doc]. rewrite Eb. rewrite bool_decide_false by (intros [? ?]; congruence). by apply stays. }
  replace (onClick true (set_granted _ _)) with (onClick (match findSendButton st (d_doc d) with Some b => true | None => false end) (abs d1 pg)); [done|].
  unfold onClick, abs, d1. cbn. by destruct (findSendButton st (d_doc d)).
Qed.

Lemma closed_follows n l d pg : d_page d ⊆ pg ->
  emit l (set_open (delete n (g_open (abs d pg))) (abs d pg)) = abs (demit l (dset_open (delete n (d_open d)) d)) pg.
Proof. done. Qed.

Lemma scanned_follows n text r d pg : d_page d ⊆ pg -> follows (onScanned n text r (abs d pg)) (don_scanned st sends n text r d).
Proof using plain.
  intros Hp. unfold onScanned, don_scanned. destruct r as [dec|e]; [|by exists pg].
  destruct (on_decision dec) as [es|es|m e|]; [|by exists pg..]. rewrite closed_follows by done. by apply replay_follows.
Qed.

Lemma answered_follows n text dec e proceed d pg :
  d_page d ⊆ pg -> follows (onAnswered n text dec e proceed (abs d pg)) (don_answered st sends n text dec e proceed d).
Proof using plain.
  intros Hp. unfold onAnswered, don_answered. rewrite closed_follows by done. destruct proceed; [by apply replay_follows|by exists pg].
Qed.

Lemma dstep_follows d ev d' pg :
  dstep st sends d ev d' -> d_page d ⊆ pg -> exists gev pg', gstep (abs d pg) gev (abs d' pg') /\ d_page d' ⊆ pg' /\
    (forall i b, gev = GPage i b -> exists doc, ev = DDoc doc).
Proof using plain.
  intros [He] Hp. assert (forall gev, genabled gev (abs d pg) -> follows (ghandle gev (abs d pg)) (dhandle st sends ev d) ->
    (forall i b, gev = GPage i b -> exists doc, ev = DDoc doc) ->
    exists gev pg', gstep (abs d pg) gev (abs (dhandle st sends ev d) pg') /\ d_page (dhandle st sends ev d) ⊆ pg' /\
      (forall i b, gev = GPage i b -> exists doc, ev = DDoc doc)) as H.
  { intros gev Hg (pg' & E & Hpg) Hdoc. exists gev, pg'. split; [|done]. rewrite <- E. by constructor. }
  destruct ev as [ke target|target|doc|n text r|n text dec e proceed|]; cbn [denabled] in *.
  - apply (H (GKeydown (isPlainEnter ke))); [done|by apply keydown_follows|done].
  - eapply (H (GClick _)); [done|by apply click_follows|done].
  - apply (H (GPage (readText <$> getInput st doc) (bool_decide (is_Some (findSendButton st doc))))); [done|by exists pg|eauto].
  - apply (H (GScanned n text r)); [done|by apply scanned_follows|done].
  - apply (H (GAnswered n text dec e proceed)); [done|by apply answered_follows|done].
  - apply (H GTimer); [done|by exists pg|done].
Qed.

Lemma dsteps_follow d evs d' pg :
  dsteps st sends d evs d' -> d_page d ⊆ pg -> exists gevs pg', gsteps (abs d pg) gevs (abs d' pg') /\ d_page d' ⊆ pg' /\
    ((forall doc, DDoc doc ∉ evs) -> forall i b, GPage i b ∉ gevs).
Proof using plain.
  intros Hs. revert pg. induction Hs as [d|d ev d1 evs d2 Hstep _ IH]; intros pg Hp.
  - exists [], pg. split_and!; [constructor|done|]. intros _ i b. apply not_elem_of_nil.
  - destruct (dstep_follows _ _ _ _ Hstep Hp) as (gev & pg1 & Hg & Hp1 & Hd). destruct (IH pg1 Hp1) as (gevs & pg2 & Hgs & Hp2 & Hds).
    exists (gev :: gevs), pg2. split_and!; [by eapply trace_cons|done|]. intros Hne i b. rewrite not_elem_of_cons. split.
    + intros E. destruct (Hd i b) as [doc ->]; [done|]. apply (Hne doc). by left.
    + apply Hds. intros doc Hin. apply (Hne doc). by right.
Qed.
End dom_gate_facts.

(** Every selector of a list ends in an element of the tag. *)
Lemma queryFirst_tag sels t doc e :
  Forall (fun sel => exists c, last sel = Some c /\ c_tag c = Some t) sels -> queryFirst sels doc = Some e -> tag_of e = t.
Proof.
  intros Hall (before & sel & after & -> & _ & Hq & _)%queryFirst_spec. apply Forall_app in Hall as [_ [(c & Hc & Ht) _]%Forall_cons].
  apply querySelector_spec in Hq as (? & path & ? & _ & Hs & _). by eapply selects_tag.
Qed.

(** ** Properties *)


(** The send button is a button on every site, and what is clicked for a replay is in it. *)
Theorem send_button_is_button st doc e : st ∈ SITES -> findSendButton st doc = Some e -> tag_of e = "button".
Proof.
  intros Hst. apply queryFirst_tag. unfold SITES in Hst. rewrite !elem_of_cons, elem_of_nil in Hst.
  destruct Hst as [->|[->|[->|[->|[]]]]]; repeat (constructor; [eexists; split; reflexivity|]); constructor.
Qed.

(** ** Examples *)

(** The selectors as the adapters write them *)
Example openai_selectors :
  map show_selector (site_INPUT openai) = ["#prompt-textarea"; "div[contenteditable=" +:+ quoted "true" +:+ "]#prompt-textarea"; "textarea[data-id]"; "main textarea"] /\
  map show_selector (site_SEND openai) = ["button[data-testid=" +:+ quoted "send-button" +:+ "]"; "button[aria-label*=" +:+ quoted "Send" +:+ " i]"].
Proof. split; reflexivity. Qed.
Example gemini_selectors :
  map show_selector (site_INPUT gemini) = ["rich-textarea div.ql-editor[contenteditable=" +:+ quoted "true" +:+ "]";
    "div.ql-editor[contenteditable=" +:+ quoted "true" +:+ "]"; "div[contenteditable=" +:+ quoted "true" +:+ "]"] /\
  map show_selector (site_SEND gemini) = ["button[aria-label*=" +:+ quoted "Send" +:+ " i]"; "button.send-button"; "button[mattooltip*=" +:+ quoted "Send" +:+ " i]"].
Proof. split; reflexivity. Qed.

Definition enter : KeyboardEvent := mkKey "Enter" false false false false false.

(** A chat with its composer, and a second editor above it in which an earlier message is being changed *)
Definition chat (edit composer : string) : node :=
  Element 0 true "main" [] ""
    [Element 1 true "textarea" [("class", "edit-message")] edit [];
     Element 2 true "div" [("id", "prompt-textarea"); ("contenteditable", "true"); ("class", "a ProseMirror")] "" [Element 3 true "p" [] "" [Text composer]];
     Element 4 true "button" [("data-testid", "send-button"); ("aria-label", "Send prompt")] "" [Element 5 false "svg" [] "" []]].

(** A site that sends the composer *)
Definition sends_composer (doc : node) (ev : dom_event) : option node :=
  match ev with
  | Keydown ke _ => if isPlainEnter ke then getInput openai doc else None
  | Click target => if match findSendButton openai doc with Some b => contains b target | None => false end then getInput openai doc else None
  end.

Lemma composer_plain : plain_site openai sends_composer.
Proof.
  intros doc [ke target|target] editor; cbn [sends_composer submits].
  - by destruct (isPlainEnter ke).
  - destruct (findSendButton openai doc) as [b|] eqn:Eb; [|done]. destruct (contains b target) eqn:Ec; [|done]. eauto.
Qed.

(** A click on the picture in the button, then the replay *)
Definition clicked_send : list devent := [DClick 5; DScanned 0 "hi" (Ok allow_decision); DTimer].
Definition after_click : dgate := fold_left (fun d ev => dhandle openai sends_composer ev d) clicked_send (dgate_init (chat "" "hi")).

Ltac run_dom evs := apply (along_trace denabled (dhandle _ _)); [by constructor|]; unfold evs;
  repeat (split; [first [exact I|vm_compute; reflexivity|apply (bool_decide_unpack _); vm_compute; exact I]|]); exact I.

Lemma clicked_steps : dsteps openai sends_composer (dgate_init (chat "" "hi")) clicked_send after_click.
Proof. run_dom clicked_send. Qed.


(** Where the site sends the editor that has the focus, Enter in the second editor sends it unscanned while the composer is empty. *)
Definition sends_focused (doc : node) (ev : dom_event) : option node :=
  match ev with
  | Keydown ke target => if isPlainEnter ke then snd <$> List.find (fun pe => bool_decide (node_id pe.2 = Some target)) (walk [] doc) else None
  | Click _ => sends_composer doc ev
  end.
Definition entered : list devent := [DKeydown enter 1].
Example second_editor_unscanned :
  let d := fold_left (fun d ev => dhandle openai sends_focused ev d) entered (dgate_init (chat "my password" "")) in
  dsteps openai sends_focused (dgate_init (chat "my password" "")) entered d /\ d_page d = [("my password", None)] /\ d_scans d = [].
Proof. cbv zeta. split; [run_dom entered|]. vm_compute. auto. Qed.

(** The lines of an editor are scanned as one: the text of two paragraphs has no break between them. *)
Example paragraphs_glued :
  readText (Element 0 true "div" [("contenteditable", "true")] "" [Element 1 true "p" [] "" [Text "not a pass"]; Element 2 true "p" [] "" [Text "word"]])
  = "not a password".
Proof. reflexivity. Qed.
