(* ===== verification/DashSession.v ===== *)
(** * The dashboard's sessions over time: the session route, cookie lifetimes, the way through the sign-in

    [app/api/auth/session/route.ts], [app/api/auth/%5Flog/route.ts], [app/login/page.tsx], the rest of
    [lib/auth/session.ts], [lib/auth/jwt.ts], [lib/auth/cognito-client.ts], [lib/api/bff-context.ts] and
    [lib/api/request-context.ts].  The age of a cookie in the map of [Dashboard] is the number of seconds the
    browser still keeps it; [pass] lets time go by.  An address is its text; its query is read the way
    [URLSearchParams] reads it. *)

From S2P Require Import Prelude Base64 Json JsonText IsoDate Resilience CliFiles CliInput Dashboard DashFetch DashQuery DashRepo DashAuth DashUi DashRows DashWidgets.

(** ** The environment: [jwt.ts], [request-context.ts], [local-mode.ts] *)

(** The variables of [process.env] that decide about authentication *)
Record auth_vars := mkVars {
  v_DISABLE_AUTH : option string;
  v_VG_AUTH_MODE : option string;
  v_NODE_ENV : option string;
  v_COGNITO_ISSUER : option string;
  v_PUBLIC_COGNITO_ISSUER : option string;
  v_PUBLIC_COGNITO_DOMAIN : option string;
  v_PUBLIC_COGNITO_CLIENT_ID : option string;
  v_PUBLIC_APP_URL : option string
}.

Definition var_is (v : option string) (s : string) : bool := bool_decide (v = Some s).

Definition isLocalAuthDisabled (e : auth_vars) : bool := var_is (v_DISABLE_AUTH e) "true".

Definition allowMockAuth (e : auth_vars) : bool := var_is (v_VG_AUTH_MODE e) "mock" || var_is (v_NODE_ENV e) "test".

(** [a ?? b] *)
Definition nullish_opt {A} (a b : option A) : option A := match a with Some _ => a | None => b end.

(** The issuer and the client id as they are before they are checked *)
Definition jwt_issuer (e : auth_vars) : string :=
  default (match v_PUBLIC_COGNITO_DOMAIN e with
           | Some d => if is_empty d then "" else "https://" +:+ d
           | None => ""
           end) (nullish_opt (v_COGNITO_ISSUER e) (v_PUBLIC_COGNITO_ISSUER e)).

Definition getJwtConfig (e : auth_vars) : result dash_error (string * string) :=
  let issuer := jwt_issuer e in
  let clientId := default "" (v_PUBLIC_COGNITO_CLIENT_ID e) in
  if is_empty issuer || is_empty clientId then Err (AuthError "auth_misconfigured" "Cognito issuer or client id is missing")
  else Ok (issuer, clientId).

Definition env_of (e : auth_vars) : dash_env :=
  mkEnv (isLocalAuthDisabled e) (allowMockAuth e) (jwt_issuer e) (default "" (v_PUBLIC_COGNITO_CLIENT_ID e)).

(** The key sets already made, by issuer, and the addresses of those made so far, oldest first *)
Record jwks_cache := mkJwks { jk_sets : gmap string string; jk_made : list string }.

Definition getJwks (issuer : string) (s : jwks_cache) : string * jwks_cache :=
  match jk_sets s !! issuer with
  | Some set => (set, s)
  | None =>
      let set := issuer +:+ "/.well-known/jwks.json" in
      (set, mkJwks (<[issuer := set]> (jk_sets s)) (jk_made s ++ [set]))
  end.

(** ** Cookie options: [session-store.ts] *)

Record cookie_options := mkCookieOptions { ck_httpOnly : bool; ck_secure : bool; ck_sameSite : string; ck_path : string }.

Definition baseCookie (e : auth_vars) : cookie_options :=
  mkCookieOptions true
    (var_is (v_NODE_ENV e) "production" && negb (from_option (fun u => js_includes u "localhost") false (v_PUBLIC_APP_URL e)))
    "lax" "/".

(** ** [cognito-client.ts] *)

(** The request [revokeCognitoToken] sends; its response is not read. *)
Definition revokeCognitoToken (c : CognitoClientConfig) (token : string) : fetch_call :=
  mkFetchCall ("https://" +:+ cc_domain c +:+ "/oauth2/revoke") "POST" (authHeaders c)
    (Some (of_chars (form_serialize [("token", token); ("token_type_hint", "refresh_token")]))).

Definition toLoginResponse (access : string) (refresh : option string) (id : string) (expires_in : num) (user : json) : json :=
  JObj [("access_token", JStr access); ("refresh_token", JStr (default "" refresh)); ("id_token", JStr id);
        ("expires_in", JNum expires_in); ("user", user)].

(** ** The expiry of a token *)

(** [Buffer.from(s, 'base64')]: digits of either alphabet up to the first [=]; other characters are skipped and a
    digit left over at the end is dropped. *)
Definition buffer_digits (s : chars) : list Z := omap base64_val (from_url_alphabet (cut "="%char s).1).
Definition buffer_base64 (s : chars) : chars :=
  let ds := buffer_digits s in
  default [] (base64_bytes (if (List.length ds mod 4 =? 1)%nat then removelast ds else ds)).

(** [new Date(exp * 1000)]: a time value is cut to a whole millisecond. *)
Definition exp_ms (n : num) : Z := match n with NInt z => z * 1000 | NFrac m k => Z.quot (m * 1000) (10 ^ Zpos k) end.

(** [None]: the clock is out of the range of dates. *)
Definition expiryFromJwt (now : Z) (token : string) : option string :=
  let part := nth 1 (js_split "."%char token) "" in
  let exp := v ← parse_json (to_chars (buffer_text (buffer_base64 (to_chars part))));
             match json_get "exp" v with Some (JNum n) => toISOString (exp_ms n) | _ => None end in
  match exp with
  | Some s => Some s
  | None => toISOString (now + 60 * 60 * 1000)
  end.

(** ** [app/api/auth/session], [app/api/auth/_log] *)

Section session_route.
Context (jwtVerify : string -> string -> string -> option json).
Context (refreshCognitoTokens : string -> option (string * option string * string)).
Context (env : dash_env).

Definition user_reply (u : UserSession) (expires : string) : auth_reply := Says 200 (JObj [("user", session_json u); ("expires", JStr expires)]).

(** [GET /api/auth/session] at the time [now], in milliseconds *)
Definition session_route (now : Z) (j : jar) : option auth_reply * jar :=
  if e_authDisabled env then
    (user_reply MOCK_USER_SESSION <$> toISOString (now + 60 * 60 * 24 * 30 * 1000), j)
  else
    match getOrRefreshStoredSession jwtVerify refreshCognitoTokens env j with
    | (None, j') => (Some (Says 200 (JObj [])), j')
    | (Some stored, j') =>
        (user_reply (session stored) <$> expiryFromJwt now (accessToken stored), j')
    end.

(** [POST] and [GET /api/auth/_log] *)
Definition log_route : auth_reply := Says 200 (JObj []).

(** [session.ts] *)
Definition clearAuthCookies (j : jar) : jar := clearStoredSession j.
Definition getSession (j : jar) : option UserSession * jar :=
  let '(s, j') := getStoredSession jwtVerify env j in (session <$> s, j').
(** The tokens it is given are not read. *)
Definition refreshSession (refresh newAccess : string) (j : jar) : jar := (refreshStoredSession jwtVerify refreshCognitoTokens env j).2.
End session_route.

(** [getBffContext]: the fields of the session cookie, unchecked; [None]: the property is missing. *)
Definition getBffContext (raw : option string) : json * option json * option json :=
  let s := getBffSession raw in (s, json_get "role" s, json_get "orgId" s).

(** ** Time *)

(** The cookies the browser still has after [dt] seconds *)
Definition aged (dt : Z) (c : string * Z) : option (string * Z) := if c.2 <=? dt then None else Some (c.1, c.2 - dt).
Definition pass (dt : Z) (j : jar) : jar := omap (aged dt) j.

(** ** [app/login/page.tsx] *)

(** The parameters of an address *)
Definition query_of (address : string) : list (string * string) := form_parse (default [] (cut "?"%char (to_chars address)).2).

Definition login_redirect (address : string) : string :=
  match param "redirect" (query_of address) with
  | Some r => if is_empty r then "/dashboard" else r
  | None => "/dashboard"
  end.

(** The address the login form sends the browser to; the fields of the form are not read. *)
Definition handleLogin (address : string) : string := "/api/auth/login?redirect=" +:+ encodeURIComponent (login_redirect address).

(** The address the middleware redirects to *)
Definition mw_address (r : mw_result) : option string :=
  match r with
  | MwRedirect target redirect _ => Some (target +:+ "?" +:+ of_chars (form_serialize [("redirect", redirect)]))
  | MwNext _ => None
  end.

(** The cookies after the middleware's answer *)
Definition mw_jar (r : mw_result) (j : jar) : jar :=
  match r with
  | MwRedirect _ _ true => delete REFRESH_TOKEN_COOKIE (delete ACCESS_TOKEN_COOKIE j)
  | _ => j
  end.

(** ** Lemmas *)

(** *** Addresses *)

Lemma query_serialized page l : free "?" (to_chars page) -> query_of (page +:+ "?" +:+ of_chars (form_serialize l)) = l.
Proof.
  intros Hp. unfold query_of. rewrite !to_chars_app, to_of_chars. change (to_chars "?" ++ ?x) with ("?"%char :: x).
  rewrite cut_free by done. apply form_roundtrip.
Qed.

(** A value written by [encodeURIComponent] under a name that needs no escaping *)
Lemma query_uri page k s :
  free "?" (to_chars page) -> k <> "" -> form_decode (to_chars k) = k -> free "&" (to_chars k) -> free "=" (to_chars k) ->
  query_of (page +:+ "?" +:+ k +:+ "=" +:+ encodeURIComponent s) = [(k, s)].
Proof.
  intros Hp Hne Hk Hka Hke. unfold query_of. rewrite !to_chars_app. change (to_chars "?" ++ ?x) with ("?"%char :: x).
  rewrite cut_free by done. cbn [snd default from_option id].
  set (l := to_chars k ++ to_chars "=" ++ to_chars (encodeURIComponent s)).
  assert (free "&" l) as Hamp.
  { apply Forall_app. split; [done|]. apply Forall_app. split; [apply (bool_decide_unpack _); vm_compute; exact I|by apply encoded_free]. }
  unfold form_parse. change (id l) with l. rewrite split_on_end by done. cbn [rev Datatypes.app].
  assert (is_empty (of_chars l) = false) as El by (unfold l; destruct k; [done|reflexivity]).
  rewrite filter_cons_True by done. rewrite filter_nil. cbn [map]. rewrite to_of_chars. unfold form_pair, l.
  change (to_chars "=" ++ ?x) with ("="%char :: x). rewrite cut_free by done. cbn [default from_option id].
  by rewrite Hk, form_decode_uri.
Qed.

Lemma handleLogin_query address : query_of (handleLogin address) = [("redirect", login_redirect address)].
Proof.
  apply (query_uri "/api/auth/login" "redirect"); try done; apply (bool_decide_unpack _); vm_compute; exact I.
Qed.

Lemma login_redirect_mw target path clear :
  free "?" (to_chars target) -> path <> "" ->
  exists page, mw_address (MwRedirect target path clear) = Some page /\ login_redirect page = path.
Proof.
  intros Ht Hp. eexists. split; [reflexivity|]. unfold login_redirect. rewrite query_serialized by done.
  unfold param. cbn. by destruct path.
Qed.

Definition hosted_params (c : CognitoClientConfig) (codeChallenge state redirectPath : string) : list (string * string) :=
  [("response_type", "code"); ("client_id", cc_clientId c); ("redirect_uri", cc_redirectUri c);
   ("scope", "openid profile email"); ("code_challenge", codeChallenge); ("code_challenge_method", "S256");
   ("state", state); ("redirect_path", redirectPath)].

Lemma hosted_query c ch st path :
  free "?" (to_chars (cc_domain c)) -> query_of (getHostedLoginUrl c ch st path) = hosted_params c ch st path.
Proof.
  intros Hc. unfold getHostedLoginUrl.
  assert (forall x, "https://" +:+ cc_domain c +:+ "/login?" +:+ x = ("https://" +:+ cc_domain c +:+ "/login") +:+ "?" +:+ x) as ->.
  { intros x. by rewrite !append_assoc. }
  apply query_serialized. rewrite !to_chars_app. apply Forall_app. split; [apply (bool_decide_unpack _); vm_compute; exact I|].
  apply Forall_app. split; [done|apply (bool_decide_unpack _); vm_compute; exact I].
Qed.

(** *** The state and the verifier *)

Lemma state_nonempty random : List.length (random 32%nat) = 32%nat -> generateOAuthState random <> "".
Proof.
  intros Hr E. apply (f_equal to_chars) in E. unfold generateOAuthState in E. rewrite base64Url_digits in E.
  destruct (random 32%nat) as [|a [|b [|d l]]]; cbn in Hr; try lia. discriminate E.
Qed.

Lemma pkce_ok random sha256 :
  (forall n, List.length (random n) = n) ->
  exists v, generatePKCE random sha256 = Ok (v, generateCodeChallenge sha256 v) /\ v <> "".
Proof.
  intros Hr. unfold generatePKCE. change (generateCodeVerifier random 64) with (@Ok error _ (of_chars (map pkce_char (random 64%nat)))).
  eexists. split; [reflexivity|]. intros E. apply (f_equal to_chars) in E. rewrite to_of_chars in E.
  pose proof (Hr 64%nat) as Hl. destruct (random 64%nat); [done|discriminate E].
Qed.

(** *** Time *)

Lemma cookie_pass name dt j :
  cookie name (pass dt j) = match j !! name with Some (v, age) => if age <=? dt then None else Some v | None => None end.
Proof.
  unfold cookie, pass. rewrite lookup_omap. destruct (j !! name) as [[v age]|]; [|done]. cbn. unfold aged. cbn [fst snd].
  by destruct (age <=? dt).
Qed.

Lemma pass_pass dt dt' j : 0 <= dt -> 0 <= dt' -> pass dt' (pass dt j) = pass (dt + dt') j.
Proof.
  intros H H'. unfold pass. apply map_eq. intros n. rewrite !lookup_omap. destruct (j !! n) as [[v age]|]; [|done].
  cbn. unfold aged. cbn [fst snd]. destruct (Z.leb_spec age dt); cbn [mbind option_bind fst snd].
  - destruct (Z.leb_spec age (dt + dt')); [done|lia].
  - destruct (Z.leb_spec (age - dt) dt'), (Z.leb_spec age (dt + dt')); try lia; [done|]. do 2 f_equal. lia.
Qed.

(** *** What the middleware and the session route do with the cookies of a session *)

(** A token the middleware does not think is about to expire at the time [now] *)
Definition not_soon (now : Z) (token : string) : Prop :=
  token <> "" /\ forall exp, parseJwtExp token = Some exp -> num_lt exp (now / 1000 + 60) = false.

Lemma middleware_passes env now path headers j token :
  cookie ACCESS_TOKEN_COOKIE j = Some token -> not_soon now token -> exists h, middleware env now path headers j = MwNext h.
Proof.
  intros Hc [Hne Hs]. unfold middleware. destruct (e_authDisabled env); [by eexists|]. destruct (isPublicPath path); [by eexists|].
  change "vg_access_token" with ACCESS_TOKEN_COOKIE. rewrite Hc. destruct token as [|a token]; [done|].
  destruct (parseJwtExp (String a token)) as [exp|]; [rewrite (Hs exp) by done|]; by eexists.
Qed.

(** A token whose [exp] is less than a minute away, or past *)
Definition expires_soon (now : Z) (token : string) : bool :=
  match parseJwtExp token with Some exp => num_lt exp (now / 1000 + 60) | None => false end.

(** What the middleware does with the access token of a browser that also has a refresh token: it sends the browser to the
    refresh route when the token is about to expire, and lets it through otherwise. *)
Definition passed_on (env : dash_env) (now : Z) (path : string) (headers : list (string * string)) (token : string) (j : jar) : Prop :=
  if expires_soon now token then middleware env now path headers j = MwRedirect "/api/auth/refresh" path false
  else exists h, middleware env now path headers j = MwNext h.

Lemma middleware_token env now path headers j token :
  e_authDisabled env = false -> isPublicPath path = false ->
  cookie ACCESS_TOKEN_COOKIE j = Some token -> token <> "" -> truthy (cookie REFRESH_TOKEN_COOKIE j) = true ->
  passed_on env now path headers token j.
Proof.
  intros Hd Hp Hc Hne Hr. unfold passed_on, expires_soon, middleware. rewrite Hd, Hp.
  change "vg_access_token" with ACCESS_TOKEN_COOKIE. change "vg_refresh_token" with REFRESH_TOKEN_COOKIE. rewrite Hc, Hr.
  destruct token as [|a token]; [done|]. destruct (parseJwtExp (String a token)) as [exp|]; [|by eexists].
  destruct (num_lt exp _); [done|by eexists].
Qed.

Lemma middleware_no_token env now path headers j :
  e_authDisabled env = false -> isPublicPath path = false -> cookie ACCESS_TOKEN_COOKIE j = None ->
  middleware env now path headers j = MwRedirect "/login" path false.
Proof. intros Hd Hp Hc. unfold middleware. rewrite Hd, Hp. change "vg_access_token" with ACCESS_TOKEN_COOKIE. by rewrite Hc. Qed.

(** The three cookies that live a quarter of an hour, and the one that lives a month *)
Lemma stored_cookies env s dt j :
  e_authDisabled env = false -> 0 <= dt ->
  let j' := pass dt (setStoredSession env s j) in
  let short v := if dt <? ACCESS_MAX_AGE_SECONDS then Some v else None in
  cookie ACCESS_TOKEN_COOKIE j' = short (accessToken s) /\ cookie ID_TOKEN_COOKIE j' = short (idToken s) /\
  cookie SESSION_COOKIE j' = short (session_cookie_text (session s)) /\
  (forall r, refreshToken s = Some r -> r <> "" ->
     cookie REFRESH_TOKEN_COOKIE j' = if dt <? REFRESH_MAX_AGE_SECONDS then Some r else None).
Proof.
  intros Hd Ht j' short. unfold j', short. rewrite !cookie_pass. unfold setStoredSession. rewrite Hd.
  assert (forall a (v : string), (if a <=? dt then None else Some v) = if dt <? a then Some v else None) as Hage.
  { intros a v. destruct (Z.leb_spec a dt), (Z.ltb_spec dt a); try lia; done. }
  repeat split; [..|intros r Hr Hne; rewrite Hr, (is_empty_ne r Hne); simplify_map_eq; apply Hage];
    destruct (refreshToken s) as [r|]; try destruct (is_empty r); simplify_map_eq; apply Hage.
Qed.

Lemma stored_reads jwtVerify env s dt j :
  e_authDisabled env = false -> 0 <= dt < ACCESS_MAX_AGE_SECONDS -> accessToken s <> "" -> idToken s <> "" ->
  verifySessionToken jwtVerify env (idToken s) = Ok (session s) ->
  let j' := pass dt (setStoredSession env s j) in
  exists st, getStoredSession jwtVerify env j' = (Some st, j') /\ session st = session s /\ accessToken st = accessToken s.
Proof.
  intros Hd Ht Ha Hi Hv j'. destruct (stored_cookies env s dt j Hd ltac:(lia)) as (Ea & Ei & _).
  fold j' in Ea, Ei. rewrite (proj2 (Z.ltb_lt _ _) (proj2 Ht)) in Ea, Ei.
  unfold getStoredSession. rewrite Hd, Ea, Ei, !is_empty_ne by done. cbn [orb]. rewrite Hv. by eexists.
Qed.

Lemma set_access env s j : e_authDisabled env = false -> cookie ACCESS_TOKEN_COOKIE (setStoredSession env s j) = Some (accessToken s).
Proof.
  intros Hd. unfold setStoredSession, cookie. rewrite Hd.
  destruct (refreshToken s) as [r|]; [destruct (is_empty r)|]; by simplify_map_eq.
Qed.

(** A refresh token is kept until another one comes. *)
Lemma set_refresh env s j :
  e_authDisabled env = false -> truthy (cookie REFRESH_TOKEN_COOKIE j) = true ->
  truthy (cookie REFRESH_TOKEN_COOKIE (setStoredSession env s j)) = true.
Proof.
  intros Hd Hr. unfold setStoredSession, cookie in *. rewrite Hd.
  destruct (refreshToken s) as [r|]; [destruct (is_empty r) eqn:E|]; simplify_map_eq; try done. cbn. by rewrite E.
Qed.

Lemma signed_cookies env s j : e_authDisabled env = false ->
  let j' := clear_oauth (setStoredSession env s j) in
  cookie ACCESS_TOKEN_COOKIE j' = Some (accessToken s) /\ cookie ID_TOKEN_COOKIE j' = Some (idToken s).
Proof.
  intros Hd j'. unfold j', clear_oauth, setStoredSession, cookie. rewrite Hd.
  destruct (refreshToken s) as [r|]; [destruct (is_empty r)|]; split; by simplify_map_eq.
Qed.

(** The route calls the identity provider once the short cookies are gone. *)
Lemma getOrRefresh_refreshes jwtVerify refreshCognitoTokens env j r access refresh id u :
  e_authDisabled env = false -> cookie ACCESS_TOKEN_COOKIE j = None -> cookie REFRESH_TOKEN_COOKIE j = Some r -> r <> "" ->
  refreshCognitoTokens r = Some (access, refresh, id) -> verifySessionToken jwtVerify env id = Ok u ->
  let stored := mkStored access (Some (default r refresh)) id u in
  getOrRefreshStoredSession jwtVerify refreshCognitoTokens env j = (Some stored, setStoredSession env stored j).
Proof.
  intros Hd Ha Hr Hne Hf Hv stored. unfold getOrRefreshStoredSession, getStoredSession, refreshStoredSession.
  by rewrite Hd, Ha, Hr, is_empty_ne, Hf, Hv by done.
Qed.

Lemma getOrRefresh_none jwtVerify refreshCognitoTokens env j :
  e_authDisabled env = false -> cookie ACCESS_TOKEN_COOKIE j = None -> cookie REFRESH_TOKEN_COOKIE j = None ->
  getOrRefreshStoredSession jwtVerify refreshCognitoTokens env j = (None, clearStoredSession j).
Proof. intros Hd Ha Hr. unfold getOrRefreshStoredSession, getStoredSession, refreshStoredSession. by rewrite Hd, Ha, Hr. Qed.

(** *** Reading the expiry *)

Lemma buffer_base64Url bytes : buffer_base64 (to_chars (base64Url bytes)) = bytes.
Proof.
  assert (buffer_digits (to_chars (base64Url bytes)) = sextets bytes) as Hds.
  { unfold buffer_digits. rewrite base64Url_digits.
    assert (forall l, Forall (fun n => 0 <= n < 64) l -> cut "="%char (map (fun n => url_char (base64_digit n)) l)
      = (map (fun n => url_char (base64_digit n)) l, None) /\ omap base64_val (from_url_alphabet (map (fun n => url_char (base64_digit n)) l)) = l) as H.
    { induction 1 as [|n l Hn _ [IH1 IH2]]; [done|]. destruct (base64_val_digit n Hn) as (Hv & Hne & _).
      destruct (url_alphabet_inv n Hn) as [Hu _]. split.
      - cbn [map cut]. rewrite IH1. destruct (Ascii.eqb_spec (url_char (base64_digit n)) "="); [|done].
        exfalso. revert e. unfold url_char. destruct (Ascii.eqb _ "+"); [done|]. by destruct (Ascii.eqb _ "/").
      - unfold from_url_alphabet in *. cbn [map omap list_omap]. rewrite Hu, Hv. by f_equal. }
    destruct (H _ (sextets_bounds bytes)) as [-> H2]. exact H2. }
  unfold buffer_base64. rewrite Hds.
  destruct (Nat.eqb_spec (List.length (sextets bytes) mod 4) 1) as [E|]; [|by rewrite base64_bytes_sextets].
  exfalso. revert E. clear. induction bytes as [| | |a b c l IH] using three_ind; try discriminate.
  cbn [sextets]. cbn [List.length]. intros E. apply IH.
  etransitivity; [|exact E]. rewrite <- (Nat.Div0.mod_add (List.length (sextets l)) 1 4). f_equal. cbn. lia.
Qed.

(** The expiry the session route announces is the one the token says. *)
Lemma expiryFromJwt_token now header v signature n :
  free "." (to_chars header) -> jsonable v -> json_get "exp" v = Some (JNum n) -> is_Some (toISOString (exp_ms n)) ->
  expiryFromJwt now (of_chars (to_chars header ++ "."%char :: to_chars (base64Url (utf8_encode (print_json v))) ++ "."%char :: signature))
  = toISOString (exp_ms n).
Proof.
  intros Hh Hv He [t Ht]. unfold expiryFromJwt, js_split. rewrite to_of_chars.
  rewrite split_on_step by done. rewrite split_on_step by apply base64Url_free. cbn [nth rev Datatypes.app].
  rewrite of_to_chars, buffer_base64Url. unfold buffer_text. rewrite utf8_text_encode, to_of_chars, parse_print_json by done.
  cbn [mbind option_bind]. by rewrite He, Ht.
Qed.

(** *** The jwks cache *)

(** At most one key set is made per issuer, and asking again gives the same one. *)
Definition jwks_ok (s : jwks_cache) : Prop :=
  NoDup (jk_made s) /\ forall i set, jk_sets s !! i = Some set -> set = i +:+ "/.well-known/jwks.json" /\ set ∈ jk_made s.

Lemma append_inj_l (a b c : string) : a +:+ c = b +:+ c -> a = b.
Proof.
  intros E. apply (f_equal to_chars) in E. rewrite !to_chars_app in E. apply app_inv_tail in E.
  by rewrite <- (of_to_chars a), <- (of_to_chars b), E.
Qed.

Lemma getJwks_again i s : let '(set, s') := getJwks i s in getJwks i s' = (set, s').
Proof.
  destruct (getJwks i s) as [set s'] eqn:E. unfold getJwks in *. destruct (jk_sets s !! i) as [x|] eqn:El.
  - injection E as <- <-. by rewrite El.
  - injection E as <- <-. cbn [jk_sets]. by rewrite lookup_insert_eq.
Qed.

(** *** The configuration *)

Lemma env_misconfigured e jwtVerify token :
  isLocalAuthDisabled e = false ->
  match getJwtConfig e with
  | Ok (issuer, clientId) =>
      verifyCognitoJwt jwtVerify (env_of e) token
      = match jwtVerify token issuer clientId with Some p => payload_claims p | None => Err (AuthError "invalid_token" "Token verification failed") end
  | Err err => verifyCognitoJwt jwtVerify (env_of e) token = Err err
  end.
Proof.
  intros Hd. unfold getJwtConfig, verifyCognitoJwt. cbn [env_of e_authDisabled e_issuer e_clientId]. rewrite Hd.
  destruct (_ || _) eqn:E; [done|]. by destruct (jwtVerify _ _ _).
Qed.

(** ** Properties *)

(** The session route names a user only with an id token behind it whose claims, verified for our issuer and client, say
    so; when there is none, the reply is empty and no authentication cookie is left. *)
Theorem session_route_vouched jwtVerify refreshCognitoTokens env now j :
  e_authDisabled env = false ->
  match session_route jwtVerify refreshCognitoTokens env now j with
  | (reply, j') =>
      (reply = Some (Says 200 (JObj [])) /\ no_cookies j') \/
      exists st, vouched jwtVerify env (idToken st) (session st) /\ cookie ID_TOKEN_COOKIE j' = Some (idToken st) /\
        reply = user_reply (session st) <$> expiryFromJwt now (accessToken st)
  end.
Proof.
  intros Hd. unfold session_route. rewrite Hd. pose proof (stored_spec jwtVerify refreshCognitoTokens env j Hd) as Hs.
  destruct (getOrRefreshStoredSession jwtVerify refreshCognitoTokens env j) as [[st|] j']; [right|by left].
  destruct Hs as [Hs1 Hs2]. by exists st.
Qed.

(** C26: a session's life after the cookies were set, by the seconds [dt] that passed, for a session with a refresh token whose
    id token verifies as the session's user.  For a quarter of an hour the
    session route names the user, the cookies unchanged, and the middleware lets the browser through, unless the access
    token has less than a minute to its [exp]: then it sends the browser to the refresh route (which has no handler for
    that request, see the findings).  After that the
    middleware sends every protected page to the login, while for a month the session route still gets fresh tokens
    with the refresh token, if the identity provider gives them and the new id token verifies, names the user of that
    token and puts the cookies back, so that the middleware lets the browser through
    again, with the same proviso for the new access token; after the month the reply is empty and the cookies are cleared. *)
Theorem session_lifetime jwtVerify refreshCognitoTokens env s r j dt now path headers :
  e_authDisabled env = false -> isPublicPath path = false -> 0 <= dt ->
  refreshToken s = Some r -> r <> "" -> accessToken s <> "" -> idToken s <> "" ->
  verifySessionToken jwtVerify env (idToken s) = Ok (session s) ->
  let j' := pass dt (setStoredSession env s j) in
  let route := session_route jwtVerify refreshCognitoTokens env now in
  if dt <? 900 then
    passed_on env now path headers (accessToken s) j' /\
    route j' = (user_reply (session s) <$> expiryFromJwt now (accessToken s), j')
  else
    middleware env now path headers j' = MwRedirect "/login" path false /\
    if dt <? 2592000 then
      forall access refresh id u, refreshCognitoTokens r = Some (access, refresh, id) ->
        verifySessionToken jwtVerify env id = Ok u -> access <> "" ->
        exists j'', route j' = (user_reply u <$> expiryFromJwt now access, j'') /\ passed_on env now path headers access j''
    else route j' = (Some (Says 200 (JObj [])), clearStoredSession j').
Proof.
  intros Hd Hp Ht Hr Hne Ha Hi Hv j' route.
  destruct (stored_cookies env s dt j Hd Ht) as (Ea & _ & _ & Er). specialize (Er r Hr Hne). fold j' in Ea, Er.
  change ACCESS_MAX_AGE_SECONDS with 900 in Ea. change REFRESH_MAX_AGE_SECONDS with 2592000 in Er.
  assert (dt < 2592000 -> truthy (cookie REFRESH_TOKEN_COOKIE j') = true) as Htr.
  { intros Hdt. rewrite Er, (proj2 (Z.ltb_lt _ _) Hdt). cbn. by rewrite (is_empty_ne r Hne). }
  unfold route, session_route. rewrite Hd. destruct (Z.ltb_spec dt 900).
  - split; [apply middleware_token; auto with lia|].
    destruct (stored_reads jwtVerify env s dt j Hd ltac:(unfold ACCESS_MAX_AGE_SECONDS; lia) Ha Hi Hv) as (st & Eg & <- & <-).
    fold j' in Eg. unfold getOrRefreshStoredSession. by rewrite Eg.
  - split; [by apply middleware_no_token|]. destruct (Z.ltb_spec dt 2592000).
    + intros access refresh id u Hf Hu Hacc.
      rewrite (getOrRefresh_refreshes _ _ _ _ r access refresh id u Hd Ea Er Hne Hf Hu).
      set (st := mkStored access (Some (default r refresh)) id u). exists (setStoredSession env st j'). split; [done|].
      apply middleware_token; [done|done|by apply set_access|done|by apply set_refresh, Htr].
    + by rewrite (getOrRefresh_none _ _ _ _ Hd Ea Er).
Qed.

(** C25: the way through the sign-in.  A browser the middleware sends to the login page from a protected page, whatever
    its path, submits the login form and follows it to the identity provider; when the provider gives the code back
    with the state it was given, exchanges it for whoever shows a verifier that hashes to the challenge it was given,
    and the id token it issues verifies, the callback sends the browser back to that page, the cookies
    name the user of the token, and the middleware lets it through, if the access token that was issued does not
    expire within a minute. *)
Theorem sign_in_returns jwtVerify exchange env c random sha256 base url now now' path headers headers' j clear
    auth_code access refresh id u :
  e_authDisabled env = false -> isPublicPath path = false -> path <> "" ->
  middleware env now path headers j = MwRedirect "/login" path clear ->
  free "?" (to_chars (cc_domain c)) -> (forall k n, List.length (random k n) = n) ->
  auth_code <> "" -> id <> "" -> not_soon now' access -> verifySessionToken jwtVerify env id = Ok u ->
  exists page hosted j1,
    mw_address (middleware env now path headers j) = Some page /\
    login_route env c random sha256 (param "redirect" (query_of (handleLogin page))) url (mw_jar (middleware env now path headers j) j)
      = Ok (Goes hosted "", j1) /\
    ((forall v, generateCodeChallenge sha256 v = default "" (param "code_challenge" (query_of hosted)) ->
        exchange auth_code v = Some (access, refresh, id)) ->
     exists j2 h st,
       callback_route jwtVerify exchange env base (Some auth_code) (param "state" (query_of hosted)) j1 = (Goes path base, j2) /\
       getStoredSession jwtVerify env j2 = (Some st, j2) /\ session st = u /\
       middleware env now' path headers' j2 = MwNext h).
Proof.
  intros Hd Hp Hne Hm Hfree Hrand Hcode Hid Hacc Hv. rewrite Hm.
  destruct (login_redirect_mw "/login" path clear) as (page & Hpage & Hred); [apply (bool_decide_unpack _); vm_compute; exact I|done|].
  destruct (pkce_ok (random 0%nat) sha256 (Hrand 0%nat)) as (v & Hpk & Hvne).
  set (state := generateOAuthState (random 1%nat)). pose proof (state_nonempty (random 1%nat) (Hrand 1%nat 32%nat)) as Hst. fold state in Hst.
  set (hosted := getHostedLoginUrl c (generateCodeChallenge sha256 v) state path).
  eexists page, hosted, _. split; [done|]. split.
  { unfold login_route. rewrite Hd, Hpk, handleLogin_query, Hred. reflexivity. }
  unfold hosted. rewrite hosted_query by done. intros Hex.
  set (j0 := mw_jar _ j). change (param "state" _) with (Some state).
  specialize (Hex v eq_refl). set (stored := mkStored access refresh id u).
  set (j1 := (<["vg_post_login_redirect" := (path, OAUTH_MAX_AGE)]> (<["vg_oauth_state" := (state, OAUTH_MAX_AGE)]> (<["vg_pkce_verifier" := (v, OAUTH_MAX_AGE)]> j0)))).
  assert (callback_route jwtVerify exchange env base (Some auth_code) (Some state) j1
    = (Goes path base, clear_oauth (setStoredSession env stored j1))) as Hcb.
  { unfold j1, callback_route, cookie. rewrite Hd. simplify_map_eq. rewrite !is_empty_ne, bool_decide_true by done. cbn [orb negb].
    unfold verifySessionToken in Hv. rewrite Hd in Hv. by rewrite Hv. }
  destruct (signed_cookies env stored j1 Hd) as [Ha Hi].
  destruct (middleware_passes env now' path headers' _ access Ha Hacc) as [h Hh].
  set (j2 := clear_oauth _) in *. exists j2, h, (mkStored access (cookie REFRESH_TOKEN_COOKIE j2) id u).
  split; [exact Hcb|]. split; [|split; [done|exact Hh]].
  unfold getStoredSession. rewrite Hd, Ha, Hi, !is_empty_ne by (done || apply Hacc). cbn [orb stored idToken accessToken]. by rewrite Hv.
Qed.

(** ** Examples *)

(** A token that can be read: it expires at the second 4102447999. *)
Definition late_token : string := MOCK_ACCESS_TOKEN.

Example expiry_examples :
  expiryFromJwt 0 late_token = Some "2100-01-01T00:53:19.000Z" /\ expiryFromJwt 0 "opaque" = Some "1970-01-01T01:00:00.000Z" /\
  expiryFromJwt 0 soon_token = Some "1970-01-01T00:16:40.000Z".
Proof. vm_compute. done. Qed.

Definition kept : StoredAuthSession := mkStored "a" (Some "r") "good" (mkSession "u1" "a@b.c" OrgAdmin "org" "org" ["org_admin"]).
Definition fresh_tokens (r : string) : option (string * option string * string) := if String.eqb r "r" then Some ("a2", None, "good") else None.

Lemma opaque_not_soon now token : parseJwtExp token = None -> token <> "" -> not_soon now token.
Proof. intros H Hne. split; [done|]. intros e He. congruence. Qed.

(** After the quarter of an hour: the login page for a navigation, fresh cookies for a poll. *)
Lemma session_lifetime_witness :
  let j' := pass 901 (setStoredSession sample_env kept ∅) in
  middleware sample_env 0 "/devices" [] j' = MwRedirect "/login" "/devices" false /\
  exists j'' h, session_route sample_verify fresh_tokens sample_env 0 j' = (user_reply (session kept) <$> expiryFromJwt 0 "a2", j'') /\
    middleware sample_env 0 "/devices" [] j'' = MwNext h.
Proof.
  destruct (session_lifetime sample_verify fresh_tokens sample_env kept "r" ∅ 901 0 "/devices" [] eq_refl eq_refl ltac:(lia)
    eq_refl ltac:(discriminate) ltac:(discriminate) ltac:(discriminate) eq_refl) as [Hm Hr].
  split; [exact Hm|]. destruct (Hr "a2" None "good" (session kept) eq_refl eq_refl ltac:(discriminate)) as (j'' & Hj & [h Hh]).
  exists j'', h. split; [exact Hj|exact Hh].
Defined.

(** A token about to expire: a navigation is sent to the refresh route. *)
Example token_expiring :
  let soon := mkStored soon_token (Some "r") "good" (session kept) in
  middleware sample_env 950000 "/devices" [] (pass 60 (setStoredSession sample_env soon ∅)) = MwRedirect "/api/auth/refresh" "/devices" false.
Proof. vm_compute. reflexivity. Qed.

Lemma session_route_vouched_witness :
  exists st, vouched sample_verify sample_env (idToken st) (session st) /\
    (session_route sample_verify fresh_tokens sample_env 0 sample_jar).1 = (user_reply (session st) <$> expiryFromJwt 0 (accessToken st)).
Proof.
  pose proof (session_route_vouched sample_verify fresh_tokens sample_env 0 sample_jar eq_refl) as H.
  destruct (session_route sample_verify fresh_tokens sample_env 0 sample_jar) as [reply j'] eqn:E.
  destruct H as [[H _]|(st & Hv & _ & H)]; [vm_compute in E; rewrite H in E; discriminate E|]. by exists st.
Defined.

Definition sample_cognito : CognitoClientConfig :=
  mkCognito "auth.example.com" "client" None "http://d/api/auth/callback/cognito" "http://d".
Definition counting_bytes (k n : nat) : chars := map (fun i => chr (Z.of_nat i + Z.of_nat k)) (seq 0 n).
(** A provider that checks the proof key: the code is for whoever shows the verifier of [challenge]. *)
Definition pkce_exchange (challenge auth_code v : string) : option (string * option string * string) :=
  if String.eqb auth_code "code" && String.eqb (generateCodeChallenge id v) challenge then Some ("a", None, "good") else None.
Definition sample_challenge : string := generateCodeChallenge id (of_chars (map pkce_char (counting_bytes 0 64))).

Lemma sign_in_returns_witness :
  exists page hosted j1 j2 h st,
    mw_address (middleware sample_env 0 "/devices/d 1" [] ∅) = Some page /\
    login_route sample_env sample_cognito counting_bytes id (param "redirect" (query_of (handleLogin page))) "http://d" ∅ = Ok (Goes hosted "", j1) /\
    callback_route sample_verify (pkce_exchange sample_challenge) sample_env "http://d" (Some "code") (param "state" (query_of hosted)) j1
      = (Goes "/devices/d 1" "http://d", j2) /\
    getStoredSession sample_verify sample_env j2 = (Some st, j2) /\ session st = session kept /\
    middleware sample_env 0 "/devices/d 1" [] j2 = MwNext h.
Proof.
  destruct (sign_in_returns sample_verify (pkce_exchange sample_challenge) sample_env sample_cognito counting_bytes id "http://d" "http://d" 0 0
    "/devices/d 1" [] [] ∅ false "code" "a" None "good" (session kept) eq_refl eq_refl ltac:(discriminate) eq_refl
    ltac:(apply (bool_decide_unpack _); vm_compute; exact I)
    ltac:(intros k n; unfold counting_bytes; by rewrite length_map, length_seq) ltac:(discriminate) ltac:(discriminate)
    (opaque_not_soon 0 "a" eq_refl ltac:(discriminate)) eq_refl) as (page & hosted & j1 & Hp & Hl & Hrest).
  assert (param "code_challenge" (query_of hosted) = Some sample_challenge) as Hch.
  { assert (page = "/login?redirect=%2Fdevices%2Fd+1") as -> by (vm_compute in Hp; congruence).
    vm_compute in Hl. injection Hl as <- _. vm_compute. reflexivity. }
  destruct Hrest as (j2 & h & st & Hc & Hg & Hs & Hm).
  { intros v Hv. rewrite Hch in Hv. cbn [default from_option id] in Hv. unfold pkce_exchange. rewrite Hv, !String.eqb_refl. reflexivity. }
  exists page, hosted, j1, j2, h, st. split_and!; [exact Hp|exact Hl|exact Hc|exact Hg|exact Hs|exact Hm].
Defined.

(** The callback's error is in an address the login page does not read. *)
Example login_ignores_error : login_redirect "/login?error=auth_failed" = "/dashboard" /\
  handleLogin "/login?error=auth_failed" = "/api/auth/login?redirect=%2Fdashboard".
Proof. vm_compute. done. Qed.
