(* ===== verification/DashAdmin.v ===== *)
(** * The other end of a list request: [/admin/audit] and [/admin/violations] of the backend server

    [backend/server/src/routes/admin_audit.rs] and the event upload of [routes/agent.rs], as far as the dashboard's lists and
    the audit export reach: how the query of a request is read ([ListArgs]), the store of audit events of the
    development mode, and the pages made of it.  The production store is DynamoDB.  A [u64] or [i64] is a [Z] in its
    range; [to_lowercase] is that of ASCII. *)

From S2P Require Import Prelude Json JsonText IsoDate Resilience CliFiles CliInput Dashboard DashFetch DashQuery DashRepo DashAuth DashSession.

(** ** The query: [Query<ListArgs>] *)

Record ListArgs := mkArgs {
  la_page : option Z;
  la_per_page : option Z;
  la_date_from_ms : option Z;
  la_date_to_ms : option Z;
  la_decision : option string;
  la_risk_level : option string;
  la_user_id : option string;
  la_category : option string;
  la_device_id : option string;
  la_search : option string
}.

Definition LIST_FIELDS : list string :=
  ["page"; "per_page"; "date_from_ms"; "date_to_ms"; "decision"; "risk_level"; "user_id"; "category"; "device_id"; "search"].

Definition unsigned (s : chars) : option Z := if decide (s = []) then None else digits_val 0 s.

(** [str::parse::<u64>] and [str::parse::<i64>] *)
Definition u64_of (s : string) : option Z :=
  n ← unsigned (match to_chars s with "+"%char :: r => r | l => l end);
  if n <? 2 ^ 64 then Some n else None.
Definition i64_of (s : string) : option Z :=
  n ← match to_chars s with
      | "+"%char :: r => unsigned r
      | "-"%char :: r => Z.opp <$> unsigned r
      | l => unsigned l
      end;
  if (- 2 ^ 63 <=? n) && (n <? 2 ^ 63) then Some n else None.

(** A field that may be missing; the outer [None]: it does not parse. *)
Definition opt_field {A} (read : string -> option A) (k : string) (params : list (string * string)) : option (option A) :=
  match param k params with None => Some None | Some s => Some <$> read s end.

(** [None]: the request is refused, for a field that does not parse or is there twice.  Other names are ignored. *)
Definition list_args (params : list (string * string)) : option ListArgs :=
  if bool_decide (NoDup (List.filter (fun k => is_one_of k LIST_FIELDS) (map fst params))) then
    page ← opt_field u64_of "page" params;
    per_page ← opt_field u64_of "per_page" params;
    date_from ← opt_field i64_of "date_from_ms" params;
    date_to ← opt_field i64_of "date_to_ms" params;
    Some (mkArgs page per_page date_from date_to (param "decision" params) (param "risk_level" params) (param "user_id" params)
            (param "category" params) (param "device_id" params) (param "search" params))
  else None.

(** [impl From<ListArgs> for AdminSearchQuery] *)
Record AdminSearchQuery := mkSearchQuery {
  sq_page : Z;
  sq_per_page : Z;
  sq_date_from_ms : option Z;
  sq_date_to_ms : option Z;
  sq_decision : option string;
  sq_risk_level : option string;
  sq_user_id : option string;
  sq_category : option string;
  sq_device_id : option string;
  sq_search : option string
}.

Definition page_number (a : ListArgs) : Z := Z.max (default 1 (la_page a)) 1.
Definition page_size (a : ListArgs) : Z := Z.min (Z.max (default 25 (la_per_page a)) 1) 100.

Definition search_query (a : ListArgs) : AdminSearchQuery :=
  mkSearchQuery (page_number a) (page_size a) (la_date_from_ms a) (la_date_to_ms a) (la_decision a) (la_risk_level a) (la_user_id a)
    (la_category a) (la_device_id a) (la_search a).

(** ** The events of the development mode *)

Record DevAuditEvent := mkDevEvent {
  de_event_id : string;
  de_org_id : string;
  de_device_id : string;
  de_timestamp_ms : Z;
  de_event_type : string;
  de_severity : string;
  de_action : string;
  de_risk_level : string;
  de_category : option string;
  de_reason : option string;
  de_details : json
}.

Definition DEV_STORE_CAP : nat := 1000.

(** The store is a vector, the oldest event first. *)
Definition record_dev_audit (e : DevAuditEvent) (store : list DevAuditEvent) : list DevAuditEvent :=
  let store' := store ++ [e] in
  if (DEV_STORE_CAP <? List.length store')%nat then tail store' else store'.

(** [str_of] *)
Definition str_of (e : json) (k : string) : option string := as_string (json_get k e).

Definition as_i64 (v : option json) : option Z :=
  match v with Some (JNum (NInt n)) => if (- 2 ^ 63 <=? n) && (n <? 2 ^ 63) then Some n else None | _ => None end.

(** An uploaded event; [fresh]: the uuid it gets when it has no id, [now]: the clock *)
Definition uploaded (device_id org_id fresh : string) (now : Z) (event : json) : DevAuditEvent :=
  let risk_level := default "low" (str_of event "risk_level") in
  mkDevEvent (default ("evt-" +:+ fresh) (str_of event "event_id")) org_id (default device_id (str_of event "device_id"))
    (default now (as_i64 (json_get "timestamp_ms" event))) (default "prompt_scan" (str_of event "type")) risk_level
    (default "allow" (str_of event "decision")) risk_level (str_of event "category") (str_of event "reason") event.

(** [post_events_batch]: the number accepted, and the store *)
Fixpoint post_events (device_id org_id : string) (fresh : nat -> string) (now : Z) (events : list json) (store : list DevAuditEvent)
    : list DevAuditEvent :=
  match events with
  | [] => store
  | e :: rest =>
      post_events device_id org_id fresh now rest (record_dev_audit (uploaded device_id org_id (fresh (List.length rest)) now e) store)
  end.
Definition post_events_batch (device_id org_id : option string) (fresh : nat -> string) (now : Z) (events : list json)
    (store : list DevAuditEvent) : nat * list DevAuditEvent :=
  (List.length events, post_events (default "dev-unknown" device_id) (default "local-org" org_id) fresh now events store).

(** ** Pages *)

Definition none_or {A} (f : A -> bool) (o : option A) : bool := match o with Some x => f x | None => true end.

Definition dev_event_matches (a : ListArgs) (e : DevAuditEvent) : bool :=
  none_or (fun c => bool_decide (de_category e = Some c)) (la_category a)
  && none_or (fun d => String.eqb (de_device_id e) d) (la_device_id a)
  && none_or (fun d => String.eqb (de_action e) d) (la_decision a)
  && none_or (fun text =>
       let needle := to_lower text in
       js_includes (to_lower (de_device_id e)) needle || js_includes (to_lower (de_event_id e)) needle
       || from_option (fun r => js_includes (to_lower r) needle) false (de_reason e)
       || from_option (fun c => js_includes (to_lower c) needle) false (de_category e)) (la_search a).

Definition severe (e : DevAuditEvent) : bool := String.eqb (de_severity e) "high" || String.eqb (de_severity e) "critical".

(** The events of a query, newest first *)
Definition dev_matches (a : ListArgs) (org_id : option string) (severity_floor : bool) (store : list DevAuditEvent) : list DevAuditEvent :=
  rev (List.filter (dev_event_matches a)
    (List.filter (fun e => negb severity_floor || severe e)
      (List.filter (fun e => none_or (fun org => String.eqb (de_org_id e) org) org_id) store))).

Record dev_page := mkDevPage { dp_items : list DevAuditEvent; dp_total : Z; dp_page : Z; dp_per_page : Z }.

(** The products are those of [u64]. *)
Definition dev_audit_page (a : ListArgs) (org_id : option string) (severity_floor : bool) (store : list DevAuditEvent) : dev_page :=
  let filtered := dev_matches a org_id severity_floor store in
  let start := (page_number a - 1) * page_size a mod 2 ^ 64 in
  mkDevPage (firstn (Z.to_nat (page_size a)) (skipn (Z.to_nat start) filtered)) (Z.of_nat (List.length filtered)) (page_number a) (page_size a).

Definition opt_str (o : option string) : json := match o with Some s => JStr s | None => JNull end.

Definition dev_item (e : DevAuditEvent) : json :=
  JObj [("event_id", JStr (de_event_id e)); ("device_id", JStr (de_device_id e)); ("timestamp_ms", JNum (NInt (de_timestamp_ms e)));
        ("decision", JStr (de_action e)); ("risk_level", JStr (de_risk_level e)); ("event_type", JStr (de_event_type e));
        ("category", opt_str (de_category e)); ("reason", opt_str (de_reason e))].

Definition dev_page_json (p : dev_page) : json :=
  JObj [("items", JArr (map dev_item (dp_items p))); ("total", JNum (NInt (dp_total p))); ("page", JNum (NInt (dp_page p)));
        ("per_page", JNum (NInt (dp_per_page p))); ("next_token", JNull)].

(** The two endpoints in development mode, for a caller who may read; the reply to a query that is refused is [None]. *)
Definition admin_list (path : string) (org_id : string) (params : list (string * string)) (store : list DevAuditEvent) : option json :=
  a ← list_args params;
  if String.eqb path "/admin/audit" then Some (dev_page_json (dev_audit_page a (Some org_id) false store))
  else if String.eqb path "/admin/violations" then Some (dev_page_json (dev_audit_page a None true store))
  else None.

(** The reply to a request of the dashboard's registry *)
Definition admin_answers (store : list DevAuditEvent) (org_id : string) (op : repo_op) : option json :=
  r ← backend_request op;
  admin_list (of_chars (cut "?"%char (to_chars (hq_path r))).1) org_id (query_of (hq_path r)) store.

(** ** Lemmas *)

(** *** What the lists of the dashboard ask *)

(** The query of a list request and what it leaves out *)
Definition asks (q : PageQuery) (decision category : option string) : ListArgs :=
  mkArgs (Some (q_page q)) (Some (q_perPage q)) None None decision None None category None (q_search q).

Definition set_only (o : option string) : option string := if truthy o then o else None.

Lemma u64_text n : 0 <= n < 2 ^ 64 -> u64_of (num_text n) = Some n.
Proof.
  intros Hn. destruct (num_text_parses n ltac:(lia)) as [Hne Hv].
  assert (forall c s, to_chars (num_text n) = c :: s -> c <> "+"%char) as Hplus.
  { intros c s E ->. rewrite E in Hv. discriminate Hv. }
  unfold u64_of. destruct (to_chars (num_text n)) as [|c s] eqn:E.
  - exfalso. apply Hne. by rewrite <- (of_to_chars (num_text n)), E.
  - assert (unsigned (match c :: s with "+"%char :: r => r | l => l end) = Some n) as ->.
    { destruct c as [[] [] [] [] [] [] [] []]; try exact Hv. exfalso. by apply (Hplus _ _ eq_refl). }
    cbn [mbind option_bind]. by assert (n <? 2 ^ 64 = true) as -> by lia.
Qed.

(** The query of a registry's list operation, by name *)
Lemma list_params (page : string) (l : list (string * option string)) :
  free "?" (to_chars page) -> query_of (page +:+ "?" +:+ qs l) = truthy_params l.
Proof. intros Hp. by apply query_serialized. Qed.

Lemma known_once (l : list (string * option string)) :
  NoDup (map fst l) -> NoDup (List.filter (fun k => is_one_of k LIST_FIELDS) (map fst (truthy_params l))).
Proof.
  intros Hnd. apply NoDup_ListNoDup, List.NoDup_filter, NoDup_ListNoDup. revert Hnd.
  induction l as [|[k v] l IH]; [done|]. cbn [map fst]. intros [Hn Hl]%NoDup_cons. specialize (IH Hl).
  unfold truthy_params. cbn. destruct v as [v|]; [|exact IH]. destruct (is_empty v); [exact IH|].
  cbn. apply NoDup_cons. split; [|exact IH]. intros Hin. apply Hn. by apply truthy_keys.
Qed.

(** A list of the dashboard, read by the server: the page, the search, and of the filters those the server has *)
Lemma list_args_read q (filters : list (string * option string)) :
  page_bounded [] (mkQuery (q_page q) (q_perPage q) (q_search q) None None) ->
  NoDup (map fst (page_params q ++ filters)) ->
  Forall (fun k => obj_get k filters = None) ["date_from_ms"; "date_to_ms"; "risk_level"; "user_id"; "device_id"] ->
  let read k := match obj_get k filters with Some v => set_only v | None => None end in
  list_args (truthy_params (page_params q ++ filters)) = Some (asks q (read "decision") (read "category")).
Proof.
  intros (Hp & Hper & Hs & _) Hnd Hnone read. unfold list_args. rewrite bool_decide_true by by apply known_once.
  assert (forall k, k ∉ ["page"; "per_page"; "search"] -> param k (truthy_params (page_params q ++ filters)) = read k) as Hget.
  { intros k Hk. rewrite param_truthy by done. unfold read, set_only, truthy. cbn [page_params Datatypes.app obj_get].
    destruct (String.eqb_spec k "page"); [set_solver|]. destruct (String.eqb_spec k "per_page"); [set_solver|].
    destruct (String.eqb_spec k "search"); [set_solver|]. destruct (obj_get k filters) as [[v|]|]; [|done..]. by destruct v. }
  rewrite !Forall_cons in Hnone. destruct Hnone as (H1 & H2 & H3 & H4 & H5 & _).
  unfold opt_field. rewrite (Hget "date_from_ms"), (Hget "date_to_ms"), (Hget "decision"), (Hget "risk_level"), (Hget "user_id"),
    (Hget "category"), (Hget "device_id") by set_solver.
  assert (forall k, obj_get k filters = None -> read k = None) as Hread by (intros k Hk; unfold read; by rewrite Hk).
  rewrite (Hread _ H1), (Hread _ H2), (Hread _ H3), (Hread _ H4), (Hread _ H5). clear Hread. clearbody read.
  rewrite !param_truthy by done. cbn [page_params Datatypes.app obj_get String.eqb Ascii.eqb Bool.eqb q_page q_perPage q_search] in *.
  destruct (num_text_parses (q_page q)) as [Hn1 _]; [lia|]. destruct (num_text_parses (q_perPage q)) as [Hn2 _]; [lia|].
  rewrite !is_empty_ne, !u64_text by (done || (unfold MAX_PER_PAGE in *; lia)). cbn [fmap option_fmap option_map mbind option_bind].
  unfold asks. do 2 f_equal. destruct (q_search q) as [s|] eqn:E; [|done]. rewrite is_empty_ne; [done|]. by apply (Hs s).
Qed.

(** *** Pages of a list *)

Lemma firstn_pages {A} (l : list A) per n :
  List.concat (map (fun i => firstn per (skipn (i * per) l)) (seq 0 n)) = firstn (n * per) l.
Proof.
  induction n as [|n IH]; [done|]. rewrite seq_S, map_app, List.concat_app, IH. cbn [map List.concat Nat.add Nat.mul]. rewrite app_nil_r.
  rewrite <- (firstn_skipn (n * per) (firstn (per + n * per) l)). f_equal.
  - rewrite firstn_firstn. f_equal. lia.
  - rewrite skipn_firstn_comm. f_equal. lia.
Qed.

(** The same query, for another page *)
Definition at_page (a : ListArgs) (page per_page : Z) : ListArgs :=
  mkArgs (Some page) (Some per_page) (la_date_from_ms a) (la_date_to_ms a) (la_decision a) (la_risk_level a) (la_user_id a)
    (la_category a) (la_device_id a) (la_search a).

Lemma page_items a org floor store page per :
  1 <= page -> 1 <= per <= 100 -> (page - 1) * per < 2 ^ 64 ->
  dev_audit_page (at_page a page per) org floor store
  = mkDevPage (firstn (Z.to_nat per) (skipn (Z.to_nat ((page - 1) * per)) (dev_matches a org floor store)))
      (Z.of_nat (List.length (dev_matches a org floor store))) page per.
Proof.
  intros Hp Hper Hov. unfold dev_audit_page.
  assert (page_number (at_page a page per) = page) as -> by (unfold page_number; cbn; lia).
  assert (page_size (at_page a page per) = per) as -> by (unfold page_size; cbn; lia).
  change (dev_matches (at_page a page per) org floor store) with (dev_matches a org floor store).
  rewrite Z.mod_small by nia. reflexivity.
Qed.

(** *** The store *)

Definition last_n {A} (n : nat) (l : list A) : list A := skipn (List.length l - n) l.

Lemma last_n_short {A} n (l : list A) : (List.length l <= n)%nat -> last_n n l = l.
Proof. intros Hl. unfold last_n. by replace (List.length l - n)%nat with 0%nat by lia. Qed.

Lemma last_n_app {A} n (l r : list A) : last_n n (last_n n l ++ r) = last_n n (l ++ r).
Proof.
  unfold last_n. rewrite !length_app, length_skipn, !skipn_app, skipn_skipn, length_skipn. f_equal; f_equal; lia.
Qed.

Lemma record_last e store :
  (List.length store <= DEV_STORE_CAP)%nat -> record_dev_audit e store = last_n DEV_STORE_CAP (store ++ [e]).
Proof.
  intros Hl. unfold record_dev_audit. destruct (Nat.ltb_spec DEV_STORE_CAP (List.length (store ++ [e]))) as [H|H].
  - rewrite length_app in H. cbn in H. unfold last_n. rewrite length_app. cbn [List.length].
    replace (List.length store + 1 - DEV_STORE_CAP)%nat with 1%nat by lia. by destruct (store ++ [e]).
  - by rewrite last_n_short by lia.
Qed.

Lemma last_n_length {A} n (l : list A) : (List.length (last_n n l) <= n)%nat.
Proof. unfold last_n. rewrite length_skipn. lia. Qed.

(** The events of a batch, as they are stored *)
Fixpoint batch (device_id org_id : string) (fresh : nat -> string) (now : Z) (events : list json) : list DevAuditEvent :=
  match events with
  | [] => []
  | e :: rest => uploaded device_id org_id (fresh (List.length rest)) now e :: batch device_id org_id fresh now rest
  end.

Lemma post_events_last device org fresh now events store :
  (List.length store <= DEV_STORE_CAP)%nat ->
  post_events device org fresh now events store = last_n DEV_STORE_CAP (store ++ batch device org fresh now events).
Proof.
  revert store. induction events as [|e rest IH]; intros store Hl; cbn [post_events batch].
  - rewrite app_nil_r. by rewrite last_n_short.
  - rewrite record_last by done. rewrite IH by apply last_n_length. rewrite last_n_app, <- app_assoc. done.
Qed.

(** ** Properties *)

(** C20: what the server reads of the two lists of the dashboard.  Of a query a page can ask for, it reads the page, the page size and
    the search; of the filters of the violations the decision and the category; of those of the audit list none: the
    range of dates, the severity, the source and the type of event are sent under names the server does not have, and
    the reply is the same with them and without.  The replies are those of the server's development mode, from its store in
    memory; the database behind the other mode is not modelled. *)
Theorem list_filters_read store org q f :
  page_bounded [] (mkQuery (q_page q) (q_perPage q) (q_search q) None None) ->
  admin_answers store org (AuditList q f) = Some (dev_page_json (dev_audit_page (asks q None None) (Some org) false store)) /\
  admin_answers store org (ViolationsList q f)
    = Some (dev_page_json (dev_audit_page (asks q (set_only (filter_of "decision" f)) (set_only (filter_of "category" f))) None true store)).
Proof.
  intros Hq.
  assert (forall page l (Hp : free "?" (to_chars page)), (cut "?"%char (to_chars (page +:+ "?" +:+ qs l))).1 = to_chars page) as Hcut.
  { intros page l Hp. rewrite !to_chars_app. change (to_chars "?" ++ ?x) with ("?"%char :: x). by rewrite cut_free. }
  split; unfold admin_answers.
  - change (backend_request (AuditList q f)) with (Some (http_get ("/admin/audit" +:+ "?" +:+ qs (page_params q ++
      [("type", filter_of "type" f); ("from", filter_of "from" f); ("to", filter_of "to" f)])))).
    cbn [mbind option_bind http_get hq_path]. rewrite Hcut, of_to_chars, list_params by (apply (bool_decide_unpack _); vm_compute; exact I).
    unfold admin_list. rewrite list_args_read; [reflexivity|done|apply (bool_decide_unpack _); vm_compute; exact I|repeat constructor].
  - change (backend_request (ViolationsList q f)) with (Some (http_get ("/admin/violations" +:+ "?" +:+ qs (page_params q ++
      [("severity", filter_of "severity" f); ("decision", filter_of "decision" f); ("source", filter_of "source" f);
       ("category", filter_of "category" f); ("from", filter_of "from" f); ("to", filter_of "to" f)])))).
    cbn [mbind option_bind http_get hq_path]. rewrite Hcut, of_to_chars, list_params by (apply (bool_decide_unpack _); vm_compute; exact I).
    unfold admin_list. rewrite list_args_read; [reflexivity|done|apply (bool_decide_unpack _); vm_compute; exact I|repeat constructor].
Qed.

(** Paging is complete.  Asked for its pages one after the other, with any page size the server honours, it serves the events of
    the query newest first, each once, however many pages are asked for; every page says how many events there are in all
    and none is longer than was asked. *)
Theorem dev_pages_complete a org floor store per n :
  1 <= per <= 100 -> Z.of_nat n * per < 2 ^ 64 ->
  let all := dev_matches a org floor store in
  let page i := dev_audit_page (at_page a (Z.of_nat i + 1) per) org floor store in
  List.concat (map (fun i => dp_items (page i)) (seq 0 n)) = firstn (n * Z.to_nat per) all /\
  ((List.length all <= n * Z.to_nat per)%nat -> List.concat (map (fun i => dp_items (page i)) (seq 0 n)) = all) /\
  forall i, (i < n)%nat -> dp_total (page i) = Z.of_nat (List.length all) /\ Z.of_nat (List.length (dp_items (page i))) <= per.
Proof.
  intros Hper Hov all page.
  assert (forall i, (i < n)%nat -> page i = mkDevPage (firstn (Z.to_nat per) (skipn (i * Z.to_nat per) all)) (Z.of_nat (List.length all)) (Z.of_nat i + 1) per) as Hpage.
  { intros i Hi. unfold page. rewrite page_items by nia. fold all.
    by replace (Z.to_nat ((Z.of_nat i + 1 - 1) * per)) with (i * Z.to_nat per)%nat by lia. }
  assert (List.concat (map (fun i => dp_items (page i)) (seq 0 n)) = firstn (n * Z.to_nat per) all) as E.
  { rewrite <- firstn_pages. f_equal. apply map_ext_in. intros i Hi%in_seq. by rewrite Hpage by lia. }
  split; [exact E|]. split.
  - intros Hl. rewrite E. by apply firstn_all2.
  - intros i Hi. rewrite Hpage by done. cbn [dp_total dp_items]. split; [done|]. rewrite length_firstn. lia.
Qed.

(** The store of the development mode keeps the last thousand events, in the order they were uploaded. *)
Theorem dev_store_keeps device org fresh now events store :
  (List.length store <= DEV_STORE_CAP)%nat ->
  let '(accepted, store') := post_events_batch device org fresh now events store in
  accepted = List.length events /\ (List.length store' <= DEV_STORE_CAP)%nat /\
  store' = last_n DEV_STORE_CAP (store ++ batch (default "dev-unknown" device) (default "local-org" org) fresh now events).
Proof.
  intros Hl. unfold post_events_batch. rewrite post_events_last by done. split; [done|]. split; [apply last_n_length|done].
Qed.

(** What the registry makes of such a reply *)
Lemma dev_page_mapped p :
  mapPage (dev_page_json p)
  = Some (mkPage (JArr (map dev_item (dp_items p))) (JNum (NInt (dp_page p))) (JNum (NInt (dp_per_page p))) (JNum (NInt (dp_total p))) JNull).
Proof. reflexivity. Qed.

(** ** Examples *)

Definition dev_event (id action severity : string) (ms : Z) : DevAuditEvent :=
  mkDevEvent id "local-org" "d1" ms "prompt_scan" severity action severity (Some "secrets") None JNull.
Definition dev_sample : list DevAuditEvent :=
  [dev_event "e1" "allow" "low" 0; dev_event "e2" "block" "high" 86400000; dev_event "e3" "warn" "critical" 172800000].

Definition first_page : PageQuery := mkQuery 1 2 None None None.

Lemma first_page_bounded : page_bounded [] (mkQuery (q_page first_page) (q_perPage first_page) (q_search first_page) None None).
Proof. split_and!; try (cbn; unfold MAX_PER_PAGE; lia); done. Defined.

(** Events of one day asked for: those of every day come back. *)
Lemma list_filters_read_witness :
  admin_answers dev_sample "local-org" (AuditList first_page [("from", JStr "1970-01-01"); ("to", JStr "1970-01-01"); ("type", JStr "user.login")])
    = admin_answers dev_sample "local-org" (AuditList first_page []) /\
  option_map mapPage (admin_answers dev_sample "local-org" (ViolationsList first_page [("severity", JStr "high"); ("decision", JStr "warn")]))
    = Some (Some (mkPage (JArr [dev_item (dev_event "e3" "warn" "critical" 172800000)]) (JNum (NInt 1)) (JNum (NInt 2)) (JNum (NInt 1)) JNull)).
Proof.
  split.
  - rewrite (proj1 (list_filters_read dev_sample "local-org" first_page _ first_page_bounded)).
    by rewrite (proj1 (list_filters_read dev_sample "local-org" first_page [] first_page_bounded)).
  - rewrite (proj2 (list_filters_read dev_sample "local-org" first_page _ first_page_bounded)). vm_compute. reflexivity.
Defined.

Lemma dev_pages_complete_witness :
  let page i := dev_audit_page (at_page (asks first_page None None) (Z.of_nat i + 1) 2) (Some "local-org") false dev_sample in
  List.concat (map (fun i => dp_items (page i)) (seq 0 2)) = rev dev_sample.
Proof.
  destruct (dev_pages_complete (asks first_page None None) (Some "local-org") false dev_sample 2 2 ltac:(lia) ltac:(lia)) as (_ & H & _).
  apply H. vm_compute. lia.
Defined.

Lemma dev_store_keeps_witness :
  (post_events_batch None None (fun _ => "u") 5 [JObj [("event_id", JStr "x"); ("risk_level", JStr "high")]] dev_sample).2
  = dev_sample ++ [mkDevEvent "x" "local-org" "dev-unknown" 5 "prompt_scan" "high" "allow" "high" None None
                     (JObj [("event_id", JStr "x"); ("risk_level", JStr "high")])].
Proof.
  pose proof (dev_store_keeps None None (fun _ => "u") 5 [JObj [("event_id", JStr "x"); ("risk_level", JStr "high")]] dev_sample
    ltac:(vm_compute; lia)) as H.
  destruct (post_events_batch _ _ _ _ _ _) as [n store'] eqn:E. cbn [snd]. destruct H as (_ & _ & ->). vm_compute. reflexivity.
Defined.

(** The columns Type, Actor and Hash of the audit page read properties the items do not have. *)
Example item_without_type :
  Forall (fun k => json_get k (dev_item (dev_event "e1" "allow" "low" 0)) = None) ["type"; "user_id"; "event_hash"] /\
  json_get "event_type" (dev_item (dev_event "e1" "allow" "low" 0)) = Some (JStr "prompt_scan").
Proof. split; [repeat constructor|reflexivity]. Qed.
