(* ===== verification/DashDates.v ===== *)
(** * Dates of the list pages: the default range, the presets, and what the server reads of them

    [isoToday] and [isoDaysAgo] of [app/violations/page.tsx] and [app/audit/page.tsx], [buildPresetDateRanges] of
    [components/ui/DateRangePicker.tsx], and the dates without a time that [Date.parse] reads.  Local time is that of a zone
    at a fixed distance from UTC: a day on which the clocks change is left out. *)

From S2P Require Import Prelude Json JsonText IsoDate Resilience CliFiles CliInput Dashboard DashFetch DashQuery DashRepo DashRoutes DashLists.

Definition DAY : Z := 86400000.

(** ** Local time *)

Section zone.
(** The distance of the zone from UTC, in milliseconds *)
Context (zone : Z).

(** The day of a moment on the local calendar, and the time of that day *)
Definition local_day (ms : Z) : Z := (ms + zone) / DAY.
Definition local_time (ms : Z) : Z := (ms + zone) mod DAY.
Definition of_local (day time : Z) : Z := day * DAY + time - zone.

(** [d.setDate(d.getDate() - days)]; the day of the month runs over into the months before. *)
Definition days_back (days ms : Z) : Z := of_local (local_day ms - days) (local_time ms).
(** [d.setHours(23, 59, 59, 999)] *)
Definition end_of_day (ms : Z) : Z := of_local (local_day ms) (23 * 3600000 + 59 * 60000 + 59 * 1000 + 999).

(** [d.toISOString().slice(0, 10)]; [None]: it throws. *)
Definition isoDate (ms : Z) : option string := slice_to 10 <$> toISOString ms.

Definition isoToday (now : Z) : option string := isoDate now.
Definition isoDaysAgo (days now : Z) : option string := isoDate (days_back days now).

(** The range a list page starts with: the last [days] *)
Definition default_range (days now : Z) : option (string * string) :=
  from ← isoDaysAgo days now; to ← isoToday now; Some (from, to).
Definition VIOLATION_DAYS : Z := 30.
Definition AUDIT_DAYS : Z := 7.

(** ** [DateRangePicker.tsx] *)

(** [make] *)
Definition preset_range (today daysBack : Z) : option (string * string) :=
  from ← isoDate (days_back daysBack today); to ← isoDate (end_of_day today); Some (from, to).

Record PresetDateRange := mkPreset { pr_id : string; pr_label : string; pr_range : option (string * string) }.

Definition buildPresetDateRanges (today : Z) : list PresetDateRange :=
  [mkPreset "24h" "Last 24h" (preset_range today 1);
   mkPreset "7d" "Last 7 days" (preset_range today 7);
   mkPreset "30d" "Last 30 days" (preset_range today 30);
   mkPreset "90d" "Last 90 days" (preset_range today 90)].
End zone.

(** The earliest date the field [To] offers: [value.from || min] *)
Definition to_min (from : string) (min : option string) : option string := if is_empty from then min else Some from.

(** ** [Date.parse] of a date without a time: midnight, UTC *)

Definition date_parse (s : string) : option Z :=
  match to_chars s with
  | [a; b; c; d; h; e; f; i; g; k] =>
      if Ascii.eqb h "-" && Ascii.eqb i "-" then
        y ← digits_val 0 [a; b; c; d];
        m ← digits_val 0 [e; f];
        day ← digits_val 0 [g; k];
        if (1 <=? m) && (m <=? 12) && (1 <=? day) && (day <=? month_days y m) then Some (days_of_civil (mkCivil y m day) * DAY) else None
      else None
  | _ => None
  end.

(** ** Lemmas *)

(** Moments from 1970 to the end of the year 9599, whose year is in four digits *)
Definition HORIZON : Z := 2786860 * DAY.

Lemma civil_year z : 0 <= z < 2786860 -> 0 <= c_year (civil_of_days z) <= 9999.
Proof.
  intros Hz. unfold civil_of_days. cbn [c_year]. set (w := z + 719468).
  pose proof (Z.mod_pos_bound w 146097 ltac:(lia)) as Hm. pose proof (doe_ok (w mod 146097) Hm) as Hc. unfold doe_check in Hc.
  set (c := civil_of_doe (w mod 146097)) in *. rewrite !andb_true_iff, !Z.leb_le, Z.ltb_lt in Hc. destruct Hc as [_ [Hy1 Hy2]].
  assert (4 <= w / 146097 <= 23) by (split; [apply Z.div_le_lower_bound|apply Z.lt_succ_r, Z.div_lt_upper_bound]; unfold w; lia).
  destruct (c_month c <=? 2); lia.
Qed.

Lemma pad_digits k n : 0 <= n < 10 ^ Z.of_nat k ->
  exists ds, to_chars (pad k n) = ds /\ List.length ds = k /\ digits_val 0 ds = Some n.
Proof.
  intros Hn. destruct (print_pad_spec k n [] Hn) as (ds & E & Hl & _ & Hv). exists ds. unfold pad. rewrite to_of_chars, E, app_nil_r. done.
Qed.

Lemma slice_to_chars n s : to_chars (slice_to n s) = firstn n (to_chars s).
Proof.
  unfold slice_to. revert n. induction s as [|c s IH]; intros [|n]; try done. cbn [String.substring to_chars list_ascii_of_string firstn].
  f_equal. apply IH.
Qed.

(** A date that was written is read as the midnight of its day. *)
Lemma isoDate_parse ms : 0 <= ms < HORIZON -> exists s, isoDate ms = Some s /\ date_parse s = Some (ms / DAY * DAY) /\ s <> "".
Proof.
  intros Hms. unfold isoDate, toISOString. unfold HORIZON, DAY in *.
  assert ((- MAX_TIME <=? ms) && (ms <=? MAX_TIME) = true) as -> by (unfold MAX_TIME; lia). cbn [fmap option_fmap option_map].
  assert (0 <= ms / 86400000 < 2786860) as Hd by (split; [apply Z.div_pos|apply Z.div_lt_upper_bound]; lia).
  set (z := ms / 86400000) in *. destruct (civil_days z) as (Hm & Hday & Hinv). pose proof (civil_year z Hd) as Hy.
  set (c := civil_of_days z) in *. assert (c_day c <= 31) as H31.
  { unfold month_days in Hday. destruct (c_month c =? 2); [destruct (_ && _); lia|]. destruct (bool_decide _); lia. }
  unfold year_text. assert ((0 <=? c_year c) && (c_year c <=? 9999) = true) as -> by lia.
  destruct (pad_digits 4 (c_year c) ltac:(lia)) as (ys & Ey & Ly & Vy).
  destruct (pad_digits 2 (c_month c) ltac:(lia)) as (mo & Em & Lm & Vm).
  destruct (pad_digits 2 (c_day c) ltac:(lia)) as (dd & Ed & Ld & Vd).
  do 5 (destruct ys as [|? ys]; try discriminate Ly). do 3 (destruct mo as [|? mo]; try discriminate Lm).
  do 3 (destruct dd as [|? dd]; try discriminate Ld).
  eexists. split; [reflexivity|].
  assert (forall t, to_chars (slice_to 10 (pad 4 (c_year c) +:+ "-" +:+ pad 2 (c_month c) +:+ "-" +:+ pad 2 (c_day c) +:+ "T" +:+ t))
    = [a; a0; a1; a2; "-"%char; a3; a4; "-"%char; a5; a6]) as Es.
  { intros t. rewrite slice_to_chars, !to_chars_app, Ey, Em, Ed. reflexivity. }
  split; [|intros E; apply (f_equal to_chars) in E; rewrite Es in E; discriminate E].
  unfold date_parse. rewrite Es. change (Ascii.eqb "-" "-" && Ascii.eqb "-" "-") with true. cbv iota.
  rewrite Vy, Vm, Vd. cbn [mbind option_bind].
  assert ((1 <=? c_month c) && (c_month c <=? 12) && (1 <=? c_day c) && (c_day c <=? month_days (c_year c) (c_month c)) = true) as -> by lia.
  assert (mkCivil (c_year c) (c_month c) (c_day c) = c) as -> by (by destruct c). by rewrite Hinv.
Qed.

Lemma local_split zone ms : of_local zone (local_day zone ms) (local_time zone ms) = ms.
Proof. unfold of_local, local_day, local_time, DAY. pose proof (Z.div_mod (ms + zone) 86400000 ltac:(lia)). lia. Qed.

Lemma days_back_spec zone days ms : days_back zone days ms = ms - days * DAY.
Proof. unfold days_back. pose proof (local_split zone ms). unfold of_local in *. unfold DAY in *. lia. Qed.

Lemma day_back ms days : (ms - days * DAY) / DAY * DAY = ms / DAY * DAY - days * DAY.
Proof. replace (ms - days * DAY) with (ms + (- days) * DAY) by lia. rewrite Z.div_add by (unfold DAY; lia). unfold DAY. lia. Qed.

(** The range a list page starts with, to the day *)
Lemma default_range_read zone days now :
  0 <= days -> days * DAY <= now < HORIZON ->
  exists from to a, default_range zone days now = Some (from, to) /\ from <> "" /\ to <> "" /\
    date_parse from = Some a /\ date_parse to = Some (a + days * DAY).
Proof.
  intros Hdays Hn. unfold HORIZON, DAY in *. unfold default_range, isoDaysAgo, isoToday.
  destruct (isoDate_parse (days_back zone days now)) as (from & Ef & Pf & Nf); [rewrite days_back_spec; unfold HORIZON, DAY; lia|].
  destruct (isoDate_parse now) as (to & Et & Pt & Nt); [unfold HORIZON, DAY; lia|].
  rewrite Ef, Et. cbn [mbind option_bind]. eexists from, to, _. split; [done|]. split; [done|]. split; [done|]. split; [done|].
  rewrite Pt, days_back_spec, day_back. f_equal. unfold DAY. lia.
Qed.

(** ** Properties *)

(** A list page's first request is answered.  Whatever the time of day and the zone of the browser, the ranges of dates the
    violations and the audit page start with read as thirty and seven days, in order, so that the request each makes when
    it is mounted passes the checks of its route and looks up what the page asked for. *)
Theorem first_request_served zone now search ctx :
  30 * DAY <= now < HORIZON -> js_trim search = search -> strlen search <= 200 ->
  let served p := performs (ask_server date_parse ctx (lp_op p (lp_start p))) (sent_op (lp_op p (lp_start p))) in
  (exists from to, default_range zone VIOLATION_DAYS now = Some (from, to) /\ served (violations_page search from to)) /\
  (exists from to, default_range zone AUDIT_DAYS now = Some (from, to) /\ served (audit_page search from to)).
Proof.
  intros Hn Ht Hl served. split.
  - destruct (default_range_read zone VIOLATION_DAYS now ltac:(unfold VIOLATION_DAYS; lia) ltac:(unfold VIOLATION_DAYS; lia)) as (from & to & a & E & _).
    exists from, to. split; [done|]. apply page_served; [right; left; exists search, from, to; by left|constructor|split_and!; done].
  - destruct (default_range_read zone AUDIT_DAYS now ltac:(unfold AUDIT_DAYS; lia) ltac:(unfold AUDIT_DAYS, DAY in *; lia)) as (from & to & a & E & Nf & Nt & Pf & Pt).
    exists from, to. split; [done|].
    assert (range_served date_parse from to) as Hr.
    { unfold range_served, range_date. rewrite !is_empty_ne by done. rewrite Pf, Pt. unfold AUDIT_DAYS, DAY. lia. }
    apply page_served; [right; left; exists search, from, to; by right|constructor|split_and!; done].
Qed.

(** The presets of the picker are in order; each spans its days, or one more where the local day ends on the next
    day of UTC. *)
Theorem presets_ordered zone today n :
  92 * DAY <= today < HORIZON - 2 * DAY -> 0 <= n <= 90 ->
  exists from to a k, preset_range zone today n = Some (from, to) /\ date_parse from = Some a /\
    date_parse to = Some (a + (n + k) * DAY) /\ 0 <= k <= 1.
Proof.
  intros Ht Hn. unfold preset_range.
  assert (0 <= end_of_day zone today - today < DAY) as He.
  { pose proof (local_split zone today) as Hs. unfold end_of_day, of_local in *. unfold local_time in Hs.
    pose proof (Z.mod_pos_bound (today + zone) DAY ltac:(unfold DAY; lia)). unfold DAY in *. lia. }
  destruct (isoDate_parse (days_back zone n today)) as (from & Ef & Pf & _); [rewrite days_back_spec; unfold HORIZON, DAY in *; nia|].
  destruct (isoDate_parse (end_of_day zone today)) as (to & Et & Pt & _); [unfold HORIZON, DAY in *; lia|].
  rewrite Ef, Et. cbn [mbind option_bind]. exists from, to, ((today - n * DAY) / DAY * DAY), (end_of_day zone today / DAY - today / DAY).
  rewrite Pf, Pt, days_back_spec, day_back. split; [done|]. split; [done|]. split; [f_equal; unfold DAY; lia|].
  pose proof (Z.div_mod today DAY ltac:(unfold DAY; lia)). pose proof (Z.mod_pos_bound today DAY ltac:(unfold DAY; lia)).
  pose proof (Z.div_mod (end_of_day zone today) DAY ltac:(unfold DAY; lia)).
  pose proof (Z.mod_pos_bound (end_of_day zone today) DAY ltac:(unfold DAY; lia)). unfold DAY in *. lia.
Qed.

(** ** Examples *)

(** Noon of 2026-03-10 in UTC, and the winter time of New York *)
Definition noon : Z := 1773144000000.
Definition EST : Z := - 5 * 3600000.

Lemma first_request_served_witness :
  (exists from to, default_range EST VIOLATION_DAYS noon = Some (from, to) /\
     performs (ask_server date_parse (context_of MOCK_SESSION) (lp_op (violations_page "" from to) (lp_start (violations_page "" from to))))
       (sent_op (lp_op (violations_page "" from to) (lp_start (violations_page "" from to))))) /\
  (exists from to, default_range EST AUDIT_DAYS noon = Some (from, to) /\
     performs (ask_server date_parse (context_of MOCK_SESSION) (lp_op (audit_page "" from to) (lp_start (audit_page "" from to))))
       (sent_op (lp_op (audit_page "" from to) (lp_start (audit_page "" from to))))).
Proof. apply (first_request_served EST noon "" (context_of MOCK_SESSION)); [unfold noon, HORIZON, DAY; lia|reflexivity|vm_compute; discriminate]. Defined.

Lemma presets_ordered_witness :
  exists from to a k, preset_range EST noon 7 = Some (from, to) /\ date_parse from = Some a /\
    date_parse to = Some (a + (7 + k) * DAY) /\ 0 <= k <= 1.
Proof. apply (presets_ordered EST noon 7); unfold noon, HORIZON, DAY; lia. Defined.

(** West of Greenwich the day ends after midnight in UTC: the range of the preset ends tomorrow, and the ninety days are one too many
    for the audit log. *)
Example preset_of_tomorrow :
  isoToday noon = Some "2026-03-10" /\ preset_range EST noon 1 = Some ("2026-03-09", "2026-03-11") /\
  preset_range 0 noon 1 = Some ("2026-03-09", "2026-03-10") /\
  (exists from to, preset_range EST noon 90 = Some (from, to) /\ ~ range_served date_parse from to).
Proof.
  split; [vm_compute; reflexivity|]. split; [vm_compute; reflexivity|]. split; [vm_compute; reflexivity|].
  exists "2025-12-10", "2026-03-11". split; [vm_compute; reflexivity|]. vm_compute. intros [_ H]. by apply H.
Qed.
