(* ===== verification/DashCognito.v ===== *)
(** * The older Cognito module of the dashboard

    [lib/auth/cognito.ts], which no file imports any more, beside the modules that replaced it ([lib/auth/cognito-client.ts],
    [lib/auth/pkce.ts], [lib/auth/jwt.ts], in [DashAuth] and [Dashboard]): what the two still have in common and where
    they differ.  SHA-256, random bytes and the signing of a token are parameters or left out. *)

From S2P Require Import Prelude Base64 Json JsonText Resilience CliFiles CliInput Dashboard DashFetch DashQuery DashRepo DashAuth DashSession.

(** The module's constants; a variable that is not set reads as [undefined] in a template. *)
Record legacy_env := mkLegacy {
  lg_domain : option string;
  lg_clientId : option string;
  lg_clientSecret : option string;
  lg_appUrl : option string
}.

Definition shown_var (v : option string) : string := default "undefined" v.

Definition REDIRECT_URI (e : legacy_env) : string := shown_var (lg_appUrl e) +:+ "/api/auth/callback/cognito".

Definition basic_headers (e : legacy_env) : list (string * string) :=
  [("Content-Type", "application/x-www-form-urlencoded");
   ("Authorization", "Basic " +:+ of_chars (btoa (utf8_encode (to_chars (shown_var (lg_clientId e) +:+ ":" +:+ shown_var (lg_clientSecret e))))))].

Definition legacy_post (e : legacy_env) (endpoint : string) (params : list (string * string)) : fetch_call :=
  mkFetchCall ("https://" +:+ shown_var (lg_domain e) +:+ "/oauth2/" +:+ endpoint) "POST" (basic_headers e)
    (Some (of_chars (form_serialize params))).

Definition exchangeCodeForTokens (e : legacy_env) (auth_code codeVerifier : string) : fetch_call :=
  legacy_post e "token"
    [("grant_type", "authorization_code"); ("client_id", shown_var (lg_clientId e)); ("code", auth_code);
     ("redirect_uri", REDIRECT_URI e); ("code_verifier", codeVerifier)].

Definition refreshAccessToken (e : legacy_env) (refresh : string) : fetch_call :=
  legacy_post e "token" [("grant_type", "refresh_token"); ("client_id", shown_var (lg_clientId e)); ("refresh_token", refresh)].

(** Both are sent at once. *)
Definition revokeTokens (e : legacy_env) (access refresh : string) : list fetch_call :=
  [legacy_post e "revoke" [("token", access); ("token_type_hint", "access_token")];
   legacy_post e "revoke" [("token", refresh); ("token_type_hint", "refresh_token")]].

(** What the answer to a token request is read as, [what] being [Token exchange] or [Token refresh]; a body that does not parse
    or is [null] throws before the message is made: [None] in the error. *)
Definition legacy_answer (what : string) (resp : fetch_resp) : result (option string) (option json) :=
  let body := fr_text resp ≫= parse_json in
  if fr_ok resp then Ok body
  else
    match body with
    | None | Some JNull => Err None
    | Some b =>
        let description := match json_get "error_description" b with Some v => if js_truthy v then Some v else json_get "error" b | None => json_get "error" b end in
        Err (Some (what +:+ " failed: " +:+ text_of description))
    end.

(** [generateRandomString], [generateCodeChallenge], [generatePKCE] *)
Definition generateRandomString (random : nat -> chars) (length : nat) : string := of_chars (map pkce_char (random length)).
Definition legacy_PKCE (random : nat -> chars) (sha256 : chars -> chars) : string * string :=
  let codeVerifier := generateRandomString random 64 in
  (codeVerifier, base64Url (sha256 (utf8_encode (to_chars codeVerifier)))).

Definition getLoginUrl (e : legacy_env) (codeChallenge state : string) : string :=
  "https://" +:+ shown_var (lg_domain e) +:+ "/login?" +:+ of_chars (form_serialize
    [("response_type", "code"); ("client_id", shown_var (lg_clientId e)); ("redirect_uri", REDIRECT_URI e);
     ("scope", "openid profile email"); ("code_challenge", codeChallenge); ("code_challenge_method", "S256"); ("state", state)]).

Definition getLogoutUrl (e : legacy_env) : string :=
  "https://" +:+ shown_var (lg_domain e) +:+ "/logout?" +:+ of_chars (form_serialize
    [("client_id", shown_var (lg_clientId e)); ("logout_uri", shown_var (lg_appUrl e) +:+ "/login")]).

(** The session of claims: any role that is written there, [viewer] when there is none *)
Record legacy_session := mkLegacySession { ls_id : string; ls_email : string; ls_role : string; ls_orgId : string; ls_orgName : string; ls_groups : list string }.

Definition legacy_claimsToSession (claims : CognitoJwtClaims) : legacy_session :=
  mkLegacySession (c_sub claims) (c_email claims)
    (match c_role claims with Some r => if is_empty r then "viewer" else r | None => "viewer" end)
    (c_orgId claims) "" (c_groups claims).

(** The claims [createSessionToken] signs; they expire fifteen minutes after [now], in seconds. *)
Definition createSessionToken (now : Z) (claims : CognitoJwtClaims) : json :=
  JObj ([("sub", JStr (c_sub claims)); ("email", JStr (c_email claims)); ("cognito:groups", JArr (map JStr (c_groups claims)));
         ("custom:org_id", JStr (c_orgId claims))]
        ++ match c_role claims with Some r => [("custom:role", JStr r)] | None => [] end
        ++ [("iat", JNum (NInt now)); ("exp", JNum (NInt (now + 15 * 60)))]).

(** ** The same settings for both *)

Definition legacy_of (ce : cognito_env) : legacy_env := mkLegacy (ce_domain ce) (ce_clientId ce) (ce_clientSecret ce) (ce_appUrl ce).

(** Every variable the older module reads is set, and the redirect address is not set on its own. *)
Definition configured (ce : cognito_env) (domain clientId secret appUrl : string) : Prop :=
  ce = mkCognitoEnv (Some domain) (Some clientId) (Some appUrl) None (Some secret) /\ domain <> "" /\ clientId <> "" /\ secret <> "".

(** The client that replaced the older module makes the same requests.  With the same settings the exchange of a code, the
    refresh and the revocation of the refresh token are the same request to the byte, the logout address is the same, the
    verifier and the challenge are made the same way, and the login address differs only in the page to come back to,
    which the older one does not carry. *)
Theorem cognito_clients_agree env ce domain clientId secret appUrl c random sha256 :
  configured ce domain clientId secret appUrl -> e_authDisabled env = false -> getCognitoConfig env ce = Ok c ->
  let e := legacy_of ce in
  (forall auth_code v, token_request c (code_params c auth_code v) = exchangeCodeForTokens e auth_code v) /\
  (forall r, token_request c (refresh_params c r) = refreshAccessToken e r) /\
  (forall a r, last (revokeTokens e a r) = Some (revokeCognitoToken c r)) /\
  getHostedLogoutUrl c = getLogoutUrl e /\
  generatePKCE random sha256 = Ok (legacy_PKCE random sha256) /\
  forall ch st path, free "?" (to_chars domain) ->
    query_of (getHostedLoginUrl c ch st path) = query_of (getLoginUrl e ch st) ++ [("redirect_path", path)].
Proof.
  intros (-> & Hd & Hc & Hs) He Hcfg e. unfold getCognitoConfig in Hcfg. rewrite He in Hcfg.
  cbn [ce_domain ce_clientId ce_appUrl ce_redirectUri ce_clientSecret default from_option id] in Hcfg.
  rewrite !is_empty_ne in Hcfg by done. cbn [orb] in Hcfg. injection Hcfg as <-.
  assert (authHeaders (mkCognito domain clientId (Some secret) (appUrl +:+ "/api/auth/callback/cognito") appUrl) = basic_headers e) as Hh.
  { unfold authHeaders. cbn [cc_clientSecret]. by rewrite is_empty_ne. }
  split_and!; try reflexivity.
  - intros auth_code v. unfold token_request. by rewrite Hh.
  - intros r. unfold token_request. by rewrite Hh.
  - intros a r. unfold revokeCognitoToken. by rewrite Hh.
  - intros ch st path Hf. rewrite hosted_query by done. unfold getLoginUrl.
    assert (forall x, "https://" +:+ shown_var (lg_domain e) +:+ "/login?" +:+ x = ("https://" +:+ domain +:+ "/login") +:+ "?" +:+ x) as ->
      by (intros x; by rewrite !append_assoc).
    rewrite query_serialized; [reflexivity|]. rewrite !to_chars_app. apply Forall_app. split; [apply (bool_decide_unpack _); vm_compute; exact I|].
    apply Forall_app. split; [done|apply (bool_decide_unpack _); vm_compute; exact I].
Qed.

(** Where both make a session of the claims, the newer one has the role of a table and the organisation; the older one takes any role. *)
Theorem legacy_session_agrees claims s :
  claimsToSession claims = Ok s -> c_role claims = Some (dash_role_name (s_role s)) ->
  let l := legacy_claimsToSession claims in
  ls_role l = dash_role_name (s_role s) /\ ls_id l = s_id s /\ ls_email l = s_email s /\ ls_orgId l = s_orgId s /\ ls_groups l = s_groups s.
Proof.
  unfold claimsToSession. destruct (roleFromClaims claims) as [r|err]; [|done]. cbn [mbind result_bind].
  destruct (is_empty (c_orgId claims)); [done|]. intros [= <-] Hr. cbn in *. rewrite Hr.
  split_and!; try done. by destruct r.
Qed.

(** ** Examples *)

Definition cognito_vars : cognito_env := mkCognitoEnv (Some "auth.example.com") (Some "client") (Some "https://d") None (Some "s3cret").

Lemma cognito_clients_agree_witness :
  exists c, getCognitoConfig sample_env cognito_vars = Ok c /\
    token_request c (refresh_params c "r") = refreshAccessToken (legacy_of cognito_vars) "r" /\
    query_of (getHostedLoginUrl c "ch" "st" "/devices") = query_of (getLoginUrl (legacy_of cognito_vars) "ch" "st") ++ [("redirect_path", "/devices")].
Proof.
  eexists. split; [reflexivity|].
  destruct (cognito_clients_agree sample_env cognito_vars "auth.example.com" "client" "s3cret" "https://d" _ (fun n => repeat "a"%char n) id
    ltac:(split; [reflexivity|split_and!; discriminate]) eq_refl eq_refl) as (_ & Hr & _ & _ & _ & Hl).
  split; [apply Hr|]. apply Hl. apply (bool_decide_unpack _). vm_compute. exact I.
Defined.

Lemma legacy_session_agrees_witness :
  ls_role (legacy_claimsToSession mock_claims) = "super_admin" /\ ls_id (legacy_claimsToSession mock_claims) = "u-dev-001".
Proof. destruct (legacy_session_agrees mock_claims MOCK_USER_SESSION eq_refl eq_refl) as (H1 & H2 & _). split; [exact H1|exact H2]. Defined.

(** A role no table knows, and a token without any: refused by the newer module, a session for the older. *)
Example legacy_takes_any_role :
  ls_role (legacy_claimsToSession (mkClaims "u" "e" [] "org" None (Some "root"))) = "root" /\
  ls_role (legacy_claimsToSession (mkClaims "u" "e" [] "" None None)) = "viewer" /\
  claimsToSession (mkClaims "u" "e" [] "org" None (Some "root")) = Err (AuthError "invalid_role" "Token does not contain a supported role").
Proof. vm_compute. done. Qed.
