(* ===== verification/IdeSession.v ===== *)
(** * The editor extension from activation to its end, and the command of the Cursor connector

    [activate] and [deactivate] of [ide-connectors/vscode/src/extension.ts] around the parts in [IdeVscode] and [IdePassive]: the
    settings, the status bar, the four commands and the paste monitor as one state, moved by what the user does and by the
    timers and answers of the monitor; and [registerCommands] of [ide-connectors/cursor/src/interceptor.ts].  A command runs to
    its end before the next event; a command that hangs leaves what it had done. *)

From S2P Require Import Prelude Json JsonText Zod Enums Decision ScanRequest AuditEvent Resilience Framing Transport Client NativeHost CliFiles CliInput CliUtil CliShared IdeVscode IdePassive IdeBridge.

(** ** The extension *)

Record extension (T : Type) := mkExt {
  x_enabled : bool;               (* the setting [vguardrail.enabled] *)
  x_passiveScan : bool;           (* the setting [vguardrail.passiveScan] *)
  x_ide : ide T;
  x_monitor : passive;
  x_open : bool                   (* [service] is there *)
}.
Arguments mkExt {T} _ _ _ _ _.
Arguments x_enabled {T} _.
Arguments x_passiveScan {T} _.
Arguments x_ide {T} _.
Arguments x_monitor {T} _.
Arguments x_open {T} _.

Inductive ext_event :=
| EStatus
| EScanSelection (editor : option (TextDocument * string))
| EScanPrompt (editor : option TextDocument) (input : option string)
| EToggle
| ESettings (enabled passiveScan : bool)                              (* the user edits the settings *)
| EEdit (uri : string) (d : TextDocument) (contentChanges : list string)
| EMonitorTimer (n : nat)
| EMonitorScan (k : nat) (r : option ScanResponse)
| EDeactivate.

Section extension.
Context `{Zod} {T : Type} `{EventLoop T} (tr : Transport T) (uuid : nat -> string) (jitter : nat -> Z).
Context (app : IdeApp) (identity : ConnectorIdentity) (choose : string -> reply (option string)).
Context (workspace : option string).

(** [activate], with a new client *)
Definition activate (enabled passiveScan : bool) (c : client T) : extension T :=
  mkExt enabled passiveScan (mkIde c [updateStatusBar (if enabled then StReady else StDisabled) None]) passive_init true.

Definition with_ide (s : ide T) (x : extension T) : extension T := mkExt (x_enabled x) (x_passiveScan x) s (x_monitor x) (x_open x).
Definition with_monitor (p : passive) (x : extension T) : extension T := mkExt (x_enabled x) (x_passiveScan x) (x_ide x) p (x_open x).

Definition run_command (m : async (ide T) unit) (x : extension T) : extension T := with_ide (m (x_ide x)).2 x.

Definition ext_handle (ev : ext_event) (x : extension T) : extension T :=
  match ev with
  | EStatus => run_command (status_command tr jitter app (x_enabled x)) x
  | EScanSelection editor => run_command (run_choice tr uuid jitter app identity choose (scanSelection (x_enabled x) workspace editor)) x
  | EScanPrompt editor input => run_command (run_choice tr uuid jitter app identity choose (scanPrompt (x_enabled x) workspace editor input)) x
  | EToggle =>
      let '(next, notes) := toggleEnabled (x_enabled x) in
      mkExt next (x_passiveScan x) (mkIde (ide_client (x_ide x)) (shown (x_ide x) ++ notes)) (x_monitor x) (x_open x)
  | ESettings enabled passiveScan => mkExt enabled passiveScan (x_ide x) (x_monitor x) (x_open x)
  | EEdit uri d changes =>
      with_monitor (onDidChangeTextDocument (x_enabled x) (x_passiveScan x) workspace uri d changes (x_monitor x)) x
  | EMonitorTimer n => with_monitor (fire n (x_monitor x)) x
  | EMonitorScan k r => with_monitor (scan_settled k r (x_monitor x)) x
  | EDeactivate =>
      mkExt (x_enabled x) (x_passiveScan x)
        (mkIde (if x_open x then (close tr (ide_client (x_ide x))).2 else ide_client (x_ide x)) (shown (x_ide x)))
        (dispose (x_monitor x)) false
  end.

(** A timer that fires and a scan that settles are there; commands and edits reach an extension that is not deactivated. *)
Definition ext_can (ev : ext_event) (x : extension T) : Prop :=
  match ev with
  | EMonitorTimer n => is_Some (p_timers (x_monitor x) !! n)
  | EMonitorScan k _ => is_Some (p_flight (x_monitor x) !! k)
  | ESettings _ _ => True
  | _ => x_open x = true
  end.

Inductive ext_run : extension T -> list ext_event -> extension T -> Prop :=
| er_nil x : ext_run x [] x
| er_cons x ev x' evs x'' : ext_can ev x -> x' = ext_handle ev x -> ext_run x' evs x'' -> ext_run x (ev :: evs) x''.

(** The label of the status bar *)
Fixpoint bar_label (notes : list notification) : option string :=
  match notes with
  | [] => None
  | n :: rest => match bar_label rest with
                 | Some l => Some l
                 | None => match n with StatusBar l _ _ => Some l | _ => None end
                 end
  end.

(** ** Lemmas *)

(** What leaves the extension off: no toggle, no setting that turns it on, no question to the agent about its status. *)
Definition leaves_off (ev : ext_event) : Prop :=
  match ev with
  | EToggle | EStatus | EDeactivate => False
  | ESettings enabled _ => enabled = false
  | _ => True
  end.

(** Off, with no paste waiting to be scanned *)
Definition idle (x : extension T) : Prop :=
  x_enabled x = false /\ p_pending (x_monitor x) = ∅ /\ p_timers (x_monitor x) = ∅.

Lemma off_says (editor : option (TextDocument * string)) : scanSelection false workspace editor = Say disabled_message.
Proof. reflexivity. Qed.

Lemma run_say m (x : extension T) :
  run_command (run_choice tr uuid jitter app identity choose (Say m)) x
  = with_ide (mkIde (ide_client (x_ide x)) (shown (x_ide x) ++ [ShownInfo m])) x.
Proof. reflexivity. Qed.

Lemma off_edit passiveScan uri d changes p : onDidChangeTextDocument false passiveScan workspace uri d changes p = p.
Proof.
  unfold onDidChangeTextDocument. destruct changes; [done|]. unfold handleChange, accepts, isPassiveScanEnabled.
  by rewrite andb_false_r.
Qed.

Lemma settled_scans k r p :
  p_pending (scan_settled k r p) = p_pending p /\ p_timers (scan_settled k r p) = p_timers p /\ p_scans (scan_settled k r p) = p_scans p.
Proof.
  unfold scan_settled. destruct r as [r|]; [destruct (fromFallback r)|]; unfold reportEngineDown, noted; cbn;
    repeat (case_match; cbn); done.
Qed.

Lemma idle_step ev x :
  idle x -> leaves_off ev -> ext_can ev x ->
  idle (ext_handle ev x) /\ ide_client (x_ide (ext_handle ev x)) = ide_client (x_ide x) /\
  p_scans (x_monitor (ext_handle ev x)) = p_scans (x_monitor x).
Proof.
  intros (He & Hp & Ht) Hl Hc. unfold idle. destruct ev; try contradiction; cbn [ext_handle ext_can leaves_off] in *.
  - rewrite He, off_says, run_say. done.
  - rewrite He. change (scanPrompt false workspace editor input) with (Say disabled_message). rewrite run_say. done.
  - rewrite Hl. done.
  - rewrite He, off_edit. done.
  - rewrite Ht, lookup_empty in Hc. by destruct Hc.
  - destruct (settled_scans k r (x_monitor x)) as (E1 & E2 & E3). cbn. by rewrite E1, E2, E3.
Qed.
End extension.

(** ** Properties *)

(** Turned off, the extension is off.  From a moment when it is disabled and no paste waits, whatever commands are run, whatever is
    typed or pasted and whatever answers of earlier scans arrive, until it is enabled again or asked for the agent's status, no
    text goes to the agent: neither a command nor the paste monitor starts a scan. *)
Theorem disabled_scans_nothing `{Zod} {T} `{EventLoop T} (tr : Transport T) uuid jitter app identity choose workspace x evs x' :
  idle x -> Forall leaves_off evs -> ext_run tr uuid jitter app identity choose workspace x evs x' ->
  idle x' /\ ide_client (x_ide x') = ide_client (x_ide x) /\ p_scans (x_monitor x') = p_scans (x_monitor x).
Proof.
  intros Hi Hl Hr. induction Hr as [x|x ev x1 evs x2 Hc -> Hr IH]; [done|].
  apply Forall_cons in Hl as [Hev Hl].
  destruct (idle_step tr uuid jitter app identity choose workspace ev x Hi Hev Hc) as (H1 & H2 & H3).
  destruct (IH H1 Hl) as (H4 & H5 & H6). split; [done|]. by rewrite H5, H6.
Qed.

(** ** The Cursor command *)

Section simulate.
Context `{Zod} {T : Type} `{EventLoop T} (tr : Transport T) (uuid : nat -> string) (jitter : nat -> Z) (choose : string -> reply (option string)).

(** [simulatePrompt], with what the input box returned and the active document; the note shown at the end *)
Definition simulatePrompt (input : option string) (editor : option (string * string)) : async (cursor T) (option string) :=
  match input with
  | None | Some "" => mret None
  | Some prompt =>
      allowed ← cursor_intercept tr uuid jitter choose prompt (match editor with Some f => [f] | None => [] end);
      mret (Some (if (allowed : bool) then "Prompt Allowed by VGuardrail. Submitting to AI provider..." else "Prompt Submission Cancelled."))
  end.

(** Every prompt is cancelled, with an error. *)
Lemma simulate_cancels input editor s :
  yields (simulatePrompt input editor) s (fun r s' =>
    match input with
    | None | Some "" => r = Ok None /\ s' = s
    | _ => r = Ok (Some "Prompt Submission Cancelled.") /\ exists m, cu_shown s' = cu_shown s ++ [(true, m)]
    end).
Proof.
  destruct input as [[|a prompt]|]; [done| |done]. unfold simulatePrompt. apply yields_bind.
  eapply yields_impl; [|apply cursor_refuses_all]. intros r s' [-> Hm]. done.
Qed.
End simulate.

(** ** Examples *)

Definition off_now : extension MockState := activate false true (fresh_client mock_allow).
Definition typed_doc : TextDocument := mkDocument "file" "/w/a.ts" "typescript" "secret" None.
Definition off_events : list ext_event :=
  [EScanSelection (Some (typed_doc, "secret")); EEdit "file:///w/a.ts" typed_doc [long_paste "a"]; EScanPrompt None (Some "secret")].
Definition run_ext (evs : list ext_event) (x : extension MockState) : extension MockState :=
  fold_left (fun x ev => ext_handle MockTransport (fun _ => "u") (fun _ => 0) Vscode (mkUser "ana" RoleUser []) (fun _ => Hangs) None ev x) evs x.

Lemma disabled_scans_nothing_witness :
  p_scans (x_monitor (run_ext off_events off_now)) = [] /\ ide_client (x_ide (run_ext off_events off_now)) = fresh_client mock_allow.
Proof.
  destruct (disabled_scans_nothing MockTransport (fun _ => "u") (fun _ => 0) Vscode (mkUser "ana" RoleUser []) (fun _ => Hangs) None
    off_now off_events (run_ext off_events off_now)) as (_ & Hc & Hs).
  - split_and!; reflexivity.
  - repeat constructor.
  - repeat (eapply er_cons; [reflexivity|reflexivity|]). apply er_nil.
  - split; [exact Hs|exact Hc].
Defined.

(** A paste that waits when the extension is turned off is scanned all the same, and the settings do not reach the status bar. *)
Example pending_paste_scanned :
  let pasted := run_ext [EEdit "file:///w/a.ts" typed_doc [long_paste "a"]; EToggle] (activate true true (fresh_client mock_allow)) in
  x_enabled pasted = false /\ List.length (p_scans (x_monitor (run_ext [EMonitorTimer 0] pasted))) = 1%nat.
Proof. vm_compute. split; reflexivity. Qed.

Example settings_not_shown :
  let off := run_ext [ESettings false false] (activate true true (fresh_client mock_allow)) in
  x_enabled off = false /\ bar_label (shown (x_ide off)) = Some "$(shield) VGuardrail: ready".
Proof. vm_compute. split; reflexivity. Qed.
